(** * SQ4Bit GEMM kernels for ARM NEON (sqnbitgemm_kernel_neon.cpp)

    A shallow embedding of the 4-bit block-quantized GEMM kernel family of
    MLAS: the packed-size query, the nibble-interleaving packing transform,
    the activation quantizer, the float (CompFp32) row kernel and the
    integer (CompInt8) tiled kernels, together with the properties the
    design document states about them.

    Conventions.
    - Buffers reached through raw pointers are total maps from an element
      offset to a value ([mem T]); a pointer is the offset of its target and
      pointer arithmetic is addition of offsets.  A nullable pointer is an
      [option].
    - [std::byte], [uint8_t], [int8_t], [int32_t] values are integers in [Z];
      truncation and sign wrap-around are written out where an operation can
      leave the range.
    - [size_t] results of the size query are computed modulo [2^64].
    - float32 arithmetic is reached through the interface [Fp32Ops], with two
      instances: IEEE-754 binary32 with round-to-nearest-even
      ([Binary32], on [SpecFloat]) and exact rational arithmetic ([Exact]).
*)

From Stdlib Require Import ZArith List Lia Bool Arith PeanoNat.
From Stdlib Require Import QArith Qcanon Qround Qabs Lqa.
From Stdlib Require Import Floats.SpecFloat.
Import ListNotations.

Local Open Scope nat_scope.

(** ** Memory and loops *)

Definition mem (T : Type) : Type := nat -> T.

Definition store {T} (m : mem T) (p : nat) (v : T) : mem T :=
  fun q => if Nat.eqb q p then v else m q.

(** [for (i = 0; i < n; ++i) body] *)
Definition for_up {S} (n : nat) (body : nat -> S -> S) (s : S) : S :=
  fold_left (fun s i => body i s) (seq 0 n) s.

(** [for (i = i0; i < bound; i += step) body]; the fuel is the number of
    iterations still allowed. *)
Fixpoint for_loop {S} (fuel i bound step : nat) (body : nat -> S -> S) (s : S) : S :=
  match fuel with
  | O => s
  | S fuel' =>
      if i <? bound then for_loop fuel' (i + step) bound step body (body i s) else s
  end.

(** [a <= q < a + n] *)
Definition in_range (a n q : nat) : bool := (a <=? q) && (q <? a + n).

(** The same loop, returning also the value of the loop variable at exit. *)
Fixpoint for_loop_idx {S} (fuel i bound step : nat) (body : nat -> S -> S) (s : S)
    : nat * S :=
  match fuel with
  | O => (i, s)
  | S fuel' =>
      if i <? bound then for_loop_idx fuel' (i + step) bound step body (body i s)
      else (i, s)
  end.

(** [while (cond) body], with the number of iterations still allowed. *)
Fixpoint while_loop {S} (fuel : nat) (cond : S -> bool) (body : S -> S) (s : S) : S :=
  match fuel with
  | O => s
  | S fuel' => if cond s then while_loop fuel' cond body (body s) else s
  end.

(** A loop from 0 whose step is positive runs at most [bound] times. *)
Definition for_step {S} (bound step : nat) (body : nat -> S -> S) (s : S) : S :=
  for_loop bound 0 bound step body s.

(** ** Helpers of sqnbitgemm.h and sqnbitgemm_q8_block.h *)

Module Mlas.

(** Modelled from the spec: the compute-mode enumeration
    MLAS_SQNBIT_GEMM_COMPUTE_TYPE is declared in a header that is not part
    of the sources; the two modes the design names are kept. *)
Inductive MLAS_SQNBIT_GEMM_COMPUTE_TYPE := CompFp32 | CompInt8.

Definition is_CompInt8 (c : MLAS_SQNBIT_GEMM_COMPUTE_TYPE) : bool :=
  match c with CompInt8 => true | CompFp32 => false end.

(** Modelled from the spec: MlasDivRoundup is declared in a header that is
    not part of the sources; "BlockCountK = ceil(K/BlkLen)", computed the
    usual way on unsigned integers. *)
Definition MlasDivRoundup (up down : nat) : nat := (up + down - 1) / down.

(** Modelled from the spec: MlasQNBitBlkDataSizeInBytes is declared in a
    header that is not part of the sources; a block of [BlkLen] codes of
    [BlkBitWidth] bits takes "BlkLen*4/8" bytes. *)
Definition MlasQNBitBlkDataSizeInBytes (BlkBitWidth BlkLen : nat) : nat :=
  BlkLen * BlkBitWidth / 8.

(** Modelled from the spec: MlasQNBitZeroPointsForBlksSizeInBytes is
    declared in a header that is not part of the sources; "one 4-bit
    zero-point per block, two zero-points share a byte". *)
Definition MlasQNBitZeroPointsForBlksSizeInBytes (BlkCount : nat) : nat :=
  MlasDivRoundup BlkCount 2.

(** Modelled from the spec: the Q8 block accessors are declared in a
    header that is not part of the sources; a quantized block of A is "a
    float32 scale and BlkLen signed int8 codes", "with scale placed before
    the block's int8 codes". *)
Definition Q8BlkSize (BlkLen : nat) : nat := 4 + BlkLen.

(** Offset of the first int8 code of the block at [BlkPtr]. *)
Definition Q8BlkData (BlkPtr : nat) : nat := BlkPtr + 4.

End Mlas.
Import Mlas.

(** ** Bytes *)

Module Byte8.

Local Open Scope Z_scope.

(** [std::byte] operators: the result is truncated to eight bits. *)
Definition band (a b : Z) : Z := Z.land a b.
Definition bor (a b : Z) : Z := Z.lor a b.
Definition shl (a : Z) (n : Z) : Z := Z.land (Z.shiftl a n) 255.
Definition shr (a : Z) (n : Z) : Z := Z.shiftr a n.

Definition is_byte (b : Z) : Prop := 0 <= b < 256.

(** Low and high 4-bit halves of a byte, arithmetically. *)
Definition lo (b : Z) : Z := b mod 16.
Definition hi (b : Z) : Z := b / 16.

End Byte8.

(** Modelled from the spec: "one 4-bit zero-point per block, two
    zero-points share a byte (low nibble = even block index, high = odd)";
    the zero-point of block [i] of the column whose packed zero-points
    start at [col]. *)
Definition zero_point_of_block (zp : mem Z) (col i : nat) : Z :=
  let b := zp (col + i / 2) in
  if Nat.even i then Byte8.lo b else Byte8.hi b.

(** ** Packed-size query *)

Module SizeT.

Local Open Scope Z_scope.

Definition modulus : Z := 2 ^ 64.
Definition wrap (x : Z) : Z := x mod modulus.
Definition add (a b : Z) : Z := wrap (a + b).
Definition sub (a b : Z) : Z := wrap (a - b).
Definition mul (a b : Z) : Z := wrap (a * b).
Definition div (a b : Z) : Z := a / b.

Definition is_size_t (x : Z) : Prop := 0 <= x < modulus.

(** The helpers above, on [size_t]. *)
Definition MlasDivRoundup (up down : Z) : Z := div (sub (add up down) 1) down.
Definition MlasQNBitBlkDataSizeInBytes (BlkBitWidth BlkLen : Z) : Z :=
  div (mul BlkLen BlkBitWidth) 8.

Definition SQ4BitGemmPackQuantBDataSize
    (N K BlkLen : Z) (ComputeType : MLAS_SQNBIT_GEMM_COMPUTE_TYPE) : Z :=
  let BlkBitWidth := 4 in
  let BlockCountK := MlasDivRoundup K BlkLen in
  let PackedQuantBDataSize :=
    mul (mul N BlockCountK) (MlasQNBitBlkDataSizeInBytes BlkBitWidth BlkLen) in
  PackedQuantBDataSize.

(** The mathematical ceiling of [a / b]. *)
Definition ceil_div (a b : Z) : Z := - ((- a) / b).

End SizeT.

(** ** Packing of the quantized B data *)

Module Pack.

Import Byte8.

Definition SubBlkLen_of (ComputeType : MLAS_SQNBIT_GEMM_COMPUTE_TYPE) (BlkLen : nat) : nat :=
  if is_CompInt8 ComputeType then (if Nat.eqb BlkLen 16 then 16 else 32) else 16.

(** State of the loop over the sub-blocks of one block: the two running
    pointers and the destination buffer. *)
Record blk_state := {
  QuantBData : nat;
  PackedQuantBData : nat;
  dst : mem Z
}.

(** One iteration of the loop over [byte_pair_idx]. *)
Definition pack_byte_pair (src : mem Z) (SubBlkDataSize : nat)
    (QuantBData PackedQuantBData : nat) (byte_pair_idx : nat) (d : mem Z) : mem Z :=
  let src0 := src (QuantBData + byte_pair_idx)%nat in
  let src1 := src (QuantBData + (byte_pair_idx + SubBlkDataSize / 2))%nat in
  let dst0 := bor (band src0 15) (shl (band src1 15) 4) in
  let dst1 := bor (shr src0 4) (shl (shr src1 4) 4) in
  store (store d (PackedQuantBData + 2 * byte_pair_idx)%nat dst0)
        (PackedQuantBData + (2 * byte_pair_idx + 1))%nat dst1.

(** One iteration of the loop over [kk]. *)
Definition pack_sub_block (src : mem Z) (SubBlkDataSize SubBlkBytePairCount : nat)
    (kk : nat) (s : blk_state) : blk_state :=
  let d := for_up SubBlkBytePairCount
             (pack_byte_pair src SubBlkDataSize (QuantBData s) (PackedQuantBData s))
             (dst s) in
  {| QuantBData := QuantBData s + SubBlkDataSize;
     PackedQuantBData := PackedQuantBData s + SubBlkDataSize;
     dst := d |}.

(** The body run for one block index [tid]. *)
Definition pack_block (BlkLen SubBlkLen BlockCountK BlkDataSize : nat)
    (src : mem Z) (tid : nat) (d : mem Z) : mem Z :=
  let SubBlkDataSize := SubBlkLen / 2 in
  let SubBlkBytePairCount := SubBlkLen / 4 in
  let n := tid / BlockCountK in
  let k_blk := tid mod BlockCountK in
  let data_offset := n * BlockCountK * BlkDataSize + k_blk * BlkDataSize in
  dst (for_step BlkLen SubBlkLen
         (pack_sub_block src SubBlkDataSize SubBlkBytePairCount)
         {| QuantBData := data_offset; PackedQuantBData := data_offset; dst := d |}).

(** The iterations of MlasTrySimpleParallel write disjoint blocks, so
    they are run here one after the other. *)
Definition SQ4BitGemmPackQuantBData
    (N K BlkLen : nat) (ComputeType : MLAS_SQNBIT_GEMM_COMPUTE_TYPE)
    (QuantBDataBegin : mem Z) (PackedQuantBDataBegin : mem Z) : mem Z :=
  let BlkBitWidth := 4 in
  let BlockCountK := MlasDivRoundup K BlkLen in
  let BlkDataSize := MlasQNBitBlkDataSizeInBytes BlkBitWidth BlkLen in
  let Iterations := N * BlockCountK in
  let SubBlkLen := SubBlkLen_of ComputeType BlkLen in
  for_up Iterations
    (pack_block BlkLen SubBlkLen BlockCountK BlkDataSize QuantBDataBegin)
    PackedQuantBDataBegin.

(** The 4-bit code at position [c] of a buffer in the plain layout: two
    consecutive codes per byte, the even one in the low half. *)
Definition raw_code (X : mem Z) (c : nat) : Z :=
  let b := X (c / 2)%nat in
  if Nat.even c then lo b else hi b.

(** Modelled from the spec: there is no unpacking routine in the sources;
    the layout the kernels read is the one the design gives: within each
    sub-block of [SubBlkLen] codes, "byte i of the packed block holds code
    i in its low nibble and code i+8 in its high nibble" for width 16 and
    "the same interleave at stride 16" for width 32.  [packed_pos] is the
    offset of the byte that holds code [c]. *)
Definition packed_pos (SubBlkLen : nat) (c : nat) : nat :=
  c / SubBlkLen * (SubBlkLen / 2) + (c mod SubBlkLen) mod (SubBlkLen / 2).

Definition packed_code (SubBlkLen : nat) (P : mem Z) (c : nat) : Z :=
  let b := P (packed_pos SubBlkLen c) in
  if c mod SubBlkLen <? SubBlkLen / 2 then lo b else hi b.

(** Modelled from the spec: the inverse transform "Unpack" rebuilds the
    plain layout from the codes of the packed one. *)
Definition Unpack (SubBlkLen : nat) (P : mem Z) : mem Z :=
  fun j => (packed_code SubBlkLen P (2 * j) + 16 * packed_code SubBlkLen P (2 * j + 1))%Z.

(** Specification-side view of the loops: the byte stored at offset [j] of
    the sub-block whose source starts at [Q], and the byte at offset [q]
    of the whole packed buffer. *)
Definition pair_val (src : mem Z) (S Q j : nat) : Z :=
  if Nat.even j
  then bor (band (src (Q + j / 2)) 15) (shl (band (src (Q + (j / 2 + S / 2))) 15) 4)
  else bor (shr (src (Q + j / 2)) 4) (shl (shr (src (Q + (j / 2 + S / 2))) 4) 4).

Definition packed_byte (src : mem Z) (S q : nat) : Z :=
  pair_val src S (q / S * S) (q mod S).

End Pack.

(** ** float32 arithmetic *)

(** The operations the kernels apply to [float] values and to the lanes of
    [float32x4_t] vectors. *)
Class Fp32Ops (F : Type) : Type := {
  (** conversion of an integer: literals, [static_cast<float>], a lane of
      [vcvtq_f32_s32] *)
  f_of_Z : Z -> F;
  (** a lane of [vreinterpretq_f32_u32] *)
  f_of_bits : Z -> F;
  fadd : F -> F -> F;
  fsub : F -> F -> F;
  fmul : F -> F -> F;
  fdiv : F -> F -> F;
  (** a lane of [vfmaq_f32 (a, b, c)]: [a + b * c] *)
  ffma : F -> F -> F -> F;
  fabs : F -> F;
  (** a lane of [vmaxq_f32] *)
  fmax : F -> F -> F;
  (** [operator<] and [operator==] *)
  fltb : F -> F -> bool;
  feqb : F -> F -> bool;
  (** a lane of [vcvtaq_s32_f32]: to the nearest integer, ties away from
      zero, saturated to [int32_t] *)
  fcvta : F -> Z
}.

(** Two's-complement reinterpretation of the low bits of an integer. *)
Module TwosComplement.

Local Open Scope Z_scope.

Definition wrap_signed (bits : Z) (x : Z) : Z :=
  (x + 2 ^ (bits - 1)) mod 2 ^ bits - 2 ^ (bits - 1).

Definition sint8 (x : Z) : Z := wrap_signed 8 x.
Definition sint32 (x : Z) : Z := wrap_signed 32 x.

Definition INT32_MIN : Z := - 2 ^ 31.
Definition INT32_MAX : Z := 2 ^ 31 - 1.

Definition saturate32 (x : Z) : Z := Z.max INT32_MIN (Z.min INT32_MAX x).

End TwosComplement.
Import TwosComplement.

(** *** IEEE-754 binary32 *)

Module Binary32.

Local Open Scope Z_scope.

Definition prec : Z := 24.
Definition emax : Z := 128.

Definition zero : spec_float := S754_zero false.

Definition of_Z (z : Z) : spec_float := binary_normalize prec emax z 0 false.

(** Decoding of the 32-bit pattern: 1 sign bit, 8 exponent bits, 23
    fraction bits. *)
Definition of_bits (w : Z) : spec_float :=
  let s := Z.testbit w 31 in
  let e := Z.land (Z.shiftr w 23) 255 in
  let m := Z.land w (2 ^ 23 - 1) in
  if e =? 0 then
    match m with Zpos p => S754_finite s p (-149) | _ => S754_zero s end
  else if e =? 255 then
    (if m =? 0 then S754_infinity s else S754_nan)
  else
    match m + 2 ^ 23 with Zpos p => S754_finite s p (e - 150) | _ => S754_nan end.

(** Fused multiply-add [a + x * y]: the product is kept exact and the sum
    is rounded once. *)
Definition fma (a x y : spec_float) : spec_float :=
  match x, y with
  | S754_finite sx mx ex, S754_finite sy my ey =>
      let sp := xorb sx sy in
      let mp := Pos.mul mx my in
      let ep := ex + ey in
      match a with
      | S754_nan => S754_nan
      | S754_infinity _ => a
      | S754_zero _ => binary_round prec emax sp mp ep
      | S754_finite sa ma ea =>
          let ez := Z.min ea ep in
          binary_normalize prec emax
            (cond_Zopp sa (Zpos (fst (shl_align ma ea ez)))
             + cond_Zopp sp (Zpos (fst (shl_align mp ep ez))))
            ez false
      end
  | _, _ => SFadd prec emax a (SFmul prec emax x y)
  end.

(** FMAX: a NaN operand gives NaN, and [-0 < +0]. *)
Definition max (x y : spec_float) : spec_float :=
  match SFcompare x y with
  | None => S754_nan
  | Some Lt => y
  | Some Gt => x
  | Some Eq =>
      match x, y with
      | S754_zero true, S754_zero false => y
      | _, _ => x
      end
  end.

(** Nearest integer to [m * 2^e] for a positive [m], ties upwards. *)
Definition round_half_up_pos (m : positive) (e : Z) : Z :=
  match e with
  | Zneg k => (Zpos m + 2 ^ (Zpos k - 1)) / 2 ^ Zpos k
  | _ => Zpos m * 2 ^ e
  end.

(** FCVTAS *)
Definition cvta (x : spec_float) : Z :=
  match x with
  | S754_nan => 0
  | S754_zero _ => 0
  | S754_infinity s => if s then INT32_MIN else INT32_MAX
  | S754_finite s m e => saturate32 (cond_Zopp s (round_half_up_pos m e))
  end.

(** The rational value of a finite number (0 for the others). *)
Definition value (x : spec_float) : Q :=
  match x with
  | S754_finite s m e =>
      match e with
      | Zneg k => Qmake (cond_Zopp s (Zpos m)) (Pos.pow 2 k)
      | _ => inject_Z (cond_Zopp s (Zpos m) * 2 ^ e)
      end
  | _ => 0%Q
  end.

Definition is_finite (x : spec_float) : bool :=
  match x with
  | S754_finite _ _ _ | S754_zero _ => true
  | _ => false
  end.

#[export] Instance ops : Fp32Ops spec_float := {
  f_of_Z := of_Z;
  f_of_bits := of_bits;
  fadd := SFadd prec emax;
  fsub := SFsub prec emax;
  fmul := SFmul prec emax;
  fdiv := SFdiv prec emax;
  ffma := fma;
  fabs := SFabs;
  fmax := max;
  fltb := SFltb;
  feqb := SFeqb;
  fcvta := cvta
}.

End Binary32.

(** *** Exact arithmetic on the rationals *)

Module Exact.

Local Open Scope Z_scope.

(** Nearest integer, ties away from zero. *)
Definition round_half_away (x : Q) : Z :=
  match Qcompare x 0 with
  | Lt => - Qfloor (Qplus (Qopp x) (1 # 2))
  | _ => Qfloor (Qplus x (1 # 2))
  end.

(** The value of the binary32 number with the given bit pattern (0 for
    the patterns of infinities and NaNs, which have none). *)
Definition bits_value (w : Z) : Q :=
  let s := Z.testbit w 31 in
  let e := Z.land (Z.shiftr w 23) 255 in
  let m := Z.land w (2 ^ 23 - 1) in
  let mag : Q :=
    if e =? 0 then Qmult (inject_Z m) (Qpower 2 (-149))
    else if e =? 255 then 0%Q
    else Qmult (inject_Z (m + 2 ^ 23)) (Qpower 2 (e - 150)) in
  if s then Qopp mag else mag.

Definition ltb (x y : Qc) : bool :=
  match Qccompare x y with Lt => true | _ => false end.

Definition max (x y : Qc) : Qc := if ltb x y then y else x.

Definition abs (x : Qc) : Qc := if ltb x (Q2Qc 0) then Qcopp x else x.

#[export] Instance ops : Fp32Ops Qc := {
  f_of_Z := fun z => Q2Qc (inject_Z z);
  f_of_bits := fun w => Q2Qc (bits_value w);
  fadd := Qcplus;
  fsub := Qcminus;
  fmul := Qcmult;
  fdiv := Qcdiv;
  ffma := fun a b c => Qcplus a (Qcmult b c);
  fabs := abs;
  fmax := max;
  fltb := ltb;
  feqb := Qc_eq_bool;
  fcvta := fun x => saturate32 (round_half_away (this x))
}.

End Exact.

(** ** NEON vectors

    A vector is the list of its lanes, lane 0 first. *)

Module Neon.

Definition tabulate {T} (n : nat) (f : nat -> T) : list T := map f (seq 0 n).

(** In-place update of element [i] of an array. *)
Fixpoint upd_nth {T} (i : nat) (v : T) (l : list T) : list T :=
  match l, i with
  | [], _ => []
  | _ :: l', O => v :: l'
  | x :: l', S i' => x :: upd_nth i' v l'
  end.

(** *** Integer vectors *)

Definition zlane (v : list Z) (l : nat) : Z := nth l v 0%Z.

Definition vld1_u8 (m : mem Z) (p : nat) : list Z := tabulate 8 (fun t => m (p + t)).
Definition vld1q_u8 (m : mem Z) (p : nat) : list Z := tabulate 16 (fun t => m (p + t)).
Definition vld1q_s8 (m : mem Z) (p : nat) : list Z := tabulate 16 (fun t => m (p + t)).

Definition vdup_n_u8 (x : Z) : list Z := tabulate 8 (fun _ => x).
Definition vdupq_n_u8 (x : Z) : list Z := tabulate 16 (fun _ => x).
Definition vdupq_n_s8 (x : Z) : list Z := tabulate 16 (fun _ => x).
Definition vdupq_n_u16 (x : Z) : list Z := tabulate 8 (fun _ => x).
Definition vdupq_n_s32 (x : Z) : list Z := tabulate 4 (fun _ => x).

Definition vand_u8 (a b : list Z) : list Z :=
  tabulate 8 (fun l => Z.land (zlane a l) (zlane b l)).
Definition vandq_u8 (a b : list Z) : list Z :=
  tabulate 16 (fun l => Z.land (zlane a l) (zlane b l)).
Definition vshr_n_u8 (a : list Z) (n : Z) : list Z :=
  tabulate 8 (fun l => Z.shiftr (zlane a l) n).
Definition vshrq_n_u8 (a : list Z) (n : Z) : list Z :=
  tabulate 16 (fun l => Z.shiftr (zlane a l) n).

(** Widening shifts: each lane is extended to twice its width first. *)
Definition vshll_n_u8 (a : list Z) (n : Z) : list Z :=
  tabulate 8 (fun l => Z.shiftl (zlane a l) n).
Definition vshll_n_u16 (a : list Z) (n : Z) : list Z :=
  tabulate 4 (fun l => Z.shiftl (zlane a l) n).
Definition vshll_high_n_u16 (a : list Z) (n : Z) : list Z :=
  tabulate 4 (fun l => Z.shiftl (zlane a (4 + l)) n).
Definition vget_low_u16 (a : list Z) : list Z := tabulate 4 (fun l => zlane a l).
Definition vorrq_u16 (a b : list Z) : list Z :=
  tabulate 8 (fun l => Z.lor (zlane a l) (zlane b l)).

Definition vget_low_u8 (a : list Z) : list Z := tabulate 8 (fun l => zlane a l).
Definition vget_high_u8 (a : list Z) : list Z := tabulate 8 (fun l => zlane a (8 + l)).
Definition vcombine_u8 (lo hi : list Z) : list Z :=
  tabulate 16 (fun l => if l <? 8 then zlane lo l else zlane hi (l - 8)).

Definition vreinterpretq_s8_u8 (a : list Z) : list Z :=
  tabulate 16 (fun l => sint8 (zlane a l)).
Definition vsubq_s8 (a b : list Z) : list Z :=
  tabulate 16 (fun l => sint8 (zlane a l - zlane b l)).

(** SDOT: every 32-bit lane accumulates the products of four pairs of
    signed bytes. *)
Definition vdotq_s32 (r a b : list Z) : list Z :=
  tabulate 4 (fun l =>
    sint32 (zlane r l
            + (zlane a (4 * l) * zlane b (4 * l)
               + zlane a (4 * l + 1) * zlane b (4 * l + 1)
               + zlane a (4 * l + 2) * zlane b (4 * l + 2)
               + zlane a (4 * l + 3) * zlane b (4 * l + 3)))%Z).

Definition vgetq_lane_s32 (a : list Z) (l : nat) : Z := zlane a l.

(** *** float32x4_t *)

Section Float.

Context {F : Type} {ops : Fp32Ops F}.

Definition fzero : F := f_of_Z 0.

Definition flane (v : list F) (l : nat) : F := nth l v fzero.

(** A value-initialised [float32x4_t] and an array of them. *)
Definition zero_f32x4 : list F := tabulate 4 (fun _ => fzero).
Definition zero_f32x4_array (n : nat) : list (list F) := tabulate n (fun _ => zero_f32x4).

Definition varr (a : list (list F)) (i : nat) : list F := nth i a zero_f32x4.

Definition vld1q_f32 (m : mem F) (p : nat) : list F := tabulate 4 (fun t => m (p + t)).
Definition vdupq_n_f32 (x : F) : list F := tabulate 4 (fun _ => x).
Definition vsetq_lane_f32 (x : F) (v : list F) (l : nat) : list F := upd_nth l x v.

Definition vaddq_f32 (a b : list F) : list F :=
  tabulate 4 (fun l => fadd (flane a l) (flane b l)).
Definition vsubq_f32 (a b : list F) : list F :=
  tabulate 4 (fun l => fsub (flane a l) (flane b l)).
Definition vmulq_f32 (a b : list F) : list F :=
  tabulate 4 (fun l => fmul (flane a l) (flane b l)).
Definition vmulq_n_f32 (a : list F) (s : F) : list F :=
  tabulate 4 (fun l => fmul (flane a l) s).
Definition vfmaq_f32 (a b c : list F) : list F :=
  tabulate 4 (fun l => ffma (flane a l) (flane b l) (flane c l)).
Definition vabsq_f32 (a : list F) : list F :=
  tabulate 4 (fun l => fabs (flane a l)).
Definition vmaxq_f32 (a b : list F) : list F :=
  tabulate 4 (fun l => fmax (flane a l) (flane b l)).

(** Reductions across the lanes pair neighbours first (FADDP, FMAXV). *)
Definition vaddvq_f32 (a : list F) : F :=
  fadd (fadd (flane a 0) (flane a 1)) (fadd (flane a 2) (flane a 3)).
Definition vmaxvq_f32 (a : list F) : F :=
  fmax (fmax (flane a 0) (flane a 1)) (fmax (flane a 2) (flane a 3)).

Definition vreinterpretq_f32_u32 (a : list Z) : list F :=
  tabulate 4 (fun l => f_of_bits (zlane a l)).
Definition vcvtq_f32_s32 (a : list Z) : list F :=
  tabulate 4 (fun l => f_of_Z (zlane a l)).
Definition vcvtaq_s32_f32 (a : list F) : list Z :=
  tabulate 4 (fun l => fcvta (flane a l)).

Definition vzip1q_f32 (a b : list F) : list F :=
  [flane a 0; flane b 0; flane a 1; flane b 1].
Definition vzip2q_f32 (a b : list F) : list F :=
  [flane a 2; flane b 2; flane a 3; flane b 3].
(** The same on the two 64-bit halves of the registers. *)
Definition vzip1q_f64 (a b : list F) : list F :=
  [flane a 0; flane a 1; flane b 0; flane b 1].
Definition vzip2q_f64 (a b : list F) : list F :=
  [flane a 2; flane a 3; flane b 2; flane b 3].

End Float.

End Neon.
Import Neon.

(** ** General helpers *)

Section Helpers.

Context {F : Type} {ops : Fp32Ops F}.

Definition Transpose4x4 (a0 a1 a2 a3 : list F)
    : list F * list F * list F * list F :=
  let b0 := vzip1q_f32 a0 a1 in
  let b1 := vzip2q_f32 a0 a1 in
  let b2 := vzip1q_f32 a2 a3 in
  let b3 := vzip2q_f32 a2 a3 in
  (vzip1q_f64 b0 b2, vzip2q_f64 b0 b2, vzip1q_f64 b1 b3, vzip2q_f64 b1 b3).

Definition FoldAccumulators (a0 a1 a2 a3 : list F) : list F :=
  let '(a0, a1, a2, a3) := Transpose4x4 a0 a1 a2 a3 in
  vaddq_f32 (vaddq_f32 a0 a1) (vaddq_f32 a2 a3).

(** Specification-side view of LoadFloatData: element [t] of the source
    when it is one of the [count] loaded values, and zero otherwise. *)
Definition padded (m : mem F) (src count : nat) (t : nat) : F :=
  if t <? count then m (src + t) else fzero.

(** The loop of LoadFloatData over whole vectors, then the remaining
    one to three values. *)
Fixpoint LoadFloatData (m : mem F) (src count : nat) (vi : nat)
    (dst : list (list F)) : list (list F) :=
  match count with
  | S (S (S (S count'))) =>
      LoadFloatData m (src + 4) count' (vi + 1) (upd_nth vi (vld1q_f32 m src) dst)
  | _ =>
      if 0 <? count then
        let dst := upd_nth vi (vsetq_lane_f32 (m (src + 0)) (varr dst vi) 0) dst in
        if 1 <? count then
          let dst := upd_nth vi (vsetq_lane_f32 (m (src + 1)) (varr dst vi) 1) dst in
          if 2 <? count then
            upd_nth vi (vsetq_lane_f32 (m (src + 2)) (varr dst vi) 2) dst
          else dst
        else dst
      else dst
  end.

End Helpers.

(** ** CompFp32 kernel *)

Module CompFp32.

Module fp32_conversion.
(** sign 0, exponent 131 (2^4), the 4-bit code goes to the top of the
    mantissa *)
Definition float_high_half_template : Z := 0x4180.
Definition float_high_half_template_v : list Z :=
  vdupq_n_u16 float_high_half_template.
Definition offset {F} {ops : Fp32Ops F} : F := f_of_Z 16.
End fp32_conversion.

Section Kernel.

Context {F : Type} {ops : Fp32Ops F}.

(** The buffers the kernel reads: the row of A, the packed codes of B,
    its scales and packed zero-points, and the bias. *)
Variable mA : mem F.
Variable mQuantBData : mem Z.
Variable mQuantBScale : mem F.
Variable mQuantBZeroPoint : mem Z.
Variable mBias : mem F.

Definition BlkBitWidth : nat := 4.
Definition SubBlkLen : nat := 16.

(** The 4-bit zero-point of block [idx] of the column whose packed
    zero-points start at [col]. *)
Definition load_zero_point (col idx : nat) : Z :=
  let zp_packed := mQuantBZeroPoint (col + idx / 2) in
  if Z.eqb (Z.land (Z.of_nat idx) 1) 1
  then Byte8.shr zp_packed 4
  else Byte8.band zp_packed 15.

(** The sixteen floats of the sub-block of one column whose packed
    bytes start at [p]: the steps from the load of [bv_packed] to the
    multiplication by the scale. *)
Definition dequant_sub_block (HasZeroPoint : bool) (p : nat)
    (offset_i scale_i : F) : list (list F) :=
  let LowMask := vdup_n_u8 0x0F in
  let bv_packed := vld1_u8 mQuantBData p in
  let bv_u8_0 := vand_u8 bv_packed LowMask in
  let bv_u8_1 := vshr_n_u8 bv_packed 4 in
  let bv_u16_0 := vshll_n_u8 bv_u8_0 3 in
  let bv_u16_1 := vshll_n_u8 bv_u8_1 3 in
  let bv_u16_0 := vorrq_u16 bv_u16_0 fp32_conversion.float_high_half_template_v in
  let bv_u16_1 := vorrq_u16 bv_u16_1 fp32_conversion.float_high_half_template_v in
  let bv :=
    [ vreinterpretq_f32_u32 (vshll_n_u16 (vget_low_u16 bv_u16_0) 16);
      vreinterpretq_f32_u32 (vshll_high_n_u16 bv_u16_0 16);
      vreinterpretq_f32_u32 (vshll_n_u16 (vget_low_u16 bv_u16_1) 16);
      vreinterpretq_f32_u32 (vshll_high_n_u16 bv_u16_1 16) ] in
  let offset_v :=
    if HasZeroPoint then vdupq_n_f32 offset_i
    else vdupq_n_f32 (fadd fp32_conversion.offset (f_of_Z 8)) in
  let bv := tabulate 4 (fun j => vsubq_f32 (varr bv j) offset_v) in
  let scale_v := vdupq_n_f32 scale_i in
  tabulate 4 (fun j => vmulq_f32 (varr bv j) scale_v).

(** State of the loop over the blocks of K. *)
Record dot_state := {
  acc : list (list F);
  QuantBData : nat;
  QuantBScale : nat;
  QuantBZeroPointIdx : nat
}.

Section ComputeDotProducts.

Variable NCols : nat.
Variable HasZeroPoint : bool.
Variable BlkLen : nat.
Variable ARowPtr : nat.
Variable QuantBZeroPointColPtr : nat.
Variable CountK : nat.
Variable StrideQuantBData StrideQuantBScale StrideQuantBZeroPoint : nat.

(** One iteration of the loop over [k_idx_in_blk]. *)
Definition sub_block_step (st : dot_state) (scale offset : list F)
    (k k_blk_len : nat) (k_idx_in_blk : nat) (acc : list (list F))
    : list (list F) :=
  let k_subblk_len := Nat.min (k_blk_len - k_idx_in_blk) SubBlkLen in
  let av := LoadFloatData mA (ARowPtr + k + k_idx_in_blk) k_subblk_len 0
              (zero_f32x4_array 4) in
  let b_data_block_offset := k_idx_in_blk * BlkBitWidth / 8 in
  let bv := tabulate NCols (fun i =>
              dequant_sub_block HasZeroPoint
                (QuantBData st + i * StrideQuantBData + b_data_block_offset)
                (flane offset i) (flane scale i)) in
  for_up 4 (fun j acc =>
    tabulate NCols (fun i =>
      vfmaq_f32 (varr acc i) (varr av j) (varr (nth i bv []) j))) acc.

(** One iteration of the loop over [k]. *)
Definition block_step (k : nat) (st : dot_state) : dot_state :=
  let k_blk_len := Nat.min (CountK - k) BlkLen in
  let scale := tabulate NCols (fun i =>
                 mQuantBScale (QuantBScale st + i * StrideQuantBScale)) in
  let offset :=
    if HasZeroPoint then
      tabulate NCols (fun i =>
        let zp := load_zero_point
                    (QuantBZeroPointColPtr + i * StrideQuantBZeroPoint)
                    (QuantBZeroPointIdx st) in
        fadd fp32_conversion.offset (f_of_Z zp))
    else [] in
  let acc' := for_step k_blk_len SubBlkLen
                (sub_block_step st scale offset k k_blk_len) (acc st) in
  {| acc := acc';
     QuantBData := QuantBData st + MlasQNBitBlkDataSizeInBytes BlkBitWidth BlkLen;
     QuantBScale := QuantBScale st + 1;
     QuantBZeroPointIdx :=
       if HasZeroPoint then QuantBZeroPointIdx st + 1 else QuantBZeroPointIdx st |}.

Definition ComputeDotProducts_BlkBitWidth4_CompFp32
    (QuantBDataColPtr QuantBScaleColPtr : nat)
    (C : mem F) (SumPtr : nat) (BiasPtr : option nat) : mem F :=
  let st := for_step CountK BlkLen block_step
              {| acc := zero_f32x4_array NCols;
                 QuantBData := QuantBDataColPtr;
                 QuantBScale := QuantBScaleColPtr;
                 QuantBZeroPointIdx := 0 |} in
  if NCols =? 4 then
    let sum := FoldAccumulators (varr (acc st) 0) (varr (acc st) 1)
                                (varr (acc st) 2) (varr (acc st) 3) in
    let sum := match BiasPtr with
               | Some b => vaddq_f32 sum (vld1q_f32 mBias b)
               | None => sum
               end in
    for_up 4 (fun t C => store C (SumPtr + t) (flane sum t)) C
  else
    for_up NCols (fun i C =>
      let s := vaddvq_f32 (varr (acc st) i) in
      match BiasPtr with
      | Some b => store C (SumPtr + i) (fadd s (mBias (b + i)))
      | None => store C (SumPtr + i) s
      end) C.

End ComputeDotProducts.

(** State of the loops over the columns. *)
Record col_state := {
  QuantBDataColPtr : nat;
  QuantBScaleColPtr : nat;
  QuantBZeroPointColPtr_ : nat;
  BiasPtr : option nat;
  SumPtr : nat;
  C : mem F;
  nblk : Z
}.

Definition advance_bias (b : option nat) (n : nat) : option nat :=
  match b with Some p => Some (p + n) | None => None end.

Definition SQ4BitGemmM1Kernel_CompFp32_Impl (HasZeroPoint : bool)
    (BlkLen : nat) (A : nat) (QuantBData QuantBScale QuantBZeroPoint : nat)
    (C0 : mem F) (CPtr : nat) (CountN CountK BlockCountK : nat)
    (Bias : option nat) : mem F :=
  let NCols := 4 in
  let ARowPtr := A in
  let CRowPtr := CPtr in
  let StrideQuantBData := BlockCountK * MlasQNBitBlkDataSizeInBytes BlkBitWidth BlkLen in
  let StrideQuantBScale := BlockCountK in
  let StrideQuantBZeroPoint := MlasQNBitZeroPointsForBlksSizeInBytes BlockCountK in
  let s0 := {| QuantBDataColPtr := QuantBData;
               QuantBScaleColPtr := QuantBScale;
               QuantBZeroPointColPtr_ := QuantBZeroPoint;
               BiasPtr := Bias;
               SumPtr := CRowPtr;
               C := C0;
               nblk := (Z.of_nat CountN - Z.of_nat NCols)%Z |} in
  let s1 :=
    while_loop CountN (fun s => (0 <=? nblk s)%Z)
      (fun s =>
         let C' := ComputeDotProducts_BlkBitWidth4_CompFp32
                     NCols HasZeroPoint BlkLen ARowPtr
                     (QuantBZeroPointColPtr_ s) CountK
                     StrideQuantBData StrideQuantBScale StrideQuantBZeroPoint
                     (QuantBDataColPtr s) (QuantBScaleColPtr s)
                     (C s) (SumPtr s) (BiasPtr s) in
         {| QuantBDataColPtr := QuantBDataColPtr s + NCols * StrideQuantBData;
            QuantBScaleColPtr := QuantBScaleColPtr s + NCols * StrideQuantBScale;
            QuantBZeroPointColPtr_ :=
              if HasZeroPoint
              then QuantBZeroPointColPtr_ s + NCols * StrideQuantBZeroPoint
              else QuantBZeroPointColPtr_ s;
            BiasPtr := advance_bias (BiasPtr s) NCols;
            SumPtr := SumPtr s + NCols;
            C := C';
            nblk := (nblk s - Z.of_nat NCols)%Z |})
      s0 in
  let s1 := {| QuantBDataColPtr := QuantBDataColPtr s1;
               QuantBScaleColPtr := QuantBScaleColPtr s1;
               QuantBZeroPointColPtr_ := QuantBZeroPointColPtr_ s1;
               BiasPtr := BiasPtr s1;
               SumPtr := SumPtr s1;
               C := C s1;
               nblk := (nblk s1 + Z.of_nat NCols)%Z |} in
  let s2 :=
    for_up (Z.to_nat (nblk s1))
      (fun n s =>
         let C' := ComputeDotProducts_BlkBitWidth4_CompFp32
                     1 HasZeroPoint BlkLen ARowPtr
                     (QuantBZeroPointColPtr_ s) CountK
                     StrideQuantBData StrideQuantBScale StrideQuantBZeroPoint
                     (QuantBDataColPtr s) (QuantBScaleColPtr s)
                     (C s) (SumPtr s) (BiasPtr s) in
         {| QuantBDataColPtr := QuantBDataColPtr s + StrideQuantBData;
            QuantBScaleColPtr := QuantBScaleColPtr s + StrideQuantBScale;
            QuantBZeroPointColPtr_ :=
              if HasZeroPoint
              then QuantBZeroPointColPtr_ s + StrideQuantBZeroPoint
              else QuantBZeroPointColPtr_ s;
            BiasPtr := advance_bias (BiasPtr s) 1;
            SumPtr := SumPtr s + 1;
            C := C';
            nblk := nblk s |})
      s1 in
  C s2.

(** *** Specification-side views *)

(** The sum the kernel forms for the column whose data, scales and
    zero-points start at the given pointers, before the bias: the
    accumulator of a single column, folded across its lanes. *)
Definition column_state (HasZeroPoint : bool) (BlkLen ARowPtr CountK : nat)
    (StrideQuantBData StrideQuantBScale StrideQuantBZeroPoint : nat)
    (QuantBDataColPtr QuantBScaleColPtr QuantBZeroPointColPtr : nat) : dot_state :=
  for_step CountK BlkLen
    (block_step 1 HasZeroPoint BlkLen ARowPtr QuantBZeroPointColPtr CountK
       StrideQuantBData StrideQuantBScale StrideQuantBZeroPoint)
    {| acc := zero_f32x4_array 1;
       QuantBData := QuantBDataColPtr;
       QuantBScale := QuantBScaleColPtr;
       QuantBZeroPointIdx := 0 |}.

Definition column_value (HasZeroPoint : bool) (BlkLen ARowPtr CountK : nat)
    (StrideQuantBData StrideQuantBScale StrideQuantBZeroPoint : nat)
    (QuantBDataColPtr QuantBScaleColPtr QuantBZeroPointColPtr : nat) : F :=
  vaddvq_f32
    (varr (acc (column_state HasZeroPoint BlkLen ARowPtr CountK
                  StrideQuantBData StrideQuantBScale StrideQuantBZeroPoint
                  QuantBDataColPtr QuantBScaleColPtr QuantBZeroPointColPtr)) 0).

(** The value stored for column [i] of a tile: the sum, plus the bias of
    the column when there is one. *)
Definition with_bias (BiasPtr : option nat) (i : nat) (x : F) : F :=
  match BiasPtr with
  | Some b => fadd x (mBias (b + i))
  | None => x
  end.

(** [QuantBZeroPoint] and [Bias] may be null. *)
Definition SQ4BitGemmM1Kernel_CompFp32
    (BlkLen : nat) (A : nat) (QuantBData QuantBScale : nat)
    (QuantBZeroPoint : option nat)
    (C0 : mem F) (CPtr : nat) (CountN CountK BlockCountK : nat)
    (Bias : option nat) : mem F :=
  match QuantBZeroPoint with
  | Some zp =>
      SQ4BitGemmM1Kernel_CompFp32_Impl true BlkLen A QuantBData QuantBScale zp
        C0 CPtr CountN CountK BlockCountK Bias
  | None =>
      SQ4BitGemmM1Kernel_CompFp32_Impl false BlkLen A QuantBData QuantBScale 0
        C0 CPtr CountN CountK BlockCountK Bias
  end.

End Kernel.

End CompFp32.

(** ** CompInt8: quantization of the rows of A *)

Module Q8.

(** The workspace that holds the quantized rows of A.  It is addressed by
    byte offset: the scale of the block at [p] is read at [p] and its
    codes from [Q8BlkData p] on. *)
Record Q8Mem (F : Type) : Type := {
  q8_scale : mem F;
  q8_data : mem Z
}.
Arguments q8_scale {F} _ _.
Arguments q8_data {F} _ _.
Arguments Build_Q8Mem {F} _ _.

Definition Q8BlkScale {F} (m : Q8Mem F) (BlkPtr : nat) : F := q8_scale m BlkPtr.

Definition set_Q8BlkScale {F} (m : Q8Mem F) (BlkPtr : nat) (s : F) : Q8Mem F :=
  Build_Q8Mem (store (q8_scale m) BlkPtr s) (q8_data m).

Definition set_data {F} (m : Q8Mem F) (p : nat) (v : Z) : Q8Mem F :=
  Build_Q8Mem (q8_scale m) (store (q8_data m) p v).

End Q8.
Import Q8.

Module Quantize.

Section Quantizer.

Context {F : Type} {ops : Fp32Ops F}.

(** The row of A. *)
Variable mA : mem F.

Definition SubBlkLen : nat := 16.

(** [std::max] *)
Definition std_max (a b : F) : F := if fltb a b then b else a.

(** A float division; [None] records that the divisor was zero. *)
Definition checked_div (x y : F) : option F :=
  if feqb y fzero then None else Some (fdiv x y).

(** The loop "find amax of SubBlkLen elements". *)
Definition reduce_max (abs_a : list (list F)) : list (list F) :=
  snd (while_loop SubBlkLen
         (fun s => 0 <? fst s)
         (fun s =>
            let interval := fst s in
            (interval / 2,
             for_up interval (fun i abs_a =>
               upd_nth i (vmaxq_f32 (varr abs_a i) (varr abs_a (i + interval))) abs_a)
               (snd s)))
         (SubBlkLen / 4 / 2, abs_a)).

(** One iteration of the scan that determines [amax]. *)
Definition amax_step (A ElementCount : nat) (k : nat) (amax : F) : F :=
  let SubBlkElementCount := Nat.min (ElementCount - k) SubBlkLen in
  let a := LoadFloatData mA (A + k) SubBlkElementCount 0
             (zero_f32x4_array (SubBlkLen / 4)) in
  let abs_a := tabulate (SubBlkLen / 4) (fun i => vabsq_f32 (varr a i)) in
  let abs_a := reduce_max abs_a in
  std_max amax (vmaxvq_f32 (varr abs_a 0)).

(** One iteration of the loop that computes the quantized values. *)
Definition quantize_step (A ElementCount : nat) (scale_reciprocal : F)
    (QuantAData : nat) (k : nat) (m : Q8Mem F) : Q8Mem F :=
  let SubBlkElementCount := Nat.min (ElementCount - k) SubBlkLen in
  let a := LoadFloatData mA (A + k) SubBlkElementCount 0
             (zero_f32x4_array (SubBlkLen / 4)) in
  let a := tabulate (SubBlkLen / 4) (fun i => vmulq_n_f32 (varr a i) scale_reciprocal) in
  let a_s32 := tabulate (SubBlkLen / 4) (fun i => vcvtaq_s32_f32 (varr a i)) in
  for_up (SubBlkLen / 4) (fun i m =>
    let v := nth i a_s32 [] in
    let m := set_data m (QuantAData + k + i * 4 + 0) (sint8 (vgetq_lane_s32 v 0)) in
    let m := set_data m (QuantAData + k + i * 4 + 1) (sint8 (vgetq_lane_s32 v 1)) in
    let m := set_data m (QuantAData + k + i * 4 + 2) (sint8 (vgetq_lane_s32 v 2)) in
    set_data m (QuantAData + k + i * 4 + 3) (sint8 (vgetq_lane_s32 v 3))) m.

(** [vst1q_s8] of sixteen zeros at [p]. *)
Definition store_zeros16 (p : nat) (m : Q8Mem F) : Q8Mem F :=
  for_up 16 (fun t m => set_data m (p + t) 0%Z) m.

(** One iteration of the loop that zeroes the remaining sub-blocks. *)
Definition zero_step (QuantAData : nat) (k : nat) (m : Q8Mem F) : Q8Mem F :=
  for_up (SubBlkLen / 16) (fun i m => store_zeros16 (QuantAData + k + i * 16) m) m.

(** QuantizeBlock<16>, the only instantiation. *)
Definition QuantizeBlock (BlkLen : nat) (A : nat) (ElementCount : nat)
    (m : Q8Mem F) (QuantA : nat) : option (Q8Mem F) :=
  let amax := for_step ElementCount SubBlkLen (amax_step A ElementCount) fzero in
  let range_max := f_of_Z ((Z.shiftl 1 7) - 1) in
  match checked_div amax range_max with
  | None => None
  | Some scale =>
      match (if negb (feqb scale fzero)
             then checked_div (f_of_Z 1) scale
             else Some fzero) with
      | None => None
      | Some scale_reciprocal =>
          let m := set_Q8BlkScale m QuantA scale in
          let QuantAData := Q8BlkData QuantA in
          let '(k, m) := for_loop_idx ElementCount 0 ElementCount SubBlkLen
                           (quantize_step A ElementCount scale_reciprocal QuantAData) m in
          Some (snd (for_loop_idx BlkLen k BlkLen SubBlkLen (zero_step QuantAData) m))
      end
  end.

(** State of the loop over the blocks of the row. *)
Record row_state := {
  ADataBlkPtr : nat;
  QuantABlkPtr : nat;
  QuantA : option (Q8Mem F)
}.

Definition QuantizeARow_CompInt8 (BlkLen : nat) (A : nat) (CountK : nat)
    (m : Q8Mem F) (QuantAPtr : nat) : option (Q8Mem F) :=
  QuantA
    (for_step CountK BlkLen
       (fun k s =>
          let k_blk_len := Nat.min (CountK - k) BlkLen in
          {| ADataBlkPtr := ADataBlkPtr s + BlkLen;
             QuantABlkPtr := QuantABlkPtr s + Q8BlkSize BlkLen;
             QuantA :=
               match QuantA s with
               | Some m => QuantizeBlock BlkLen (ADataBlkPtr s) k_blk_len m (QuantABlkPtr s)
               | None => None
               end |})
       {| ADataBlkPtr := A; QuantABlkPtr := QuantAPtr; QuantA := Some m |}).

(** *** Specification-side views *)

(** The code the quantizer stores for the value [x]. *)
Definition quantized (scale_reciprocal : F) (x : F) : Z :=
  sint8 (fcvta (fmul x scale_reciprocal)).

(** The scale the quantizer derives from the block and the reciprocal it
    multiplies by. *)
Definition block_amax (A EC : nat) : F :=
  for_step EC SubBlkLen (amax_step A EC) fzero.

Definition reciprocal_of (scale : F) : option F :=
  if negb (feqb scale fzero) then checked_div (f_of_Z 1) scale else Some fzero.

(** [scale != 0.0f ? 1.0f / scale : 0.0f] *)
Definition scale_reciprocal (scale : F) : F :=
  if negb (feqb scale fzero) then fdiv (f_of_Z 1) scale else fzero.

(** The maximum of sixteen values in the order the scan takes it: the
    four vectors are folded lane by lane, then the lanes pairwise. *)
Definition max16 (g : nat -> F) : F :=
  let U l := fmax (fmax (g l) (g (8 + l))) (fmax (g (4 + l)) (g (12 + l))) in
  fmax (fmax (U 0) (U 1)) (fmax (U 2) (U 3)).

End Quantizer.

(** Facts about zero that hold of binary32 and of exact arithmetic alike. *)
Class Fp32ZeroLaws (F : Type) (ops : Fp32Ops F) : Prop := {
  law_127_nonzero : feqb (f_of_Z 127) fzero = false;
  law_abs_zero : fabs fzero = fzero;
  law_max_zero : fmax fzero fzero = fzero;
  law_ltb_zero : fltb fzero fzero = false;
  law_eqb_zero : feqb fzero fzero = true;
  law_div_zero : fdiv fzero (f_of_Z 127) = fzero;
  law_cvta_mul_zero : forall r, fcvta (fmul fzero r) = 0%Z;
  law_cvta_zero_mul : forall x, fabs x = fzero -> fcvta (fmul x fzero) = 0%Z
}.

End Quantize.

(** ** CompInt8 kernels *)

Module CompInt8.

Section Kernel.

Context {F : Type} {ops : Fp32Ops F}.

(** The buffers the kernels read: the quantized rows of A, the packed
    codes of B, its scales and packed zero-points, and the bias. *)
Variable mQuantA : Q8Mem F.
Variable mQuantBData : mem Z.
Variable mQuantBScale : mem F.
Variable mQuantBZeroPoint : mem Z.
Variable mBias : mem F.

Definition BlkBitWidth : nat := 4.

(** [std::to_integer<int8_t>] of the low and of the high half of a
    packed zero-point byte. *)
Definition zp_low (b : Z) : Z := sint8 (Byte8.band b 15).
Definition zp_high (b : Z) : Z := sint8 (Byte8.shr b 4).

(** [SumPtr[i] += BiasPtr[i]] *)
Definition add_bias (C : mem F) (p : nat) (b : nat) : mem F :=
  store C p (fadd (C p) (mBias b)).

(** The value stored for column [i] of a tile: the sum, plus the bias of
    the column when there is one. *)
Definition with_bias (BiasPtr : option nat) (i : nat) (x : F) : F :=
  match BiasPtr with
  | Some b => fadd x (mBias (b + i))
  | None => x
  end.

(** *** 2x2 tiles *)

Record tile2x2_state := {
  QuantAPtr : nat;
  QuantBDataPtr : nat;
  QuantBScalePtr : nat;
  QuantBZeroPointPtr : nat;
  acc00 : list F;
  acc01 : list F;
  acc10 : list F;
  acc11 : list F
}.

Definition init2x2 (QuantARowPtr QuantBDataColPtr QuantBScaleColPtr
    QuantBZeroPointColPtr : nat) : tile2x2_state :=
  {| QuantAPtr := QuantARowPtr;
     QuantBDataPtr := QuantBDataColPtr;
     QuantBScalePtr := QuantBScaleColPtr;
     QuantBZeroPointPtr := QuantBZeroPointColPtr;
     acc00 := zero_f32x4; acc01 := zero_f32x4;
     acc10 := zero_f32x4; acc11 := zero_f32x4 |}.

(** The zero-points of the two columns of a 2x2 tile for block
    [k_blk_idx]. *)
Definition load_bzp_2x2 (HasZeroPoint : bool) (StrideQuantBZeroPoint : nat)
    (k_blk_idx : nat) (QuantBZeroPointPtr : nat) : Z * Z :=
  if HasZeroPoint then
    let QuantBZeroPointByteCol0 := mQuantBZeroPoint QuantBZeroPointPtr in
    let QuantBZeroPointByteCol1 :=
      mQuantBZeroPoint (QuantBZeroPointPtr + StrideQuantBZeroPoint) in
    if Z.eqb (Z.land (Z.of_nat k_blk_idx) 1) 0
    then (zp_low QuantBZeroPointByteCol0, zp_low QuantBZeroPointByteCol1)
    else (zp_high QuantBZeroPointByteCol0, zp_high QuantBZeroPointByteCol1)
  else (8, 8)%Z.

(** [QuantBZeroPointPtr += ((k_blk_idx & 1) == 0) ? 0 : 1] *)
Definition next_zero_point_ptr (HasZeroPoint : bool) (k_blk_idx p : nat) : nat :=
  if HasZeroPoint
  then p + (if Z.eqb (Z.land (Z.of_nat k_blk_idx) 1) 0 then 0 else 1)
  else p.

(** The stores of the four sums of a 2x2 tile, then the bias. *)
Definition store2x2 (st : tile2x2_state) (BiasPtr : option nat)
    (C : mem F) (SumPtr ldc : nat) : mem F :=
  let C := store C (SumPtr + 0) (vaddvq_f32 (acc00 st)) in
  let C := store C (SumPtr + 1) (vaddvq_f32 (acc01 st)) in
  let C := store C (SumPtr + (ldc + 0)) (vaddvq_f32 (acc10 st)) in
  let C := store C (SumPtr + (ldc + 1)) (vaddvq_f32 (acc11 st)) in
  match BiasPtr with
  | Some b =>
      let C := add_bias C (SumPtr + 0) (b + 0) in
      let C := add_bias C (SumPtr + 1) (b + 1) in
      let C := add_bias C (SumPtr + (ldc + 0)) (b + 0) in
      add_bias C (SumPtr + (ldc + 1)) (b + 1)
  | None => C
  end.

(** One iteration of the loop over the blocks, BlkLen = 16. *)
Definition step2x2_BlkLen16 (HasZeroPoint : bool)
    (StrideQuantA StrideQuantBData StrideQuantBScale StrideQuantBZeroPoint : nat)
    (k_blk_idx : nat) (st : tile2x2_state) : tile2x2_state :=
  let BlkLen := 16 in
  let QuantABlkRow0 := QuantAPtr st in
  let QuantABlkRow1 := QuantAPtr st + StrideQuantA in
  let QuantBScaleCol0 := mQuantBScale (QuantBScalePtr st) in
  let QuantBScaleCol1 := mQuantBScale (QuantBScalePtr st + StrideQuantBScale) in
  let scale00 := fmul (Q8BlkScale mQuantA QuantABlkRow0) QuantBScaleCol0 in
  let scale01 := fmul (Q8BlkScale mQuantA QuantABlkRow0) QuantBScaleCol1 in
  let scale10 := fmul (Q8BlkScale mQuantA QuantABlkRow1) QuantBScaleCol0 in
  let scale11 := fmul (Q8BlkScale mQuantA QuantABlkRow1) QuantBScaleCol1 in
  let '(bzp_col0, bzp_col1) :=
    load_bzp_2x2 HasZeroPoint StrideQuantBZeroPoint k_blk_idx (QuantBZeroPointPtr st) in
  let QuantADataPtrRow0 := Q8BlkData QuantABlkRow0 in
  let QuantADataPtrRow1 := Q8BlkData QuantABlkRow1 in
  let av_row0 := vld1q_s8 (q8_data mQuantA) (QuantADataPtrRow0 + 0) in
  let av_row1 := vld1q_s8 (q8_data mQuantA) (QuantADataPtrRow1 + 0) in
  let bv_packed_col0 := vld1_u8 mQuantBData (QuantBDataPtr st) in
  let bv_packed_col1 := vld1_u8 mQuantBData (QuantBDataPtr st + StrideQuantBData) in
  let LowMaskU8x8 := vdup_n_u8 0x0F in
  let bv_col0 := vreinterpretq_s8_u8
                   (vcombine_u8 (vand_u8 bv_packed_col0 LowMaskU8x8)
                                (vshr_n_u8 bv_packed_col0 4)) in
  let bv_col1 := vreinterpretq_s8_u8
                   (vcombine_u8 (vand_u8 bv_packed_col1 LowMaskU8x8)
                                (vshr_n_u8 bv_packed_col1 4)) in
  let bv_col0 := vsubq_s8 bv_col0 (vdupq_n_s8 bzp_col0) in
  let bv_col1 := vsubq_s8 bv_col1 (vdupq_n_s8 bzp_col1) in
  let dot00 := vdotq_s32 (vdupq_n_s32 0) av_row0 bv_col0 in
  let dot01 := vdotq_s32 (vdupq_n_s32 0) av_row0 bv_col1 in
  let dot10 := vdotq_s32 (vdupq_n_s32 0) av_row1 bv_col0 in
  let dot11 := vdotq_s32 (vdupq_n_s32 0) av_row1 bv_col1 in
  let dot_f32_00 := vcvtq_f32_s32 dot00 in
  let dot_f32_01 := vcvtq_f32_s32 dot01 in
  let dot_f32_10 := vcvtq_f32_s32 dot10 in
  let dot_f32_11 := vcvtq_f32_s32 dot11 in
  {| QuantAPtr := QuantAPtr st + Q8BlkSize BlkLen;
     QuantBDataPtr := QuantBDataPtr st + 8;
     QuantBScalePtr := QuantBScalePtr st + 1;
     QuantBZeroPointPtr :=
       next_zero_point_ptr HasZeroPoint k_blk_idx (QuantBZeroPointPtr st);
     acc00 := vfmaq_f32 (acc00 st) dot_f32_00 (vdupq_n_f32 scale00);
     acc01 := vfmaq_f32 (acc01 st) dot_f32_01 (vdupq_n_f32 scale01);
     acc10 := vfmaq_f32 (acc10 st) dot_f32_10 (vdupq_n_f32 scale10);
     acc11 := vfmaq_f32 (acc11 st) dot_f32_11 (vdupq_n_f32 scale11) |}.

Definition SQ4BitGemm_CompInt8_Compute2x2_BlkLen16 (HasZeroPoint : bool)
    (QuantARowPtr QuantBDataColPtr QuantBScaleColPtr QuantBZeroPointColPtr : nat)
    (BiasPtr : option nat) (C : mem F) (SumPtr : nat) (BlockCountK : nat)
    (StrideQuantA StrideQuantBData StrideQuantBScale StrideQuantBZeroPoint : nat)
    (ldc : nat) : mem F :=
  let st := for_up BlockCountK
              (step2x2_BlkLen16 HasZeroPoint StrideQuantA StrideQuantBData
                 StrideQuantBScale StrideQuantBZeroPoint)
              (init2x2 QuantARowPtr QuantBDataColPtr QuantBScaleColPtr
                 QuantBZeroPointColPtr) in
  store2x2 st BiasPtr C SumPtr ldc.

(** State of the loop over the 32-element sub-blocks of a block in a
    2x2 tile. *)
Record sub2x2_state := {
  QuantADataPtrRow0 : nat;
  QuantADataPtrRow1 : nat;
  sQuantBDataPtr : nat;
  s00 : list F;
  s01 : list F;
  s10 : list F;
  s11 : list F
}.

Definition sub_step2x2 (StrideQuantBData : nat) (bzp_col0 bzp_col1 : Z)
    (scale00 scale01 scale10 scale11 : F)
    (sub_blk_idx : nat) (s : sub2x2_state) : sub2x2_state :=
  let av_row0_0 := vld1q_s8 (q8_data mQuantA) (QuantADataPtrRow0 s + 0) in
  let av_row0_1 := vld1q_s8 (q8_data mQuantA) (QuantADataPtrRow0 s + 16) in
  let av_row1_0 := vld1q_s8 (q8_data mQuantA) (QuantADataPtrRow1 s + 0) in
  let av_row1_1 := vld1q_s8 (q8_data mQuantA) (QuantADataPtrRow1 s + 16) in
  let bv_packed_col0 := vld1q_u8 mQuantBData (sQuantBDataPtr s) in
  let bv_packed_col1 := vld1q_u8 mQuantBData (sQuantBDataPtr s + StrideQuantBData) in
  let LowMaskU8x16 := vdupq_n_u8 0x0F in
  let bv_col0_0 := vreinterpretq_s8_u8 (vandq_u8 bv_packed_col0 LowMaskU8x16) in
  let bv_col0_1 := vreinterpretq_s8_u8 (vshrq_n_u8 bv_packed_col0 4) in
  let bv_col1_0 := vreinterpretq_s8_u8 (vandq_u8 bv_packed_col1 LowMaskU8x16) in
  let bv_col1_1 := vreinterpretq_s8_u8 (vshrq_n_u8 bv_packed_col1 4) in
  let bv_col0_0 := vsubq_s8 bv_col0_0 (vdupq_n_s8 bzp_col0) in
  let bv_col0_1 := vsubq_s8 bv_col0_1 (vdupq_n_s8 bzp_col0) in
  let bv_col1_0 := vsubq_s8 bv_col1_0 (vdupq_n_s8 bzp_col1) in
  let bv_col1_1 := vsubq_s8 bv_col1_1 (vdupq_n_s8 bzp_col1) in
  let dot00 := vdotq_s32 (vdotq_s32 (vdupq_n_s32 0) av_row0_0 bv_col0_0) av_row0_1 bv_col0_1 in
  let dot01 := vdotq_s32 (vdotq_s32 (vdupq_n_s32 0) av_row0_0 bv_col1_0) av_row0_1 bv_col1_1 in
  let dot10 := vdotq_s32 (vdotq_s32 (vdupq_n_s32 0) av_row1_0 bv_col0_0) av_row1_1 bv_col0_1 in
  let dot11 := vdotq_s32 (vdotq_s32 (vdupq_n_s32 0) av_row1_0 bv_col1_0) av_row1_1 bv_col1_1 in
  let dot_f32_00 := vcvtq_f32_s32 dot00 in
  let dot_f32_01 := vcvtq_f32_s32 dot01 in
  let dot_f32_10 := vcvtq_f32_s32 dot10 in
  let dot_f32_11 := vcvtq_f32_s32 dot11 in
  {| QuantADataPtrRow0 := QuantADataPtrRow0 s + 32;
     QuantADataPtrRow1 := QuantADataPtrRow1 s + 32;
     sQuantBDataPtr := sQuantBDataPtr s + 16;
     s00 := vfmaq_f32 (s00 s) dot_f32_00 (vdupq_n_f32 scale00);
     s01 := vfmaq_f32 (s01 s) dot_f32_01 (vdupq_n_f32 scale01);
     s10 := vfmaq_f32 (s10 s) dot_f32_10 (vdupq_n_f32 scale10);
     s11 := vfmaq_f32 (s11 s) dot_f32_11 (vdupq_n_f32 scale11) |}.

(** One iteration of the loop over the blocks, BlkLen > 16. *)
Definition step2x2_BlkLenGreaterThan16 (HasZeroPoint : bool) (BlkLen : nat)
    (StrideQuantA StrideQuantBData StrideQuantBScale StrideQuantBZeroPoint : nat)
    (k_blk_idx : nat) (st : tile2x2_state) : tile2x2_state :=
  let SubBlksPerBlk := BlkLen / 32 in
  let QuantABlkRow0 := QuantAPtr st in
  let QuantABlkRow1 := QuantAPtr st + StrideQuantA in
  let QuantBScaleCol0 := mQuantBScale (QuantBScalePtr st) in
  let QuantBScaleCol1 := mQuantBScale (QuantBScalePtr st + StrideQuantBScale) in
  let scale00 := fmul (Q8BlkScale mQuantA QuantABlkRow0) QuantBScaleCol0 in
  let scale01 := fmul (Q8BlkScale mQuantA QuantABlkRow0) QuantBScaleCol1 in
  let scale10 := fmul (Q8BlkScale mQuantA QuantABlkRow1) QuantBScaleCol0 in
  let scale11 := fmul (Q8BlkScale mQuantA QuantABlkRow1) QuantBScaleCol1 in
  let '(bzp_col0, bzp_col1) :=
    load_bzp_2x2 HasZeroPoint StrideQuantBZeroPoint k_blk_idx (QuantBZeroPointPtr st) in
  let s := for_up SubBlksPerBlk
             (sub_step2x2 StrideQuantBData bzp_col0 bzp_col1
                scale00 scale01 scale10 scale11)
             {| QuantADataPtrRow0 := Q8BlkData QuantABlkRow0;
                QuantADataPtrRow1 := Q8BlkData QuantABlkRow1;
                sQuantBDataPtr := QuantBDataPtr st;
                s00 := acc00 st; s01 := acc01 st;
                s10 := acc10 st; s11 := acc11 st |} in
  {| QuantAPtr := QuantAPtr st + Q8BlkSize BlkLen;
     QuantBDataPtr := sQuantBDataPtr s;
     QuantBScalePtr := QuantBScalePtr st + 1;
     QuantBZeroPointPtr :=
       next_zero_point_ptr HasZeroPoint k_blk_idx (QuantBZeroPointPtr st);
     acc00 := s00 s; acc01 := s01 s; acc10 := s10 s; acc11 := s11 s |}.

Definition SQ4BitGemm_CompInt8_Compute2x2_BlkLenGreaterThan16 (HasZeroPoint : bool)
    (BlkLen : nat)
    (QuantARowPtr QuantBDataColPtr QuantBScaleColPtr QuantBZeroPointColPtr : nat)
    (BiasPtr : option nat) (C : mem F) (SumPtr : nat) (BlockCountK : nat)
    (StrideQuantA StrideQuantBData StrideQuantBScale StrideQuantBZeroPoint : nat)
    (ldc : nat) : mem F :=
  let st := for_up BlockCountK
              (step2x2_BlkLenGreaterThan16 HasZeroPoint BlkLen StrideQuantA
                 StrideQuantBData StrideQuantBScale StrideQuantBZeroPoint)
              (init2x2 QuantARowPtr QuantBDataColPtr QuantBScaleColPtr
                 QuantBZeroPointColPtr) in
  store2x2 st BiasPtr C SumPtr ldc.

(** *** 1x1 tiles *)

Record tile1x1_state := {
  k_blks_remaining : nat;
  tQuantAPtr : nat;
  tQuantBDataPtr : nat;
  tQuantBScalePtr : nat;
  tQuantBZeroPointPtr : nat;
  acc0 : list F;
  acc1 : list F
}.

Definition init1x1 (BlockCountK : nat) (QuantARowPtr QuantBDataColPtr
    QuantBScaleColPtr QuantBZeroPointColPtr : nat) : tile1x1_state :=
  {| k_blks_remaining := BlockCountK;
     tQuantAPtr := QuantARowPtr;
     tQuantBDataPtr := QuantBDataColPtr;
     tQuantBScalePtr := QuantBScaleColPtr;
     tQuantBZeroPointPtr := QuantBZeroPointColPtr;
     acc0 := zero_f32x4; acc1 := zero_f32x4 |}.

(** [*SumPtr = vaddvq_f32(acc0) + vaddvq_f32(acc1)], then the bias. *)
Definition store1x1 (st : tile1x1_state) (BiasPtr : option nat)
    (C : mem F) (SumPtr : nat) : mem F :=
  let C := store C SumPtr (fadd (vaddvq_f32 (acc0 st)) (vaddvq_f32 (acc1 st))) in
  match BiasPtr with
  | Some b => add_bias C SumPtr b
  | None => C
  end.

(** The zero-points of a pair of consecutive blocks. *)
Definition bzp_low (HasZeroPoint : bool) (p : nat) : Z :=
  if HasZeroPoint then zp_low (mQuantBZeroPoint p) else 8%Z.
Definition bzp_high (HasZeroPoint : bool) (p : nat) : Z :=
  if HasZeroPoint then zp_high (mQuantBZeroPoint p) else 8%Z.

(** One iteration of the loop over pairs of blocks, BlkLen = 16. *)
Definition pair_step1x1_BlkLen16 (HasZeroPoint : bool) (st : tile1x1_state)
    : tile1x1_state :=
  let BlkLen := 16 in
  let QuantABlk0 := tQuantAPtr st in
  let QuantABlk1 := QuantABlk0 + Q8BlkSize BlkLen in
  let scale0 := vdupq_n_f32 (fmul (Q8BlkScale mQuantA QuantABlk0)
                                  (mQuantBScale (tQuantBScalePtr st + 0))) in
  let scale1 := vdupq_n_f32 (fmul (Q8BlkScale mQuantA QuantABlk1)
                                  (mQuantBScale (tQuantBScalePtr st + 1))) in
  let bzp0 := vdupq_n_s8 (bzp_low HasZeroPoint (tQuantBZeroPointPtr st)) in
  let bzp1 := vdupq_n_s8 (bzp_high HasZeroPoint (tQuantBZeroPointPtr st)) in
  let av0 := vld1q_s8 (q8_data mQuantA) (Q8BlkData QuantABlk0) in
  let av1 := vld1q_s8 (q8_data mQuantA) (Q8BlkData QuantABlk1) in
  let bv_packed01 := vld1q_u8 mQuantBData (tQuantBDataPtr st) in
  let LowMaskU8x16 := vdupq_n_u8 0x0F in
  let bv_lo01 := vandq_u8 bv_packed01 LowMaskU8x16 in
  let bv_hi01 := vshrq_n_u8 bv_packed01 4 in
  let bv0 := vreinterpretq_s8_u8
               (vcombine_u8 (vget_low_u8 bv_lo01) (vget_low_u8 bv_hi01)) in
  let bv1 := vreinterpretq_s8_u8
               (vcombine_u8 (vget_high_u8 bv_lo01) (vget_high_u8 bv_hi01)) in
  let bv0 := vsubq_s8 bv0 bzp0 in
  let bv1 := vsubq_s8 bv1 bzp1 in
  let dot0 := vdotq_s32 (vdupq_n_s32 0) av0 bv0 in
  let dot1 := vdotq_s32 (vdupq_n_s32 0) av1 bv1 in
  let dot_f32_0 := vcvtq_f32_s32 dot0 in
  let dot_f32_1 := vcvtq_f32_s32 dot1 in
  {| k_blks_remaining := k_blks_remaining st - 2;
     tQuantAPtr := tQuantAPtr st + Q8BlkSize BlkLen * 2;
     tQuantBDataPtr := tQuantBDataPtr st + 8 * 2;
     tQuantBScalePtr := tQuantBScalePtr st + 2;
     tQuantBZeroPointPtr :=
       if HasZeroPoint then tQuantBZeroPointPtr st + 1 else tQuantBZeroPointPtr st;
     acc0 := vfmaq_f32 (acc0 st) dot_f32_0 scale0;
     acc1 := vfmaq_f32 (acc1 st) dot_f32_1 scale1 |}.

(** The last block when their number is odd, BlkLen = 16. *)
Definition last_step1x1_BlkLen16 (HasZeroPoint : bool) (st : tile1x1_state)
    : tile1x1_state :=
  let QuantABlk0 := tQuantAPtr st in
  let scale0 := vdupq_n_f32 (fmul (Q8BlkScale mQuantA QuantABlk0)
                                  (mQuantBScale (tQuantBScalePtr st))) in
  let bzp0 := vdupq_n_s8 (bzp_low HasZeroPoint (tQuantBZeroPointPtr st)) in
  let av0 := vld1q_s8 (q8_data mQuantA) (Q8BlkData QuantABlk0) in
  let bv_packed0 := vld1_u8 mQuantBData (tQuantBDataPtr st) in
  let LowMaskU8x8 := vdup_n_u8 0x0F in
  let bv_lo0 := vand_u8 bv_packed0 LowMaskU8x8 in
  let bv_hi0 := vshr_n_u8 bv_packed0 4 in
  let bv0 := vreinterpretq_s8_u8 (vcombine_u8 bv_lo0 bv_hi0) in
  let bv0 := vsubq_s8 bv0 bzp0 in
  let dot0 := vdotq_s32 (vdupq_n_s32 0) av0 bv0 in
  let dot_f32_0 := vcvtq_f32_s32 dot0 in
  {| k_blks_remaining := k_blks_remaining st;
     tQuantAPtr := tQuantAPtr st;
     tQuantBDataPtr := tQuantBDataPtr st;
     tQuantBScalePtr := tQuantBScalePtr st;
     tQuantBZeroPointPtr := tQuantBZeroPointPtr st;
     acc0 := vfmaq_f32 (acc0 st) dot_f32_0 scale0;
     acc1 := acc1 st |}.

(** The loop over pairs of blocks followed by the optional last block,
    common to BlkLen = 16 and BlkLen = 32. *)
Definition run1x1_pairs (pair_step last_step : tile1x1_state -> tile1x1_state)
    (st : tile1x1_state) : tile1x1_state :=
  let st := while_loop (k_blks_remaining st)
              (fun s => 1 <? k_blks_remaining s) pair_step st in
  if 0 <? k_blks_remaining st then last_step st else st.

Definition SQ4BitGemm_CompInt8_Compute1x1_BlkLen16 (HasZeroPoint : bool)
    (QuantARowPtr QuantBDataColPtr QuantBScaleColPtr QuantBZeroPointColPtr : nat)
    (BiasPtr : option nat) (C : mem F) (SumPtr : nat) (BlockCountK : nat) : mem F :=
  let st := run1x1_pairs (pair_step1x1_BlkLen16 HasZeroPoint)
              (last_step1x1_BlkLen16 HasZeroPoint)
              (init1x1 BlockCountK QuantARowPtr QuantBDataColPtr
                 QuantBScaleColPtr QuantBZeroPointColPtr) in
  store1x1 st BiasPtr C SumPtr.

(** One iteration of the loop over pairs of blocks, BlkLen = 32. *)
Definition pair_step1x1_BlkLen32 (HasZeroPoint : bool) (st : tile1x1_state)
    : tile1x1_state :=
  let BlkLen := 32 in
  let LowMaskU8x16 := vdupq_n_u8 0x0F in
  let QuantABlk0 := tQuantAPtr st in
  let QuantABlk1 := QuantABlk0 + Q8BlkSize BlkLen in
  let scale0 := vdupq_n_f32 (fmul (Q8BlkScale mQuantA QuantABlk0)
                                  (mQuantBScale (tQuantBScalePtr st + 0))) in
  let scale1 := vdupq_n_f32 (fmul (Q8BlkScale mQuantA QuantABlk1)
                                  (mQuantBScale (tQuantBScalePtr st + 1))) in
  let bzp0 := vdupq_n_s8 (bzp_low HasZeroPoint (tQuantBZeroPointPtr st)) in
  let bzp1 := vdupq_n_s8 (bzp_high HasZeroPoint (tQuantBZeroPointPtr st)) in
  let av_lo0 := vld1q_s8 (q8_data mQuantA) (Q8BlkData QuantABlk0) in
  let av_hi0 := vld1q_s8 (q8_data mQuantA) (Q8BlkData QuantABlk0 + 16) in
  let av_lo1 := vld1q_s8 (q8_data mQuantA) (Q8BlkData QuantABlk1) in
  let av_hi1 := vld1q_s8 (q8_data mQuantA) (Q8BlkData QuantABlk1 + 16) in
  let bv_packed0 := vld1q_u8 mQuantBData (tQuantBDataPtr st) in
  let bv_packed1 := vld1q_u8 mQuantBData (tQuantBDataPtr st + 16) in
  let bv_lo0 := vreinterpretq_s8_u8 (vandq_u8 bv_packed0 LowMaskU8x16) in
  let bv_hi0 := vreinterpretq_s8_u8 (vshrq_n_u8 bv_packed0 4) in
  let bv_lo1 := vreinterpretq_s8_u8 (vandq_u8 bv_packed1 LowMaskU8x16) in
  let bv_hi1 := vreinterpretq_s8_u8 (vshrq_n_u8 bv_packed1 4) in
  let bv_lo0 := vsubq_s8 bv_lo0 bzp0 in
  let bv_hi0 := vsubq_s8 bv_hi0 bzp0 in
  let bv_lo1 := vsubq_s8 bv_lo1 bzp1 in
  let bv_hi1 := vsubq_s8 bv_hi1 bzp1 in
  let dot0 := vdotq_s32 (vdotq_s32 (vdupq_n_s32 0) av_lo0 bv_lo0) av_hi0 bv_hi0 in
  let dot1 := vdotq_s32 (vdotq_s32 (vdupq_n_s32 0) av_lo1 bv_lo1) av_hi1 bv_hi1 in
  let dot_f32_0 := vcvtq_f32_s32 dot0 in
  let dot_f32_1 := vcvtq_f32_s32 dot1 in
  {| k_blks_remaining := k_blks_remaining st - 2;
     tQuantAPtr := tQuantAPtr st + Q8BlkSize BlkLen * 2;
     tQuantBDataPtr := tQuantBDataPtr st + 16 * 2;
     tQuantBScalePtr := tQuantBScalePtr st + 2;
     tQuantBZeroPointPtr :=
       if HasZeroPoint then tQuantBZeroPointPtr st + 1 else tQuantBZeroPointPtr st;
     acc0 := vfmaq_f32 (acc0 st) dot_f32_0 scale0;
     acc1 := vfmaq_f32 (acc1 st) dot_f32_1 scale1 |}.

(** The last block when their number is odd, BlkLen = 32. *)
Definition last_step1x1_BlkLen32 (HasZeroPoint : bool) (st : tile1x1_state)
    : tile1x1_state :=
  let LowMaskU8x16 := vdupq_n_u8 0x0F in
  let QuantABlk0 := tQuantAPtr st in
  let scale0 := vdupq_n_f32 (fmul (Q8BlkScale mQuantA QuantABlk0)
                                  (mQuantBScale (tQuantBScalePtr st))) in
  let bzp0 := vdupq_n_s8 (bzp_low HasZeroPoint (tQuantBZeroPointPtr st)) in
  let av_lo0 := vld1q_s8 (q8_data mQuantA) (Q8BlkData QuantABlk0) in
  let av_hi0 := vld1q_s8 (q8_data mQuantA) (Q8BlkData QuantABlk0 + 16) in
  let bv_packed0 := vld1q_u8 mQuantBData (tQuantBDataPtr st) in
  let bv_lo0 := vreinterpretq_s8_u8 (vandq_u8 bv_packed0 LowMaskU8x16) in
  let bv_hi0 := vreinterpretq_s8_u8 (vshrq_n_u8 bv_packed0 4) in
  let bv_lo0 := vsubq_s8 bv_lo0 bzp0 in
  let bv_hi0 := vsubq_s8 bv_hi0 bzp0 in
  let dot0 := vdotq_s32 (vdotq_s32 (vdupq_n_s32 0) av_lo0 bv_lo0) av_hi0 bv_hi0 in
  let dot_f32_0 := vcvtq_f32_s32 dot0 in
  {| k_blks_remaining := k_blks_remaining st;
     tQuantAPtr := tQuantAPtr st;
     tQuantBDataPtr := tQuantBDataPtr st;
     tQuantBScalePtr := tQuantBScalePtr st;
     tQuantBZeroPointPtr := tQuantBZeroPointPtr st;
     acc0 := vfmaq_f32 (acc0 st) dot_f32_0 scale0;
     acc1 := acc1 st |}.

Definition SQ4BitGemm_CompInt8_Compute1x1_BlkLen32 (HasZeroPoint : bool)
    (QuantARowPtr QuantBDataColPtr QuantBScaleColPtr QuantBZeroPointColPtr : nat)
    (BiasPtr : option nat) (C : mem F) (SumPtr : nat) (BlockCountK : nat) : mem F :=
  let st := run1x1_pairs (pair_step1x1_BlkLen32 HasZeroPoint)
              (last_step1x1_BlkLen32 HasZeroPoint)
              (init1x1 BlockCountK QuantARowPtr QuantBDataColPtr
                 QuantBScaleColPtr QuantBZeroPointColPtr) in
  store1x1 st BiasPtr C SumPtr.

(** State of the loop over pairs of 32-element sub-blocks of a block in
    a 1x1 tile. *)
Record sub1x1_state := {
  QuantADataPtr : nat;
  uQuantBDataPtr : nat;
  u0 : list F;
  u1 : list F
}.

Definition sub_step1x1 (bzp : list Z) (scale : list F)
    (sub_blk_idx : nat) (s : sub1x1_state) : sub1x1_state :=
  let LowMaskU8x16 := vdupq_n_u8 0x0F in
  let av0 := vld1q_s8 (q8_data mQuantA) (QuantADataPtr s + 0) in
  let av1 := vld1q_s8 (q8_data mQuantA) (QuantADataPtr s + 16) in
  let av2 := vld1q_s8 (q8_data mQuantA) (QuantADataPtr s + 32) in
  let av3 := vld1q_s8 (q8_data mQuantA) (QuantADataPtr s + 48) in
  let bv_packed0 := vld1q_u8 mQuantBData (uQuantBDataPtr s) in
  let bv_packed1 := vld1q_u8 mQuantBData (uQuantBDataPtr s + 16) in
  let bv0 := vreinterpretq_s8_u8 (vandq_u8 bv_packed0 LowMaskU8x16) in
  let bv1 := vreinterpretq_s8_u8 (vshrq_n_u8 bv_packed0 4) in
  let bv2 := vreinterpretq_s8_u8 (vandq_u8 bv_packed1 LowMaskU8x16) in
  let bv3 := vreinterpretq_s8_u8 (vshrq_n_u8 bv_packed1 4) in
  let bv0 := vsubq_s8 bv0 bzp in
  let bv1 := vsubq_s8 bv1 bzp in
  let bv2 := vsubq_s8 bv2 bzp in
  let bv3 := vsubq_s8 bv3 bzp in
  let dot0 := vdotq_s32 (vdotq_s32 (vdupq_n_s32 0) av0 bv0) av1 bv1 in
  let dot1 := vdotq_s32 (vdotq_s32 (vdupq_n_s32 0) av2 bv2) av3 bv3 in
  let dot_f32_0 := vcvtq_f32_s32 dot0 in
  let dot_f32_1 := vcvtq_f32_s32 dot1 in
  {| QuantADataPtr := QuantADataPtr s + 16 * 4;
     uQuantBDataPtr := uQuantBDataPtr s + 16 * 2;
     u0 := vfmaq_f32 (u0 s) dot_f32_0 scale;
     u1 := vfmaq_f32 (u1 s) dot_f32_1 scale |}.

(** One iteration of the loop over the blocks, BlkLen > 32. *)
Definition step1x1_BlkLenGreaterThan32 (HasZeroPoint : bool) (BlkLen : nat)
    (k_blk_idx : nat) (st : tile1x1_state) : tile1x1_state :=
  let SubBlksPerBlk := BlkLen / 32 in
  let QuantABlk0 := tQuantAPtr st in
  let scale := vdupq_n_f32 (fmul (Q8BlkScale mQuantA QuantABlk0)
                                 (mQuantBScale (tQuantBScalePtr st + 0))) in
  let bzp := vdupq_n_s8 (bzp_low HasZeroPoint (tQuantBZeroPointPtr st)) in
  let s := for_step SubBlksPerBlk 2 (sub_step1x1 bzp scale)
             {| QuantADataPtr := Q8BlkData (tQuantAPtr st);
                uQuantBDataPtr := tQuantBDataPtr st;
                u0 := acc0 st; u1 := acc1 st |} in
  {| k_blks_remaining := k_blks_remaining st;
     tQuantAPtr := tQuantAPtr st + Q8BlkSize BlkLen;
     tQuantBDataPtr := uQuantBDataPtr s;
     tQuantBScalePtr := tQuantBScalePtr st + 1;
     tQuantBZeroPointPtr :=
       next_zero_point_ptr HasZeroPoint k_blk_idx (tQuantBZeroPointPtr st);
     acc0 := u0 s;
     acc1 := u1 s |}.

Definition SQ4BitGemm_CompInt8_Compute1x1_BlkLenGreaterThan32 (HasZeroPoint : bool)
    (BlkLen : nat)
    (QuantARowPtr QuantBDataColPtr QuantBScaleColPtr QuantBZeroPointColPtr : nat)
    (BiasPtr : option nat) (C : mem F) (SumPtr : nat) (BlockCountK : nat) : mem F :=
  let st := for_up BlockCountK
              (step1x1_BlkLenGreaterThan32 HasZeroPoint BlkLen)
              (init1x1 BlockCountK QuantARowPtr QuantBDataColPtr
                 QuantBScaleColPtr QuantBZeroPointColPtr) in
  store1x1 st BiasPtr C SumPtr.

(** *** The loops over the tiles

    The three kernels SQ4BitGemmKernel_CompInt8_BlkLen16, _BlkLen32 and
    _BlkLenGreaterThan32 run the same loops over the rows and columns
    and differ only in the tile routines they call. *)

Definition compute2x2_t : Type :=
  nat -> nat -> nat -> nat -> option nat -> mem F -> nat -> nat ->
  nat -> nat -> nat -> nat -> nat -> mem F.
Definition compute1x1_t : Type :=
  nat -> nat -> nat -> nat -> option nat -> mem F -> nat -> nat -> mem F.

Record col_state := {
  QuantBDataColPtr : nat;
  QuantBScaleColPtr : nat;
  QuantBZeroPointColPtr : nat;
  BiasPtr : option nat;
  SumPtr : nat;
  n_remaining : nat;
  C : mem F
}.

Record row_state := {
  QuantARowPtr : nat;
  SumRowPtr : nat;
  m_remaining : nat;
  rC : mem F
}.

Definition advance_bias (b : option nat) (n : nat) : option nat :=
  match b with Some p => Some (p + n) | None => None end.

(** Move to the next [n] columns. *)
Definition next_columns (HasZeroPoint : bool) (n : nat)
    (StrideQuantBData StrideQuantBScale StrideQuantBZeroPoint : nat)
    (C' : mem F) (s : col_state) : col_state :=
  {| QuantBDataColPtr := QuantBDataColPtr s + n * StrideQuantBData;
     QuantBScaleColPtr := QuantBScaleColPtr s + n * StrideQuantBScale;
     QuantBZeroPointColPtr :=
       if HasZeroPoint
       then QuantBZeroPointColPtr s + n * StrideQuantBZeroPoint
       else QuantBZeroPointColPtr s;
     BiasPtr := advance_bias (BiasPtr s) n;
     SumPtr := SumPtr s + n;
     n_remaining := n_remaining s - n;
     C := C' |}.

Section Tiles.

Variable Compute2x2 : compute2x2_t.
Variable Compute1x1 : compute1x1_t.
Variable HasZeroPoint : bool.
Variable BlkLen : nat.
Variables QuantA QuantBData QuantBScale QuantBZeroPoint : nat.
Variables CountN BlockCountK ldc : nat.
Variable Bias : option nat.

Definition StrideQuantA : nat := BlockCountK * Q8BlkSize BlkLen.
Definition StrideQuantBData : nat :=
  BlockCountK * MlasQNBitBlkDataSizeInBytes BlkBitWidth BlkLen.
Definition StrideQuantBScale : nat := BlockCountK.
Definition StrideQuantBZeroPoint : nat :=
  MlasQNBitZeroPointsForBlksSizeInBytes BlockCountK.

Definition first_column (SumRowPtr : nat) (C0 : mem F) : col_state :=
  {| QuantBDataColPtr := QuantBData;
     QuantBScaleColPtr := QuantBScale;
     QuantBZeroPointColPtr := QuantBZeroPoint;
     BiasPtr := Bias;
     SumPtr := SumRowPtr;
     n_remaining := CountN;
     C := C0 |}.

(** The body of [while (m_remaining > 1)]: two rows of output. *)
Definition two_rows (r : row_state) : row_state :=
  let s := while_loop CountN (fun s => 1 <? n_remaining s)
             (fun s =>
                let C' := Compute2x2 (QuantARowPtr r)
                            (QuantBDataColPtr s) (QuantBScaleColPtr s)
                            (QuantBZeroPointColPtr s) (BiasPtr s)
                            (C s) (SumPtr s) BlockCountK
                            StrideQuantA StrideQuantBData StrideQuantBScale
                            StrideQuantBZeroPoint ldc in
                next_columns HasZeroPoint 2 StrideQuantBData StrideQuantBScale
                  StrideQuantBZeroPoint C' s)
             (first_column (SumRowPtr r) (rC r)) in
  let C' :=
    if 0 <? n_remaining s then
      let C1 := Compute1x1 (QuantARowPtr r)
                  (QuantBDataColPtr s) (QuantBScaleColPtr s)
                  (QuantBZeroPointColPtr s) (BiasPtr s)
                  (C s) (SumPtr s) BlockCountK in
      Compute1x1 (QuantARowPtr r + StrideQuantA)
        (QuantBDataColPtr s) (QuantBScaleColPtr s)
        (QuantBZeroPointColPtr s) (BiasPtr s)
        C1 (SumPtr s + ldc) BlockCountK
    else C s in
  {| QuantARowPtr := QuantARowPtr r + 2 * StrideQuantA;
     SumRowPtr := SumRowPtr r + 2 * ldc;
     m_remaining := m_remaining r - 2;
     rC := C' |}.

(** The body of [if (m_remaining > 0)]: the last row of output. *)
Definition last_row (r : row_state) : mem F :=
  C (while_loop CountN (fun s => 0 <? n_remaining s)
       (fun s =>
          let C' := Compute1x1 (QuantARowPtr r)
                      (QuantBDataColPtr s) (QuantBScaleColPtr s)
                      (QuantBZeroPointColPtr s) (BiasPtr s)
                      (C s) (SumPtr s) BlockCountK in
          next_columns HasZeroPoint 1 StrideQuantBData StrideQuantBScale
            StrideQuantBZeroPoint C' s)
       (first_column (SumRowPtr r) (rC r))).

Definition tile_loops (C0 : mem F) (CPtr : nat) (CountM : nat) : mem F :=
  let r := while_loop CountM (fun r => 1 <? m_remaining r) two_rows
             {| QuantARowPtr := QuantA; SumRowPtr := CPtr;
                m_remaining := CountM; rC := C0 |} in
  if 0 <? m_remaining r then last_row r else rC r.

End Tiles.

Definition SQ4BitGemmKernel_CompInt8_BlkLen16 (HasZeroPoint : bool)
    (QuantA QuantBData QuantBScale QuantBZeroPoint : nat)
    (C0 : mem F) (CPtr : nat) (CountM CountN BlockCountK ldc : nat)
    (Bias : option nat) : mem F :=
  tile_loops (SQ4BitGemm_CompInt8_Compute2x2_BlkLen16 HasZeroPoint)
             (SQ4BitGemm_CompInt8_Compute1x1_BlkLen16 HasZeroPoint)
             HasZeroPoint 16 QuantA QuantBData QuantBScale QuantBZeroPoint
             CountN BlockCountK ldc Bias C0 CPtr CountM.

Definition SQ4BitGemmKernel_CompInt8_BlkLen32 (HasZeroPoint : bool)
    (QuantA QuantBData QuantBScale QuantBZeroPoint : nat)
    (C0 : mem F) (CPtr : nat) (CountM CountN BlockCountK ldc : nat)
    (Bias : option nat) : mem F :=
  tile_loops (SQ4BitGemm_CompInt8_Compute2x2_BlkLenGreaterThan16 HasZeroPoint 32)
             (SQ4BitGemm_CompInt8_Compute1x1_BlkLen32 HasZeroPoint)
             HasZeroPoint 32 QuantA QuantBData QuantBScale QuantBZeroPoint
             CountN BlockCountK ldc Bias C0 CPtr CountM.

Definition SQ4BitGemmKernel_CompInt8_BlkLenGreaterThan32 (HasZeroPoint : bool)
    (BlkLen : nat)
    (QuantA QuantBData QuantBScale QuantBZeroPoint : nat)
    (C0 : mem F) (CPtr : nat) (CountM CountN BlockCountK ldc : nat)
    (Bias : option nat) : mem F :=
  tile_loops (SQ4BitGemm_CompInt8_Compute2x2_BlkLenGreaterThan16 HasZeroPoint BlkLen)
             (SQ4BitGemm_CompInt8_Compute1x1_BlkLenGreaterThan32 HasZeroPoint BlkLen)
             HasZeroPoint BlkLen QuantA QuantBData QuantBScale QuantBZeroPoint
             CountN BlockCountK ldc Bias C0 CPtr CountM.

Definition SQ4BitGemmKernel_CompInt8_DispatchOnBlkLen (HasZeroPoint : bool)
    (BlkLen : nat)
    (QuantA QuantBData QuantBScale QuantBZeroPoint : nat)
    (C0 : mem F) (CPtr : nat) (CountM CountN BlockCountK ldc : nat)
    (Bias : option nat) : mem F :=
  if BlkLen =? 16 then
    SQ4BitGemmKernel_CompInt8_BlkLen16 HasZeroPoint
      QuantA QuantBData QuantBScale QuantBZeroPoint
      C0 CPtr CountM CountN BlockCountK ldc Bias
  else if BlkLen =? 32 then
    SQ4BitGemmKernel_CompInt8_BlkLen32 HasZeroPoint
      QuantA QuantBData QuantBScale QuantBZeroPoint
      C0 CPtr CountM CountN BlockCountK ldc Bias
  else
    SQ4BitGemmKernel_CompInt8_BlkLenGreaterThan32 HasZeroPoint BlkLen
      QuantA QuantBData QuantBScale QuantBZeroPoint
      C0 CPtr CountM CountN BlockCountK ldc Bias.

(** The kernel returns the updated C and the number of rows it has
    processed.  [QuantBZeroPoint] and [Bias] may be null; [CountK] is
    not used. *)
Definition SQ4BitGemmKernel_CompInt8
    (BlkLen : nat)
    (QuantA QuantBData QuantBScale : nat) (QuantBZeroPoint : option nat)
    (C0 : mem F) (CPtr : nat) (CountM CountN CountK BlockCountK ldc : nat)
    (Bias : option nat) : mem F * nat :=
  let C' :=
    match QuantBZeroPoint with
    | Some zp =>
        SQ4BitGemmKernel_CompInt8_DispatchOnBlkLen true BlkLen
          QuantA QuantBData QuantBScale zp
          C0 CPtr CountM CountN BlockCountK ldc Bias
    | None =>
        SQ4BitGemmKernel_CompInt8_DispatchOnBlkLen false BlkLen
          QuantA QuantBData QuantBScale 0
          C0 CPtr CountM CountN BlockCountK ldc Bias
    end in
  (C', CountM).

End Kernel.

End CompInt8.

(** ** Concrete inputs *)

(** ** The product of the float kernel, as the design states it

    [C[n] = sum over k < CountK of A[k] * (q(k,n) - z(block,n)) * s(block,n)],
    plus [Bias[n]] when there is a bias, in exact arithmetic.  [q] is the
    4-bit code of element [k] of column [n] in the packed buffer, [s] the
    scale of its block and [z] the zero-point of its block, 8 when there
    are no zero-points. *)

Module Reference.

Fixpoint sum_below (n : nat) (f : nat -> Qc) : Qc :=
  match n with
  | O => Q2Qc 0
  | S n' => Qcplus (sum_below n' f) (f n')
  end.

Definition of_int (x : Z) : Qc := Q2Qc (inject_Z x).

Section M1.

Variable mA : mem Qc.
Variable mQuantBData : mem Z.
Variable mQuantBScale : mem Qc.
Variable mQuantBZeroPoint : mem Z.
Variable mBias : mem Qc.
Variable BlkLen A QuantBData QuantBScale : nat.
Variable QuantBZeroPoint : option nat.
Variable CountK BlockCountK : nat.
Variable Bias : option nat.

Definition q (k n : nat) : Z :=
  Pack.packed_code 16
    (fun j => mQuantBData
                (QuantBData
                 + n * (BlockCountK * Mlas.MlasQNBitBlkDataSizeInBytes 4 BlkLen) + j))
    k.

Definition s (blk n : nat) : Qc := mQuantBScale (QuantBScale + n * BlockCountK + blk).

Definition z (blk n : nat) : Z :=
  match QuantBZeroPoint with
  | Some zp =>
      zero_point_of_block mQuantBZeroPoint
        (zp + n * Mlas.MlasQNBitZeroPointsForBlksSizeInBytes BlockCountK) blk
  | None => 8%Z
  end.

Definition dot (n : nat) : Qc :=
  sum_below CountK (fun k =>
    Qcmult (Qcmult (mA (A + k))
                   (Qcminus (of_int (q k n)) (of_int (z (k / BlkLen) n))))
           (s (k / BlkLen) n)).

Definition Gemm_M1 (n : nat) : Qc :=
  match Bias with
  | Some b => Qcplus (dot n) (mBias (b + n))
  | None => dot n
  end.

End M1.

End Reference.

(** ** Specification-side views of the kernels

    The values, memories and loop states in terms of which the behaviour
    of the kernels is stated: what a tile stores, the content of C after
    a number of columns and rows, and the terms of the sums. *)

(** *** The float kernel *)

Module Fp32Views.

Import Mlas Neon CompFp32.

Section Generic.

Context {F : Type} {ops : Fp32Ops F}.
Variable mA : mem F.
Variable mQuantBData : mem Z.
Variable mQuantBScale : mem F.
Variable mQuantBZeroPoint : mem Z.
Variable mBias : mem F.
Abbreviation block_step := (block_step mA mQuantBData mQuantBScale mQuantBZeroPoint).
Abbreviation sub_block_step := (sub_block_step mA mQuantBData).
Abbreviation ComputeDotProducts :=
  (ComputeDotProducts_BlkBitWidth4_CompFp32 mA mQuantBData mQuantBScale mQuantBZeroPoint mBias).
Abbreviation column_state := (column_state mA mQuantBData mQuantBScale mQuantBZeroPoint).
Abbreviation column_value := (column_value mA mQuantBData mQuantBScale mQuantBZeroPoint).

Section Columns.

Variable NCols : nat.
Variable HasZeroPoint : bool.
Variable BlkLen ARowPtr CountK : nat.
Variable sB sS sZ : nat.
Variable zpcol : nat.
Variable i : nat.

(** Column [i] of a tile of [NCols] columns and the same column alone. *)
Definition same_column (s : dot_state (F := F)) (s1 : dot_state (F := F)) : Prop :=
  QuantBData s1 = QuantBData s + i * sB /\
  QuantBScale s1 = QuantBScale s + i * sS /\
  QuantBZeroPointIdx s1 = QuantBZeroPointIdx s /\
  varr (acc s1) 0 = varr (acc s) i.

End Columns.

Section Tile.

Variable HasZeroPoint : bool.
Variable BlkLen ARowPtr CountK : nat.
Variable sB sS sZ : nat.

(** The value the kernel stores for the column that lies [i] columns after
    the one the pointers designate. *)
Definition tile_value (bcol scol zpcol : nat) (BiasPtr : option nat) (i : nat) : F :=
  with_bias mBias BiasPtr i
    (column_value HasZeroPoint BlkLen ARowPtr CountK sB sS sZ
       (bcol + i * sB) (scol + i * sS) (zpcol + i * sZ)).

End Tile.

Section Impl.

Variable HasZeroPoint : bool.
Variable BlkLen A QuantBData QuantBScale QuantBZeroPoint : nat.
Variable CPtr CountN CountK BlockCountK : nat.
Variable Bias : option nat.
Let sB := BlockCountK * MlasQNBitBlkDataSizeInBytes CompFp32.BlkBitWidth BlkLen.
Let sS := BlockCountK.
Let sZ := MlasQNBitZeroPointsForBlksSizeInBytes BlockCountK.

(** The value of the output element of column [n]. *)
Definition output_value (n : nat) : F :=
  with_bias mBias Bias n
    (column_value HasZeroPoint BlkLen A CountK sB sS sZ
       (QuantBData + n * sB) (QuantBScale + n * sS) (QuantBZeroPoint + n * sZ)).

Definition zp_ptr (n : nat) : nat :=
  if HasZeroPoint then QuantBZeroPoint + n * sZ else QuantBZeroPoint.

(** The memory after the columns [0 .. n) have been written. *)
Definition filled (C0 : mem F) (n : nat) : mem F :=
  fun p => if in_range CPtr n p then output_value (p - CPtr) else C0 p.

(** The 4-column tile and the 1-column tile at column [c]. *)
Definition tile4 (c : nat) (C : mem F) : mem F :=
  ComputeDotProducts 4 HasZeroPoint BlkLen A (zp_ptr c) CountK sB sS sZ
    (QuantBData + c * sB) (QuantBScale + c * sS) C (CPtr + c) (advance_bias Bias c).

Definition tile1 (c : nat) (C : mem F) : mem F :=
  ComputeDotProducts 1 HasZeroPoint BlkLen A (zp_ptr c) CountK sB sS sZ
    (QuantBData + c * sB) (QuantBScale + c * sS) C (CPtr + c) (advance_bias Bias c).

(** The state of the loop over the 4-column tiles after [t] of them. *)
Definition tiles4_state (C0 : mem F) (t : nat) : col_state :=
  {| QuantBDataColPtr := QuantBData + 4 * t * sB;
     QuantBScaleColPtr := QuantBScale + 4 * t * sS;
     QuantBZeroPointColPtr_ := zp_ptr (4 * t);
     BiasPtr := advance_bias Bias (4 * t);
     SumPtr := CPtr + 4 * t;
     C := for_up t (fun t => tile4 (4 * t)) C0;
     nblk := (Z.of_nat CountN - 4 - 4 * Z.of_nat t)%Z |}.

(** The state of the loop over the remaining columns after [i] of them. *)
Definition tiles1_state (C1 : mem F) (c : nat) (r : Z) (i : nat) : col_state :=
  {| QuantBDataColPtr := QuantBData + (c + i) * sB;
     QuantBScaleColPtr := QuantBScale + (c + i) * sS;
     QuantBZeroPointColPtr_ := zp_ptr (c + i);
     BiasPtr := advance_bias Bias (c + i);
     SumPtr := CPtr + (c + i);
     C := for_up i (fun i => tile1 (c + i)) C1;
     nblk := r |}.

End Impl.

End Generic.

End Fp32Views.

(** *** The integer kernel *)

Module Int8Views.

Import Mlas Neon Q8 CompInt8.

Section Generic.

Context {F : Type} {ops : Fp32Ops F}.
Variable mQuantA : Q8Mem F.
Variable mQuantBData : mem Z.
Variable mQuantBScale : mem F.
Variable mQuantBZeroPoint : mem Z.
Variable mBias : mem F.
Abbreviation with_bias := (CompInt8.with_bias mBias).
Abbreviation store2x2 := (CompInt8.store2x2 mBias).
Abbreviation store1x1 := (CompInt8.store1x1 mBias).

(** What a tile routine stores, as a function of the address: the four
    elements of a 2x2 tile, and the element of a 1x1 tile. *)
Definition stored2x2 (v : nat -> nat -> F) (BiasPtr : option nat)
    (C : mem F) (SumPtr ldc : nat) : mem F :=
  fun p =>
    if p =? SumPtr + 0 then with_bias BiasPtr 0 (v 0 0)
    else if p =? SumPtr + 1 then with_bias BiasPtr 1 (v 0 1)
    else if p =? SumPtr + (ldc + 0) then with_bias BiasPtr 0 (v 1 0)
    else if p =? SumPtr + (ldc + 1) then with_bias BiasPtr 1 (v 1 1)
    else C p.

Definition stored1x1 (v : F) (BiasPtr : option nat) (C : mem F) (SumPtr : nat) : mem F :=
  fun p => if p =? SumPtr then with_bias BiasPtr 0 v else C p.

(** The sums of a 2x2 tile by row and column. *)
Definition sums2x2 (st : tile2x2_state (F := F)) (r c : nat) : F :=
  match r, c with
  | 0, 0 => vaddvq_f32 (acc00 st)
  | 0, _ => vaddvq_f32 (acc01 st)
  | _, 0 => vaddvq_f32 (acc10 st)
  | _, _ => vaddvq_f32 (acc11 st)
  end.

Definition sum1x1 (st : tile1x1_state (F := F)) : F :=
  fadd (vaddvq_f32 (acc0 st)) (vaddvq_f32 (acc1 st)).

Section Driver.

Variable Compute2x2 : compute2x2_t (F := F).
Variable Compute1x1 : compute1x1_t (F := F).
Variable HasZeroPoint : bool.
Variable BlkLen : nat.
Variables QuantA QuantBData QuantBScale QuantBZeroPoint : nat.
Variables CountN BlockCountK ldc : nat.
Variable Bias : option nat.
Let sA := StrideQuantA BlkLen BlockCountK.
Let sB := StrideQuantBData BlkLen BlockCountK.
Let sS := StrideQuantBScale BlockCountK.
Let sZ := StrideQuantBZeroPoint BlockCountK.
Variable V2 : nat -> nat -> nat -> nat -> nat -> nat -> F.
Variable V1 : nat -> nat -> nat -> nat -> F.

(** The pointers of column [n]. *)
Definition colB (n : nat) : nat := QuantBData + n * sB.

Definition colS (n : nat) : nat := QuantBScale + n * sS.

Definition colZ (n : nat) : nat :=
  if HasZeroPoint then QuantBZeroPoint + n * sZ else QuantBZeroPoint.

(** The sum of column [n] in row [r] of the pair of rows at [a], and in
    the single row at [a]. *)
Definition pair_sum (a r n : nat) : F :=
  if n <? 2 * (CountN / 2)
  then V2 a (colB (2 * (n / 2))) (colS (2 * (n / 2))) (colZ (2 * (n / 2))) r (n mod 2)
  else V1 (a + r * sA) (colB n) (colS n) (colZ n).

Definition single_sum (a n : nat) : F := V1 a (colB n) (colS n) (colZ n).

(** The state of the loops over the columns when [c] columns are done. *)
Definition at_column (c : nat) (sr : nat) (s : col_state (F := F)) : Prop :=
  QuantBDataColPtr s = colB c /\
  QuantBScaleColPtr s = colS c /\
  QuantBZeroPointColPtr s = colZ c /\
  BiasPtr s = advance_bias Bias c /\
  SumPtr s = sr + c /\
  n_remaining s = CountN - c.

(** The memory after [c] columns of the pair of rows at [a], whose
    output starts at [sr]. *)
Definition pair_filled (a sr : nat) (Cin : mem F) (c : nat) : mem F :=
  fun p =>
    if in_range sr c p then with_bias Bias (p - sr) (pair_sum a 0 (p - sr))
    else if in_range (sr + ldc) c p
         then with_bias Bias (p - (sr + ldc)) (pair_sum a 1 (p - (sr + ldc)))
         else Cin p.

Definition single_filled (a sr : nat) (Cin : mem F) (c : nat) : mem F :=
  fun p =>
    if in_range sr c p then with_bias Bias (p - sr) (single_sum a (p - sr))
    else Cin p.

Abbreviation two_rows :=
  (CompInt8.two_rows Compute2x2 Compute1x1 HasZeroPoint BlkLen
     QuantBData QuantBScale QuantBZeroPoint CountN BlockCountK ldc Bias).
Abbreviation last_row :=
  (CompInt8.last_row Compute1x1 HasZeroPoint BlkLen
     QuantBData QuantBScale QuantBZeroPoint CountN BlockCountK Bias).
Abbreviation first_column :=
  (CompInt8.first_column QuantBData QuantBScale QuantBZeroPoint CountN Bias).

Section Rows.

Variable CPtr CountM : nat.
Variable C0 : mem F.

(** The sum of the element of row [m] and column [n], before the bias,
    and the value the kernel stores for it. *)
Definition element_sum (m n : nat) : F :=
  if m <? 2 * (CountM / 2)
  then pair_sum (QuantA + 2 * (m / 2) * sA) (m mod 2) n
  else single_sum (QuantA + m * sA) n.

Definition element_value (m n : nat) : F := with_bias Bias n (element_sum m n).

Definition rows_done (t : nat) (r : row_state (F := F)) : Prop :=
  QuantARowPtr r = QuantA + 2 * t * sA /\
  SumRowPtr r = CPtr + 2 * t * ldc /\
  m_remaining r = CountM - 2 * t /\
  forall m n, m < 2 * t -> n < CountN ->
    rC r (CPtr + m * ldc + n) = element_value m n.

End Rows.

End Driver.

End Generic.

End Int8Views.

(** *** The float kernel in exact arithmetic *)

Module ExactViews.

Import Mlas Neon CompFp32.

#[local] Existing Instance Exact.ops.
Abbreviation of_int := Reference.of_int.
Abbreviation sum_below := Reference.sum_below.

Section Column.

Variable mA : mem Qc.
Variable mQuantBData : mem Z.
Variable mQuantBScale : mem Qc.
Variable mQuantBZeroPoint : mem Z.

(** Element [t] of the sub-block of sixteen codes whose packed bytes
    start at [p]. *)
Definition code_at (p t : nat) : Z :=
  if t <? 8 then Byte8.lo (mQuantBData (p + t))
  else Byte8.hi (mQuantBData (p + (t - 8))).

Variable HasZeroPoint : bool.
Variable BlkLen A CountK sB : nat.

(** The contribution of element [t] of a sub-block: the element of A,
    zero past the end of the row, times the dequantized element of B. *)
Definition sub_block_term (p : nat) (offv sc : Qc) (src count : nat) (t : nat) : Qc :=
  Qcmult (padded mA src count t)
         (Qcmult (Qcminus (Qcplus (of_int 16) (of_int (code_at p t))) offv) sc).

Variable sS sZ bcol scol zcol : nat.
Variable m : nat.

(** The terms of the sum of the design for this column: code, zero-point
    and scale of element [k], and its product with the element of A. *)
Definition code (k : nat) : Z :=
  Pack.packed_code 16 (fun j => mQuantBData (bcol + j)) k.

Definition zp_of (b : nat) : Z :=
  if HasZeroPoint then zero_point_of_block mQuantBZeroPoint zcol b else 8%Z.

Definition term (k : nat) : Qc :=
  Qcmult (Qcmult (mA (A + k))
                 (Qcminus (of_int (code k)) (of_int (zp_of (k / BlkLen)))))
         (mQuantBScale (scol + k / BlkLen)).

Definition padded_term (k : nat) : Qc := if k <? CountK then term k else Q2Qc 0.

(** The state of the loop over the blocks when [b] blocks are done. *)
Definition at_block (b : nat) (st : dot_state (F := Qc)) : Prop :=
  QuantBData st = bcol + b * (8 * m) /\
  QuantBScale st = scol + b /\
  QuantBZeroPointIdx st = (if HasZeroPoint then b else 0).

End Column.

End ExactViews.

Module Examples.

Import Binary32.

(** [z / 2] as a binary32 number. *)
Definition halves (z : Z) : spec_float := SFdiv prec emax (of_Z z) (of_Z 2).

Definition of_list {T} (d : T) (l : list T) : mem T := fun i => nth i l d.

(** A block of sixteen values whose largest magnitude is 127, so that the
    scale is 1, with several values halfway between two integers:
    127, 2.5, -2.5, 0.5, -0.5, 1.5, -1.5, 3.5, 100, -127 and zeros. *)
Definition tie_block : mem spec_float :=
  of_list zero
    [ of_Z 127; halves 5; halves (-5); halves 1; halves (-1); halves 3;
      halves (-3); halves 7; of_Z 100; of_Z (-127) ].

(** A workspace whose content is not yet defined: every scale and every
    code holds an arbitrary value. *)
Definition dirty_workspace : Q8Mem spec_float :=
  Build_Q8Mem (fun _ => of_Z 77) (fun _ => 99%Z).

(** A row of twenty values, 1, 2, ..., 20. *)
Definition row20 : mem spec_float := fun i => of_Z (Z.of_nat i + 1).

(** Operands of the integer kernel for BlkLen = 64 and two blocks of K:
    every code of A is 1 and every scale of A is 1; every code of B is 3
    (packed bytes 0x33) and every scale of B is 1; every zero-point byte is
    0x37, so that the zero-point of an even block is 7 and the zero-point
    of an odd block is 3.  Every element of the product is then
    64 * (3 - 7) + 64 * (3 - 3) = -256. *)
Definition ones_QuantA : Q8Mem spec_float :=
  Build_Q8Mem (fun _ => of_Z 1) (fun _ => 1%Z).
Definition threes_QuantBData : mem Z := fun _ => 0x33%Z.
Definition ones_QuantBScale : mem spec_float := fun _ => of_Z 1.
Definition zp37_QuantBZeroPoint : mem Z := fun _ => 0x37%Z.
Definition no_bias : mem spec_float := fun _ => zero.
Definition zero_C : mem spec_float := fun _ => zero.

(** Operands whose products are large: every element of A, and every
    scale of the quantized A, is 2^25; every code of B is 9 (packed bytes
    0x99) with the default zero-point 8 and the scale 1; every element of
    the bias is 1.  A block of sixteen elements contributes
    16 * 2^25 * (9 - 8) = 2^29, and the binary32 neighbours of 2^29 are
    64 apart. *)
Definition big_A : mem spec_float := fun _ => of_Z (2 ^ 25).
Definition big_QuantA : Q8Mem spec_float :=
  Build_Q8Mem (fun _ => of_Z (2 ^ 25)) (fun _ => 1%Z).
Definition nines_QuantBData : mem Z := fun _ => 0x99%Z.
Definition unit_bias : mem spec_float := fun _ => of_Z 1.

(** Operands in exact arithmetic: every element of A and every scale is
    1/3, every code of A is 1, every code of B is 9 and every element of
    the bias is 1/7. *)
Definition exact_A : mem Qc := fun _ => Q2Qc (1 # 3).
Definition exact_QuantA : Q8Mem Qc :=
  Build_Q8Mem (fun _ => Q2Qc (1 # 3)) (fun _ => 1%Z).
Definition exact_QuantBScale : mem Qc := fun _ => Q2Qc (1 # 3).
Definition exact_bias : mem Qc := fun _ => Q2Qc (1 # 7).
Definition exact_C : mem Qc := fun _ => Q2Qc 0.

End Examples.


(** ** Dequantization of B for the dense fallback

    Q4BitBlkDequantB_16xNCols and Q4BitBlkDequantBForSgemm_CompFp32: the
    packed B is turned into floats, sixteen columns at a time, for a
    dense SGEMM. *)

Module DequantB.

Import CompFp32.

Section Float.

Context {F : Type} {ops : Fp32Ops F}.

Definition vgetq_lane_f32 (v : list F) (l : nat) : F := flane v l.

(** [vst1q_f32 (p, v)] *)
Definition vst1q_f32 (m : mem F) (p : nat) (v : list F) : mem F :=
  for_up 4 (fun t m => store m (p + t) (flane v t)) m.

(** An array of integer vectors. *)
Definition zarr (a : list (list Z)) (i : nat) : list Z := nth i a [].

(** The buffers the routines read: the packed codes of B, its scales and
    its packed zero-points. *)
Variable mQuantBData : mem Z.
Variable mQuantBScale : mem F.
Variable mQuantBZeroPoint : mem Z.

(** Block dequantize a 16 x NCols section of B from column major source
    to row major destination.  [scale] and [offset] are the arrays the
    pointers QuantBColScalePtr and QuantBColOffsetPtr point into; the
    latter pointer is null, and not read, when HasZeroPoint is false. *)
Definition Q4BitBlkDequantB_16xNCols (NCols : nat) (HasZeroPoint : bool)
    (QuantBDataPtr StrideQuantBData : nat)
    (scale : mem F) (QuantBColScalePtr : nat)
    (offset : mem F) (QuantBColOffsetPtr : nat)
    (Dst : mem F) (DstColPtr : nat) : mem F :=
  let LowMask := vdup_n_u8 0x0F in
  let bv_packed := tabulate NCols (fun i =>
                     vld1_u8 mQuantBData (QuantBDataPtr + i * StrideQuantBData)) in
  let bv_u8 := tabulate NCols (fun i =>
                 (vand_u8 (zarr bv_packed i) LowMask, vshr_n_u8 (zarr bv_packed i) 4)) in
  let u8 i := nth i bv_u8 ([], []) in
  let bv_u16 := tabulate NCols (fun i =>
                  (vshll_n_u8 (fst (u8 i)) 3, vshll_n_u8 (snd (u8 i)) 3)) in
  let u16 i := nth i bv_u16 ([], []) in
  let bv_u16 := tabulate NCols (fun i =>
                  (vorrq_u16 (fst (u16 i)) fp32_conversion.float_high_half_template_v,
                   vorrq_u16 (snd (u16 i)) fp32_conversion.float_high_half_template_v)) in
  let u16 i := nth i bv_u16 ([], []) in
  let bv := tabulate NCols (fun i =>
              [ vreinterpretq_f32_u32 (vshll_n_u16 (vget_low_u16 (fst (u16 i))) 16);
                vreinterpretq_f32_u32 (vshll_high_n_u16 (fst (u16 i)) 16);
                vreinterpretq_f32_u32 (vshll_n_u16 (vget_low_u16 (snd (u16 i))) 16);
                vreinterpretq_f32_u32 (vshll_high_n_u16 (snd (u16 i)) 16) ]) in
  let bv :=
    if HasZeroPoint then
      tabulate NCols (fun i =>
        let offset_v := vdupq_n_f32 (offset (QuantBColOffsetPtr + i)) in
        tabulate 4 (fun j => vsubq_f32 (varr (nth i bv []) j) offset_v))
    else
      let offset_v := vdupq_n_f32 (fadd fp32_conversion.offset (f_of_Z 8)) in
      tabulate NCols (fun i =>
        tabulate 4 (fun j => vsubq_f32 (varr (nth i bv []) j) offset_v)) in
  let bv := tabulate NCols (fun i =>
              let scale_v := vdupq_n_f32 (scale (QuantBColScalePtr + i)) in
              tabulate 4 (fun j => vmulq_f32 (varr (nth i bv []) j) scale_v)) in
  let b i j := varr (nth i bv []) j in
  if NCols =? 4 then
    for_up 4 (fun j Dst =>
      let '(b0, b1, b2, b3) := Transpose4x4 (b 0 j) (b 1 j) (b 2 j) (b 3 j) in
      let Dst := vst1q_f32 Dst (DstColPtr + (j * 4 + 0) * 16) b0 in
      let Dst := vst1q_f32 Dst (DstColPtr + (j * 4 + 1) * 16) b1 in
      let Dst := vst1q_f32 Dst (DstColPtr + (j * 4 + 2) * 16) b2 in
      vst1q_f32 Dst (DstColPtr + (j * 4 + 3) * 16) b3) Dst
  else
    for_up NCols (fun i Dst =>
      for_up 4 (fun j Dst =>
        let Dst := store Dst (DstColPtr + ((j * 4 + 0) * 16 + i))
                     (vgetq_lane_f32 (b i j) 0) in
        let Dst := store Dst (DstColPtr + ((j * 4 + 1) * 16 + i))
                     (vgetq_lane_f32 (b i j) 1) in
        let Dst := store Dst (DstColPtr + ((j * 4 + 2) * 16 + i))
                     (vgetq_lane_f32 (b i j) 2) in
        store Dst (DstColPtr + ((j * 4 + 3) * 16 + i))
          (vgetq_lane_f32 (b i j) 3)) Dst) Dst.

(** The local arrays [scale] and [offset] and the destination. *)
Record buffers := {
  scale : mem F;
  offset : mem F;
  FpData : mem F
}.

(** State of the loop over the blocks of K of a group of columns. *)
Record blk_state := {
  k_blk_idx : nat;
  Dst : nat;
  buf : buffers
}.

(** State of the loop over the groups of sixteen columns. *)
Record col_state := {
  n_cols_remaining : nat;
  QuantBDataCol : nat;
  QuantBScaleCol : nat;
  QuantBZeroPointCol : nat;
  cDst : nat;
  cbuf : buffers
}.

Section Impl.

Variable HasZeroPoint : bool.
Variable BlkLen : nat.
Variable CountK BlockCountK : nat.

Definition BlkBitWidth : nat := 4.

Definition StrideQuantBData : nat :=
  BlockCountK * MlasQNBitBlkDataSizeInBytes BlkBitWidth BlkLen.
Definition StrideQuantBZeroPoint : nat :=
  MlasQNBitZeroPointsForBlksSizeInBytes BlockCountK.

(** The loop over [nn] that fills [scale] and [offset] for a block. *)
Definition load_scales (ncols : nat) (QuantBScaleCol QuantBZeroPointCol : nat)
    (k_blk_idx : nat) (b : buffers) : buffers :=
  for_up ncols (fun nn b =>
    let scale' := store (scale b) nn
                    (mQuantBScale (QuantBScaleCol + (nn * BlockCountK + k_blk_idx))) in
    let offset' :=
      if HasZeroPoint then
        let zp_packed :=
          mQuantBZeroPoint
            (QuantBZeroPointCol + (nn * StrideQuantBZeroPoint + k_blk_idx / 2)) in
        let zp := if Z.eqb (Z.land (Z.of_nat k_blk_idx) 1) 1
                  then Byte8.shr zp_packed 4
                  else Byte8.band zp_packed 15 in
        store (offset b) nn (fadd fp32_conversion.offset (f_of_Z zp))
      else offset b in
    {| scale := scale'; offset := offset'; FpData := FpData b |}) b.

(** State of the loops over [nn] that call Q4BitBlkDequantB_16xNCols. *)
Record tile_state := {
  ScalePtr : nat;
  OffsetPtr : nat;
  DstColPtr : nat;
  tFpData : mem F
}.

(** One iteration of [for (kk = 0; kk < kklen; kk += 16)] in a group of
    sixteen columns. *)
Definition sub_block_16 (QuantBDataCol : nat) (k kklen : nat) (kk : nat)
    (s : blk_state) : blk_state :=
  let NCols := 4 in
  let t := for_step 16 NCols (fun nn t =>
             let QuantBDataPtr :=
               QuantBDataCol + nn * StrideQuantBData + (k + kk) * BlkBitWidth / 8 in
             {| ScalePtr := ScalePtr t + NCols;
                OffsetPtr := if HasZeroPoint then OffsetPtr t + NCols else OffsetPtr t;
                DstColPtr := DstColPtr t + NCols;
                tFpData :=
                  Q4BitBlkDequantB_16xNCols NCols HasZeroPoint
                    QuantBDataPtr StrideQuantBData
                    (scale (buf s)) (ScalePtr t) (offset (buf s)) (OffsetPtr t)
                    (tFpData t) (DstColPtr t) |})
             {| ScalePtr := 0; OffsetPtr := 0; DstColPtr := Dst s;
                tFpData := FpData (buf s) |} in
  {| k_blk_idx := k_blk_idx s;
     Dst := Dst s + 16 * Nat.min (kklen - kk) 16;
     buf := {| scale := scale (buf s); offset := offset (buf s);
               FpData := tFpData t |} |}.

(** The same for the last, narrower group of columns: the 16 x 16 block
    of the destination is zeroed first. *)
Definition sub_block_rem (ncols : nat) (QuantBDataCol : nat) (k kklen : nat) (kk : nat)
    (s : blk_state) : blk_state :=
  let zero_v := vdupq_n_f32 (f_of_Z 0) in
  let zeroed := for_up (16 * 4) (fun i m => vst1q_f32 m (Dst s + 4 * i) zero_v)
                  (FpData (buf s)) in
  let t := for_up ncols (fun nn t =>
             let QuantBDataPtr :=
               QuantBDataCol + nn * StrideQuantBData + (k + kk) * BlkBitWidth / 8 in
             {| ScalePtr := ScalePtr t + 1;
                OffsetPtr := if HasZeroPoint then OffsetPtr t + 1 else OffsetPtr t;
                DstColPtr := DstColPtr t + 1;
                tFpData :=
                  Q4BitBlkDequantB_16xNCols 1 HasZeroPoint
                    QuantBDataPtr StrideQuantBData
                    (scale (buf s)) (ScalePtr t) (offset (buf s)) (OffsetPtr t)
                    (tFpData t) (DstColPtr t) |})
             {| ScalePtr := 0; OffsetPtr := 0; DstColPtr := Dst s; tFpData := zeroed |} in
  {| k_blk_idx := k_blk_idx s;
     Dst := Dst s + 16 * Nat.min (kklen - kk) 16;
     buf := {| scale := scale (buf s); offset := offset (buf s);
               FpData := tFpData t |} |}.

(** One iteration of [for (k = 0, k_blk_idx = 0; k < CountK; ...)]:
    [ncols] is 16 in the loop over the full groups. *)
Definition block_step (full : bool) (ncols : nat)
    (QuantBDataCol QuantBScaleCol QuantBZeroPointCol : nat)
    (k : nat) (s : blk_state) : blk_state :=
  let b := load_scales ncols QuantBScaleCol QuantBZeroPointCol (k_blk_idx s) (buf s) in
  let kklen := Nat.min (CountK - k) BlkLen in
  let s' := for_step kklen 16
              (if full then sub_block_16 QuantBDataCol k kklen
               else sub_block_rem ncols QuantBDataCol k kklen)
              {| k_blk_idx := k_blk_idx s; Dst := Dst s; buf := b |} in
  {| k_blk_idx := k_blk_idx s' + 1; Dst := Dst s'; buf := buf s' |}.

(** The loop over the blocks of K for one group of columns. *)
Definition group (full : bool) (ncols : nat) (c : col_state) : nat * buffers :=
  let s := for_step CountK BlkLen
             (block_step full ncols (QuantBDataCol c) (QuantBScaleCol c)
                (QuantBZeroPointCol c))
             {| k_blk_idx := 0; Dst := cDst c; buf := cbuf c |} in
  (Dst s, buf s).

(** [scale0] and [offset0] are the contents, not initialised, of the
    local arrays when the routine is entered. *)
Definition Q4BitBlkDequantBForSgemm_CompFp32_Impl
    (scale0 offset0 : mem F)
    (FpData0 : mem F) (FpDataPtr : nat)
    (QuantBData QuantBScale QuantBZeroPoint : nat)
    (CountN : nat) : mem F :=
  let c0 := {| n_cols_remaining := CountN;
               QuantBDataCol := QuantBData;
               QuantBScaleCol := QuantBScale;
               QuantBZeroPointCol := QuantBZeroPoint;
               cDst := FpDataPtr;
               cbuf := {| scale := scale0; offset := offset0; FpData := FpData0 |} |} in
  let c1 :=
    while_loop CountN (fun c => 15 <? n_cols_remaining c)
      (fun c =>
         let '(Dst', b') := group true 16 c in
         {| n_cols_remaining := n_cols_remaining c - 16;
            QuantBDataCol := QuantBDataCol c + 16 * StrideQuantBData;
            QuantBScaleCol := QuantBScaleCol c + 16 * BlockCountK;
            QuantBZeroPointCol :=
              if HasZeroPoint
              then QuantBZeroPointCol c + 16 * StrideQuantBZeroPoint
              else QuantBZeroPointCol c;
            cDst := Dst';
            cbuf := b' |})
      c0 in
  if 0 <? n_cols_remaining c1
  then FpData (snd (group false (n_cols_remaining c1) c1))
  else FpData (cbuf c1).

End Impl.

(** [QuantBZeroPoint] may be null. *)
Definition Q4BitBlkDequantBForSgemm_CompFp32
    (scale0 offset0 : mem F)
    (BlkLen : nat) (FpData0 : mem F) (FpDataPtr : nat)
    (QuantBData QuantBScale : nat) (QuantBZeroPoint : option nat)
    (CountN CountK BlockCountK : nat) : mem F :=
  match QuantBZeroPoint with
  | Some zp =>
      Q4BitBlkDequantBForSgemm_CompFp32_Impl true BlkLen CountK BlockCountK
        scale0 offset0 FpData0 FpDataPtr QuantBData QuantBScale zp CountN
  | None =>
      Q4BitBlkDequantBForSgemm_CompFp32_Impl false BlkLen CountK BlockCountK
        scale0 offset0 FpData0 FpDataPtr QuantBData QuantBScale 0 CountN
  end.

End Float.

End DequantB.

(** *** Specification-side views of the dequantization *)

Module DequantViews.

Import CompFp32 DequantB.

(** A nullable zero-point pointer: whether it is set, and its target. *)
Definition has_zero_point (QuantBZeroPoint : option nat) : bool :=
  match QuantBZeroPoint with Some _ => true | None => false end.

Definition zero_point_ptr (QuantBZeroPoint : option nat) : nat :=
  match QuantBZeroPoint with Some zp => zp | None => 0 end.

Section Float.

Context {F : Type} {ops : Fp32Ops F}.

Variable mQuantBData : mem Z.
Variable mQuantBScale : mem F.
Variable mQuantBZeroPoint : mem Z.

(** Element [t] of the sixteen floats that the steps shared with the
    float kernel make of the sub-block whose packed bytes start at [p]. *)
Definition sub_block_elem (HasZeroPoint : bool) (p : nat) (offv sc : F) (t : nat) : F :=
  flane (varr (dequant_sub_block mQuantBData HasZeroPoint p offv sc) (t / 4)) (t mod 4).

(** What Q4BitBlkDequantB_16xNCols leaves in the destination: row [r] of
    column [c] of the section is element [r] of the sub-block of the
    column. *)
Definition section_written (NCols : nat) (HasZeroPoint : bool)
    (QuantBDataPtr StrideQuantBData : nat)
    (scale : mem F) (QuantBColScalePtr : nat)
    (offset : mem F) (QuantBColOffsetPtr : nat)
    (Dst : mem F) (DstColPtr : nat) : mem F :=
  fun q =>
    if in_range DstColPtr 256 q && ((q - DstColPtr) mod 16 <? NCols)
    then
      let c := (q - DstColPtr) mod 16 in
      sub_block_elem HasZeroPoint (QuantBDataPtr + c * StrideQuantBData)
        (offset (QuantBColOffsetPtr + c)) (scale (QuantBColScalePtr + c))
        ((q - DstColPtr) / 16)
    else Dst q.

(** What an iteration of the loop over [kk] leaves in the destination:
    the 16 x 16 block at [D] holds the elements of the sub-block in its
    first [ncols] columns and zeros in the others. *)
Definition block_written (ncols : nat) (HasZeroPoint : bool)
    (p StrideQuantBData : nat) (scale offset : mem F)
    (Dst : mem F) (D : nat) : mem F :=
  fun q =>
    if in_range D 256 q then
      let c := (q - D) mod 16 in
      if c <? ncols
      then sub_block_elem HasZeroPoint (p + c * StrideQuantBData)
             (offset c) (scale c) ((q - D) / 16)
      else fzero
    else Dst q.

(** The bit pattern of the float [16 + q] that the routines build from
    the 4-bit code [q]. *)
Definition template_bits (q : Z) : Z :=
  Z.shiftl (Z.lor (Z.shiftl q 3) fp32_conversion.float_high_half_template) 16.

Section Impl.

Variable HasZeroPoint : bool.
Variable BlkLen : nat.
Variable CountK BlockCountK : nat.
Variable FpData0 : mem F.
Variable FpDataPtr : nat.
Variable QuantBData QuantBScale QuantBZeroPoint : nat.
Variable CountN : nat.

(** The 4-bit code of element [k] of column [n] and the zero-point of
    block [blk] of column [n], as the packed buffers hold them. *)
Definition code (k n : nat) : Z :=
  Pack.packed_code 16
    (fun j => mQuantBData (QuantBData + n * StrideQuantBData BlkLen BlockCountK + j)) k.

Definition zero_point (blk n : nat) : Z :=
  if HasZeroPoint
  then zero_point_of_block mQuantBZeroPoint
         (QuantBZeroPoint + n * StrideQuantBZeroPoint BlockCountK) blk
  else 8%Z.

Definition block_scale (blk n : nat) : F :=
  mQuantBScale (QuantBScale + n * BlockCountK + blk).

(** The conversion offset of block [blk] of column [n], the zero-point
    included. *)
Definition zp_offset (n blk : nat) : F :=
  fadd fp32_conversion.offset
    (f_of_Z (load_zero_point mQuantBZeroPoint
               (QuantBZeroPoint + n * StrideQuantBZeroPoint BlockCountK) blk)).

(** The float the routine makes of element [k] of column [n]. *)
Definition dequantized (k n : nat) : F :=
  sub_block_elem HasZeroPoint
    (QuantBData + n * StrideQuantBData BlkLen BlockCountK + k / 16 * 8)
    (zp_offset n (k / BlkLen))
    (mQuantBScale (QuantBScale + n * BlockCountK + k / BlkLen))
    (k mod 16).

(** The address of element [k] of column [n] in the destination: the
    groups of sixteen columns follow one another, each row-major with
    rows of sixteen floats. *)
Definition address (k n : nat) : nat :=
  FpDataPtr + n / 16 * (16 * CountK) + 16 * k + n mod 16.

(** The content of the destination at [q], for the addresses of the
    rows [0 .. CountK) of the groups. *)
Definition content (q : nat) : F :=
  let off := q - FpDataPtr in
  let g := off / (16 * CountK) in
  let k := off mod (16 * CountK) / 16 in
  let c := off mod 16 in
  if 16 * g + c <? CountN then dequantized k (16 * g + c) else fzero.

(** The number of rows past [CountK] that the last sub-block of a group
    overwrites. *)
Definition overrun : nat := MlasDivRoundup CountK 16 * 16 - CountK.

(** The loops over the sub-blocks have reached row [x] of group [g]. *)
Definition written_up_to (g x : nat) (Dst : nat) (m : mem F) : Prop :=
  let base := FpDataPtr + g * (16 * CountK) in
  Dst = base + 16 * x /\
  (forall q, FpDataPtr <= q -> q < base + 16 * x -> m q = content q) /\
  (forall q, q < FpDataPtr \/
             base + 16 * Nat.max (MlasDivRoundup x 16 * 16) overrun <= q ->
             m q = FpData0 q).

(** The arrays [scale] and [offset] hold the values of block [b] of the
    first [ncols] columns of group [g]. *)
Definition scales_loaded (g ncols b : nat) (bf : buffers (F := F)) : Prop :=
  forall c, c < ncols ->
    scale bf c = mQuantBScale (QuantBScale + (16 * g + c) * BlockCountK + b) /\
    (HasZeroPoint = true -> offset bf c = zp_offset (16 * g + c) b).

End Impl.

End Float.

End DequantViews.

(** ** Operands of the examples of the dequantization *)

Module DequantExamples.

Import Binary32 Examples.

(** The local arrays of the dequantization routine hold these values,
    which it never reads, when it is entered. *)
Definition stale_scales : mem spec_float := fun _ => of_Z 77.
Definition stale_offsets : mem spec_float := fun _ => of_Z 99.

(** A destination whose every element is 5. *)
Definition fives : mem spec_float := fun _ => of_Z 5.

End DequantExamples.

(** ** The workspace of the quantized rows of A *)

Module Workspace.

Import SizeT.
Local Open Scope Z_scope.

(** Modelled from the spec: Q8BlkSize is declared in a header that is
    not part of the sources; a quantized block is "a float32 scale and
    BlkLen signed int8 codes".  This is [Mlas.Q8BlkSize] on [size_t]. *)
Definition Q8BlkSize (BlkLen : Z) : Z := add 4 BlkLen.

(** SQ4BitGemmPerGemmWorkspaceSize; [N] is not used. *)
Definition SQ4BitGemmPerGemmWorkspaceSize
    (M N K BlkLen : Z) (ComputeType : MLAS_SQNBIT_GEMM_COMPUTE_TYPE) : Z :=
  match ComputeType with
  | CompInt8 =>
      let BlockCountK := MlasDivRoundup K BlkLen in
      let PerGemmWorkspaceSize := mul (mul M BlockCountK) (Q8BlkSize BlkLen) in
      PerGemmWorkspaceSize
  | _ => 0
  end.

End Workspace.

(** *** Specification-side views of the quantized row *)

Module QuantizeViews.

Import Quantize.

Section Generic.

Context {F : Type} {ops : Fp32Ops F}.
Variable mA : mem F.
Variable BlkLen A CountK QuantAPtr : nat.

(** Block [b] of the row: where its elements start, how many of them
    lie in the row, and where its quantized form starts. *)
Definition block_start (b : nat) : nat := A + b * BlkLen.
Definition block_len (b : nat) : nat := Nat.min (CountK - b * BlkLen) BlkLen.
Definition block_ptr (b : nat) : nat := QuantAPtr + b * Q8BlkSize BlkLen.

(** The workspace [m'] holds the quantized form of block [b]: the scale
    of the block, the codes of its elements, and zeros up to its end. *)
Definition block_done (m' : Q8Mem F) (b : nat) : Prop :=
  exists scale r,
    checked_div (block_amax mA (block_start b) (block_len b)) (f_of_Z 127) = Some scale /\
    reciprocal_of scale = Some r /\
    Q8BlkScale m' (block_ptr b) = scale /\
    forall t, t < BlkLen ->
      q8_data m' (Q8BlkData (block_ptr b) + t)
      = if t <? MlasDivRoundup (block_len b) 16 * 16
        then quantized r (padded mA (block_start b) (block_len b) t)
        else 0%Z.

(** The workspace [m'] is [m] outside the first [n] blocks. *)
Definition outside (m m' : Q8Mem F) (n : nat) : Prop :=
  forall p, p < QuantAPtr \/ QuantAPtr + n * Q8BlkSize BlkLen <= p ->
    q8_scale m' p = q8_scale m p /\ q8_data m' p = q8_data m p.

(** One iteration of the loop of QuantizeARow_CompInt8 over the blocks. *)
Definition row_step (k : nat) (s : row_state (F := F)) : row_state :=
  {| ADataBlkPtr := ADataBlkPtr s + BlkLen;
     QuantABlkPtr := QuantABlkPtr s + Q8BlkSize BlkLen;
     QuantA :=
       match QuantA s with
       | Some m => QuantizeBlock mA BlkLen (ADataBlkPtr s)
                     (Nat.min (CountK - k) BlkLen) m (QuantABlkPtr s)
       | None => None
       end |}.

End Generic.

End QuantizeViews.

(** ** Further operands of the examples *)

Module KernelExamples.

Import Binary32 Examples.

(** Zero-points that are all 8: every byte is 0x88. *)
Definition zp88_QuantBZeroPoint : mem Z := fun _ => 0x88%Z.

(** A buffer that holds the row 1, 2, ..., 20 and other values after
    it. *)
Definition row20_then_sevens : mem spec_float :=
  fun i => if i <? 20 then row20 i else of_Z 7.

End KernelExamples.

(** ** The operands of the integer kernel

    The codes, the zero-points and the integer sums on which the tile
    routines of SQ4BitGemmKernel_CompInt8 are stated. *)

Module Int8Reference.

Import Reference.

Fixpoint zsum_below (n : nat) (f : nat -> Z) : Z :=
  match n with
  | O => 0%Z
  | S n' => (zsum_below n' f + f n')%Z
  end.

(** Element [t] of the sub-block of thirty-two codes whose packed bytes
    start at [p]: the low halves of the sixteen bytes, then the high
    halves. *)
Definition code32_at (mQuantBData : mem Z) (p t : nat) : Z :=
  if t <? 16 then Byte8.lo (mQuantBData (p + t))
  else Byte8.hi (mQuantBData (p + (t - 16))).

Section Tile.

Variable mQuantBData : mem Z.
Variable mQuantBZeroPoint : mem Z.
Variable HasZeroPoint : bool.
Variable BlkLen : nat.

(** The operands of a column of B are designated by the pointers of its
    data and zero-points ([b], [z]). *)

(** The code of element [t] of block [k] of the column, in the layout
    that SQ4BitGemmPackQuantBData gives the data for CompInt8. *)
Definition b_code (b k t : nat) : Z :=
  Pack.packed_code (Pack.SubBlkLen_of CompInt8 BlkLen)
    (fun j => mQuantBData (b + j)) (k * BlkLen + t).

Definition b_zero_point (z k : nat) : Z :=
  if HasZeroPoint then zero_point_of_block mQuantBZeroPoint z k else 8%Z.

(** Where the tile routines have their zero-point pointer when they
    reach block [k]. *)
Definition zero_point_ptr_at (z k : nat) : nat :=
  if HasZeroPoint then z + k / 2 else z.

End Tile.

End Int8Reference.


(** ** The source of SQ4BitGemmPackQuantBData

    The buffer that the packing routine reads: the codes of the columns
    follow one another, each column of BlockCountK blocks of BlkLen
    codes, two consecutive codes per byte with the even one in the low
    half. *)

Module PackedSource.

(** Code [k] of column [n] of the source [X] of the packing. *)
Definition source_code (X : mem Z) (BlkLen BlockCountK : nat) (k n : nat) : Z :=
  Pack.raw_code X (n * BlockCountK * BlkLen + k).

End PackedSource.

(** ** The order in which the float kernel evaluates a dot product

    ComputeDotProducts_BlkBitWidth4_CompFp32 keeps four partial sums per
    column, the lanes of a [float32x4_t]: the elements of the row are
    taken sixteen at a time, the row padded with zeros to a multiple of
    sixteen, and lane [l] receives by fused multiply-add the elements
    [k = l, 4 + l, 8 + l, ...] in that order.  The lanes are then added
    pairwise. *)

Module Fp32Order.

Import Mlas Neon CompFp32 DequantB DequantViews.

Section Order.

Context {F : Type} {ops : Fp32Ops F}.

(** [n] fused multiply-adds from zero: [acc <- acc + x j * b j] for
    [j = 0, ..., n - 1]. *)
Fixpoint fma_chain (n : nat) (x b : nat -> F) : F :=
  match n with
  | 0 => fzero
  | S n' => ffma (fma_chain n' x b) (x n') (b n')
  end.

(** Partial sum [l] of the first [4 * n] products. *)
Definition partial_sum (n : nat) (x b : nat -> F) (l : nat) : F :=
  fma_chain n (fun j => x (4 * j + l)) (fun j => b (4 * j + l)).

(** The dot product of the first [4 * n] elements of [x] and [b] in four
    interleaved partial sums added pairwise. *)
Definition dot4 (n : nat) (x b : nat -> F) : F :=
  fadd (fadd (partial_sum n x b 0) (partial_sum n x b 1))
       (fadd (partial_sum n x b 2) (partial_sum n x b 3)).

End Order.

(** The views of a column in terms of which the loop over its blocks is
    followed: the pointers of the data, scales and zero-points of the
    column are [bcol], [scol] and [zcol], and a block has [16 * m]
    elements. *)
Section Column.

Context {F : Type} {ops : Fp32Ops F}.

Variable mA : mem F.
Variable mQuantBData : mem Z.
Variable mQuantBScale : mem F.
Variable mQuantBZeroPoint : mem Z.
Variable HasZeroPoint : bool.
Variable BlkLen A CountK : nat.
Variable bcol scol zcol : nat.
Variable m : nat.

(** Element [k] of the column, as the kernel dequantizes it. *)
Definition column_elem (k : nat) : F :=
  sub_block_elem mQuantBData HasZeroPoint (bcol + k / 16 * 8)
    (fadd fp32_conversion.offset
       (f_of_Z (load_zero_point mQuantBZeroPoint zcol (k / BlkLen))))
    (mQuantBScale (scol + k / BlkLen))
    (k mod 16).

(** Lane [l] of the accumulator after the first [c] sub-blocks of the
    column. *)
Definition lane_after (c l : nat) : F :=
  fma_chain (4 * c) (fun j => padded mA A CountK (4 * j + l))
    (fun j => column_elem (4 * j + l)).

(** The state of the loop over the blocks when [b] blocks are done. *)
Definition at_block (b : nat) (st : dot_state (F := F)) : Prop :=
  QuantBData st = bcol + b * (8 * m) /\
  QuantBScale st = scol + b /\
  QuantBZeroPointIdx st = (if HasZeroPoint then b else 0).

End Column.

(** The product of the row of A with column [n] of B in binary32, in the
    order of the kernel: element [k] of the column is the float32 product
    of the integer [q(k,n) - z(block,n)] with the scale of the block, the
    row is padded with zeros to a multiple of sixteen elements, and the
    bias is added last. *)
Section Float32.

Import Binary32.

Variable mA : mem spec_float.
Variable mQuantBData : mem Z.
Variable mQuantBScale : mem spec_float.
Variable mQuantBZeroPoint : mem Z.
Variable mBias : mem spec_float.
Variable BlkLen A QuantBData QuantBScale : nat.
Variable QuantBZeroPoint : option nat.
Variable CountK BlockCountK : nat.
Variable Bias : option nat.

(** Element [k] of column [n] for the codes [q]. *)
Definition element_of (q : nat -> nat -> Z) (k n : nat) : spec_float :=
  SFmul prec emax
    (of_Z (q k n
           - zero_point mQuantBZeroPoint (has_zero_point QuantBZeroPoint) BlockCountK
               (zero_point_ptr QuantBZeroPoint) (k / BlkLen) n))
    (block_scale mQuantBScale BlockCountK QuantBScale (k / BlkLen) n).

Definition Gemm_M1_of (q : nat -> nat -> Z) (n : nat) : spec_float :=
  with_bias mBias Bias n
    (dot4 (4 * MlasDivRoundup CountK 16) (padded mA A CountK)
       (fun k => element_of q k n)).

(** The codes are those of the packed buffer at [QuantBData]. *)
Definition Gemm_M1 (n : nat) : spec_float :=
  Gemm_M1_of (code mQuantBData BlkLen BlockCountK QuantBData) n.

End Float32.

End Fp32Order.

(** ** Operands on which float32 rounding shows *)

Module RoundingExamples.

Import Binary32.

(** A row whose exact sum is 1 and of which the kernel makes 0: the
    elements 0 and 4 go to the same partial sum, where [2^24 + 1] is
    rounded to [2^24]. *)
Definition cancel_A : mem spec_float :=
  Examples.of_list zero
    [ of_Z (2 ^ 24); of_Z (- 2 ^ 24); zero; zero; of_Z 1 ].

(** The real numbers that the floats of a memory stand for. *)
Definition real_of (m : mem spec_float) : mem Qc := fun p => Q2Qc (value (m p)).

End RoundingExamples.

(** ** The order in which the integer kernel evaluates an element

    The tile routines of SQ4BitGemmKernel_CompInt8 take the codes of a
    row of A and of a column of B a unit at a time: the sixteen codes of
    a block for BlkLen = 16, and thirty-two codes otherwise.  The
    products of a unit are summed exactly, in the four 32-bit lanes of
    the SDOT instruction; the four sums are converted to float and added,
    times the product of the scales of the block, to the four lanes of a
    float accumulator by a fused multiply-add.  A 2x2 tile keeps one
    accumulator per element; a 1x1 tile keeps two, one for the units of
    even index and one for the units of odd index.  The lanes are added
    pairwise at the end. *)

Module Int8Order.

Import Mlas Neon Q8 CompInt8 Int8Reference Fp32Order.

(** Lane [l] of one SDOT instruction on the sixteen codes [a] and the
    sixteen values [w]: the four products of the indices [4 l .. 4 l + 3]. *)
Definition sdot_lane (a w : nat -> Z) (l : nat) : Z :=
  zsum_below 4 (fun j => (a (4 * l + j)%nat * w (4 * l + j)%nat)%Z).

Section Order.

Context {F : Type} {ops : Fp32Ops F}.

(** The operands of an element: the codes and the scales of the blocks
    of the row of A, and the codes, zero-points and scales of the blocks
    of the column of B. *)
Variable BlkLen : nat.
Variable qa : nat -> Z.
Variable sa : nat -> F.
Variable qb : nat -> Z.
Variable zb : nat -> Z.
Variable sb : nat -> F.

Definition unit_len : nat := Pack.SubBlkLen_of Mlas.CompInt8 BlkLen.
Definition units_per_block : nat := BlkLen / unit_len.

(** Lane [l] of the integer dot product of unit [u]: one SDOT
    instruction for sixteen codes, two for thirty-two. *)
Definition unit_dot (u l : nat) : Z :=
  zsum_below (unit_len / 16) (fun h =>
    sdot_lane (fun t => qa (u * unit_len + 16 * h + t))
              (fun t => (qb (u * unit_len + 16 * h + t) - zb (u / units_per_block))%Z)
              l).

(** The scale of unit [u]: the float32 product of the scales of its
    block. *)
Definition unit_scale (u : nat) : F :=
  fmul (sa (u / units_per_block)) (sb (u / units_per_block)).

(** [vaddvq_f32] of the lanes [L 0 .. L 3]. *)
Definition sum_lanes (L : nat -> F) : F :=
  fadd (fadd (L 0) (L 1)) (fadd (L 2) (L 3)).

(** Lane [l] of an accumulator that has received the first [n] units;
    the first [n] units of even index; the first [n] units of odd
    index. *)
Definition lane_all (n l : nat) : F :=
  fma_chain n (fun u => f_of_Z (unit_dot u l)) unit_scale.
Definition lane_even (n l : nat) : F :=
  fma_chain n (fun i => f_of_Z (unit_dot (2 * i) l)) (fun i => unit_scale (2 * i)).
Definition lane_odd (n l : nat) : F :=
  fma_chain n (fun i => f_of_Z (unit_dot (2 * i + 1) l))
    (fun i => unit_scale (2 * i + 1)).

(** The element of [U] units as a 2x2 tile and as a 1x1 tile compute
    it. *)
Definition one_accumulator (U : nat) : F := sum_lanes (lane_all U).
Definition two_accumulators (U : nat) : F :=
  fadd (sum_lanes (lane_even ((U + 1) / 2))) (sum_lanes (lane_odd (U / 2))).

End Order.

(** The operands as a tile routine addresses them: [a] points to the
    quantized row of A, and [b], [s] and [z] to the data, the scales and
    the zero-points of the column of B. *)
Section Tile.

Context {F : Type} {ops : Fp32Ops F}.
Variable mQuantA : Q8Mem F.
Variable mQuantBData : mem Z.
Variable mQuantBScale : mem F.
Variable mQuantBZeroPoint : mem Z.
Variable HasZeroPoint : bool.
Variable BlkLen : nat.

Definition row_code (a k : nat) : Z :=
  q8_data mQuantA (Q8BlkData (a + k / BlkLen * Q8BlkSize BlkLen) + k mod BlkLen).

Definition row_scale (a blk : nat) : F :=
  Q8BlkScale mQuantA (a + blk * Q8BlkSize BlkLen).

(** Code [k] of the column in the layout that SQ4BitGemmPackQuantBData
    gives the data for CompInt8. *)
Definition column_code (b k : nat) : Z :=
  Pack.packed_code (Pack.SubBlkLen_of Mlas.CompInt8 BlkLen)
    (fun j => mQuantBData (b + j)) k.

Definition column_scale (s blk : nat) : F := mQuantBScale (s + blk).

Definition column_zero_point (z blk : nat) : Z :=
  b_zero_point mQuantBZeroPoint HasZeroPoint z blk.

Definition tile_lane_all (a b s z : nat) : nat -> nat -> F :=
  lane_all BlkLen (row_code a) (row_scale a) (column_code b)
    (column_zero_point z) (column_scale s).
Definition tile_lane_even (a b s z : nat) : nat -> nat -> F :=
  lane_even BlkLen (row_code a) (row_scale a) (column_code b)
    (column_zero_point z) (column_scale s).
Definition tile_lane_odd (a b s z : nat) : nat -> nat -> F :=
  lane_odd BlkLen (row_code a) (row_scale a) (column_code b)
    (column_zero_point z) (column_scale s).

(** The element of [U] units as a 2x2 tile and as a 1x1 tile compute
    it. *)
Definition tile_one (a b s z : nat) : nat -> F :=
  one_accumulator BlkLen (row_code a) (row_scale a) (column_code b)
    (column_zero_point z) (column_scale s).
Definition tile_two (a b s z : nat) : nat -> F :=
  two_accumulators BlkLen (row_code a) (row_scale a) (column_code b)
    (column_zero_point z) (column_scale s).

(** The accumulator of row [r] and column [c] of a 2x2 tile. *)
Definition acc2x2 (st : tile2x2_state (F := F)) (r c : nat) : list F :=
  match r, c with
  | 0, 0 => acc00 st
  | 0, _ => acc01 st
  | _, 0 => acc10 st
  | _, _ => acc11 st
  end.

(** The loop of a 1x1 tile over pairs of blocks has done [j] pairs of a
    column of [K] blocks whose quantized blocks of A take [Q] bytes and
    whose packed blocks of B take [D] bytes. *)
Definition pairs_done (Q D K a b s z : nat) (j : nat)
    (st : tile1x1_state (F := F)) : Prop :=
  k_blks_remaining st = K - 2 * j /\
  tQuantAPtr st = a + 2 * j * Q /\
  tQuantBDataPtr st = b + 2 * j * D /\
  tQuantBScalePtr st = s + 2 * j /\
  tQuantBZeroPointPtr st = (if HasZeroPoint then z + j else z) /\
  forall l, l < 4 ->
    flane (acc0 st) l = tile_lane_even a b s z j l /\
    flane (acc1 st) l = tile_lane_odd a b s z j l.

End Tile.

Section Kernel.

Context {F : Type} {ops : Fp32Ops F}.
Variable mQuantA : Q8Mem F.
Variable mQuantBData : mem Z.
Variable mQuantBScale : mem F.
Variable mQuantBZeroPoint : mem Z.
Variable BlkLen QuantA QuantBData QuantBScale : nat.
Variable QuantBZeroPoint : option nat.
Variable BlockCountK : nat.

(** The operands of row [m] and of column [n]. *)
Definition a_code (m k : nat) : Z :=
  row_code mQuantA BlkLen (QuantA + m * (BlockCountK * Q8BlkSize BlkLen)) k.

Definition a_scale (m blk : nat) : F :=
  row_scale mQuantA BlkLen (QuantA + m * (BlockCountK * Q8BlkSize BlkLen)) blk.

Definition b_code (k n : nat) : Z :=
  column_code mQuantBData BlkLen
    (QuantBData + n * (BlockCountK * MlasQNBitBlkDataSizeInBytes 4 BlkLen)) k.

Definition b_scale (blk n : nat) : F := mQuantBScale (QuantBScale + n * BlockCountK + blk).

(** The element of row [m] and column [n] of a product of [CountM] rows
    and [CountN] columns, before the bias, for the codes [qb] of B: the
    elements of the last row of an odd number of rows and of the last
    column of an odd number of columns come from 1x1 tiles, the others
    from 2x2 tiles. *)
Definition element_of (qb : nat -> nat -> Z) (CountM CountN m n : nat) : F :=
  (if (m <? 2 * (CountM / 2)) && (n <? 2 * (CountN / 2))
   then one_accumulator else two_accumulators)
    BlkLen (a_code m) (a_scale m) (fun k => qb k n)
    (fun blk => Reference.z mQuantBZeroPoint QuantBZeroPoint BlockCountK blk n)
    (fun blk => b_scale blk n)
    (BlockCountK * units_per_block BlkLen).

Definition element (CountM CountN m n : nat) : F :=
  element_of b_code CountM CountN m n.

End Kernel.

End Int8Order.

(** ** The largest magnitude of a block in binary32 *)

Module Binary32Views.

Import Binary32.

Definition is_nan (x : spec_float) : bool :=
  match x with S754_nan => true | _ => false end.

(** [a] is the maximum of the absolute values of the [n] elements of [m]
    from [p] on, in the order of the float comparison: none of them
    exceeds [a], and [a] is one of them. *)
Definition is_max_abs (m : mem spec_float) (p n : nat) (a : spec_float) : Prop :=
  (forall k, k < n -> SFleb (SFabs (m (p + k))) a = true) /\
  (exists k, k < n /\ a = SFabs (m (p + k))).

(** A magnitude: not a NaN, and the sign bit clear. *)
Definition magnitude (x : spec_float) : bool :=
  match x with
  | S754_zero false | S754_infinity false | S754_finite false _ _ => true
  | _ => false
  end.

(** [x] is the largest of the values of [g] on the indices of [S]. *)
Definition largest (g : nat -> spec_float) (S : list nat) (x : spec_float) : Prop :=
  magnitude x = true /\
  (forall t, In t S -> SFleb (g t) x = true) /\
  (exists t, In t S /\ x = g t).

(** A block of thirty-two elements: a NaN and 100 among the first
    sixteen, 5 among the last sixteen, zeros elsewhere. *)
Definition nan_block : mem spec_float :=
  Examples.of_list zero
    ([ S754_nan; of_Z 100 ] ++ repeat zero 14 ++ [ of_Z 5 ]).

End Binary32Views.


(** * Properties of loops and of the packing transform *)

Import Mlas Pack Byte8.

(** Loops *)
Lemma for_up_S {S} n (body : nat -> S -> S) s :
  for_up (Datatypes.S n) body s = body n (for_up n body s).
Proof.
  unfold for_up. rewrite seq_S, fold_left_app. reflexivity.
Qed.

Lemma for_up_0 {S} (body : nat -> S -> S) s : for_up 0 body s = s.
Proof. reflexivity. Qed.

Lemma for_loop_fold {S} (body : nat -> S -> S) bound step :
  forall n fuel q0 s,
    n <= fuel ->
    (forall j, j < n -> (q0 + j) * step < bound) ->
    bound <= (q0 + n) * step ->
    for_loop fuel (q0 * step) bound step body s =
    fold_left (fun s q => body (q * step) s) (seq q0 n) s.
Proof.
  induction n as [|n IH]; intros fuel q0 s Hf Hlt Hge.
  - destruct fuel; simpl; [reflexivity|].
    replace (q0 * step <? bound) with false; [reflexivity|].
    symmetry. apply Nat.ltb_ge. rewrite Nat.add_0_r in Hge. exact Hge.
  - destruct fuel as [|fuel]; [lia|]. simpl.
    assert (H0 : q0 * step < bound).
    { specialize (Hlt 0). rewrite Nat.add_0_r in Hlt. apply Hlt. lia. }
    apply Nat.ltb_lt in H0. rewrite H0.
    replace (q0 * step + step) with (Datatypes.S q0 * step) by lia.
    apply IH.
    + lia.
    + intros j Hj. replace (Datatypes.S q0 + j) with (q0 + Datatypes.S j) by lia. apply Hlt. lia.
    + replace (Datatypes.S q0 + n) with (q0 + Datatypes.S n) by lia. exact Hge.
Qed.

Lemma MlasDivRoundup_bounds up down :
  0 < down ->
  up <= MlasDivRoundup up down * down /\
  (forall j, j < MlasDivRoundup up down -> j * down < up).
Proof.
  intros Hd. unfold MlasDivRoundup.
  pose proof (Nat.div_mod_eq (up + down - 1) down) as E.
  pose proof (Nat.mod_upper_bound (up + down - 1) down ltac:(lia)) as B.
  split.
  - nia.
  - intros j Hj. nia.
Qed.

Lemma for_step_for_up {S} (body : nat -> S -> S) bound step s :
  0 < step ->
  for_step bound step body s =
  for_up (MlasDivRoundup bound step) (fun q => body (q * step)) s.
Proof.
  intros Hs. unfold for_step, for_up.
  destruct (MlasDivRoundup_bounds bound step Hs) as [Hge Hlt].
  change 0 with (0 * step) at 1.
  apply for_loop_fold.
  - unfold MlasDivRoundup.
    destruct bound as [|b].
    + rewrite Nat.div_small; lia.
    + apply Nat.Div0.div_le_upper_bound. nia.
  - intros j Hj. simpl. apply Hlt. exact Hj.
  - simpl. exact Hge.
Qed.

(** Bytes *)
Local Open Scope Z_scope.

Lemma nibble_cases (x : Z) : 0 <= x < 16 ->
  x = 0 \/ x = 1 \/ x = 2 \/ x = 3 \/ x = 4 \/ x = 5 \/ x = 6 \/ x = 7 \/
  x = 8 \/ x = 9 \/ x = 10 \/ x = 11 \/ x = 12 \/ x = 13 \/ x = 14 \/ x = 15.
Proof. lia. Qed.

Lemma nibble_join (x y : Z) :
  0 <= x < 16 -> 0 <= y < 16 -> bor x (shl y 4) = x + 16 * y.
Proof.
  intros Hx Hy.
  destruct (nibble_cases x Hx) as [->|[->|[->|[->|[->|[->|[->|[->|[->|[->|[->|[->|[->|[->|[->| ->]]]]]]]]]]]]]]];
  destruct (nibble_cases y Hy) as [->|[->|[->|[->|[->|[->|[->|[->|[->|[->|[->|[->|[->|[->|[->| ->]]]]]]]]]]]]]]];
  reflexivity.
Qed.

Lemma band15 (b : Z) : band b 15 = lo b.
Proof. unfold band, lo. change 15 with (Z.ones 4). rewrite Z.land_ones by lia. reflexivity. Qed.

Lemma shr4 (b : Z) : shr b 4 = hi b.
Proof. unfold shr, hi. rewrite Z.shiftr_div_pow2 by lia. reflexivity. Qed.

Lemma lo_range b : 0 <= lo b < 16.
Proof. unfold lo. apply Z.mod_pos_bound. lia. Qed.

Lemma hi_range b : is_byte b -> 0 <= hi b < 16.
Proof. unfold is_byte, hi. intros H. split; [apply Z.div_pos; lia | apply Z.div_lt_upper_bound; lia]. Qed.

Lemma lo_hi b : lo b + 16 * hi b = b.
Proof. unfold lo, hi. pose proof (Z.div_mod b 16 ltac:(lia)). lia. Qed.

Lemma lo_join x y : 0 <= x < 16 -> lo (x + 16 * y) = x.
Proof. intros H. unfold lo. rewrite (Z.mul_comm 16 y), Z.mod_add by lia. apply Z.mod_small. lia. Qed.

Lemma hi_join x y : 0 <= x < 16 -> hi (x + 16 * y) = y.
Proof. intros H. unfold hi. rewrite (Z.mul_comm 16 y), Z.div_add by lia. rewrite (Z.div_small x) by lia. lia. Qed.

Local Close Scope Z_scope.


Lemma store_eq {T} (m : mem T) p v : store m p v p = v.
Proof. unfold store. rewrite Nat.eqb_refl. reflexivity. Qed.

Lemma store_neq {T} (m : mem T) p v q : q <> p -> store m p v q = m q.
Proof. unfold store. intros H. apply Nat.eqb_neq in H. rewrite H. reflexivity. Qed.

Lemma in_range_true a n q : in_range a n q = true <-> a <= q < a + n.
Proof. unfold in_range. rewrite andb_true_iff, Nat.leb_le, Nat.ltb_lt. tauto. Qed.

Lemma in_range_false a n q : in_range a n q = false <-> ~ (a <= q < a + n).
Proof. rewrite <- in_range_true. destruct (in_range a n q); intuition congruence. Qed.

Ltac range_cases :=
  repeat match goal with
  | |- context [in_range ?a ?n ?q] =>
      let E := fresh "E" in
      destruct (in_range a n q) eqn:E;
      [apply in_range_true in E | apply in_range_false in E]
  end.

Lemma pack_pairs_spec src S Q P c d q :
  for_up c (pack_byte_pair src S Q P) d q =
  if in_range P (2 * c) q then pair_val src S Q (q - P) else d q.
Proof.
  revert q. induction c as [|c IH]; intros q.
  - rewrite for_up_0. range_cases; [lia | reflexivity].
  - rewrite for_up_S. unfold pack_byte_pair at 1.
    destruct (Nat.eq_dec q (P + (2 * c + 1))) as [->|N1].
    + rewrite store_eq. range_cases; [|lia].
      unfold pair_val. replace (P + (2 * c + 1) - P) with (2 * c + 1) by lia.
      replace (Nat.even (2 * c + 1)) with false.
      2:{ symmetry. rewrite Nat.add_1_r, Nat.even_succ, Nat.odd_mul. reflexivity. }
      replace ((2 * c + 1) / 2) with c; [reflexivity|].
      apply Nat.div_unique with 1; lia.
    + rewrite store_neq by exact N1.
      destruct (Nat.eq_dec q (P + 2 * c)) as [->|N0].
      * rewrite store_eq. range_cases; [|lia].
        unfold pair_val. replace (P + 2 * c - P) with (2 * c) by lia.
        rewrite Nat.even_mul. simpl Nat.even. simpl orb.
        replace (2 * c / 2) with c; [reflexivity|].
        apply Nat.div_unique with 0; lia.
      * rewrite store_neq by exact N0. rewrite IH.
        range_cases; try reflexivity; lia.
Qed.

Lemma pack_sub_blocks_spec src S c (f : nat -> nat) :
  0 < S -> S = 2 * c ->
  forall n s0,
    let s := for_up n (fun q => pack_sub_block src S c (f q)) s0 in
    QuantBData s = QuantBData s0 + n * S /\
    PackedQuantBData s = PackedQuantBData s0 + n * S /\
    forall q, dst s q =
      if in_range (PackedQuantBData s0) (n * S) q
      then pair_val src S (QuantBData s0 + (q - PackedQuantBData s0) / S * S)
                          ((q - PackedQuantBData s0) mod S)
      else dst s0 q.
Proof.
  intros HS Hc n s0. induction n as [|n IH].
  - rewrite for_up_0. simpl. repeat split; try lia.
    intros q. range_cases; [lia | reflexivity].
  - cbv zeta in IH |- *. rewrite for_up_S.
    destruct IH as (IQ & IP & ID).
    set (s := for_up n (fun q => pack_sub_block src S c (f q)) s0) in *.
    unfold pack_sub_block. cbn [QuantBData PackedQuantBData dst].
    repeat split; try lia.
    intros q. rewrite pack_pairs_spec, ID, IQ, IP, <- Hc.
    set (P0 := PackedQuantBData s0). set (Q0 := QuantBData s0).
    destruct (in_range (P0 + n * S) S q) eqn:E1.
    + apply in_range_true in E1.
      replace (in_range P0 (Datatypes.S n * S) q) with true
        by (symmetry; apply in_range_true; lia).
      assert (Hd : (q - P0) / S = n).
      { symmetry. apply Nat.div_unique with (q - P0 - n * S); lia. }
      assert (Hm : (q - P0) mod S = q - (P0 + n * S)).
      { symmetry. apply Nat.mod_unique with n; lia. }
      rewrite Hd, Hm. reflexivity.
    + apply in_range_false in E1.
      destruct (in_range P0 (n * S) q) eqn:E2.
      * apply in_range_true in E2.
        replace (in_range P0 (Datatypes.S n * S) q) with true
          by (symmetry; apply in_range_true; lia).
        reflexivity.
      * apply in_range_false in E2.
        replace (in_range P0 (Datatypes.S n * S) q) with false
          by (symmetry; apply in_range_false; lia).
        reflexivity.
Qed.

Lemma pack_block_spec BlkLen SubBlkLen BlockCountK BlkDataSize src tid d q :
  0 < SubBlkLen -> SubBlkLen mod 4 = 0 ->
  0 < BlockCountK ->
  BlkDataSize = MlasDivRoundup BlkLen SubBlkLen * (SubBlkLen / 2) ->
  pack_block BlkLen SubBlkLen BlockCountK BlkDataSize src tid d q =
  if in_range (tid * BlkDataSize) BlkDataSize q
  then packed_byte src (SubBlkLen / 2) q
  else d q.
Proof.
  intros Hpos H4 HB HD. unfold pack_block.
  rewrite for_step_for_up by exact Hpos.
  assert (Hoff : tid / BlockCountK * BlockCountK * BlkDataSize
                 + tid mod BlockCountK * BlkDataSize = tid * BlkDataSize).
  { pose proof (Nat.div_mod_eq tid BlockCountK). nia. }
  rewrite Hoff.
  assert (HS : 0 < SubBlkLen / 2).
  { apply Nat.div_str_pos. pose proof (Nat.div_mod_eq SubBlkLen 4). lia. }
  assert (Hc : SubBlkLen / 2 = 2 * (SubBlkLen / 4)).
  { pose proof (Nat.div_mod_eq SubBlkLen 4) as E. rewrite H4, Nat.add_0_r in E.
    rewrite E at 1. replace (4 * (SubBlkLen / 4)) with ((2 * (SubBlkLen / 4)) * 2) by lia.
    apply Nat.div_mul. lia. }
  destruct (pack_sub_blocks_spec src (SubBlkLen / 2) (SubBlkLen / 4)
              (fun q => q * SubBlkLen) HS Hc (MlasDivRoundup BlkLen SubBlkLen)
              {| QuantBData := tid * BlkDataSize;
                 PackedQuantBData := tid * BlkDataSize; dst := d |})
    as (_ & _ & ->).
  cbn [QuantBData PackedQuantBData dst]. rewrite <- HD.
  destruct (in_range (tid * BlkDataSize) BlkDataSize q) eqn:E; [|reflexivity].
  apply in_range_true in E. unfold packed_byte.
  set (S := SubBlkLen / 2) in *. set (ns := MlasDivRoundup BlkLen SubBlkLen) in *.
  assert (Hq : q = (tid * ns) * S + (q - tid * BlkDataSize)) by nia.
  assert (Hd : q / S = tid * ns + (q - tid * BlkDataSize) / S).
  { rewrite Hq at 1. rewrite Nat.add_comm, Nat.div_add by lia. lia. }
  assert (Hm : q mod S = (q - tid * BlkDataSize) mod S).
  { rewrite Hq at 1. rewrite Nat.add_comm, Nat.Div0.mod_add. reflexivity. }
  rewrite Hd, Hm. f_equal. nia.
Qed.

Lemma pack_spec N K BlkLen ComputeType src d q :
  let SubBlkLen := SubBlkLen_of ComputeType BlkLen in
  BlkLen mod SubBlkLen = 0 ->
  SQ4BitGemmPackQuantBData N K BlkLen ComputeType src d q =
  if q <? N * MlasDivRoundup K BlkLen * (BlkLen / 2)
  then packed_byte src (SubBlkLen / 2) q
  else d q.
Proof.
  intros SubBlkLen Hdiv. unfold SQ4BitGemmPackQuantBData. fold SubBlkLen.
  assert (Hsub : SubBlkLen = 16 \/ SubBlkLen = 32).
  { unfold SubBlkLen, SubBlkLen_of.
    destruct (is_CompInt8 ComputeType); [destruct (BlkLen =? 16)|]; auto. }
  assert (Hpos : 0 < SubBlkLen) by lia.
  assert (H4 : SubBlkLen mod 4 = 0) by (destruct Hsub as [-> | ->]; reflexivity).
  set (B := MlasDivRoundup K BlkLen).
  set (D := MlasQNBitBlkDataSizeInBytes 4 BlkLen).
  assert (HD2 : D = BlkLen / 2).
  { unfold D, MlasQNBitBlkDataSizeInBytes.
    replace 8 with (4 * 2) by reflexivity.
    rewrite <- Nat.Div0.div_div, Nat.div_mul by lia. reflexivity. }
  assert (HD : D = MlasDivRoundup BlkLen SubBlkLen * (SubBlkLen / 2)).
  { rewrite HD2. pose proof (Nat.div_mod_eq BlkLen SubBlkLen) as E.
    rewrite Hdiv, Nat.add_0_r in E.
    assert (Hr : MlasDivRoundup BlkLen SubBlkLen = BlkLen / SubBlkLen).
    { unfold MlasDivRoundup. rewrite E at 1.
      replace (SubBlkLen * (BlkLen / SubBlkLen) + SubBlkLen - 1)
        with ((SubBlkLen - 1) + (BlkLen / SubBlkLen) * SubBlkLen) by lia.
      rewrite Nat.div_add by lia. rewrite Nat.div_small by lia. lia. }
    rewrite Hr. rewrite E at 1.
    destruct Hsub as [-> | ->]; simpl Nat.div at 3.
    - replace (16 * (BlkLen / 16)) with ((BlkLen / 16 * 8) * 2) by lia.
      apply Nat.div_mul. lia.
    - replace (32 * (BlkLen / 32)) with ((BlkLen / 32 * 16) * 2) by lia.
      apply Nat.div_mul. lia. }
  rewrite <- HD2.
  destruct (Nat.eq_dec B 0) as [HB0 | HB0].
  { rewrite HB0, Nat.mul_0_r. reflexivity. }
  replace (N * B * D) with ((N * B) * D) by lia.
  generalize (N * B) as n. intros n. revert q.
  induction n as [|n IH]; intros q.
  - reflexivity.
  - rewrite for_up_S, pack_block_spec by (try assumption; lia).
    rewrite IH.
    destruct (in_range (n * D) D q) eqn:E.
    + apply in_range_true in E.
      replace (q <? Datatypes.S n * D) with true by (symmetry; apply Nat.ltb_lt; lia).
      reflexivity.
    + apply in_range_false in E.
      destruct (q <? n * D) eqn:E2.
      * apply Nat.ltb_lt in E2.
        replace (q <? Datatypes.S n * D) with true by (symmetry; apply Nat.ltb_lt; lia).
        reflexivity.
      * apply Nat.ltb_ge in E2.
        replace (q <? Datatypes.S n * D) with false by (symmetry; apply Nat.ltb_ge; lia).
        reflexivity.
Qed.

Lemma even_half_cases j : (Nat.even j = true /\ j = 2 * (j / 2)) \/ (Nat.even j = false /\ j = 2 * (j / 2) + 1).
Proof.
  pose proof (Nat.div_mod_eq j 2) as E.
  pose proof (Nat.mod_upper_bound j 2 ltac:(lia)) as B.
  destruct (Nat.even j) eqn:Ev.
  - left. split; [reflexivity|]. apply Nat.even_spec in Ev. destruct Ev as [k ->].
    rewrite (Nat.mul_comm 2 k), Nat.div_mul by lia. lia.
  - right. split; [reflexivity|].
    assert (Od : Nat.odd j = true) by (unfold Nat.odd; rewrite Ev; reflexivity).
    apply Nat.odd_spec in Od. destruct Od as [k ->].
    replace ((2 * k + 1) / 2) with k; [reflexivity|].
    apply Nat.div_unique with 1; lia.
Qed.

(** The packed byte in terms of the codes of the plain layout. *)
Lemma packed_byte_codes X S q :
  (forall i, is_byte (X i)) ->
  0 < S -> Nat.even S = true ->
  packed_byte X S q =
  (raw_code X (2 * (q / S * S) + q mod S)
   + 16 * raw_code X (2 * (q / S * S) + S + q mod S))%Z.
Proof.
  intros HX HS Hev. unfold packed_byte, pair_val.
  set (Q := q / S * S). set (j := q mod S).
  assert (HS2 : S = 2 * (S / 2)).
  { destruct (even_half_cases S) as [[_ E]|[E _]]; [exact E | congruence]. }
  unfold raw_code.
  assert (E1 : Nat.even (2 * Q + j) = Nat.even j).
  { rewrite Nat.even_add, Nat.even_mul. simpl. destruct (Nat.even j); reflexivity. }
  assert (E2 : Nat.even (2 * Q + S + j) = Nat.even j).
  { rewrite !Nat.even_add, Nat.even_mul, Hev. simpl. destruct (Nat.even j); reflexivity. }
  assert (D1 : (2 * Q + j) / 2 = Q + j / 2).
  { replace (2 * Q + j) with (j + Q * 2) by lia. rewrite Nat.div_add by lia. lia. }
  assert (D2 : (2 * Q + S + j) / 2 = Q + (j / 2 + S / 2)).
  { rewrite HS2 at 1. replace (2 * Q + 2 * (S / 2) + j) with (j + (Q + S / 2) * 2) by lia.
    rewrite Nat.div_add by lia. lia. }
  rewrite E1, E2, D1, D2.
  destruct (Nat.even j).
  - rewrite !band15. apply nibble_join; apply lo_range.
  - rewrite !shr4. apply nibble_join; apply hi_range; apply HX.
Qed.

Lemma raw_code_range X c : (forall i, is_byte (X i)) -> (0 <= raw_code X c < 16)%Z.
Proof.
  intros HX. unfold raw_code. destruct (Nat.even c); [apply lo_range | apply hi_range, HX].
Qed.

Lemma packed_code_pack N K BlkLen ComputeType X d c :
  let SubBlkLen := SubBlkLen_of ComputeType BlkLen in
  (forall i, is_byte (X i)) ->
  BlkLen mod SubBlkLen = 0 ->
  c < N * MlasDivRoundup K BlkLen * BlkLen ->
  packed_code SubBlkLen (SQ4BitGemmPackQuantBData N K BlkLen ComputeType X d) c =
  raw_code X c.
Proof.
  intros SubBlkLen HX Hdiv Hc.
  assert (Hsub : SubBlkLen = 16 \/ SubBlkLen = 32).
  { unfold SubBlkLen, SubBlkLen_of.
    destruct (is_CompInt8 ComputeType); [destruct (BlkLen =? 16)|]; auto. }
  set (S := SubBlkLen / 2).
  assert (HS : 0 < S /\ Nat.even S = true /\ SubBlkLen = 2 * S).
  { unfold S. destruct Hsub as [-> | ->]; repeat split; simpl; lia. }
  destruct HS as (HS & Hev & H2S).
  unfold packed_code, packed_pos. fold S.
  set (sub := c / SubBlkLen). set (r := c mod SubBlkLen).
  assert (Hc' : c = SubBlkLen * sub + r) by apply Nat.div_mod_eq.
  assert (Hr : r < SubBlkLen) by (apply Nat.mod_upper_bound; lia).
  set (p := sub * S + r mod S).
  assert (HrS : r mod S < S) by (apply Nat.mod_upper_bound; lia).
  assert (Hpd : p / S = sub).
  { unfold p. rewrite Nat.add_comm, Nat.div_add by lia. rewrite Nat.div_small by lia. reflexivity. }
  assert (Hpm : p mod S = r mod S).
  { unfold p. rewrite Nat.add_comm, Nat.Div0.mod_add. apply Nat.Div0.mod_mod. }
  assert (Hbl : BlkLen = 2 * (BlkLen / 2)).
  { pose proof (Nat.div_mod_eq BlkLen SubBlkLen) as E. rewrite Hdiv, Nat.add_0_r in E.
    rewrite E at 2. rewrite H2S.
    replace (2 * S * (BlkLen / (2 * S))) with (S * (BlkLen / (2 * S)) * 2) by lia.
    rewrite Nat.div_mul by lia. rewrite E at 1. rewrite H2S. lia. }
  rewrite pack_spec by exact Hdiv. fold SubBlkLen. fold S.
  replace (p <? N * MlasDivRoundup K BlkLen * (BlkLen / 2)) with true.
  2:{ symmetry. apply Nat.ltb_lt. unfold p.
      pose proof (Nat.div_mod_eq BlkLen SubBlkLen) as E. rewrite Hdiv, Nat.add_0_r in E.
      set (m := BlkLen / SubBlkLen) in *.
      assert (Hh : BlkLen / 2 = S * m).
      { rewrite E, H2S. replace (2 * S * m) with (S * m * 2) by lia.
        apply Nat.div_mul. lia. }
      rewrite Hh.
      assert (Hsub' : sub < N * MlasDivRoundup K BlkLen * m).
      { apply Nat.nle_gt. intros Hle.
        assert (N * MlasDivRoundup K BlkLen * m * SubBlkLen <= sub * SubBlkLen)
          by (apply Nat.mul_le_mono_r; exact Hle).
        nia. }
      nia. }
  rewrite packed_byte_codes by assumption.
  rewrite Hpd, Hpm.
  pose proof (raw_code_range X (2 * (sub * S) + r mod S) HX).
  pose proof (raw_code_range X (2 * (sub * S) + S + r mod S) HX).
  destruct (r <? S) eqn:E.
  - apply Nat.ltb_lt in E. rewrite lo_join by assumption.
    rewrite Nat.mod_small by exact E. f_equal. lia.
  - apply Nat.ltb_ge in E. rewrite hi_join by assumption.
    assert (Hm : r mod S = r - S).
    { symmetry. apply Nat.mod_unique with 1; lia. }
    rewrite Hm. f_equal. lia.
Qed.

Lemma raw_code_join X j : (raw_code X (2 * j) + 16 * raw_code X (2 * j + 1))%Z = X j.
Proof.
  unfold raw_code.
  replace (Nat.even (2 * j)) with true
    by (symmetry; rewrite Nat.even_mul; reflexivity).
  replace (Nat.even (2 * j + 1)) with false
    by (symmetry; rewrite Nat.add_1_r, Nat.even_succ, Nat.odd_mul; reflexivity).
  replace (2 * j / 2) with j by (apply Nat.div_unique with 0; lia).
  replace ((2 * j + 1) / 2) with j by (apply Nat.div_unique with 1; lia).
  apply lo_hi.
Qed.

Lemma unpack_pack N K BlkLen ComputeType X d j :
  let SubBlkLen := SubBlkLen_of ComputeType BlkLen in
  (forall i, is_byte (X i)) ->
  BlkLen mod SubBlkLen = 0 ->
  j < N * MlasDivRoundup K BlkLen * (BlkLen / 2) ->
  Unpack SubBlkLen (SQ4BitGemmPackQuantBData N K BlkLen ComputeType X d) j = X j.
Proof.
  intros SubBlkLen HX Hdiv Hj. unfold Unpack.
  assert (Hsub : SubBlkLen = 16 \/ SubBlkLen = 32).
  { unfold SubBlkLen, SubBlkLen_of.
    destruct (is_CompInt8 ComputeType); [destruct (BlkLen =? 16)|]; auto. }
  assert (Hbl : BlkLen = 2 * (BlkLen / 2)).
  { pose proof (Nat.div_mod_eq BlkLen SubBlkLen) as E. rewrite Hdiv, Nat.add_0_r in E.
    destruct Hsub as [H | H]; rewrite H in E.
    - rewrite E at 2. replace (16 * (BlkLen / 16)) with (8 * (BlkLen / 16) * 2) by lia.
      rewrite Nat.div_mul by lia. lia.
    - rewrite E at 2. replace (32 * (BlkLen / 32)) with (16 * (BlkLen / 32) * 2) by lia.
      rewrite Nat.div_mul by lia. lia. }
  subst SubBlkLen.
  rewrite !packed_code_pack; try assumption; try nia.
  apply raw_code_join.
Qed.

Lemma MlasQNBitBlkDataSizeInBytes_half BlkLen :
  MlasQNBitBlkDataSizeInBytes 4 BlkLen = BlkLen / 2.
Proof.
  unfold MlasQNBitBlkDataSizeInBytes.
  replace 8 with (4 * 2) by reflexivity.
  rewrite <- Nat.Div0.div_div, Nat.div_mul by lia. reflexivity.
Qed.

(** The byte that holds a code lies in the (column, block) unit of the code. *)
Lemma packed_pos_same_unit SubBlkLen BlkLen c :
  SubBlkLen = 16 \/ SubBlkLen = 32 ->
  BlkLen mod SubBlkLen = 0 -> 0 < BlkLen ->
  packed_pos SubBlkLen c / (BlkLen / 2) = c / BlkLen.
Proof.
  intros Hsub Hdiv Hpos. unfold packed_pos.
  set (S := SubBlkLen / 2).
  assert (HS : 0 < S /\ SubBlkLen = 2 * S).
  { unfold S. destruct Hsub as [-> | ->]; split; simpl; lia. }
  destruct HS as (HS & H2S).
  pose proof (Nat.div_mod_eq BlkLen SubBlkLen) as E. rewrite Hdiv, Nat.add_0_r in E.
  set (m := BlkLen / SubBlkLen) in *.
  assert (Hm : 0 < m) by nia.
  assert (Hh : BlkLen / 2 = S * m).
  { rewrite E, H2S. replace (2 * S * m) with (S * m * 2) by lia. apply Nat.div_mul. lia. }
  rewrite Hh, <- Nat.Div0.div_div.
  assert (HrS : (c mod SubBlkLen) mod S < S) by (apply Nat.mod_upper_bound; lia).
  rewrite (Nat.add_comm (c / SubBlkLen * S)), Nat.div_add by lia.
  rewrite (Nat.div_small _ S) by lia. simpl.
  rewrite E, Nat.Div0.div_div. reflexivity.
Qed.

(** C4: packing is invertible.  For BlkLen in {16, 32, 64, 128} and both
    compute modes, on a matrix X of bytes: unpacking the packed buffer gives
    X back on the whole range of the packed data; every logical position
    (column, k) reads from the packed buffer the code X has there; and the
    byte that holds a code belongs to the (column, block) unit of the code,
    so codes only move inside their unit. *)
Theorem SQ4BitGemmPackQuantBData_invertible N K BlkLen ComputeType X d :
  In BlkLen [16; 32; 64; 128] ->
  (forall i, is_byte (X i)) ->
  let SubBlkLen := SubBlkLen_of ComputeType BlkLen in
  let P := SQ4BitGemmPackQuantBData N K BlkLen ComputeType X d in
  (forall j, j < N * MlasDivRoundup K BlkLen * MlasQNBitBlkDataSizeInBytes 4 BlkLen ->
             Unpack SubBlkLen P j = X j) /\
  (forall c, c < N * MlasDivRoundup K BlkLen * BlkLen ->
             packed_code SubBlkLen P c = raw_code X c /\
             packed_pos SubBlkLen c / MlasQNBitBlkDataSizeInBytes 4 BlkLen = c / BlkLen).
Proof.
  intros HB HX SubBlkLen P.
  assert (Hsub : SubBlkLen = 16 \/ SubBlkLen = 32).
  { unfold SubBlkLen, SubBlkLen_of.
    destruct (is_CompInt8 ComputeType); [destruct (BlkLen =? 16)|]; auto. }
  assert (Hdiv : BlkLen mod SubBlkLen = 0).
  { unfold SubBlkLen, SubBlkLen_of. simpl in HB.
    destruct HB as [<- | [<- | [<- | [<- | []]]]];
      destruct (is_CompInt8 ComputeType); reflexivity. }
  assert (Hpos : 0 < BlkLen).
  { simpl in HB. destruct HB as [<- | [<- | [<- | [<- | []]]]]; lia. }
  rewrite MlasQNBitBlkDataSizeInBytes_half.
  split.
  - intros j Hj. apply unpack_pack; assumption.
  - intros c Hc. split.
    + apply packed_code_pack; assumption.
    + apply packed_pos_same_unit; assumption.
Qed.

Lemma SQ4BitGemmPackQuantBData_invertible_witness :
  let X : mem Z := fun i => Z.of_nat (i mod 256) in
  let P := SQ4BitGemmPackQuantBData 2 40 32 CompInt8 X (fun _ => 0%Z) in
  Unpack 32 P 21 = X 21 /\ packed_code 32 P 77 = raw_code X 77.
Proof.
  intros X P.
  assert (HX : forall i, is_byte (X i)).
  { intros i. unfold X, is_byte.
    pose proof (Nat.mod_upper_bound i 256 ltac:(lia)). lia. }
  destruct (SQ4BitGemmPackQuantBData_invertible 2 40 32 CompInt8 X (fun _ => 0%Z)
              ltac:(simpl; auto) HX) as [HU HC].
  split.
  - apply HU. vm_compute. lia.
  - apply (HC 77). vm_compute. lia.
Defined.


(** * The packed-size query *)

Module SizeProofs.

Import Mlas SizeT.
Local Open Scope Z_scope.

Lemma wrap_small x : is_size_t x -> wrap x = x.
Proof. unfold is_size_t, wrap. intros H. apply Z.mod_small. exact H. Qed.

(** [ceil_div] is the least number of blocks that cover [a]. *)
Lemma ceil_div_spec a b :
  0 < b -> (ceil_div a b - 1) * b < a <= ceil_div a b * b.
Proof.
  intros Hb. unfold ceil_div.
  pose proof (Z.div_mod (- a) b ltac:(lia)) as E.
  pose proof (Z.mod_pos_bound (- a) b Hb) as B.
  nia.
Qed.

Lemma MlasDivRoundup_ceil up down :
  0 <= up -> 0 < down -> up + down <= modulus ->
  MlasDivRoundup up down = ceil_div up down.
Proof.
  intros Hu Hd Hfit. unfold MlasDivRoundup, add, sub, div.
  assert (Hm : 0 < modulus) by (unfold modulus; lia).
  destruct (Z.eq_dec (up + down) modulus) as [E | NE].
  - (* the sum wraps to 0 and 0 - 1 wraps to modulus - 1 *)
    rewrite E. unfold wrap at 2. rewrite Z.mod_same by lia.
    unfold wrap. replace ((0 - 1) mod modulus) with (modulus - 1).
    2:{ apply Z.mod_unique with (-1); lia. }
    rewrite <- E.
    pose proof (ceil_div_spec up down Hd) as C.
    symmetry. apply Z.div_unique with (up + down - 1 - ceil_div up down * down).
    + left. lia.
    + lia.
  - rewrite (wrap_small (up + down)) by (unfold is_size_t; lia).
    rewrite wrap_small by (unfold is_size_t; lia).
    pose proof (ceil_div_spec up down Hd) as C.
    symmetry. apply Z.div_unique with (up + down - 1 - ceil_div up down * down).
    + left. lia.
    + lia.
Qed.

Lemma MlasQNBitBlkDataSizeInBytes_4 BlkLen :
  0 <= BlkLen -> BlkLen * 4 < modulus ->
  MlasQNBitBlkDataSizeInBytes 4 BlkLen = BlkLen * 4 / 8.
Proof.
  intros H0 H1. unfold MlasQNBitBlkDataSizeInBytes, mul, div.
  rewrite wrap_small by (unfold is_size_t; lia). reflexivity.
Qed.

(** C9: for N, K and BlkLen whose sizes fit [size_t] (BlkLen a positive
    multiple of 16), the packed-size query returns exactly
    N * ceil(K/BlkLen) * (BlkLen*4/8), and the result does not depend on
    the compute mode. *)
Theorem SQ4BitGemmPackQuantBDataSize_formula N K BlkLen ComputeType :
  0 <= N -> 0 <= K -> 0 < BlkLen -> BlkLen mod 16 = 0 ->
  K + BlkLen <= modulus ->
  BlkLen * 4 < modulus ->
  N * ceil_div K BlkLen * (BlkLen * 4 / 8) < modulus ->
  SQ4BitGemmPackQuantBDataSize N K BlkLen ComputeType
    = N * ceil_div K BlkLen * (BlkLen * 4 / 8)
  /\ forall ComputeType',
       SQ4BitGemmPackQuantBDataSize N K BlkLen ComputeType'
       = SQ4BitGemmPackQuantBDataSize N K BlkLen ComputeType.
Proof.
  intros HN HK HB H16 HKB HB4 Hfit.
  split; [|reflexivity].
  unfold SQ4BitGemmPackQuantBDataSize.
  rewrite MlasDivRoundup_ceil by lia.
  rewrite MlasQNBitBlkDataSizeInBytes_4 by lia.
  pose proof (ceil_div_spec K BlkLen HB) as C.
  assert (Hc : 0 <= ceil_div K BlkLen) by nia.
  assert (Hd : 8 <= BlkLen * 4 / 8).
  { apply Z.div_le_lower_bound; [lia|].
    pose proof (Z.div_mod BlkLen 16 ltac:(lia)) as E. rewrite H16 in E.
    assert (1 <= BlkLen / 16) by (apply Z.div_le_lower_bound; lia). lia. }
  unfold mul.
  assert (Hnc : N * ceil_div K BlkLen < modulus) by nia.
  rewrite (wrap_small (N * ceil_div K BlkLen)) by (unfold is_size_t; nia).
  apply wrap_small. unfold is_size_t. nia.
Qed.

Lemma SQ4BitGemmPackQuantBDataSize_formula_witness :
  SQ4BitGemmPackQuantBDataSize 5 17 16 CompInt8 = 5 * ceil_div 17 16 * (16 * 4 / 8).
Proof.
  apply (proj1 (SQ4BitGemmPackQuantBDataSize_formula 5 17 16 CompInt8
                  ltac:(lia) ltac:(lia) ltac:(lia) ltac:(reflexivity)
                  ltac:(unfold modulus; lia) ltac:(unfold modulus; lia)
                  ltac:(vm_compute; reflexivity))).
Defined.

End SizeProofs.


(** * Vectors and LoadFloatData *)

Module NeonFacts.

Import Neon.

Lemma tabulate_length {T} n (f : nat -> T) : length (tabulate n f) = n.
Proof. unfold tabulate. rewrite length_map, length_seq. reflexivity. Qed.

Lemma nth_tabulate {T} n (f : nat -> T) d i :
  i < n -> nth i (tabulate n f) d = f i.
Proof.
  intros H. unfold tabulate.
  rewrite (nth_indep _ d (f 0)) by (rewrite length_map, length_seq; exact H).
  rewrite map_nth, seq_nth by exact H. reflexivity.
Qed.

Lemma nth_tabulate_out {T} n (f : nat -> T) d i :
  n <= i -> nth i (tabulate n f) d = d.
Proof. intros H. apply nth_overflow. rewrite tabulate_length. exact H. Qed.

Lemma zlane_tabulate n f i : i < n -> zlane (tabulate n f) i = f i.
Proof. apply nth_tabulate. Qed.

Lemma upd_nth_length {T} i (v : T) l : length (upd_nth i v l) = length l.
Proof.
  revert i. induction l as [|x l IH]; intros [|i]; simpl; try reflexivity.
  rewrite IH. reflexivity.
Qed.

Lemma nth_upd_nth {T} i j (v d : T) l :
  nth j (upd_nth i v l) d = if (j =? i) && (i <? length l) then v else nth j l d.
Proof.
  revert i j. induction l as [|x l IH]; intros [|i] [|j]; simpl; try reflexivity.
  - destruct (j =? i); reflexivity.
  - rewrite IH. reflexivity.
Qed.

Section Float.

Context {F : Type} {ops : Fp32Ops F}.

Lemma flane_tabulate n (f : nat -> F) i : i < n -> flane (tabulate n f) i = f i.
Proof. apply nth_tabulate. Qed.

Lemma varr_tabulate n (f : nat -> list F) i : i < n -> varr (tabulate n f) i = f i.
Proof. apply nth_tabulate. Qed.

Lemma flane_zero l : flane zero_f32x4 l = (fzero : F).
Proof.
  unfold flane, zero_f32x4.
  destruct (Nat.lt_ge_cases l 4) as [H | H].
  - rewrite nth_tabulate by exact H. reflexivity.
  - rewrite nth_tabulate_out by exact H. reflexivity.
Qed.

Lemma LoadFloatData_lanes (m : mem F) src count j l :
  count <= 16 -> j < 4 -> l < 4 ->
  flane (varr (LoadFloatData m src count 0 (zero_f32x4_array 4)) j) l
  = padded m src count (4 * j + l).
Proof.
  intros Hc Hj Hl.
  do 17 (destruct count as [|count]; [
    do 4 (destruct j as [|j]; [
      do 4 (destruct l as [|l]; [unfold padded; cbn; try reflexivity; f_equal; lia |]); lia |]); lia |]).
  lia.
Qed.

End Float.

End NeonFacts.

(** * The activation quantizer *)

Module QuantizeFacts.

Import Mlas Neon NeonFacts Q8 Quantize TwosComplement.

Lemma for_loop_idx_fold {S} (body : nat -> S -> S) bound step :
  forall n fuel q0 s,
    n <= fuel ->
    (forall j, j < n -> (q0 + j) * step < bound) ->
    bound <= (q0 + n) * step ->
    for_loop_idx fuel (q0 * step) bound step body s =
    ((q0 + n) * step, fold_left (fun s q => body (q * step) s) (seq q0 n) s).
Proof.
  induction n as [|n IH]; intros fuel q0 s Hf Hlt Hge.
  - rewrite Nat.add_0_r in *.
    destruct fuel; simpl; [reflexivity|].
    replace (q0 * step <? bound) with false; [reflexivity|].
    symmetry. apply Nat.ltb_ge. exact Hge.
  - destruct fuel as [|fuel]; [lia|]. simpl.
    assert (H0 : q0 * step < bound).
    { specialize (Hlt 0). rewrite Nat.add_0_r in Hlt. apply Hlt. lia. }
    apply Nat.ltb_lt in H0. rewrite H0.
    replace (q0 * step + step) with (Datatypes.S q0 * step) by lia.
    rewrite IH.
    + f_equal. lia.
    + lia.
    + intros j Hj. replace (Datatypes.S q0 + j) with (q0 + Datatypes.S j) by lia. apply Hlt. lia.
    + replace (Datatypes.S q0 + n) with (q0 + Datatypes.S n) by lia. exact Hge.
Qed.

(** A bounded loop over sub-blocks of 16, from 0. *)
Lemma for_loop_idx_16 {S} (body : nat -> S -> S) bound s :
  for_loop_idx bound 0 bound 16 body s =
  (MlasDivRoundup bound 16 * 16,
   for_up (MlasDivRoundup bound 16) (fun q => body (q * 16)) s).
Proof.
  destruct (MlasDivRoundup_bounds bound 16 ltac:(lia)) as [Hge Hlt].
  change 0 with (0 * 16) at 1.
  rewrite (for_loop_idx_fold body bound 16 (MlasDivRoundup bound 16)).
  - reflexivity.
  - unfold MlasDivRoundup. destruct bound as [|b].
    + rewrite Nat.div_small; lia.
    + apply Nat.Div0.div_le_upper_bound. lia.
  - intros j Hj. simpl. apply Hlt. exact Hj.
  - simpl. exact Hge.
Qed.

(** The same loop resumed at a multiple of 16 below a bound that is one
    too. *)
Lemma for_loop_idx_from {S} (body : nat -> S -> S) q0 n s :
  for_loop_idx ((q0 + n) * 16) (q0 * 16) ((q0 + n) * 16) 16 body s =
  ((q0 + n) * 16, fold_left (fun s q => body (q * 16) s) (seq q0 n) s).
Proof.
  apply for_loop_idx_fold; try lia.
Qed.

Section Generic.

Context {F : Type} {ops : Fp32Ops F}.
Variable mA : mem F.

Lemma q8_scale_set_data (m : Q8Mem F) p v : q8_scale (set_data m p v) = q8_scale m.
Proof. reflexivity. Qed.

Lemma q8_data_set_data (m : Q8Mem F) p v x :
  q8_data (set_data m p v) x = if x =? p then v else q8_data m x.
Proof. reflexivity. Qed.

Lemma quantize_step_spec A EC r QD k (m : Q8Mem F) :
  let m' := quantize_step mA A EC r QD k m in
  q8_scale m' = q8_scale m /\
  forall p, q8_data m' p =
    if in_range (QD + k) 16 p
    then quantized r (padded mA (A + k) (Nat.min (EC - k) 16) (p - (QD + k)))
    else q8_data m p.
Proof.
  unfold quantize_step, Quantize.SubBlkLen. change (16 / 4) with 4.
  set (cnt := Nat.min (EC - k) 16).
  assert (Hcnt : cnt <= 16) by (unfold cnt; lia).
  set (a0 := LoadFloatData mA (A + k) cnt 0 (zero_f32x4_array 4)).
  assert (Ha0 : forall j l, j < 4 -> l < 4 ->
            flane (varr a0 j) l = padded mA (A + k) cnt (4 * j + l)).
  { intros j l Hj Hl. apply LoadFloatData_lanes; assumption. }
  clearbody a0.
  assert (Hv : forall i l, i < 4 -> l < 4 ->
            sint8 (vgetq_lane_s32
                     (nth i (tabulate 4 (fun i => vcvtaq_s32_f32
                               (varr (tabulate 4 (fun i => vmulq_n_f32 (varr a0 i) r)) i))) []) l)
            = quantized r (padded mA (A + k) cnt (4 * i + l))).
  { intros i l Hi Hl. unfold quantized, vgetq_lane_s32.
    rewrite nth_tabulate by exact Hi. unfold vcvtaq_s32_f32.
    rewrite zlane_tabulate by exact Hl.
    rewrite varr_tabulate by exact Hi. unfold vmulq_n_f32.
    rewrite flane_tabulate by exact Hl. rewrite Ha0 by assumption. reflexivity. }
  cbv zeta. unfold for_up. cbn [seq fold_left].
  split; [reflexivity|].
  intros p.
  rewrite !q8_data_set_data.
  rewrite !Hv by lia.
  repeat match goal with
  | |- context [p =? ?a] => destruct (Nat.eqb_spec p a) as [-> | ?]
  end;
  match goal with
  | |- context [in_range ?a ?n ?q] =>
      let E := fresh "E" in
      destruct (in_range a n q) eqn:E;
      [apply in_range_true in E | apply in_range_false in E]
  end; try lia; try reflexivity; f_equal; f_equal; lia.
Qed.

Lemma padded_shift A EC k t :
  k <= t -> t < k + 16 ->
  padded mA (A + k) (Nat.min (EC - k) 16) (t - k) = padded mA A EC t.
Proof.
  intros H1 H2. unfold padded.
  destruct (t <? EC) eqn:E.
  - apply Nat.ltb_lt in E.
    replace (t - k <? Nat.min (EC - k) 16) with true by (symmetry; apply Nat.ltb_lt; lia).
    f_equal. lia.
  - apply Nat.ltb_ge in E.
    replace (t - k <? Nat.min (EC - k) 16) with false by (symmetry; apply Nat.ltb_ge; lia).
    reflexivity.
Qed.

Lemma quantize_loop_spec A EC r QD n (m : Q8Mem F) :
  let m' := for_up n (fun q => quantize_step mA A EC r QD (q * 16)) m in
  q8_scale m' = q8_scale m /\
  forall p, q8_data m' p =
    if in_range QD (n * 16) p
    then quantized r (padded mA A EC (p - QD))
    else q8_data m p.
Proof.
  induction n as [|n IH]; cbv zeta in *.
  - rewrite for_up_0. split; [reflexivity|]. intros p. range_cases; [lia | reflexivity].
  - rewrite for_up_S. destruct IH as [IS ID].
    destruct (quantize_step_spec A EC r QD (n * 16)
                (for_up n (fun q => quantize_step mA A EC r QD (q * 16)) m)) as [HS HD].
    split; [congruence|].
    intros p. rewrite HD, ID.
    destruct (in_range (QD + n * 16) 16 p) eqn:E1.
    + apply in_range_true in E1.
      replace (in_range QD (Datatypes.S n * 16) p) with true
        by (symmetry; apply in_range_true; lia).
      replace (p - (QD + n * 16)) with (p - QD - n * 16) by lia.
      rewrite padded_shift by lia. reflexivity.
    + apply in_range_false in E1.
      destruct (in_range QD (n * 16) p) eqn:E2.
      * apply in_range_true in E2.
        replace (in_range QD (Datatypes.S n * 16) p) with true
          by (symmetry; apply in_range_true; lia).
        reflexivity.
      * apply in_range_false in E2.
        replace (in_range QD (Datatypes.S n * 16) p) with false
          by (symmetry; apply in_range_false; lia).
        reflexivity.
Qed.

Lemma zero_step_spec QD k (m : Q8Mem F) :
  let m' := zero_step QD k m in
  q8_scale m' = q8_scale m /\
  forall p, q8_data m' p = if in_range (QD + k) 16 p then 0%Z else q8_data m p.
Proof.
  unfold zero_step, store_zeros16, Quantize.SubBlkLen. change (16 / 16) with 1.
  cbv zeta. unfold for_up. cbn [seq fold_left].
  split; [reflexivity|].
  intros p. rewrite !q8_data_set_data.
  repeat match goal with
  | |- context [p =? ?a] => destruct (Nat.eqb_spec p a) as [-> | ?]
  end;
  match goal with
  | |- context [in_range ?a ?n ?q] =>
      let E := fresh "E" in
      destruct (in_range a n q) eqn:E;
      [apply in_range_true in E | apply in_range_false in E]
  end; try lia; reflexivity.
Qed.

Lemma zero_loop_spec QD q0 n (m : Q8Mem F) :
  let m' := fold_left (fun s q => zero_step QD (q * 16) s) (seq q0 n) m in
  q8_scale m' = q8_scale m /\
  forall p, q8_data m' p =
    if in_range (QD + q0 * 16) (n * 16) p then 0%Z else q8_data m p.
Proof.
  induction n as [|n IH]; cbv zeta in *.
  - simpl. split; [reflexivity|]. intros p. range_cases; [lia | reflexivity].
  - rewrite seq_S, fold_left_app. cbn [fold_left]. destruct IH as [IS ID].
    destruct (zero_step_spec QD ((q0 + n) * 16)
                (fold_left (fun s q => zero_step QD (q * 16) s) (seq q0 n) m)) as [HS HD].
    split; [congruence|].
    intros p. rewrite HD, ID.
    destruct (in_range (QD + (q0 + n) * 16) 16 p) eqn:E1.
    + apply in_range_true in E1.
      replace (in_range (QD + q0 * 16) (Datatypes.S n * 16) p) with true
        by (symmetry; apply in_range_true; lia).
      reflexivity.
    + apply in_range_false in E1.
      destruct (in_range (QD + q0 * 16) (n * 16) p) eqn:E2.
      * apply in_range_true in E2.
        replace (in_range (QD + q0 * 16) (Datatypes.S n * 16) p) with true
          by (symmetry; apply in_range_true; lia).
        reflexivity.
      * apply in_range_false in E2.
        replace (in_range (QD + q0 * 16) (Datatypes.S n * 16) p) with false
          by (symmetry; apply in_range_false; lia).
        reflexivity.
Qed.

(** What QuantizeBlock leaves in the workspace when it returns: the scale
    at the head of the block, the codes of the elements, and zeros up to
    the end of the block; nothing else is written. *)
Lemma QuantizeBlock_spec BlkLen A EC (m m' : Q8Mem F) QA :
  EC <= BlkLen -> BlkLen mod 16 = 0 ->
  QuantizeBlock mA BlkLen A EC m QA = Some m' ->
  exists scale r,
    checked_div (block_amax mA A EC) (f_of_Z 127) = Some scale /\
    reciprocal_of scale = Some r /\
    q8_scale m' = store (q8_scale m) QA scale /\
    forall p, q8_data m' p =
      if in_range (Q8BlkData QA) BlkLen p
      then (if p - Q8BlkData QA <? MlasDivRoundup EC 16 * 16
            then quantized r (padded mA A EC (p - Q8BlkData QA))
            else 0%Z)
      else q8_data m p.
Proof.
  intros HEC H16 HQ. unfold QuantizeBlock in HQ.
  change (Z.shiftl 1 7 - 1)%Z with 127%Z in HQ.
  fold (block_amax mA A EC) in HQ.
  destruct (checked_div (block_amax mA A EC) (f_of_Z 127)) as [scale|] eqn:Hs; [|discriminate].
  fold (reciprocal_of scale) in HQ.
  destruct (reciprocal_of scale) as [r|] eqn:Hr; [|discriminate].
  exists scale, r. split; [reflexivity|]. split; [exact Hr|].
  unfold Quantize.SubBlkLen in HQ.
  rewrite for_loop_idx_16 in HQ.
  set (n1 := MlasDivRoundup EC 16) in *.
  set (QD := Q8BlkData QA) in *.
  pose proof (Nat.div_mod_eq BlkLen 16) as EB. rewrite H16, Nat.add_0_r in EB.
  set (nb := BlkLen / 16) in *.
  assert (Hn1 : n1 <= nb).
  { destruct (MlasDivRoundup_bounds EC 16 ltac:(lia)) as [_ Hlt]. fold n1 in Hlt.
    destruct n1 as [|n1']; [lia|]. specialize (Hlt n1' ltac:(lia)). lia. }
  cbv beta iota in HQ.
  pose proof (for_loop_idx_from (zero_step QD) n1 (nb - n1)
                (for_up n1 (fun q => quantize_step mA A EC r QD (q * 16))
                   (set_Q8BlkScale m QA scale))) as HZ.
  replace ((n1 + (nb - n1)) * 16) with BlkLen in HZ by lia.
  rewrite HZ in HQ. cbn [snd] in HQ.
  injection HQ as <-.
  destruct (quantize_loop_spec A EC r QD n1 (set_Q8BlkScale m QA scale)) as [S1 D1].
  destruct (zero_loop_spec QD n1 (nb - n1)
              (for_up n1 (fun q => quantize_step mA A EC r QD (q * 16))
                 (set_Q8BlkScale m QA scale))) as [S2 D2].
  split.
  - rewrite S2, S1. reflexivity.
  - intros p. rewrite D2, D1. cbn [q8_data set_Q8BlkScale].
    destruct (in_range QD BlkLen p) eqn:E.
    + apply in_range_true in E.
      destruct (p - QD <? n1 * 16) eqn:E1.
      * apply Nat.ltb_lt in E1.
        replace (in_range (QD + n1 * 16) ((nb - n1) * 16) p) with false
          by (symmetry; apply in_range_false; lia).
        replace (in_range QD (n1 * 16) p) with true
          by (symmetry; apply in_range_true; lia).
        reflexivity.
      * apply Nat.ltb_ge in E1.
        replace (in_range (QD + n1 * 16) ((nb - n1) * 16) p) with true
          by (symmetry; apply in_range_true; lia).
        reflexivity.
    + apply in_range_false in E.
      replace (in_range (QD + n1 * 16) ((nb - n1) * 16) p) with false
        by (symmetry; apply in_range_false; lia).
      replace (in_range QD (n1 * 16) p) with false
        by (symmetry; apply in_range_false; lia).
      reflexivity.
Qed.

End Generic.

End QuantizeFacts.


(** * The quantizer on any lawful arithmetic *)

Module QuantizeLaws.

Import Mlas Neon NeonFacts Q8 Quantize QuantizeFacts TwosComplement.

Section Generic.

Context {F : Type} {ops : Fp32Ops F}.
Variable mA : mem F.

(** One step of the scan for [amax] takes the maximum of the sixteen
    absolute values of the (zero-padded) sub-block. *)
Lemma amax_step_max16 A EC k (amax : F) :
  amax_step mA A EC k amax =
  std_max amax (max16 (fun t => fabs (padded mA (A + k) (Nat.min (EC - k) 16) t))).
Proof.
  unfold amax_step, Quantize.SubBlkLen. change (16 / 4) with 4.
  set (cnt := Nat.min (EC - k) 16).
  assert (Hcnt : cnt <= 16) by (unfold cnt; lia).
  set (a0 := LoadFloatData mA (A + k) cnt 0 (zero_f32x4_array 4)).
  assert (Ha0 : forall j l, j < 4 -> l < 4 ->
            flane (varr a0 j) l = padded mA (A + k) cnt (4 * j + l)).
  { intros j l Hj Hl. apply LoadFloatData_lanes; assumption. }
  clearbody a0.
  f_equal. unfold reduce_max, Quantize.SubBlkLen. 
  cbn -[vmaxq_f32 vabsq_f32 varr vmaxvq_f32].
  unfold vmaxvq_f32, max16, varr. cbn [nth].
  unfold vmaxq_f32, vabsq_f32.
  rewrite !flane_tabulate by lia.
  fold (varr a0 0) (varr a0 1) (varr a0 2) (varr a0 3).
  rewrite !Ha0 by lia.
  reflexivity.
Qed.

Context {laws : Fp32ZeroLaws F ops}.

(** No division by zero: the quantizer always returns. *)
Lemma QuantizeBlock_returns BlkLen A EC (m : Q8Mem F) QA :
  exists m', QuantizeBlock mA BlkLen A EC m QA = Some m'.
Proof.
  unfold QuantizeBlock. change (Z.shiftl 1 7 - 1)%Z with 127%Z.
  unfold checked_div at 1. rewrite law_127_nonzero.
  set (scale := fdiv _ _).
  unfold checked_div.
  destruct (feqb scale fzero); cbn [negb];
    match goal with
    | |- context [for_loop_idx ?a ?b ?c ?d ?e ?f] => destruct (for_loop_idx a b c d e f)
    end; eexists; reflexivity.
Qed.

(** The padding of a block: every position from [EC] to the end of the
    block holds the code 0. *)
Lemma QuantizeBlock_padding BlkLen A EC (m m' : Q8Mem F) QA t :
  EC <= BlkLen -> BlkLen mod 16 = 0 ->
  QuantizeBlock mA BlkLen A EC m QA = Some m' ->
  EC <= t < BlkLen ->
  q8_data m' (Q8BlkData QA + t) = 0%Z.
Proof.
  intros HEC H16 HQ Ht.
  destruct (QuantizeBlock_spec mA BlkLen A EC m m' QA HEC H16 HQ)
    as (scale & r & _ & _ & _ & HD).
  rewrite HD.
  replace (in_range (Q8BlkData QA) BlkLen (Q8BlkData QA + t)) with true
    by (symmetry; apply in_range_true; lia).
  replace (Q8BlkData QA + t - Q8BlkData QA) with t by lia.
  destruct (t <? MlasDivRoundup EC 16 * 16); [|reflexivity].
  unfold padded. replace (t <? EC) with false by (symmetry; apply Nat.ltb_ge; lia).
  unfold quantized. rewrite law_cvta_mul_zero. reflexivity.
Qed.

(** The state of the row loop after [n] blocks. *)
Lemma QuantizeARow_state BlkLen A CountK (m : Q8Mem F) QA n :
  let body := fun k (s : row_state) =>
    {| ADataBlkPtr := ADataBlkPtr s + BlkLen;
       QuantABlkPtr := QuantABlkPtr s + Q8BlkSize BlkLen;
       QuantA :=
         match QuantA s with
         | Some m => QuantizeBlock mA BlkLen (ADataBlkPtr s)
                       (Nat.min (CountK - k) BlkLen) m (QuantABlkPtr s)
         | None => None
         end |} in
  let s := for_up n (fun q => body (q * BlkLen))
             {| ADataBlkPtr := A; QuantABlkPtr := QA; QuantA := Some m |} in
  ADataBlkPtr s = A + n * BlkLen /\
  QuantABlkPtr s = QA + n * Q8BlkSize BlkLen /\
  exists m', QuantA s = Some m'.
Proof.
  induction n as [|n IH]; cbv zeta in *.
  - rewrite for_up_0. cbn. repeat split; try lia. eexists; reflexivity.
  - rewrite for_up_S. destruct IH as (IA & IQ & (m1 & IM)).
    cbn [ADataBlkPtr QuantABlkPtr QuantA]. rewrite IA, IQ, IM.
    repeat split; try lia.
    apply QuantizeBlock_returns.
Qed.

(** The padding of the last block of a row. *)
Lemma QuantizeARow_padding BlkLen A CountK (m : Q8Mem F) QA :
  0 < BlkLen -> BlkLen mod 16 = 0 ->
  exists m',
    QuantizeARow_CompInt8 mA BlkLen A CountK m QA = Some m' /\
    forall j, CountK <= j < MlasDivRoundup CountK BlkLen * BlkLen ->
      q8_data m' (Q8BlkData (QA + j / BlkLen * Q8BlkSize BlkLen) + j mod BlkLen) = 0%Z.
Proof.
  intros HB H16. unfold QuantizeARow_CompInt8.
  rewrite for_step_for_up by exact HB.
  destruct (MlasDivRoundup_bounds CountK BlkLen HB) as [Hge Hlt].
  set (nb := MlasDivRoundup CountK BlkLen) in *.
  destruct nb as [|n] eqn:Enb.
  - rewrite for_up_0. cbn. eexists. split; [reflexivity|]. intros j Hj. lia.
  - rewrite for_up_S.
    destruct (QuantizeARow_state BlkLen A CountK m QA n) as (IA & IQ & (m1 & IM)).
    cbv zeta in IA, IQ, IM. cbn [QuantA]. rewrite IA, IQ, IM.
    specialize (Hlt n ltac:(lia)).
    destruct (QuantizeBlock_returns BlkLen (A + n * BlkLen)
                (Nat.min (CountK - n * BlkLen) BlkLen) m1 (QA + n * Q8BlkSize BlkLen))
      as [m' Hm'].
    exists m'. split; [exact Hm'|].
    intros j Hj.
    assert (Hd : j / BlkLen = n).
    { symmetry. apply Nat.div_unique with (j - n * BlkLen); lia. }
    assert (Hmod : j mod BlkLen = j - n * BlkLen).
    { symmetry. apply Nat.mod_unique with n; lia. }
    rewrite Hd, Hmod.
    apply (QuantizeBlock_padding BlkLen (A + n * BlkLen)
             (Nat.min (CountK - n * BlkLen) BlkLen) m1 m'); try assumption; lia.
Qed.

(** A block whose elements are all zero. *)
Lemma max16_zero (g : nat -> F) :
  (forall t, g t = fzero) -> max16 g = fzero.
Proof.
  intros Hg. unfold max16. rewrite !Hg, !law_max_zero. reflexivity.
Qed.

Lemma block_amax_zero A EC :
  (forall k, k < EC -> fabs (mA (A + k)) = fzero) ->
  block_amax mA A EC = fzero.
Proof.
  intros Hz. unfold block_amax, Quantize.SubBlkLen.
  rewrite for_step_for_up by lia.
  generalize (MlasDivRoundup EC 16) as n.
  induction n as [|n IH]; [reflexivity|].
  rewrite for_up_S, IH, amax_step_max16, max16_zero.
  - unfold std_max. rewrite law_ltb_zero. reflexivity.
  - intros t. unfold padded.
    destruct (t <? Nat.min (EC - n * 16) 16) eqn:E.
    + apply Nat.ltb_lt in E.
      replace (A + n * 16 + t) with (A + (n * 16 + t)) by lia.
      apply Hz. lia.
    + apply law_abs_zero.
Qed.

Lemma QuantizeBlock_zero_block BlkLen A EC (m : Q8Mem F) QA :
  EC <= BlkLen -> BlkLen mod 16 = 0 ->
  (forall k, k < EC -> fabs (mA (A + k)) = fzero) ->
  exists m',
    QuantizeBlock mA BlkLen A EC m QA = Some m' /\
    Q8BlkScale m' QA = fzero /\
    forall t, t < BlkLen -> q8_data m' (Q8BlkData QA + t) = 0%Z.
Proof.
  intros HEC H16 Hz.
  destruct (QuantizeBlock_returns BlkLen A EC m QA) as [m' Hm'].
  exists m'. split; [exact Hm'|].
  destruct (QuantizeBlock_spec mA BlkLen A EC m m' QA HEC H16 Hm')
    as (scale & r & Hs & Hr & HS & HD).
  rewrite block_amax_zero in Hs by exact Hz.
  unfold checked_div in Hs. rewrite law_127_nonzero, law_div_zero in Hs.
  injection Hs as <-.
  unfold reciprocal_of in Hr. rewrite law_eqb_zero in Hr. cbn in Hr.
  injection Hr as <-.
  split.
  - unfold Q8BlkScale. rewrite HS. apply store_eq.
  - intros t Ht. rewrite HD.
    replace (in_range (Q8BlkData QA) BlkLen (Q8BlkData QA + t)) with true
      by (symmetry; apply in_range_true; lia).
    replace (Q8BlkData QA + t - Q8BlkData QA) with t by lia.
    destruct (t <? MlasDivRoundup EC 16 * 16); [|reflexivity].
    unfold quantized, padded.
    destruct (t <? EC) eqn:E.
    + apply Nat.ltb_lt in E. rewrite law_cvta_zero_mul by (apply Hz; exact E). reflexivity.
    + rewrite law_cvta_mul_zero. reflexivity.
Qed.

End Generic.

End QuantizeLaws.


(** * The two arithmetics *)

Module Binary32Facts.

Import Neon Quantize TwosComplement Binary32.

Lemma b32_fzero_eq : (fzero : spec_float) = S754_zero false.
Proof. reflexivity. Qed.

Lemma cvta_mul_zero r : cvta (SFmul prec emax (S754_zero false) r) = 0%Z.
Proof. destruct r as [s | s | | s m e]; reflexivity. Qed.

Lemma b32_abs_zero_inv x : SFabs x = S754_zero false -> exists s, x = S754_zero s.
Proof. destruct x as [s | s | | s m e]; intros H; try discriminate. exists s. reflexivity. Qed.

#[export] Instance b32_laws : Fp32ZeroLaws spec_float ops.
Proof.
  constructor; try reflexivity.
  - exact cvta_mul_zero.
  - intros x Hx. destruct (b32_abs_zero_inv x Hx) as [s ->]. destruct s; reflexivity.
Qed.

End Binary32Facts.

Module ExactFacts.

Import Neon Quantize TwosComplement Exact.
Local Open Scope Qc_scope.

Lemma exact_fzero_eq : (fzero : Qc) = 0.
Proof. apply Qc_is_canon. reflexivity. Qed.

Lemma ltb_lt x y : ltb x y = true <-> x < y.
Proof.
  unfold ltb. rewrite Qclt_alt. destruct (x ?= y); intuition congruence.
Qed.

Lemma ltb_ge x y : ltb x y = false <-> y <= x.
Proof.
  unfold ltb. split.
  - intros H. apply Qcnot_lt_le. rewrite Qclt_alt. destruct (x ?= y); congruence.
  - intros H. apply Qcle_not_lt in H. rewrite Qclt_alt in H.
    destruct (x ?= y); congruence.
Qed.

Lemma eqb_eq x y : Qc_eq_bool x y = true <-> x = y.
Proof.
  split; [apply Qc_eq_bool_correct|].
  intros ->. unfold Qc_eq_bool. destruct (Qc_eq_dec y y); congruence.
Qed.

Lemma eqb_neq x y : Qc_eq_bool x y = false <-> x <> y.
Proof.
  unfold Qc_eq_bool. destruct (Qc_eq_dec x y); intuition congruence.
Qed.

Lemma opp_0 : - 0 = 0.
Proof. ring. Qed.

Lemma exact_abs_zero_inv x : abs x = 0 -> x = 0.
Proof.
  unfold abs. destruct (ltb x 0) eqn:E; [|tauto].
  intros H. rewrite <- (Qcopp_involutive x), H. apply opp_0.
Qed.

Lemma round_half_away_0 : round_half_away 0 = 0%Z.
Proof. reflexivity. Qed.

#[export] Instance exact_laws : Fp32ZeroLaws Qc ops.
Proof.
  constructor.
  - apply eqb_neq. intros H. discriminate H.
  - reflexivity.
  - reflexivity.
  - reflexivity.
  - apply eqb_eq. reflexivity.
  - apply Qc_is_canon. reflexivity.
  - intros r. cbn [fcvta fmul ops]. rewrite exact_fzero_eq, Qcmult_0_l. reflexivity.
  - intros x Hx. cbn [fabs ops] in Hx. rewrite exact_fzero_eq in *.
    apply exact_abs_zero_inv in Hx. subst x.
    cbn [fcvta fmul ops]. rewrite Qcmult_0_l. reflexivity.
Qed.

End ExactFacts.


(** * Rounding to the nearest integer, ties away from zero *)

Module Rounding.

Import TwosComplement Exact.
Local Open Scope Q_scope.

Lemma Qfloor_add_Z (x : Q) (z : Z) : Qfloor (x + inject_Z z) = (Qfloor x + z)%Z.
Proof.
  destruct x as [n d]. unfold Qfloor, Qplus, inject_Z. cbn [Qnum Qden].
  rewrite Pos.mul_1_r, Z.mul_1_r.
  rewrite Z.div_add by lia. reflexivity.
Qed.

Lemma Qfloor_eq (x y : Q) : x == y -> Qfloor x = Qfloor y.
Proof.
  intros H. apply Z.le_antisymm; apply Qfloor_resp_le; rewrite H; apply Qle_refl.
Qed.

(** The result is a nearest integer. *)
Lemma floor_half_bounds (y : Q) :
  inject_Z (Qfloor (y + (1 # 2))) <= y + (1 # 2) /\
  y - (1 # 2) < inject_Z (Qfloor (y + (1 # 2))).
Proof.
  pose proof (Qfloor_le (y + (1 # 2))) as H1.
  pose proof (Qlt_floor (y + (1 # 2))) as H2.
  rewrite inject_Z_plus in H2. change (inject_Z 1) with 1 in H2.
  split; lra.
Qed.

Lemma round_half_away_nearest (x : Q) :
  Qabs (inject_Z (round_half_away x) - x) <= 1 # 2.
Proof.
  unfold round_half_away.
  destruct (x ?= 0) eqn:E.
  - destruct (floor_half_bounds x). apply Qabs_Qle_condition. split; lra.
  - destruct (floor_half_bounds (- x)). rewrite inject_Z_opp.
    apply Qabs_Qle_condition. split; lra.
  - destruct (floor_half_bounds x). apply Qabs_Qle_condition. split; lra.
Qed.

(** A tie is resolved away from zero: upwards for a positive value,
    downwards for a negative one. *)
Lemma round_half_away_tie (n : Z) :
  round_half_away (inject_Z n + (1 # 2)) = if (0 <=? n)%Z then (n + 1)%Z else n.
Proof.
  unfold round_half_away.
  destruct (0 <=? n)%Z eqn:E.
  - apply Z.leb_le in E.
    assert (H : 0 < inject_Z n + (1 # 2)).
    { assert (inject_Z 0 <= inject_Z n) by (rewrite <- Zle_Qle; exact E).
      change (inject_Z 0) with 0 in *. lra. }
    assert (Hc : (inject_Z n + (1 # 2) ?= 0) = Gt) by (apply Qgt_alt; exact H).
    rewrite Hc.
    rewrite (Qfloor_eq (inject_Z n + (1 # 2) + (1 # 2)) (inject_Z (n + 1))).
    + apply Qfloor_Z.
    + rewrite inject_Z_plus. change (inject_Z 1) with 1. lra.
  - apply Z.leb_gt in E.
    assert (H : inject_Z n + (1 # 2) < 0).
    { assert (inject_Z n <= inject_Z (-1)) by (rewrite <- Zle_Qle; lia).
      change (inject_Z (-1)) with (-1 # 1) in *. lra. }
    assert (Hc : (inject_Z n + (1 # 2) ?= 0) = Lt) by (apply Qlt_alt; exact H).
    rewrite Hc.
    rewrite (Qfloor_eq (- (inject_Z n + (1 # 2)) + (1 # 2)) (inject_Z (- n))).
    + rewrite Qfloor_Z. lia.
    + rewrite inject_Z_opp. lra.
Qed.

Lemma round_half_away_examples :
  round_half_away (5 # 2) = 3%Z /\ round_half_away (- 5 # 2) = (- 3)%Z /\
  round_half_away (1 # 2) = 1%Z /\ round_half_away (- 1 # 2) = (- 1)%Z /\
  round_half_away (3 # 2) = 2%Z /\ round_half_away (7 # 2) = 4%Z.
Proof. repeat split; reflexivity. Qed.

Lemma round_half_away_Z (z : Z) : round_half_away (inject_Z z) = z.
Proof.
  pose proof (round_half_away_nearest (inject_Z z)) as H.
  apply Qabs_Qle_condition in H. destruct H as [H1 H2].
  set (r := round_half_away (inject_Z z)) in *.
  assert (Ha : inject_Z r - inject_Z z == inject_Z (r - z)).
  { unfold Zminus. rewrite inject_Z_plus, inject_Z_opp. lra. }
  rewrite Ha in H1, H2.
  destruct (Z.eq_dec r z) as [E | N]; [exact E | exfalso].
  destruct (Z.lt_ge_cases r z) as [Hlt | Hge].
  - assert (inject_Z (r - z) <= inject_Z (-1)) by (rewrite <- Zle_Qle; lia).
    change (inject_Z (-1)) with (-1 # 1) in *. lra.
  - assert (inject_Z 1 <= inject_Z (r - z)) by (rewrite <- Zle_Qle; lia).
    change (inject_Z 1) with 1 in *. lra.
Qed.

Lemma pow2_pos (k : positive) : Zpos (Pos.pow 2 k) = (2 ^ Zpos k)%Z.
Proof. apply Pos2Z.inj_pow. Qed.

Lemma pow2_half (k : positive) : (2 ^ Zpos k = 2 * 2 ^ (Zpos k - 1))%Z.
Proof.
  replace (Zpos k) with (1 + (Zpos k - 1))%Z at 1 by lia.
  rewrite Z.pow_add_r by lia. reflexivity.
Qed.

(** FCVTAS on a finite number is rounding of its value to the nearest
    integer, ties away from zero, then saturation. *)
Lemma cvta_finite s m e :
  Binary32.cvta (S754_finite s m e)
  = saturate32 (round_half_away (Binary32.value (S754_finite s m e))).
Proof.
  unfold Binary32.cvta. f_equal. unfold Binary32.value, Binary32.round_half_up_pos.
  destruct e as [|p|k].
  - rewrite round_half_away_Z. destruct s; cbn [cond_Zopp]; lia.
  - rewrite round_half_away_Z. destruct s; cbn [cond_Zopp]; lia.
  - assert (Hfl : Qfloor ((Zpos m # Pos.pow 2 k) + (1 # 2))
                  = ((Zpos m + 2 ^ (Zpos k - 1)) / 2 ^ Zpos k)%Z).
    { unfold Qplus, Qfloor. cbn [Qnum Qden].
      rewrite Pos2Z.inj_mul, pow2_pos.
      rewrite (pow2_half k) at 1.
      replace (Zpos m * 2 + 1 * (2 * 2 ^ (Zpos k - 1)))%Z
        with ((Zpos m + 2 ^ (Zpos k - 1)) * 2)%Z by ring.
      apply Z.div_mul_cancel_r.
      - pose proof (Z.pow_pos_nonneg 2 (Zpos k)). lia.
      - lia. }
    unfold round_half_away. destruct s; cbn [cond_Zopp].
    + replace ((- Zpos m # Pos.pow 2 k) ?= 0) with Lt by reflexivity.
      replace (- (- Zpos m # Pos.pow 2 k)) with (Zpos m # Pos.pow 2 k) by reflexivity.
      rewrite Hfl. reflexivity.
    + replace ((Zpos m # Pos.pow 2 k) ?= 0) with Gt by reflexivity.
      rewrite Hfl. reflexivity.
Qed.

End Rounding.


(** * The activation quantizer: scale, rounding and padding *)

Module QuantizeClaims.

Import Mlas Neon NeonFacts Q8 Quantize QuantizeFacts QuantizeLaws TwosComplement.

Section Generic.

Context {F : Type} {ops : Fp32Ops F} {laws : Fp32ZeroLaws F ops}.
Variable mA : mem F.

(** What a block of the workspace holds after QuantizeBlock: the scale
    [amax / 127], and for every element its product with the guarded
    reciprocal of the scale, rounded by FCVTAS and cast to [int8_t]. *)
Lemma QuantizeBlock_scale_codes BlkLen A EC (m : Q8Mem F) QA :
  EC <= BlkLen -> BlkLen mod 16 = 0 ->
  exists m',
    QuantizeBlock mA BlkLen A EC m QA = Some m' /\
    let scale := fdiv (block_amax mA A EC) (f_of_Z 127) in
    Q8BlkScale m' QA = scale /\
    forall k, k < EC ->
      q8_data m' (Q8BlkData QA + k) = quantized (scale_reciprocal scale) (mA (A + k)).
Proof.
  intros HEC H16.
  destruct (QuantizeBlock_returns mA BlkLen A EC m QA) as [m' Hm'].
  exists m'. split; [exact Hm'|].
  destruct (QuantizeBlock_spec mA BlkLen A EC m m' QA HEC H16 Hm')
    as (scale & r & Hs & Hr & HS & HD).
  unfold checked_div in Hs. rewrite law_127_nonzero in Hs. injection Hs as <-.
  cbv zeta. set (scale := fdiv _ _) in *.
  assert (Er : r = scale_reciprocal scale).
  { unfold reciprocal_of, checked_div in Hr. unfold scale_reciprocal.
    destruct (feqb scale fzero); cbn [negb] in *; congruence. }
  subst r. split.
  - unfold Q8BlkScale. rewrite HS. apply store_eq.
  - intros k Hk. rewrite HD.
    replace (in_range (Q8BlkData QA) BlkLen (Q8BlkData QA + k)) with true
      by (symmetry; apply in_range_true; lia).
    replace (Q8BlkData QA + k - Q8BlkData QA) with k by lia.
    destruct (MlasDivRoundup_bounds EC 16 ltac:(lia)) as [Hge _].
    replace (k <? MlasDivRoundup EC 16 * 16) with true
      by (symmetry; apply Nat.ltb_lt; lia).
    unfold padded. replace (k <? EC) with true by (symmetry; apply Nat.ltb_lt; lia).
    reflexivity.
Qed.

End Generic.

Import Binary32 Binary32Facts.

Lemma Binary32_scale_reciprocal scale :
  scale_reciprocal (ops := Binary32.ops) scale
  = if SFeqb scale zero then zero else SFdiv prec emax (of_Z 1) scale.
Proof.
  unfold scale_reciprocal. cbn [feqb fdiv f_of_Z Binary32.ops].
  rewrite Binary32Facts.b32_fzero_eq. fold zero.
  destruct (SFeqb scale zero); reflexivity.
Qed.

(** C6: rounding to nearest, ties away from zero.

    On binary32 every code is the [int8_t] cast of FCVTAS applied to the
    product of the element with the reciprocal of the scale, and FCVTAS of
    a finite number is its value rounded to a nearest integer, with a tie
    resolved away from zero (upwards for n + 1/2 with n >= 0, downwards
    otherwise), saturated to [int32_t].  The block 127, 2.5, -2.5, 0.5,
    -0.5, 1.5, -1.5, 3.5 is quantized to 127, 3, -3, 1, -1, 2, -2, 4, where
    rounding ties to even would give 2, -2, 0, 0, 2, -2, 4. *)
Theorem QuantizeBlock_rounds_half_away_from_zero :
  (forall (mA : mem spec_float) BlkLen A EC m QA,
      EC <= BlkLen -> BlkLen mod 16 = 0 ->
      exists m',
        QuantizeBlock mA BlkLen A EC m QA = Some m' /\
        forall k, k < EC ->
          let y := SFmul prec emax (mA (A + k))
                     (scale_reciprocal (ops := Binary32.ops) (Q8BlkScale m' QA)) in
          q8_data m' (Q8BlkData QA + k) = sint8 (cvta y) /\
          (forall s mant e, y = S754_finite s mant e ->
             cvta y = saturate32 (Exact.round_half_away (value y))))
  /\
  (forall x : Q, (Qabs (inject_Z (Exact.round_half_away x) - x) <= 1 # 2)%Q)
  /\
  (forall n : Z,
      Exact.round_half_away (inject_Z n + (1 # 2))
      = if (0 <=? n)%Z then (n + 1)%Z else n)
  /\
  (exists m',
      QuantizeBlock Examples.tie_block 16 0 16 Examples.dirty_workspace 0 = Some m' /\
      map (fun k => q8_data m' (Q8BlkData 0 + k)) (seq 0 8)
      = [127; 3; -3; 1; -1; 2; -2; 4]%Z).
Proof.
  split; [|split; [|split]].
  - intros mA BlkLen A EC m QA HEC H16.
    destruct (QuantizeBlock_scale_codes mA BlkLen A EC m QA HEC H16) as (m' & Hm' & HS & HC).
    exists m'. split; [exact Hm'|]. intros k Hk. cbv zeta in *.
    rewrite HS. split.
    + apply HC. exact Hk.
    + intros s mant e ->. apply Rounding.cvta_finite.
  - exact Rounding.round_half_away_nearest.
  - exact Rounding.round_half_away_tie.
  - eexists. split; [vm_compute; reflexivity|]. vm_compute. reflexivity.
Qed.

Lemma QuantizeBlock_rounds_half_away_from_zero_witness :
  exists m',
    QuantizeBlock Examples.tie_block 16 0 16 Examples.dirty_workspace 0 = Some m' /\
    q8_data m' (Q8BlkData 0 + 2) = (-3)%Z.
Proof.
  destruct (proj1 QuantizeBlock_rounds_half_away_from_zero
              Examples.tie_block 16 0 16 Examples.dirty_workspace 0
              ltac:(lia) ltac:(reflexivity)) as (m' & Hm' & HC).
  exists m'. split; [exact Hm'|].
  destruct (HC 2 ltac:(lia)) as [-> _].
  assert (E : QuantizeBlock Examples.tie_block 16 0 16 Examples.dirty_workspace 0
              = Some m') by exact Hm'.
  vm_compute in E. injection E as <-. vm_compute. reflexivity.
Defined.

(** C7: zero padding of the last block.

    On binary32, for a block length that is a positive multiple of 16 and
    a row whose length CountK is not a multiple of it, QuantizeARow_CompInt8
    returns, and in the workspace it leaves every position of the last
    block from CountK on holds the code 0, whatever the workspace held
    before; such a code contributes 0 to any dot product. *)
Theorem QuantizeARow_CompInt8_zero_fills_padding
    (mA : mem spec_float) BlkLen A CountK (m : Q8Mem spec_float) QA :
  0 < BlkLen -> BlkLen mod 16 = 0 -> CountK mod BlkLen <> 0 ->
  exists m',
    QuantizeARow_CompInt8 mA BlkLen A CountK m QA = Some m' /\
    forall j, CountK <= j < MlasDivRoundup CountK BlkLen * BlkLen ->
      let code := q8_data m' (Q8BlkData (QA + j / BlkLen * Q8BlkSize BlkLen)
                              + j mod BlkLen) in
      code = 0%Z /\ forall b : Z, (code * b = 0)%Z.
Proof.
  intros HB H16 _.
  destruct (QuantizeARow_padding mA BlkLen A CountK m QA HB H16) as (m' & Hm' & HP).
  exists m'. split; [exact Hm'|].
  intros j Hj. cbv zeta. rewrite (HP j Hj). split; [reflexivity|]. intros b. lia.
Qed.

Lemma QuantizeARow_CompInt8_zero_fills_padding_witness :
  exists m',
    QuantizeARow_CompInt8 Examples.row20 16 0 20 Examples.dirty_workspace 0 = Some m' /\
    q8_data m' (Q8BlkData (0 + 27 / 16 * Q8BlkSize 16) + 27 mod 16) = 0%Z.
Proof.
  destruct (QuantizeARow_CompInt8_zero_fills_padding
              Examples.row20 16 0 20 Examples.dirty_workspace 0
              ltac:(lia) ltac:(reflexivity) ltac:(vm_compute; discriminate))
    as (m' & Hm' & HP).
  exists m'. split; [exact Hm'|].
  assert (Hj : 20 <= 27 < MlasDivRoundup 20 16 * 16).
  { change (MlasDivRoundup 20 16) with 2. lia. }
  exact (proj1 (HP 27 Hj)).
Defined.

End QuantizeClaims.


(** * The integer kernel: return value and zero-points *)

Module Int8Claims.

Import Mlas Neon NeonFacts Q8 CompInt8 TwosComplement.

(** C10: SQ4BitGemmKernel_CompInt8 returns CountM, the full number of rows
    requested, for every combination of arguments. *)
Theorem SQ4BitGemmKernel_CompInt8_returns_CountM
    {F : Type} {ops : Fp32Ops F}
    (mQuantA : Q8Mem F) (mQuantBData : mem Z) (mQuantBScale : mem F)
    (mQuantBZeroPoint : mem Z) (mBias : mem F)
    (BlkLen QuantA QuantBData QuantBScale : nat) (QuantBZeroPoint : option nat)
    (C0 : mem F) (CPtr CountM CountN CountK BlockCountK ldc : nat) (Bias : option nat) :
  snd (SQ4BitGemmKernel_CompInt8 mQuantA mQuantBData mQuantBScale mQuantBZeroPoint mBias
         BlkLen QuantA QuantBData QuantBScale QuantBZeroPoint
         C0 CPtr CountM CountN CountK BlockCountK ldc Bias)
  = CountM.
Proof. reflexivity. Qed.

Lemma land1_even (k : nat) : Z.eqb (Z.land (Z.of_nat k) 1) 0 = Nat.even k.
Proof.
  change 1%Z with (Z.ones 1). rewrite Z.land_ones by lia.
  change (2 ^ 1)%Z with 2%Z.
  destruct (even_half_cases k) as [[Ev E] | [Ev E]]; rewrite Ev.
  - apply Z.eqb_eq. rewrite E at 1. rewrite Nat2Z.inj_mul, Z.mul_comm. apply Z.mod_mul. lia.
  - apply Z.eqb_neq. rewrite E at 1.
    rewrite Nat2Z.inj_add, Nat2Z.inj_mul. change (Z.of_nat 2) with 2%Z. change (Z.of_nat 1) with 1%Z.
    rewrite Z.add_comm, Z.mul_comm, Z.mod_add by lia. discriminate.
Qed.

Lemma half_succ (i : nat) : S i / 2 = i / 2 + (if Nat.even i then 0 else 1).
Proof.
  destruct (even_half_cases i) as [[Ev E] | [Ev E]]; rewrite Ev.
  - symmetry. apply Nat.div_unique with 1; lia.
  - symmetry. apply Nat.div_unique with 0; lia.
Qed.

Section Generic.

Context {F : Type} {ops : Fp32Ops F}.
Variable mQuantA : Q8Mem F.
Variable mQuantBData : mem Z.
Variable mQuantBScale : mem F.
Variable mQuantBZeroPoint : mem Z.
Variable mBias : mem F.

(** In Compute1x1_BlkLenGreaterThan32 the zero-point pointer of block [i]
    is at byte [i / 2] of the column. *)
Lemma step1x1_BlkLenGreaterThan32_zero_point_ptr BlkLen K a b s z i :
  tQuantBZeroPointPtr
    (for_up i
       (step1x1_BlkLenGreaterThan32 mQuantA mQuantBData mQuantBScale mQuantBZeroPoint
          true BlkLen)
       (init1x1 K a b s z))
  = z + i / 2.
Proof.
  induction i as [|i IH].
  - rewrite for_up_0. cbn. lia.
  - rewrite for_up_S. unfold step1x1_BlkLenGreaterThan32 at 1.
    cbn [tQuantBZeroPointPtr]. rewrite IH. unfold next_zero_point_ptr.
    rewrite land1_even, half_succ. lia.
Qed.

End Generic.

Import Binary32 Examples.

(** C3 (defect): in Compute1x1_BlkLenGreaterThan32 the zero-point applied
    to block [i] is always the low nibble of byte [i / 2] of the column,
    also when [i] is odd.  With the zero-point byte 0x37 the odd block 1
    is given the zero-point 7, where the rule of the packed format (and
    the 2x2 tile of the same kernel) gives 3. *)
Theorem Compute1x1_BlkLenGreaterThan32_zero_point_of_odd_block :
  (forall {F : Type} {ops : Fp32Ops F} mQuantA mQuantBData mQuantBScale
          (mQuantBZeroPoint : mem Z) BlkLen K a b s z i,
      bzp_low mQuantBZeroPoint true
        (tQuantBZeroPointPtr
           (for_up i
              (step1x1_BlkLenGreaterThan32 (F := F) mQuantA mQuantBData mQuantBScale
                 mQuantBZeroPoint true BlkLen)
              (init1x1 K a b s z)))
      = zp_low (mQuantBZeroPoint (z + i / 2)))
  /\
  bzp_low zp37_QuantBZeroPoint true
    (tQuantBZeroPointPtr
       (for_up 1
          (step1x1_BlkLenGreaterThan32 ones_QuantA threes_QuantBData ones_QuantBScale
             zp37_QuantBZeroPoint true 64)
          (init1x1 2 0 0 0 0)))
  = 7%Z
  /\
  zero_point_of_block zp37_QuantBZeroPoint 0 1 = 3%Z
  /\
  snd (load_bzp_2x2 zp37_QuantBZeroPoint true 1 1
         (QuantBZeroPointPtr
            (for_up 1
               (step2x2_BlkLenGreaterThan16 ones_QuantA threes_QuantBData ones_QuantBScale
                  zp37_QuantBZeroPoint true 64 136 64 2 1)
               (init2x2 0 0 0 0))))
  = 3%Z.
Proof.
  split; [|split; [|split]].
  - intros. rewrite step1x1_BlkLenGreaterThan32_zero_point_ptr. reflexivity.
  - vm_compute. reflexivity.
  - vm_compute. reflexivity.
  - vm_compute. reflexivity.
Qed.

(** C2 (defect): on the operands of [Examples], with CountM = 2 and
    CountN = 3, the elements of the columns 0 and 1, computed in a 2x2
    tile, are -256, and the elements of column 2, computed in the 2x1
    remainder tile, are -512, although the three columns of B are equal.
    Without zero-points every element is 64 * (3 - 8) * 2 = -640. *)
Theorem SQ4BitGemmKernel_CompInt8_remainder_tile_differs :
  let C := fst (SQ4BitGemmKernel_CompInt8 ones_QuantA threes_QuantBData ones_QuantBScale
                  zp37_QuantBZeroPoint no_bias
                  64 0 0 0 (Some 0) zero_C 0 2 3 128 2 3 None) in
  map C (seq 0 6)
  = [of_Z (-256); of_Z (-256); of_Z (-512); of_Z (-256); of_Z (-256); of_Z (-512)]
  /\
  let C' := fst (SQ4BitGemmKernel_CompInt8 ones_QuantA threes_QuantBData ones_QuantBScale
                   zp37_QuantBZeroPoint no_bias
                   64 0 0 0 None zero_C 0 2 3 128 2 3 None) in
  map C' (seq 0 6)
  = [of_Z (-640); of_Z (-640); of_Z (-640); of_Z (-640); of_Z (-640); of_Z (-640)].
Proof. split; vm_compute; reflexivity. Qed.

End Int8Claims.


(** * The float kernel: tiles and columns *)

Module Fp32Facts.

Import Mlas Neon NeonFacts CompFp32.
Import Fp32Views.

(** A [while] loop whose states have a closed form. *)
Lemma while_loop_closed {S} (cond : S -> bool) (body : S -> S) (f : nat -> S) (T : nat) :
  (forall t, t < T -> f (Datatypes.S t) = body (f t)) ->
  (forall t, t < T -> cond (f t) = true) ->
  cond (f T) = false ->
  forall fuel, T <= fuel -> while_loop fuel cond body (f 0) = f T.
Proof.
  intros Hstep Hcond Hend.
  assert (G : forall d t fuel, t + d = T -> d <= fuel ->
              while_loop fuel cond body (f t) = f T).
  { induction d as [|d IH]; intros t fuel Ht Hf.
    - rewrite Nat.add_0_r in Ht. subst t.
      destruct fuel; simpl; [reflexivity|]. rewrite Hend. reflexivity.
    - destruct fuel as [|fuel]; [lia|]. simpl.
      rewrite Hcond by lia. rewrite <- Hstep by lia.
      apply IH; lia. }
  intros fuel Hf. apply (G T 0 fuel); lia.
Qed.

(** Two loops over the same range whose bodies preserve a relation. *)
Lemma for_loop_related {S S'} (R : S -> S' -> Prop)
    (body : nat -> S -> S) (body' : nat -> S' -> S') bound step :
  (forall k s s', R s s' -> R (body k s) (body' k s')) ->
  forall fuel k0 s s',
    R s s' ->
    R (for_loop fuel k0 bound step body s) (for_loop fuel k0 bound step body' s').
Proof.
  intros Hstep. induction fuel as [|fuel IH]; intros k0 s s' H; simpl; [exact H|].
  destruct (k0 <? bound); [|exact H].
  apply IH, Hstep, H.
Qed.

Section Generic.

Context {F : Type} {ops : Fp32Ops F}.
Variable mA : mem F.
Variable mQuantBData : mem Z.
Variable mQuantBScale : mem F.
Variable mQuantBZeroPoint : mem Z.
Variable mBias : mem F.

Abbreviation block_step := (block_step mA mQuantBData mQuantBScale mQuantBZeroPoint).
Abbreviation sub_block_step := (sub_block_step mA mQuantBData).
Abbreviation ComputeDotProducts :=
  (ComputeDotProducts_BlkBitWidth4_CompFp32 mA mQuantBData mQuantBScale mQuantBZeroPoint mBias).
Abbreviation column_state :=
  (column_state mA mQuantBData mQuantBScale mQuantBZeroPoint).
Abbreviation column_value :=
  (column_value mA mQuantBData mQuantBScale mQuantBZeroPoint).

Section Columns.

Variable NCols : nat.
Variable HasZeroPoint : bool.
Variable BlkLen ARowPtr CountK : nat.
Variable sB sS sZ : nat.
Variable zpcol : nat.
Variable i : nat.
Hypothesis Hi : i < NCols.

Abbreviation same_column := (@Fp32Views.same_column F ops sB sS i).

Lemma sub_block_step_same_column s s1 scale offset scale1 offset1 k len kk a a1 :
  QuantBData s1 = QuantBData s + i * sB ->
  flane scale1 0 = flane scale i ->
  flane offset1 0 = flane offset i ->
  varr a1 0 = varr a i ->
  varr (sub_block_step 1 HasZeroPoint ARowPtr sB s1 scale1 offset1 k len kk a1) 0
  = varr (sub_block_step NCols HasZeroPoint ARowPtr sB s scale offset k len kk a) i.
Proof.
  intros HQ Hs Ho Ha. unfold CompFp32.sub_block_step.
  set (av := LoadFloatData mA (ARowPtr + k + kk) (Nat.min (len - kk) CompFp32.SubBlkLen) 0
               (zero_f32x4_array 4)).
  set (off := kk * CompFp32.BlkBitWidth / 8).
  unfold for_up. cbn [seq fold_left].
  rewrite !varr_tabulate by lia.
  rewrite !nth_tabulate by lia.
  rewrite HQ, Hs, Ho, Ha.
  replace (QuantBData s + i * sB + 0 * sB + off) with (QuantBData s + i * sB + off) by lia.
  reflexivity.
Qed.

Lemma sub_block_loop_same_column s s1 scale offset scale1 offset1 k len :
  QuantBData s1 = QuantBData s + i * sB ->
  flane scale1 0 = flane scale i ->
  flane offset1 0 = flane offset i ->
  forall n a a1,
    varr a1 0 = varr a i ->
    varr (for_up n (fun q => sub_block_step 1 HasZeroPoint ARowPtr sB s1 scale1 offset1 k len
                               (q * CompFp32.SubBlkLen)) a1) 0
    = varr (for_up n (fun q => sub_block_step NCols HasZeroPoint ARowPtr sB s scale offset k len
                                 (q * CompFp32.SubBlkLen)) a) i.
Proof.
  intros HQ Hs Ho. induction n as [|n IH]; intros a a1 Ha.
  - rewrite !for_up_0. exact Ha.
  - rewrite !for_up_S. apply sub_block_step_same_column; try assumption.
    apply IH. exact Ha.
Qed.

Lemma block_step_same_column k s s1 :
  same_column s s1 ->
  same_column
    (block_step NCols HasZeroPoint BlkLen ARowPtr zpcol CountK sB sS sZ k s)
    (block_step 1 HasZeroPoint BlkLen ARowPtr (zpcol + i * sZ) CountK sB sS sZ k s1).
Proof.
  intros (HQ & HS & HI & HA). unfold Fp32Views.same_column, CompFp32.block_step.
  cbn [QuantBData QuantBScale QuantBZeroPointIdx acc].
  split; [lia|]. split; [lia|]. split; [destruct HasZeroPoint; lia|].
  rewrite !for_step_for_up by (unfold CompFp32.SubBlkLen; lia).
  apply sub_block_loop_same_column; try assumption.
  - rewrite !flane_tabulate by lia. rewrite HS. f_equal. lia.
  - destruct HasZeroPoint; [|unfold flane; destruct i; reflexivity].
    rewrite !flane_tabulate by lia. rewrite HI.
    replace (zpcol + i * sZ + 0 * sZ) with (zpcol + i * sZ) by lia. reflexivity.
Qed.

Lemma block_loop_same_column bcol scol :
  same_column
    (for_step CountK BlkLen
       (block_step NCols HasZeroPoint BlkLen ARowPtr zpcol CountK sB sS sZ)
       {| acc := zero_f32x4_array NCols; QuantBData := bcol; QuantBScale := scol;
          QuantBZeroPointIdx := 0 |})
    (column_state HasZeroPoint BlkLen ARowPtr CountK sB sS sZ
       (bcol + i * sB) (scol + i * sS) (zpcol + i * sZ)).
Proof.
  unfold CompFp32.column_state, for_step.
  apply for_loop_related.
  - intros k s s1 H. apply block_step_same_column. exact H.
  - unfold Fp32Views.same_column. cbn [QuantBData QuantBScale QuantBZeroPointIdx acc].
    repeat split.
    unfold zero_f32x4_array. rewrite !varr_tabulate by lia. reflexivity.
Qed.

End Columns.

Abbreviation same_column := (@Fp32Views.same_column F ops).

(** FoldAccumulators puts in lane [t] the sum of the lanes of its
    argument [t], paired like [vaddvq_f32]. *)
Lemma FoldAccumulators_lane (a0 a1 a2 a3 : list F) t :
  t < 4 ->
  flane (FoldAccumulators a0 a1 a2 a3) t
  = vaddvq_f32 (nth t [a0; a1; a2; a3] zero_f32x4).
Proof.
  intros Ht. unfold FoldAccumulators, Transpose4x4, vaddvq_f32.
  do 4 (destruct t as [|t]; [reflexivity|]). lia.
Qed.

Section Tile.

Variable HasZeroPoint : bool.
Variable BlkLen ARowPtr CountK : nat.
Variable sB sS sZ : nat.

Abbreviation tile_value :=
  (@Fp32Views.tile_value F ops mA mQuantBData mQuantBScale mQuantBZeroPoint mBias
     HasZeroPoint BlkLen ARowPtr CountK sB sS sZ).

Lemma ComputeDotProducts_4 zpcol bcol scol C SumPtr BiasPtr p :
  ComputeDotProducts 4 HasZeroPoint BlkLen ARowPtr zpcol CountK sB sS sZ
    bcol scol C SumPtr BiasPtr p
  = if in_range SumPtr 4 p
    then tile_value bcol scol zpcol BiasPtr (p - SumPtr)
    else C p.
Proof.
  unfold ComputeDotProducts_BlkBitWidth4_CompFp32. cbn [Nat.eqb].
  set (st := for_step CountK BlkLen _ _).
  assert (Hst : forall t, t < 4 ->
            vaddvq_f32 (varr (acc st) t)
            = column_value HasZeroPoint BlkLen ARowPtr CountK sB sS sZ
                (bcol + t * sB) (scol + t * sS) (zpcol + t * sZ)).
  { intros t Ht. unfold CompFp32.column_value.
    destruct (block_loop_same_column 4 HasZeroPoint BlkLen ARowPtr CountK sB sS sZ
                zpcol t Ht bcol scol) as (_ & _ & _ & ->).
    reflexivity. }
  set (fold := FoldAccumulators _ _ _ _).
  assert (Hfold : forall t, t < 4 -> flane fold t = vaddvq_f32 (varr (acc st) t)).
  { intros t Ht. unfold fold. rewrite FoldAccumulators_lane by exact Ht.
    do 4 (destruct t as [|t]; [reflexivity|]). lia. }
  assert (Hsum : forall t, t < 4 ->
            flane (match BiasPtr with
                   | Some b => vaddq_f32 fold (vld1q_f32 mBias b)
                   | None => fold
                   end) t
            = tile_value bcol scol zpcol BiasPtr t).
  { intros t Ht. unfold Fp32Views.tile_value, with_bias. rewrite <- Hst by exact Ht.
    destruct BiasPtr as [b|].
    - unfold vaddq_f32, vld1q_f32. rewrite !flane_tabulate by exact Ht.
      rewrite Hfold by exact Ht. reflexivity.
    - apply Hfold. exact Ht. }
  clearbody st fold. unfold for_up. cbn [seq fold_left].
  rewrite !Hsum by lia.
  unfold store.
  repeat match goal with
  | |- context [p =? ?a] => destruct (Nat.eqb_spec p a) as [-> | ?]
  end;
  match goal with
  | |- context [in_range ?a ?n ?q] =>
      let E := fresh "E" in
      destruct (in_range a n q) eqn:E;
      [apply in_range_true in E | apply in_range_false in E]
  end; try lia; try reflexivity; f_equal; lia.
Qed.

Lemma ComputeDotProducts_1 zpcol bcol scol C SumPtr BiasPtr p :
  ComputeDotProducts 1 HasZeroPoint BlkLen ARowPtr zpcol CountK sB sS sZ
    bcol scol C SumPtr BiasPtr p
  = if in_range SumPtr 1 p
    then tile_value bcol scol zpcol BiasPtr (p - SumPtr)
    else C p.
Proof.
  unfold ComputeDotProducts_BlkBitWidth4_CompFp32. cbn [Nat.eqb].
  fold (column_state HasZeroPoint BlkLen ARowPtr CountK sB sS sZ bcol scol zpcol).
  fold (column_value HasZeroPoint BlkLen ARowPtr CountK sB sS sZ bcol scol zpcol).
  unfold for_up. cbn [seq fold_left].
  assert (Hv : forall x, (match BiasPtr with
                          | Some b => store C (SumPtr + 0) (fadd x (mBias (b + 0)))
                          | None => store C (SumPtr + 0) x
                          end) = store C (SumPtr + 0) (with_bias mBias BiasPtr 0 x)).
  { intros x. destruct BiasPtr; reflexivity. }
  rewrite Hv. unfold store.
  destruct (Nat.eqb_spec p (SumPtr + 0)) as [-> | N].
  - replace (in_range SumPtr 1 (SumPtr + 0)) with true
      by (symmetry; apply in_range_true; lia).
    unfold Fp32Views.tile_value. replace (SumPtr + 0 - SumPtr) with 0 by lia.
    rewrite !Nat.mul_0_l, !Nat.add_0_r. reflexivity.
  - replace (in_range SumPtr 1 p) with false
      by (symmetry; apply in_range_false; lia).
    reflexivity.
Qed.

End Tile.

Abbreviation tile_value :=
  (@Fp32Views.tile_value F ops mA mQuantBData mQuantBScale mQuantBZeroPoint mBias).

Lemma with_bias_advance (B : option nat) c i (x : F) :
  with_bias mBias (advance_bias B c) i x = with_bias mBias B (c + i) x.
Proof.
  destruct B as [b|]; cbn; [|reflexivity]. f_equal. f_equal. lia.
Qed.

Lemma advance_bias_add (B : option nat) c d :
  advance_bias (advance_bias B c) d = advance_bias B (c + d).
Proof. destruct B as [b|]; cbn; [|reflexivity]. f_equal. lia. Qed.

Lemma advance_bias_0 (B : option nat) : advance_bias B 0 = B.
Proof. destruct B as [b|]; cbn; [|reflexivity]. f_equal. lia. Qed.

(** Without zero-points the zero-point pointer of a column is not used. *)
Lemma column_value_no_zero_point BlkLen ARowPtr CountK sB sS sZ bcol scol z z' :
  column_value false BlkLen ARowPtr CountK sB sS sZ bcol scol z
  = column_value false BlkLen ARowPtr CountK sB sS sZ bcol scol z'.
Proof. reflexivity. Qed.

Lemma for_up_closed {S} (body : nat -> S -> S) (f : nat -> S) n :
  (forall t, t < n -> f (Datatypes.S t) = body t (f t)) ->
  for_up n body (f 0) = f n.
Proof.
  induction n as [|n IH]; intros H.
  - apply for_up_0.
  - rewrite for_up_S, IH by (intros; apply H; lia). symmetry. apply H. lia.
Qed.

Section Impl.

Variable HasZeroPoint : bool.
Variable BlkLen A QuantBData QuantBScale QuantBZeroPoint : nat.
Variable CPtr CountN CountK BlockCountK : nat.
Variable Bias : option nat.

Let sB := BlockCountK * MlasQNBitBlkDataSizeInBytes CompFp32.BlkBitWidth BlkLen.
Let sS := BlockCountK.
Let sZ := MlasQNBitZeroPointsForBlksSizeInBytes BlockCountK.

Abbreviation output_value :=
  (@Fp32Views.output_value F ops mA mQuantBData mQuantBScale mQuantBZeroPoint mBias
     HasZeroPoint BlkLen A QuantBData QuantBScale QuantBZeroPoint CountK BlockCountK
     Bias).
Abbreviation zp_ptr := (@Fp32Views.zp_ptr HasZeroPoint QuantBZeroPoint BlockCountK).

Lemma tile_value_output c i :
  tile_value HasZeroPoint BlkLen A CountK sB sS sZ
    (QuantBData + c * sB) (QuantBScale + c * sS) (zp_ptr c) (advance_bias Bias c) i
  = output_value (c + i).
Proof.
  unfold Fp32Views.tile_value, Fp32Views.output_value. rewrite with_bias_advance. f_equal.
  replace (QuantBData + c * sB + i * sB) with (QuantBData + (c + i) * sB) by lia.
  replace (QuantBScale + c * sS + i * sS) with (QuantBScale + (c + i) * sS) by lia.
  unfold Fp32Views.zp_ptr. destruct HasZeroPoint.
  - f_equal. lia.
  - apply column_value_no_zero_point.
Qed.

Abbreviation filled :=
  (@Fp32Views.filled F ops mA mQuantBData mQuantBScale mQuantBZeroPoint mBias
     HasZeroPoint BlkLen A QuantBData QuantBScale QuantBZeroPoint CPtr CountK BlockCountK
     Bias).
Abbreviation tile4 :=
  (@Fp32Views.tile4 F ops mA mQuantBData mQuantBScale mQuantBZeroPoint mBias
     HasZeroPoint BlkLen A QuantBData QuantBScale QuantBZeroPoint CPtr CountK BlockCountK
     Bias).
Abbreviation tile1 :=
  (@Fp32Views.tile1 F ops mA mQuantBData mQuantBScale mQuantBZeroPoint mBias
     HasZeroPoint BlkLen A QuantBData QuantBScale QuantBZeroPoint CPtr CountK BlockCountK
     Bias).

Lemma tile4_spec c C p :
  tile4 c C p = if in_range (CPtr + c) 4 p then output_value (p - CPtr) else C p.
Proof.
  unfold Fp32Views.tile4. rewrite ComputeDotProducts_4.
  destruct (in_range (CPtr + c) 4 p) eqn:E; [|reflexivity].
  apply in_range_true in E. rewrite tile_value_output. f_equal. lia.
Qed.

Lemma tile1_spec c C p :
  tile1 c C p = if in_range (CPtr + c) 1 p then output_value (p - CPtr) else C p.
Proof.
  unfold Fp32Views.tile1. rewrite ComputeDotProducts_1.
  destruct (in_range (CPtr + c) 1 p) eqn:E; [|reflexivity].
  apply in_range_true in E. rewrite tile_value_output. f_equal. lia.
Qed.

Lemma tiles4_spec C0 T p :
  for_up T (fun t => tile4 (4 * t)) C0 p = filled C0 (4 * T) p.
Proof.
  induction T as [|T IH]; unfold Fp32Views.filled in *.
  - rewrite for_up_0. range_cases; [lia | reflexivity].
  - rewrite for_up_S, tile4_spec, IH.
    range_cases; try reflexivity; lia.
Qed.

Lemma tiles1_spec C0 C1 c r :
  (forall p, C1 p = filled C0 c p) ->
  forall p, for_up r (fun i => tile1 (c + i)) C1 p = filled C0 (c + r) p.
Proof.
  intros H1. induction r as [|r IH]; intros p; unfold Fp32Views.filled in *.
  - rewrite for_up_0, Nat.add_0_r. apply H1.
  - rewrite for_up_S, tile1_spec, IH.
    range_cases; try reflexivity; lia.
Qed.

Abbreviation tiles4_state :=
  (@Fp32Views.tiles4_state F ops mA mQuantBData mQuantBScale mQuantBZeroPoint mBias
     HasZeroPoint BlkLen A QuantBData QuantBScale QuantBZeroPoint CPtr CountN CountK
     BlockCountK Bias).
Abbreviation tiles1_state :=
  (@Fp32Views.tiles1_state F ops mA mQuantBData mQuantBScale mQuantBZeroPoint mBias
     HasZeroPoint BlkLen A QuantBData QuantBScale QuantBZeroPoint CPtr CountK BlockCountK
     Bias).

Lemma zp_ptr_add c d :
  (if HasZeroPoint then zp_ptr c + d * sZ else zp_ptr c) = zp_ptr (c + d).
Proof. unfold Fp32Views.zp_ptr. destruct HasZeroPoint; lia. Qed.

(** The kernel writes to every column its value and leaves the rest of
    the memory as it was. *)
Lemma Impl_spec C0 p :
  SQ4BitGemmM1Kernel_CompFp32_Impl mA mQuantBData mQuantBScale mQuantBZeroPoint mBias
    HasZeroPoint BlkLen A QuantBData QuantBScale QuantBZeroPoint
    C0 CPtr CountN CountK BlockCountK Bias p
  = filled C0 CountN p.
Proof.
  unfold SQ4BitGemmM1Kernel_CompFp32_Impl.
  fold sB sS sZ.
  set (T := CountN / 4).
  pose proof (Nat.div_mod_eq CountN 4) as ED. fold T in ED.
  pose proof (Nat.mod_upper_bound CountN 4 ltac:(lia)) as EM.
  set (r := CountN mod 4) in *.
  match goal with
  | |- context [while_loop CountN ?c ?b ?s] =>
      assert (HW : while_loop CountN c b s = tiles4_state C0 T)
  end.
  { replace CountN with (CountN + 0) at 1 by lia.
    match goal with
    | |- while_loop _ ?c ?b ?s = _ =>
        change s with (tiles4_state C0 0) || (replace s with (tiles4_state C0 0))
    end.
    2:{ unfold Fp32Views.tiles4_state. rewrite for_up_0. change (4 * 0) with 0.
        rewrite advance_bias_0.
        f_equal; try lia. unfold Fp32Views.zp_ptr. destruct HasZeroPoint; lia. }
    apply while_loop_closed.
    - intros t Ht. unfold Fp32Views.tiles4_state. cbn [QuantBDataColPtr QuantBScaleColPtr
        QuantBZeroPointColPtr_ BiasPtr SumPtr C nblk].
      rewrite for_up_S, advance_bias_add, zp_ptr_add.
      unfold Fp32Views.tile4.
      replace (4 * Datatypes.S t) with (4 * t + 4) by lia.
      f_equal; lia.
    - intros t Ht. cbn [nblk tiles4_state]. apply Z.leb_le. lia.
    - cbn [nblk tiles4_state]. apply Z.leb_gt. lia.
    - lia. }
  rewrite HW. cbn [QuantBDataColPtr QuantBScaleColPtr QuantBZeroPointColPtr_
    BiasPtr SumPtr C nblk tiles4_state].
  replace (Z.to_nat (Z.of_nat CountN - 4 - 4 * Z.of_nat T + Z.of_nat 4)) with r by lia.
  match goal with
  | |- C (for_up r ?b ?s) p = _ =>
      assert (HF : for_up r b s
                   = tiles1_state (for_up T (fun t => tile4 (4 * t)) C0) (4 * T)
                       (Z.of_nat CountN - 4 - 4 * Z.of_nat T + Z.of_nat 4)%Z r)
  end.
  { match goal with
    | |- for_up r ?b ?s = _ =>
        replace s with (tiles1_state (for_up T (fun t => tile4 (4 * t)) C0) (4 * T)
                          (Z.of_nat CountN - 4 - 4 * Z.of_nat T + Z.of_nat 4)%Z 0)
    end.
    2:{ unfold Fp32Views.tiles1_state. rewrite for_up_0, !Nat.add_0_r. reflexivity. }
    apply for_up_closed.
    intros i Hi. unfold Fp32Views.tiles1_state. cbn [QuantBDataColPtr QuantBScaleColPtr
      QuantBZeroPointColPtr_ BiasPtr SumPtr C nblk].
    rewrite for_up_S, advance_bias_add.
    unfold Fp32Views.tile1.
    replace (4 * T + Datatypes.S i) with (4 * T + i + 1) by lia.
    f_equal; try lia.
    unfold Fp32Views.zp_ptr. destruct HasZeroPoint; unfold sZ, sS; lia. }
  rewrite HF. cbn [C tiles1_state].
  rewrite (tiles1_spec C0) by (intros q; apply tiles4_spec).
  unfold Fp32Views.filled. replace (4 * T + r) with CountN by lia. reflexivity.
Qed.

End Impl.

Abbreviation output_value :=
  (@Fp32Views.output_value F ops mA mQuantBData mQuantBScale mQuantBZeroPoint mBias).
Abbreviation filled :=
  (@Fp32Views.filled F ops mA mQuantBData mQuantBScale mQuantBZeroPoint mBias).
Abbreviation tile4 :=
  (@Fp32Views.tile4 F ops mA mQuantBData mQuantBScale mQuantBZeroPoint mBias).
Abbreviation tile1 :=
  (@Fp32Views.tile1 F ops mA mQuantBData mQuantBScale mQuantBZeroPoint mBias).
Abbreviation tiles4_state :=
  (@Fp32Views.tiles4_state F ops mA mQuantBData mQuantBScale mQuantBZeroPoint mBias).
Abbreviation tiles1_state :=
  (@Fp32Views.tiles1_state F ops mA mQuantBData mQuantBScale mQuantBZeroPoint mBias).

End Generic.

End Fp32Facts.


(** * The integer kernel: tiles *)

Module Int8Facts.

Import Mlas Neon NeonFacts Q8 CompInt8 Fp32Facts.
Import Int8Views.

Section Generic.

Context {F : Type} {ops : Fp32Ops F}.
Variable mQuantA : Q8Mem F.
Variable mQuantBData : mem Z.
Variable mQuantBScale : mem F.
Variable mQuantBZeroPoint : mem Z.
Variable mBias : mem F.

Abbreviation with_bias := (CompInt8.with_bias mBias).
Abbreviation store2x2 := (CompInt8.store2x2 mBias).
Abbreviation store1x1 := (CompInt8.store1x1 mBias).
Abbreviation stored2x2 := (@Int8Views.stored2x2 F ops mBias).
Abbreviation stored1x1 := (@Int8Views.stored1x1 F ops mBias).
Abbreviation sums2x2 := (@Int8Views.sums2x2 F ops).
Abbreviation sum1x1 := (@Int8Views.sum1x1 F ops).

Lemma store2x2_spec st BiasPtr C SumPtr ldc p :
  2 <= ldc ->
  store2x2 st BiasPtr C SumPtr ldc p = stored2x2 (sums2x2 st) BiasPtr C SumPtr ldc p.
Proof.
  intros Hl. unfold CompInt8.store2x2, Int8Views.stored2x2, add_bias, CompInt8.with_bias, Int8Views.sums2x2.
  destruct BiasPtr as [b|]; unfold store;
    repeat match goal with
    | |- context [?x =? ?y] =>
        match x with
        | context [Nat.eqb] => fail 1
        | _ => match y with
               | context [Nat.eqb] => fail 1
               | _ => destruct (Nat.eqb_spec x y) as [? | ?]
               end
        end
    end; subst; try lia; try reflexivity.
Qed.

Lemma store1x1_spec st BiasPtr C SumPtr p :
  store1x1 st BiasPtr C SumPtr p = stored1x1 (sum1x1 st) BiasPtr C SumPtr p.
Proof.
  unfold CompInt8.store1x1, Int8Views.stored1x1, add_bias, CompInt8.with_bias, Int8Views.sum1x1.
  destruct BiasPtr as [b|]; unfold store.
  - rewrite Nat.eqb_refl, Nat.add_0_r. destruct (p =? SumPtr); reflexivity.
  - reflexivity.
Qed.

(** A [while] loop with an invariant indexed by the number of iterations. *)
Lemma while_loop_invariant {S} (I : nat -> S -> Prop) (cond : S -> bool)
    (body : S -> S) (T : nat) (s0 : S) :
  I 0 s0 ->
  (forall t s, t < T -> I t s -> cond s = true /\ I (Datatypes.S t) (body s)) ->
  (forall s, I T s -> cond s = false) ->
  forall fuel, T <= fuel -> I T (while_loop fuel cond body s0).
Proof.
  intros H0 Hstep Hend.
  assert (G : forall d t fuel s, t + d = T -> d <= fuel -> I t s ->
              I T (while_loop fuel cond body s)).
  { induction d as [|d IH]; intros t fuel s Ht Hf Hs.
    - rewrite Nat.add_0_r in Ht. subst t.
      destruct fuel; simpl; [exact Hs|]. rewrite (Hend s Hs). exact Hs.
    - destruct fuel as [|fuel]; [lia|]. simpl.
      destruct (Hstep t s ltac:(lia) Hs) as [Hc Hn]. rewrite Hc.
      apply (IH (Datatypes.S t)); try lia. exact Hn. }
  intros fuel Hf. apply (G T 0 fuel s0); try lia. exact H0.
Qed.

Lemma int8_with_bias_advance (B : option nat) c i (x : F) :
  with_bias (advance_bias B c) i x = with_bias B (c + i) x.
Proof.
  destruct B as [b|]; cbn; [|reflexivity]. f_equal. f_equal. lia.
Qed.

Lemma int8_advance_bias_add (B : option nat) c d :
  advance_bias (advance_bias B c) d = advance_bias B (c + d).
Proof. destruct B as [b|]; cbn; [|reflexivity]. f_equal. lia. Qed.

Lemma double_div_mod j : (2 * j) / 2 = j /\ (2 * j) mod 2 = 0 /\
                         (2 * j + 1) / 2 = j /\ (2 * j + 1) mod 2 = 1.
Proof.
  repeat split.
  - symmetry. apply Nat.div_unique with 0; lia.
  - symmetry. apply Nat.mod_unique with j; lia.
  - symmetry. apply Nat.div_unique with 1; lia.
  - symmetry. apply Nat.mod_unique with j; lia.
Qed.

Section Driver.

Variable Compute2x2 : compute2x2_t (F := F).
Variable Compute1x1 : compute1x1_t (F := F).
Variable HasZeroPoint : bool.
Variable BlkLen : nat.
Variables QuantA QuantBData QuantBScale QuantBZeroPoint : nat.
Variables CountN BlockCountK ldc : nat.
Variable Bias : option nat.

Let sA := StrideQuantA BlkLen BlockCountK.
Let sB := StrideQuantBData BlkLen BlockCountK.
Let sS := StrideQuantBScale BlockCountK.
Let sZ := StrideQuantBZeroPoint BlockCountK.

(** The sums the tile routines form, before the bias. *)
Variable V2 : nat -> nat -> nat -> nat -> nat -> nat -> F.
Variable V1 : nat -> nat -> nat -> nat -> F.

Hypothesis Compute2x2_spec : forall a b s z bias C sum p,
  2 <= ldc ->
  Compute2x2 a b s z bias C sum BlockCountK sA sB sS sZ ldc p
  = stored2x2 (V2 a b s z) bias C sum ldc p.

Hypothesis Compute1x1_spec : forall a b s z bias C sum p,
  Compute1x1 a b s z bias C sum BlockCountK p
  = stored1x1 (V1 a b s z) bias C sum p.

Hypothesis ldc_ge : CountN <= ldc.

Abbreviation colB := (@Int8Views.colB BlkLen QuantBData BlockCountK).
Abbreviation colS := (@Int8Views.colS QuantBScale BlockCountK).
Abbreviation colZ := (@Int8Views.colZ HasZeroPoint QuantBZeroPoint BlockCountK).
Abbreviation pair_sum :=
  (@Int8Views.pair_sum F HasZeroPoint BlkLen QuantBData QuantBScale QuantBZeroPoint
     CountN BlockCountK V2 V1).
Abbreviation single_sum :=
  (@Int8Views.single_sum F HasZeroPoint BlkLen QuantBData QuantBScale QuantBZeroPoint
     BlockCountK V1).
Abbreviation at_column :=
  (@Int8Views.at_column F HasZeroPoint BlkLen QuantBData QuantBScale QuantBZeroPoint
     CountN BlockCountK Bias).

Lemma next_columns_at_column c sr n C' s :
  at_column c sr s ->
  at_column (c + n) sr (next_columns HasZeroPoint n sB sS sZ C' s).
Proof.
  intros (HB & HS & HZ & Hb & Hp & Hn). unfold Int8Views.at_column, next_columns.
  cbn [QuantBDataColPtr QuantBScaleColPtr QuantBZeroPointColPtr CompInt8.BiasPtr
       CompInt8.SumPtr n_remaining].
  rewrite HB, HS, HZ, Hb, Hp, Hn, int8_advance_bias_add.
  unfold Int8Views.colB, Int8Views.colS, Int8Views.colZ. repeat split; try lia.
  destruct HasZeroPoint; lia.
Qed.

Abbreviation pair_filled :=
  (@Int8Views.pair_filled F ops mBias HasZeroPoint BlkLen QuantBData QuantBScale
     QuantBZeroPoint CountN BlockCountK ldc Bias V2 V1).
Abbreviation single_filled :=
  (@Int8Views.single_filled F ops mBias HasZeroPoint BlkLen QuantBData QuantBScale
     QuantBZeroPoint BlockCountK Bias V1).

Lemma pair_tile_step a sr Cin j C p :
  2 * j + 2 <= CountN ->
  (forall q, C q = pair_filled a sr Cin (2 * j) q) ->
  Compute2x2 a (colB (2 * j)) (colS (2 * j)) (colZ (2 * j))
    (advance_bias Bias (2 * j)) C (sr + 2 * j) BlockCountK sA sB sS sZ ldc p
  = pair_filled a sr Cin (2 * j + 2) p.
Proof.
  intros Hj HC. rewrite Compute2x2_spec by lia.
  unfold Int8Views.stored2x2, Int8Views.pair_filled. rewrite !int8_with_bias_advance, HC.
  destruct (double_div_mod j) as (D0 & M0 & D1 & M1).
  assert (Hlt0 : (2 * j <? 2 * (CountN / 2)) = true).
  { apply Nat.ltb_lt. pose proof (Nat.div_mod_eq CountN 2).
    pose proof (Nat.mod_upper_bound CountN 2). lia. }
  assert (Hlt1 : (2 * j + 1 <? 2 * (CountN / 2)) = true).
  { apply Nat.ltb_lt. pose proof (Nat.div_mod_eq CountN 2).
    pose proof (Nat.mod_upper_bound CountN 2). lia. }
  unfold Int8Views.pair_filled.
  repeat match goal with
  | |- context [p =? ?y] => destruct (Nat.eqb_spec p y) as [-> | ?]
  end.
  - replace (in_range sr (2 * j + 2) (sr + 2 * j + 0)) with true
      by (symmetry; apply in_range_true; lia).
    replace (sr + 2 * j + 0 - sr) with (2 * j) by lia.
    unfold Int8Views.pair_sum. rewrite Hlt0, D0, M0, Nat.add_0_r. reflexivity.
  - replace (in_range sr (2 * j + 2) (sr + 2 * j + 1)) with true
      by (symmetry; apply in_range_true; lia).
    replace (sr + 2 * j + 1 - sr) with (2 * j + 1) by lia.
    unfold Int8Views.pair_sum. rewrite Hlt1, D1, M1. reflexivity.
  - replace (in_range sr (2 * j + 2) (sr + 2 * j + (ldc + 0))) with false
      by (symmetry; apply in_range_false; lia).
    replace (in_range (sr + ldc) (2 * j + 2) (sr + 2 * j + (ldc + 0))) with true
      by (symmetry; apply in_range_true; lia).
    replace (sr + 2 * j + (ldc + 0) - (sr + ldc)) with (2 * j) by lia.
    unfold Int8Views.pair_sum. rewrite Hlt0, D0, M0, Nat.add_0_r. reflexivity.
  - replace (in_range sr (2 * j + 2) (sr + 2 * j + (ldc + 1))) with false
      by (symmetry; apply in_range_false; lia).
    replace (in_range (sr + ldc) (2 * j + 2) (sr + 2 * j + (ldc + 1))) with true
      by (symmetry; apply in_range_true; lia).
    replace (sr + 2 * j + (ldc + 1) - (sr + ldc)) with (2 * j + 1) by lia.
    unfold Int8Views.pair_sum. rewrite Hlt1, D1, M1. reflexivity.
  - range_cases; try reflexivity; lia.
Qed.

Abbreviation two_rows :=
  (CompInt8.two_rows Compute2x2 Compute1x1 HasZeroPoint BlkLen
     QuantBData QuantBScale QuantBZeroPoint CountN BlockCountK ldc Bias).
Abbreviation last_row :=
  (CompInt8.last_row Compute1x1 HasZeroPoint BlkLen
     QuantBData QuantBScale QuantBZeroPoint CountN BlockCountK Bias).
Abbreviation first_column :=
  (CompInt8.first_column QuantBData QuantBScale QuantBZeroPoint CountN Bias).

Lemma int8_advance_bias_0 (B : option nat) : advance_bias B 0 = B.
Proof. destruct B as [b|]; cbn; [|reflexivity]. f_equal. lia. Qed.

Lemma first_column_at_column sr C0 : at_column 0 sr (first_column sr C0).
Proof.
  unfold Int8Views.at_column, CompInt8.first_column, Int8Views.colB, Int8Views.colS, Int8Views.colZ.
  cbn [QuantBDataColPtr QuantBScaleColPtr QuantBZeroPointColPtr CompInt8.BiasPtr
       CompInt8.SumPtr n_remaining].
  rewrite int8_advance_bias_0. repeat split; try lia. destruct HasZeroPoint; lia.
Qed.

(** The loop over the 2x2 tiles of a pair of rows. *)
Lemma pair_tiles_spec a sr Cin :
  let s := while_loop CountN (fun s => 1 <? n_remaining s)
             (fun s =>
                let C' := Compute2x2 a
                            (QuantBDataColPtr s) (QuantBScaleColPtr s)
                            (QuantBZeroPointColPtr s) (CompInt8.BiasPtr s)
                            (CompInt8.C s) (CompInt8.SumPtr s) BlockCountK
                            sA sB sS sZ ldc in
                next_columns HasZeroPoint 2 sB sS sZ C' s)
             (first_column sr Cin) in
  at_column (2 * (CountN / 2)) sr s /\
  forall p, CompInt8.C s p = pair_filled a sr Cin (2 * (CountN / 2)) p.
Proof.
  pose proof (Nat.div_mod_eq CountN 2) as ED.
  pose proof (Nat.mod_upper_bound CountN 2 ltac:(lia)) as EM.
  apply (while_loop_invariant
           (fun j s => at_column (2 * j) sr s /\
                       forall p, CompInt8.C s p = pair_filled a sr Cin (2 * j) p)).
  - split; [apply first_column_at_column|].
    intros p. unfold Int8Views.pair_filled. cbn [CompInt8.first_column CompInt8.C].
    range_cases; try lia. reflexivity.
  - intros j s Hj (Hat & HC). split.
    + destruct Hat as (_ & _ & _ & _ & _ & ->). apply Nat.ltb_lt. lia.
    + split.
      * replace (2 * Datatypes.S j) with (2 * j + 2) by lia.
        apply next_columns_at_column. exact Hat.
      * intros p. cbn [next_columns CompInt8.C].
        destruct Hat as (-> & -> & -> & -> & -> & _).
        replace (2 * Datatypes.S j) with (2 * j + 2) by lia.
        apply pair_tile_step; [lia | exact HC].
  - intros s ((_ & _ & _ & _ & _ & ->) & _). apply Nat.ltb_ge. lia.
  - lia.
Qed.

Lemma two_rows_spec (r : row_state (F := F)) :
  QuantARowPtr (two_rows r) = QuantARowPtr r + 2 * sA /\
  SumRowPtr (two_rows r) = SumRowPtr r + 2 * ldc /\
  m_remaining (two_rows r) = m_remaining r - 2 /\
  forall p, rC (two_rows r) p
            = pair_filled (QuantARowPtr r) (SumRowPtr r) (rC r) CountN p.
Proof.
  unfold CompInt8.two_rows. cbn [QuantARowPtr SumRowPtr m_remaining rC].
  fold sA sB sS sZ.
  repeat split.
  intros p.
  destruct (pair_tiles_spec (QuantARowPtr r) (SumRowPtr r) (rC r)) as [Hat HC].
  cbv zeta in Hat, HC.
  set (s := while_loop CountN _ _ _) in *.
  pose proof (Nat.div_mod_eq CountN 2) as ED.
  pose proof (Nat.mod_upper_bound CountN 2 ltac:(lia)) as EM.
  destruct Hat as (HB & HS & HZ & Hb & Hp & Hn).
  rewrite Hn.
  destruct (0 <? CountN - 2 * (CountN / 2)) eqn:E.
  - apply Nat.ltb_lt in E.
    assert (Hc : CountN = 2 * (CountN / 2) + 1) by lia.
    set (c := 2 * (CountN / 2)) in *.
    rewrite Compute1x1_spec. unfold Int8Views.stored1x1 at 1.
    rewrite Compute1x1_spec. unfold Int8Views.stored1x1.
    rewrite HB, HS, HZ, Hb, Hp, !int8_with_bias_advance, HC, Nat.add_0_r.
    unfold Int8Views.pair_filled, Int8Views.pair_sum. fold c.
    destruct (Nat.eqb_spec p (SumRowPtr r + c + ldc)) as [-> | N1].
    + replace (in_range (SumRowPtr r) CountN (SumRowPtr r + c + ldc)) with false
        by (symmetry; apply in_range_false; lia).
      replace (in_range (SumRowPtr r + ldc) CountN (SumRowPtr r + c + ldc)) with true
        by (symmetry; apply in_range_true; lia).
      replace (SumRowPtr r + c + ldc - (SumRowPtr r + ldc)) with c by lia.
      rewrite Nat.ltb_irrefl. f_equal. f_equal. lia.
    + destruct (Nat.eqb_spec p (SumRowPtr r + c)) as [-> | N0].
      * replace (in_range (SumRowPtr r) CountN (SumRowPtr r + c)) with true
          by (symmetry; apply in_range_true; lia).
        replace (SumRowPtr r + c - SumRowPtr r) with c by lia.
        rewrite Nat.ltb_irrefl. f_equal. f_equal. lia.
      * range_cases; try reflexivity; try lia.
  - apply Nat.ltb_ge in E. rewrite HC.
    replace (2 * (CountN / 2)) with CountN by lia. reflexivity.
Qed.

Lemma single_tile_step a sr Cin j C p :
  (forall q, C q = single_filled a sr Cin j q) ->
  Compute1x1 a (colB j) (colS j) (colZ j) (advance_bias Bias j) C (sr + j) BlockCountK p
  = single_filled a sr Cin (j + 1) p.
Proof.
  intros HC. rewrite Compute1x1_spec. unfold Int8Views.stored1x1, Int8Views.single_filled.
  rewrite int8_with_bias_advance, HC, Nat.add_0_r. unfold Int8Views.single_filled.
  destruct (Nat.eqb_spec p (sr + j)) as [-> | N].
  - replace (in_range sr (j + 1) (sr + j)) with true
      by (symmetry; apply in_range_true; lia).
    replace (sr + j - sr) with j by lia. reflexivity.
  - range_cases; try reflexivity; lia.
Qed.

Lemma last_row_spec (r : row_state (F := F)) p :
  last_row r p = single_filled (QuantARowPtr r) (SumRowPtr r) (rC r) CountN p.
Proof.
  unfold CompInt8.last_row. fold sB sS sZ.
  assert (H : let s := while_loop CountN (fun s => 0 <? n_remaining s)
                (fun s =>
                   let C' := Compute1x1 (QuantARowPtr r)
                               (QuantBDataColPtr s) (QuantBScaleColPtr s)
                               (QuantBZeroPointColPtr s) (CompInt8.BiasPtr s)
                               (CompInt8.C s) (CompInt8.SumPtr s) BlockCountK in
                   next_columns HasZeroPoint 1 sB sS sZ C' s)
                (first_column (SumRowPtr r) (rC r)) in
              at_column CountN (SumRowPtr r) s /\
              forall p, CompInt8.C s p
                        = single_filled (QuantARowPtr r) (SumRowPtr r) (rC r) CountN p).
  { apply (while_loop_invariant
             (fun j s => at_column j (SumRowPtr r) s /\
                         forall p, CompInt8.C s p
                                   = single_filled (QuantARowPtr r) (SumRowPtr r) (rC r) j p)).
    - split; [apply first_column_at_column|].
      intros q. unfold Int8Views.single_filled. cbn [CompInt8.first_column CompInt8.C].
      range_cases; try lia. reflexivity.
    - intros j s Hj (Hat & HC). split.
      + destruct Hat as (_ & _ & _ & _ & _ & ->). apply Nat.ltb_lt. lia.
      + split.
        * replace (Datatypes.S j) with (j + 1) by lia.
          apply next_columns_at_column. exact Hat.
        * intros q. cbn [next_columns CompInt8.C].
          destruct Hat as (-> & -> & -> & -> & -> & _).
          replace (Datatypes.S j) with (j + 1) by lia.
          apply single_tile_step. exact HC.
    - intros s ((_ & _ & _ & _ & _ & ->) & _). apply Nat.ltb_ge. lia.
    - lia. }
  apply H.
Qed.

Section Rows.

Variable CPtr CountM : nat.
Variable C0 : mem F.

Abbreviation element_sum :=
  (@Int8Views.element_sum F HasZeroPoint BlkLen QuantA QuantBData QuantBScale
     QuantBZeroPoint CountN BlockCountK V2 V1 CountM).
Abbreviation element_value :=
  (@Int8Views.element_value F ops mBias HasZeroPoint BlkLen QuantA QuantBData
     QuantBScale QuantBZeroPoint CountN BlockCountK Bias V2 V1 CountM).
Abbreviation rows_done :=
  (@Int8Views.rows_done F ops mBias HasZeroPoint BlkLen QuantA QuantBData QuantBScale
     QuantBZeroPoint CountN BlockCountK ldc Bias V2 V1 CPtr CountM).

Lemma two_rows_rows_done t r :
  t < CountM / 2 -> rows_done t r -> rows_done (Datatypes.S t) (two_rows r).
Proof.
  intros Ht (HA & HS & HM & HC).
  destruct (two_rows_spec r) as (EA & ES & EM & EC).
  unfold Int8Views.rows_done. rewrite EA, ES, EM, HA, HS, HM.
  split; [lia|]. split; [lia|]. split; [lia|].
  intros m n Hm Hn. rewrite EC, HA, HS. unfold Int8Views.pair_filled.
  destruct (double_div_mod t) as (D0 & M0 & D1 & M1).
  assert (Hlt : 2 * t + 1 < 2 * (CountM / 2)) by lia.
  destruct (Nat.eq_dec m (2 * t)) as [-> | N0].
  - replace (in_range (CPtr + 2 * t * ldc) CountN (CPtr + 2 * t * ldc + n)) with true
      by (symmetry; apply in_range_true; lia).
    replace (CPtr + 2 * t * ldc + n - (CPtr + 2 * t * ldc)) with n by lia.
    unfold Int8Views.element_value, Int8Views.element_sum.
    replace (2 * t <? 2 * (CountM / 2)) with true by (symmetry; apply Nat.ltb_lt; lia).
    rewrite D0, M0. reflexivity.
  - destruct (Nat.eq_dec m (2 * t + 1)) as [-> | N1].
    + replace (in_range (CPtr + 2 * t * ldc) CountN (CPtr + (2 * t + 1) * ldc + n))
        with false by (symmetry; apply in_range_false; lia).
      replace (in_range (CPtr + 2 * t * ldc + ldc) CountN (CPtr + (2 * t + 1) * ldc + n))
        with true by (symmetry; apply in_range_true; lia).
      replace (CPtr + (2 * t + 1) * ldc + n - (CPtr + 2 * t * ldc + ldc)) with n by lia.
      unfold Int8Views.element_value, Int8Views.element_sum.
      replace (2 * t + 1 <? 2 * (CountM / 2)) with true by (symmetry; apply Nat.ltb_lt; lia).
      rewrite D1, M1. reflexivity.
    + assert (Hm' : m + 1 <= 2 * t) by lia.
      assert (Hmul : (m + 1) * ldc <= 2 * t * ldc) by (apply Nat.mul_le_mono_r; exact Hm').
      replace (in_range (CPtr + 2 * t * ldc) CountN (CPtr + m * ldc + n))
        with false by (symmetry; apply in_range_false; lia).
      replace (in_range (CPtr + 2 * t * ldc + ldc) CountN (CPtr + m * ldc + n))
        with false by (symmetry; apply in_range_false; lia).
      apply HC; lia.
Qed.

(** Every element of the output holds its value. *)
Lemma tile_loops_spec m n :
  m < CountM -> n < CountN ->
  tile_loops Compute2x2 Compute1x1 HasZeroPoint BlkLen
    QuantA QuantBData QuantBScale QuantBZeroPoint CountN BlockCountK ldc Bias
    C0 CPtr CountM (CPtr + m * ldc + n)
  = element_value m n.
Proof.
  intros Hm Hn. unfold tile_loops.
  pose proof (Nat.div_mod_eq CountM 2) as ED.
  pose proof (Nat.mod_upper_bound CountM 2 ltac:(lia)) as EM.
  assert (H : rows_done (CountM / 2)
                (while_loop CountM (fun r => 1 <? m_remaining r) two_rows
                   {| QuantARowPtr := QuantA; SumRowPtr := CPtr;
                      m_remaining := CountM; rC := C0 |})).
  { apply (while_loop_invariant rows_done).
    - unfold Int8Views.rows_done. cbn [QuantARowPtr SumRowPtr m_remaining rC].
      repeat split; try lia.
    - intros t r Ht Hr. split.
      + destruct Hr as (_ & _ & -> & _). apply Nat.ltb_lt. lia.
      + apply two_rows_rows_done; assumption.
    - intros r (_ & _ & -> & _). apply Nat.ltb_ge. lia.
    - lia. }
  set (r := while_loop CountM _ _ _) in *.
  destruct H as (HA & HS & HM & HC).
  rewrite HM.
  destruct (0 <? CountM - 2 * (CountM / 2)) eqn:E.
  - apply Nat.ltb_lt in E.
    rewrite last_row_spec, HA, HS. unfold Int8Views.single_filled.
    destruct (Nat.eq_dec m (2 * (CountM / 2))) as [-> | N].
    + replace (in_range (CPtr + 2 * (CountM / 2) * ldc) CountN
                 (CPtr + 2 * (CountM / 2) * ldc + n)) with true
        by (symmetry; apply in_range_true; lia).
      replace (CPtr + 2 * (CountM / 2) * ldc + n - (CPtr + 2 * (CountM / 2) * ldc))
        with n by lia.
      unfold Int8Views.element_value, Int8Views.element_sum. rewrite Nat.ltb_irrefl. reflexivity.
    + assert (Hm' : m + 1 <= 2 * (CountM / 2)) by lia.
      assert (Hmul : (m + 1) * ldc <= 2 * (CountM / 2) * ldc)
        by (apply Nat.mul_le_mono_r; exact Hm').
      replace (in_range (CPtr + 2 * (CountM / 2) * ldc) CountN (CPtr + m * ldc + n))
        with false by (symmetry; apply in_range_false; lia).
      apply HC; lia.
  - apply Nat.ltb_ge in E. apply HC; lia.
Qed.

End Rows.

Abbreviation element_sum :=
  (@Int8Views.element_sum F HasZeroPoint BlkLen QuantA QuantBData QuantBScale
     QuantBZeroPoint CountN BlockCountK V2 V1).
Abbreviation element_value :=
  (@Int8Views.element_value F ops mBias HasZeroPoint BlkLen QuantA QuantBData
     QuantBScale QuantBZeroPoint CountN BlockCountK Bias V2 V1).
Abbreviation rows_done :=
  (@Int8Views.rows_done F ops mBias HasZeroPoint BlkLen QuantA QuantBData QuantBScale
     QuantBZeroPoint CountN BlockCountK ldc Bias V2 V1).

End Driver.

Abbreviation pair_sum := (@Int8Views.pair_sum F).
Abbreviation single_sum := (@Int8Views.single_sum F).
Abbreviation at_column := (@Int8Views.at_column F).
Abbreviation pair_filled := (@Int8Views.pair_filled F ops mBias).
Abbreviation single_filled := (@Int8Views.single_filled F ops mBias).
Abbreviation element_sum := (@Int8Views.element_sum F).
Abbreviation element_value := (@Int8Views.element_value F ops mBias).
Abbreviation rows_done := (@Int8Views.rows_done F ops mBias).

(** ** The bias in the three kernels *)

(** When the tile routines end with [store2x2] and [store1x1] of states
    that depend neither on C nor on the bias, every element of the output
    computed with a bias is the element computed without, plus the bias
    of its column. *)
Lemma tile_loops_bias
    (st2 : nat -> nat -> nat -> nat -> nat -> nat -> nat -> nat -> nat ->
           tile2x2_state (F := F))
    (st1 : nat -> nat -> nat -> nat -> nat -> tile1x1_state (F := F))
    (Compute2x2 : compute2x2_t (F := F)) (Compute1x1 : compute1x1_t (F := F))
    HasZeroPoint BlkLen QuantA QuantBData QuantBScale QuantBZeroPoint
    CountN BlockCountK ldc C0 CPtr CountM b m n :
  (forall a bp s z bias C sum K sA sB sS sZ l,
      Compute2x2 a bp s z bias C sum K sA sB sS sZ l
      = store2x2 (st2 a bp s z K sA sB sS sZ) bias C sum l) ->
  (forall a bp s z bias C sum K,
      Compute1x1 a bp s z bias C sum K = store1x1 (st1 a bp s z K) bias C sum) ->
  CountN <= ldc -> m < CountM -> n < CountN ->
  tile_loops Compute2x2 Compute1x1 HasZeroPoint BlkLen
    QuantA QuantBData QuantBScale QuantBZeroPoint CountN BlockCountK ldc (Some b)
    C0 CPtr CountM (CPtr + m * ldc + n)
  = fadd (tile_loops Compute2x2 Compute1x1 HasZeroPoint BlkLen
            QuantA QuantBData QuantBScale QuantBZeroPoint CountN BlockCountK ldc None
            C0 CPtr CountM (CPtr + m * ldc + n))
         (mBias (b + n)).
Proof.
  intros H2 H1 Hl Hm Hn.
  set (V2 := fun a bp s z =>
               sums2x2 (st2 a bp s z BlockCountK
                          (StrideQuantA BlkLen BlockCountK)
                          (StrideQuantBData BlkLen BlockCountK)
                          (StrideQuantBScale BlockCountK)
                          (StrideQuantBZeroPoint BlockCountK))).
  set (V1 := fun a bp s z => sum1x1 (st1 a bp s z BlockCountK)).
  assert (S2 : forall a bp s z bias C sum p, 2 <= ldc ->
             Compute2x2 a bp s z bias C sum BlockCountK
               (StrideQuantA BlkLen BlockCountK)
               (StrideQuantBData BlkLen BlockCountK)
               (StrideQuantBScale BlockCountK)
               (StrideQuantBZeroPoint BlockCountK) ldc p
             = stored2x2 (V2 a bp s z) bias C sum ldc p).
  { intros. rewrite H2. apply store2x2_spec. assumption. }
  assert (S1 : forall a bp s z bias C sum p,
             Compute1x1 a bp s z bias C sum BlockCountK p
             = stored1x1 (V1 a bp s z) bias C sum p).
  { intros. rewrite H1. apply store1x1_spec. }
  rewrite (tile_loops_spec _ _ _ _ _ _ _ _ _ _ _ _ V2 V1 S2 S1 Hl _ _ _ _ _ Hm Hn).
  rewrite (tile_loops_spec _ _ _ _ _ _ _ _ _ _ _ _ V2 V1 S2 S1 Hl _ _ _ _ _ Hm Hn).
  reflexivity.
Qed.

(** Every element of the output of the integer kernel computed with a
    bias is the element computed without, plus the bias of its column. *)
Lemma SQ4BitGemmKernel_CompInt8_bias
    BlkLen QuantA QuantBData QuantBScale QuantBZeroPoint
    C0 CPtr CountM CountN CountK BlockCountK ldc b m n :
  CountN <= ldc -> m < CountM -> n < CountN ->
  fst (SQ4BitGemmKernel_CompInt8 mQuantA mQuantBData mQuantBScale mQuantBZeroPoint mBias
         BlkLen QuantA QuantBData QuantBScale QuantBZeroPoint
         C0 CPtr CountM CountN CountK BlockCountK ldc (Some b))
    (CPtr + m * ldc + n)
  = fadd (fst (SQ4BitGemmKernel_CompInt8 mQuantA mQuantBData mQuantBScale
                 mQuantBZeroPoint mBias
                 BlkLen QuantA QuantBData QuantBScale QuantBZeroPoint
                 C0 CPtr CountM CountN CountK BlockCountK ldc None)
            (CPtr + m * ldc + n))
         (mBias (b + n)).
Proof.
  intros Hl Hm Hn. unfold SQ4BitGemmKernel_CompInt8. cbn [fst].
  unfold SQ4BitGemmKernel_CompInt8_DispatchOnBlkLen,
    SQ4BitGemmKernel_CompInt8_BlkLen16, SQ4BitGemmKernel_CompInt8_BlkLen32,
    SQ4BitGemmKernel_CompInt8_BlkLenGreaterThan32.
  destruct QuantBZeroPoint as [zp|];
    destruct (BlkLen =? 16); [|destruct (BlkLen =? 32)| |destruct (BlkLen =? 32)];
    (eapply tile_loops_bias; [intros; reflexivity | intros; reflexivity | assumption ..]).
Qed.

End Generic.

End Int8Facts.


(** * The bias *)

Module BiasClaims.

Import Mlas Neon Q8 CompFp32 CompInt8 Fp32Views Int8Views Fp32Facts Int8Facts.

Section Generic.

Context {F : Type} {ops : Fp32Ops F}.

(** Every element of the output of the float kernel computed with a bias
    is the element computed without, plus the bias of its column. *)
Lemma SQ4BitGemmM1Kernel_CompFp32_bias
    (mA : mem F) (mQuantBData : mem Z) (mQuantBScale : mem F)
    (mQuantBZeroPoint : mem Z) (mBias : mem F)
    BlkLen A QuantBData QuantBScale QuantBZeroPoint
    C0 CPtr CountN CountK BlockCountK b n :
  n < CountN ->
  SQ4BitGemmM1Kernel_CompFp32 mA mQuantBData mQuantBScale mQuantBZeroPoint mBias
    BlkLen A QuantBData QuantBScale QuantBZeroPoint
    C0 CPtr CountN CountK BlockCountK (Some b) (CPtr + n)
  = fadd (SQ4BitGemmM1Kernel_CompFp32 mA mQuantBData mQuantBScale mQuantBZeroPoint mBias
            BlkLen A QuantBData QuantBScale QuantBZeroPoint
            C0 CPtr CountN CountK BlockCountK None (CPtr + n))
         (mBias (b + n)).
Proof.
  intros Hn. unfold SQ4BitGemmM1Kernel_CompFp32.
  destruct QuantBZeroPoint as [zp|]; rewrite !Impl_spec; unfold filled;
    (replace (in_range CPtr CountN (CPtr + n)) with true
       by (symmetry; apply in_range_true; lia));
    replace (CPtr + n - CPtr) with n by lia; reflexivity.
Qed.

(** Without a bias pointer the float kernel does not read the bias. *)
Lemma SQ4BitGemmM1Kernel_CompFp32_null_bias
    (mA : mem F) (mQuantBData : mem Z) (mQuantBScale : mem F)
    (mQuantBZeroPoint : mem Z) (mBias mBias' : mem F)
    BlkLen A QuantBData QuantBScale QuantBZeroPoint
    C0 CPtr CountN CountK BlockCountK p :
  SQ4BitGemmM1Kernel_CompFp32 mA mQuantBData mQuantBScale mQuantBZeroPoint mBias'
    BlkLen A QuantBData QuantBScale QuantBZeroPoint
    C0 CPtr CountN CountK BlockCountK None p
  = SQ4BitGemmM1Kernel_CompFp32 mA mQuantBData mQuantBScale mQuantBZeroPoint mBias
      BlkLen A QuantBData QuantBScale QuantBZeroPoint
      C0 CPtr CountN CountK BlockCountK None p.
Proof.
  unfold SQ4BitGemmM1Kernel_CompFp32.
  destruct QuantBZeroPoint as [zp|]; rewrite !Impl_spec; reflexivity.
Qed.

(** Without a bias pointer the tile loops do not read the bias. *)
Lemma tile_loops_null_bias (mBias mBias' : mem F)
    (st2 : nat -> nat -> nat -> nat -> nat -> nat -> nat -> nat -> nat ->
           tile2x2_state (F := F))
    (st1 : nat -> nat -> nat -> nat -> nat -> tile1x1_state (F := F))
    (Compute2x2 Compute2x2' : compute2x2_t (F := F))
    (Compute1x1 Compute1x1' : compute1x1_t (F := F))
    HasZeroPoint BlkLen QuantA QuantBData QuantBScale QuantBZeroPoint
    CountN BlockCountK ldc C0 CPtr CountM m n :
  (forall a bp s z bias C sum K sA sB sS sZ l,
      Compute2x2 a bp s z bias C sum K sA sB sS sZ l
      = CompInt8.store2x2 mBias (st2 a bp s z K sA sB sS sZ) bias C sum l) ->
  (forall a bp s z bias C sum K,
      Compute1x1 a bp s z bias C sum K
      = CompInt8.store1x1 mBias (st1 a bp s z K) bias C sum) ->
  (forall a bp s z bias C sum K sA sB sS sZ l,
      Compute2x2' a bp s z bias C sum K sA sB sS sZ l
      = CompInt8.store2x2 mBias' (st2 a bp s z K sA sB sS sZ) bias C sum l) ->
  (forall a bp s z bias C sum K,
      Compute1x1' a bp s z bias C sum K
      = CompInt8.store1x1 mBias' (st1 a bp s z K) bias C sum) ->
  CountN <= ldc -> m < CountM -> n < CountN ->
  tile_loops Compute2x2' Compute1x1' HasZeroPoint BlkLen
    QuantA QuantBData QuantBScale QuantBZeroPoint CountN BlockCountK ldc None
    C0 CPtr CountM (CPtr + m * ldc + n)
  = tile_loops Compute2x2 Compute1x1 HasZeroPoint BlkLen
      QuantA QuantBData QuantBScale QuantBZeroPoint CountN BlockCountK ldc None
      C0 CPtr CountM (CPtr + m * ldc + n).
Proof.
  intros H2 H1 H2' H1' Hl Hm Hn.
  set (V2 := fun a bp s z =>
               sums2x2 (st2 a bp s z BlockCountK
                          (StrideQuantA BlkLen BlockCountK)
                          (StrideQuantBData BlkLen BlockCountK)
                          (StrideQuantBScale BlockCountK)
                          (StrideQuantBZeroPoint BlockCountK))).
  set (V1 := fun a bp s z => sum1x1 (st1 a bp s z BlockCountK)).
  rewrite (tile_loops_spec mBias' Compute2x2' Compute1x1' _ _ _ _ _ _ _ _ _ _ V2 V1);
    [|intros; rewrite H2'; apply store2x2_spec; assumption
     |intros; rewrite H1'; apply store1x1_spec | assumption ..].
  rewrite (tile_loops_spec mBias Compute2x2 Compute1x1 _ _ _ _ _ _ _ _ _ _ V2 V1);
    [|intros; rewrite H2; apply store2x2_spec; assumption
     |intros; rewrite H1; apply store1x1_spec | assumption ..].
  reflexivity.
Qed.

(** Without a bias pointer the integer kernel does not read the bias. *)
Lemma SQ4BitGemmKernel_CompInt8_null_bias
    (mQuantA : Q8Mem F) (mQuantBData : mem Z) (mQuantBScale : mem F)
    (mQuantBZeroPoint : mem Z) (mBias mBias' : mem F)
    BlkLen QuantA QuantBData QuantBScale QuantBZeroPoint
    C0 CPtr CountM CountN CountK BlockCountK ldc m n :
  CountN <= ldc -> m < CountM -> n < CountN ->
  fst (SQ4BitGemmKernel_CompInt8 mQuantA mQuantBData mQuantBScale mQuantBZeroPoint mBias'
         BlkLen QuantA QuantBData QuantBScale QuantBZeroPoint
         C0 CPtr CountM CountN CountK BlockCountK ldc None)
    (CPtr + m * ldc + n)
  = fst (SQ4BitGemmKernel_CompInt8 mQuantA mQuantBData mQuantBScale mQuantBZeroPoint mBias
           BlkLen QuantA QuantBData QuantBScale QuantBZeroPoint
           C0 CPtr CountM CountN CountK BlockCountK ldc None)
      (CPtr + m * ldc + n).
Proof.
  intros Hl Hm Hn. unfold SQ4BitGemmKernel_CompInt8. cbn [fst].
  unfold SQ4BitGemmKernel_CompInt8_DispatchOnBlkLen,
    SQ4BitGemmKernel_CompInt8_BlkLen16, SQ4BitGemmKernel_CompInt8_BlkLen32,
    SQ4BitGemmKernel_CompInt8_BlkLenGreaterThan32.
  destruct QuantBZeroPoint as [zp|];
    destruct (BlkLen =? 16); [|destruct (BlkLen =? 32)| |destruct (BlkLen =? 32)];
    (eapply tile_loops_null_bias;
     [intros; reflexivity | intros; reflexivity | intros; reflexivity
     | intros; reflexivity | assumption ..]).
Qed.

End Generic.

(** C8 (amended): in both compute modes every output element computed
    with a bias is the element computed without a bias plus the bias of
    its column, in one float32 addition made after the reduction over K;
    without a bias pointer the bias is not read.  The difference of the
    two outputs is therefore the bias whenever that one addition is exact,
    that is when [(x + y) - x = y] holds for the arithmetic. *)
Theorem bias_added_once_after_reduction
    {F : Type} {ops : Fp32Ops F}
    (mA : mem F) (mQuantA : Q8Mem F) (mQuantBData : mem Z) (mQuantBScale : mem F)
    (mQuantBZeroPoint : mem Z) (mBias : mem F)
    (BlkLen A QuantA QuantBData QuantBScale : nat) (QuantBZeroPoint : option nat)
    (C0 : mem F) (CPtr CountM CountN CountK BlockCountK ldc : nat) (b m n : nat) :
  CountN <= ldc -> m < CountM -> n < CountN ->
  let Fp32 bias buf :=
    SQ4BitGemmM1Kernel_CompFp32 mA mQuantBData mQuantBScale mQuantBZeroPoint buf
      BlkLen A QuantBData QuantBScale QuantBZeroPoint
      C0 CPtr CountN CountK BlockCountK bias (CPtr + n) in
  let Int8 bias buf :=
    fst (SQ4BitGemmKernel_CompInt8 mQuantA mQuantBData mQuantBScale mQuantBZeroPoint buf
           BlkLen QuantA QuantBData QuantBScale QuantBZeroPoint
           C0 CPtr CountM CountN CountK BlockCountK ldc bias)
      (CPtr + m * ldc + n) in
  Fp32 (Some b) mBias = fadd (Fp32 None mBias) (mBias (b + n)) /\
  Int8 (Some b) mBias = fadd (Int8 None mBias) (mBias (b + n)) /\
  (forall mBias', Fp32 None mBias' = Fp32 None mBias) /\
  (forall mBias', Int8 None mBias' = Int8 None mBias) /\
  ((forall x y : F, fsub (fadd x y) x = y) ->
   fsub (Fp32 (Some b) mBias) (Fp32 None mBias) = mBias (b + n) /\
   fsub (Int8 (Some b) mBias) (Int8 None mBias) = mBias (b + n)).
Proof.
  intros Hl Hm Hn Fp32 Int8.
  pose proof (SQ4BitGemmM1Kernel_CompFp32_bias mA mQuantBData mQuantBScale
                mQuantBZeroPoint mBias BlkLen A QuantBData QuantBScale QuantBZeroPoint
                C0 CPtr CountN CountK BlockCountK b n Hn) as E1.
  pose proof (SQ4BitGemmKernel_CompInt8_bias mQuantA mQuantBData mQuantBScale
                mQuantBZeroPoint mBias BlkLen QuantA QuantBData QuantBScale
                QuantBZeroPoint C0 CPtr CountM CountN CountK BlockCountK ldc b m n
                Hl Hm Hn) as E2.
  subst Fp32 Int8. cbv beta.
  split; [exact E1|]. split; [exact E2|]. split; [|split].
  - intros mBias'.
    exact (SQ4BitGemmM1Kernel_CompFp32_null_bias mA mQuantBData mQuantBScale
             mQuantBZeroPoint mBias mBias' BlkLen A QuantBData QuantBScale
             QuantBZeroPoint C0 CPtr CountN CountK BlockCountK (CPtr + n)).
  - intros mBias'.
    exact (SQ4BitGemmKernel_CompInt8_null_bias mQuantA mQuantBData mQuantBScale
             mQuantBZeroPoint mBias mBias' BlkLen QuantA QuantBData QuantBScale
             QuantBZeroPoint C0 CPtr CountM CountN CountK BlockCountK ldc m n
             Hl Hm Hn).
  - intros Hexact. split; [rewrite E1 | rewrite E2]; apply Hexact.
Qed.

Import Examples.

Lemma bias_added_once_after_reduction_witness :
  let Fp32 bias :=
    SQ4BitGemmM1Kernel_CompFp32 (ops := Exact.ops) exact_A nines_QuantBData
      exact_QuantBScale zp37_QuantBZeroPoint exact_bias
      16 0 0 0 (Some 0) exact_C 0 5 20 2 bias (0 + 4) in
  let Int8 bias :=
    fst (SQ4BitGemmKernel_CompInt8 (ops := Exact.ops) exact_QuantA nines_QuantBData
           exact_QuantBScale zp37_QuantBZeroPoint exact_bias
           16 0 0 0 (Some 0) exact_C 0 3 5 20 2 5 bias)
      (0 + 2 * 5 + 4) in
  5 <= 5 /\ 2 < 3 /\ 4 < 5 /\
  @fsub Qc Exact.ops (Fp32 (Some 0)) (Fp32 None) = exact_bias (0 + 4) /\
  @fsub Qc Exact.ops (Int8 (Some 0)) (Int8 None) = exact_bias (0 + 4).
Proof.
  intros Fp32 Int8.
  assert (Hl : 5 <= 5) by lia. assert (Hm : 2 < 3) by lia. assert (Hn : 4 < 5) by lia.
  split; [exact Hl|]. split; [exact Hm|]. split; [exact Hn|].
  destruct (bias_added_once_after_reduction (ops := Exact.ops)
              exact_A exact_QuantA nines_QuantBData exact_QuantBScale
              zp37_QuantBZeroPoint exact_bias
              16 0 0 0 0 (Some 0) exact_C 0 3 5 20 2 5 0 2 4 Hl Hm Hn)
    as (_ & _ & _ & _ & H).
  apply H. intros x y. cbn [fsub fadd Exact.ops]. ring.
Defined.

Import Binary32.

(** C8 (as stated): in binary32 the difference of an output computed with
    a bias and of the same output computed without is not the bias in
    general.  With a sum of 2^29 and the bias 1, in both compute modes,
    the two outputs are equal and their difference is 0. *)
Lemma bias_difference_is_not_the_bias :
  let Fp32 bias :=
    SQ4BitGemmM1Kernel_CompFp32 big_A nines_QuantBData ones_QuantBScale
      zp37_QuantBZeroPoint unit_bias
      16 0 0 0 None zero_C 0 1 16 1 bias 0 in
  let Int8 bias :=
    fst (SQ4BitGemmKernel_CompInt8 big_QuantA nines_QuantBData ones_QuantBScale
           zp37_QuantBZeroPoint unit_bias
           16 0 0 0 None zero_C 0 1 1 16 1 1 bias) 0 in
  unit_bias 0 = of_Z 1 /\
  Fp32 None = of_Z (2 ^ 29) /\ Fp32 (Some 0) = of_Z (2 ^ 29) /\
  Int8 None = of_Z (2 ^ 29) /\ Int8 (Some 0) = of_Z (2 ^ 29) /\
  fsub (Fp32 (Some 0)) (Fp32 None) = zero /\
  fsub (Int8 (Some 0)) (Int8 None) = zero /\
  fsub (Fp32 (Some 0)) (Fp32 None) <> unit_bias 0 /\
  fsub (Int8 (Some 0)) (Int8 None) <> unit_bias 0.
Proof.
  repeat split; try (vm_compute; reflexivity); vm_compute; discriminate.
Qed.

End BiasClaims.


(** * The float kernel in exact arithmetic *)

Module Fp32Exact.

Import Mlas Neon NeonFacts CompFp32 Fp32Facts ExactFacts.
Import Fp32Views ExactViews.

#[local] Existing Instance Exact.ops.

Abbreviation of_int := Reference.of_int.
Abbreviation sum_below := Reference.sum_below.

(** The 4-bit code [q] placed at the top of the mantissa of 2^4 is the
    number [16 + q]. *)
Lemma template_value (q : Z) :
  (0 <= q < 16)%Z ->
  f_of_bits (Z.shiftl (Z.lor (Z.shiftl q 3) fp32_conversion.float_high_half_template) 16)
  = Qcplus (of_int 16) (of_int q).
Proof.
  intros H.
  destruct (nibble_cases q H) as
    [-> | [-> | [-> | [-> | [-> | [-> | [-> | [-> |
     [-> | [-> | [-> | [-> | [-> | [-> | [-> | ->]]]]]]]]]]]]]]];
    apply Qc_is_canon; vm_compute; reflexivity.
Qed.

Lemma land_15_lo (b : Z) : Z.land b 15 = Byte8.lo b.
Proof. change 15%Z with (Z.ones 4). rewrite Z.land_ones by lia. reflexivity. Qed.

Lemma shiftr_4_hi (b : Z) : Z.shiftr b 4 = Byte8.hi b.
Proof. rewrite Z.shiftr_div_pow2 by lia. reflexivity. Qed.

Ltac lanes :=
  unfold vmulq_f32, vsubq_f32, vdupq_n_f32, vreinterpretq_f32_u32, vshll_n_u16,
    vshll_high_n_u16, vget_low_u16, vorrq_u16, vshll_n_u8, vand_u8, vshr_n_u8,
    vdup_n_u8, vld1_u8, fp32_conversion.float_high_half_template_v, vdupq_n_u16,
    vfmaq_f32;
  unfold varr, flane, zlane;
  repeat first
    [ rewrite nth_tabulate by lia
    | progress cbn [nth] ].

Lemma sum_below_ext n (f g : nat -> Qc) :
  (forall i, i < n -> f i = g i) -> sum_below n f = sum_below n g.
Proof.
  induction n as [|n IH]; intros H; [reflexivity|].
  cbn [Reference.sum_below]. rewrite IH by (intros; apply H; lia).
  rewrite H by lia. reflexivity.
Qed.

Lemma sum_below_add n m (f : nat -> Qc) :
  sum_below (n + m) f = Qcplus (sum_below n f) (sum_below m (fun i => f (n + i))).
Proof.
  induction m as [|m IH].
  - rewrite Nat.add_0_r. cbn [Reference.sum_below]. ring.
  - rewrite Nat.add_succ_r. cbn [Reference.sum_below]. rewrite IH. ring.
Qed.

Lemma sum_below_vanish n m (f : nat -> Qc) :
  n <= m -> (forall i, n <= i -> i < m -> f i = Q2Qc 0) ->
  sum_below m f = sum_below n f.
Proof.
  intros Hle Hz. induction m as [|m IH].
  - replace n with 0 by lia. reflexivity.
  - destruct (Nat.eq_dec n (S m)) as [-> | N]; [reflexivity|].
    cbn [Reference.sum_below]. rewrite IH by (try lia; intros; apply Hz; lia).
    rewrite Hz by lia. ring.
Qed.

Lemma land_1_odd (k : nat) : Z.eqb (Z.land (Z.of_nat k) 1) 1 = negb (Nat.even k).
Proof.
  change 1%Z with (Z.ones 1) at 1. rewrite Z.land_ones by lia.
  change (2 ^ 1)%Z with 2%Z.
  destruct (even_half_cases k) as [[Ev E] | [Ev E]]; rewrite Ev; cbn [negb].
  - apply Z.eqb_neq. rewrite E at 1.
    rewrite Nat2Z.inj_mul, Z.mul_comm, Z.mod_mul by lia. discriminate.
  - apply Z.eqb_eq. rewrite E at 1.
    rewrite Nat2Z.inj_add, Nat2Z.inj_mul.
    change (Z.of_nat 2) with 2%Z. change (Z.of_nat 1) with 1%Z.
    rewrite Z.add_comm, Z.mul_comm, Z.mod_add by lia. reflexivity.
Qed.

Lemma load_zero_point_spec (zp : mem Z) col idx :
  load_zero_point zp col idx = zero_point_of_block zp col idx.
Proof.
  unfold load_zero_point, zero_point_of_block. rewrite land_1_odd.
  unfold Byte8.shr, Byte8.band. rewrite land_15_lo, shiftr_4_hi.
  destruct (Nat.even idx); reflexivity.
Qed.

Section Column.

Variable mA : mem Qc.
Variable mQuantBData : mem Z.
Variable mQuantBScale : mem Qc.
Variable mQuantBZeroPoint : mem Z.

Hypothesis bytes : forall p, Byte8.is_byte (mQuantBData p).

Abbreviation code_at := (@ExactViews.code_at mQuantBData).

Lemma dequant_lane HasZeroPoint p off sc j l :
  j < 4 -> l < 4 ->
  flane (varr (dequant_sub_block mQuantBData HasZeroPoint p off sc) j) l
  = Qcmult (Qcminus (Qcplus (of_int 16) (of_int (code_at p (4 * j + l))))
                    (if HasZeroPoint then off else Qcplus (of_int 16) (of_int 8)))
           sc.
Proof.
  intros Hj Hl. unfold dequant_sub_block.
  do 4 (destruct j as [|j]; [
    do 4 (destruct l as [|l]; [
      lanes; rewrite ?land_15_lo, ?shiftr_4_hi;
      (rewrite template_value by (first [apply lo_range | apply hi_range, bytes]));
      unfold ExactViews.code_at; cbn [Nat.ltb Nat.leb Nat.mul Nat.add Nat.sub];
      destruct HasZeroPoint; lanes; reflexivity |]); lia |]).
  lia.
Qed.

Lemma flane_vfmaq (a b c : list Qc) l :
  l < 4 -> flane (vfmaq_f32 a b c) l = Qcplus (flane a l) (Qcmult (flane b l) (flane c l)).
Proof. intros H. unfold vfmaq_f32. rewrite flane_tabulate by exact H. reflexivity. Qed.

Variable HasZeroPoint : bool.
Variable BlkLen A CountK sB : nat.

Abbreviation sub_block_term := (@ExactViews.sub_block_term mA mQuantBData).

Lemma sub_block_step_sum st scale offset k len kk acc :
  vaddvq_f32
    (varr (sub_block_step mA mQuantBData 1 HasZeroPoint A sB st scale offset k len kk acc) 0)
  = Qcplus (vaddvq_f32 (varr acc 0))
      (sum_below 16
         (sub_block_term (QuantBData st + kk / 2)
            (if HasZeroPoint then flane offset 0 else Qcplus (of_int 16) (of_int 8))
            (flane scale 0)
            (A + k + kk) (Nat.min (len - kk) 16))).
Proof.
  unfold CompFp32.sub_block_step.
  replace (kk * CompFp32.BlkBitWidth / 8) with (kk / 2).
  2:{ unfold CompFp32.BlkBitWidth. replace 8 with (4 * 2) by reflexivity.
      rewrite <- Nat.Div0.div_div, Nat.div_mul by lia. reflexivity. }
  change CompFp32.SubBlkLen with 16.
  set (av := LoadFloatData mA (A + k + kk) (Nat.min (len - kk) 16) 0 (zero_f32x4_array 4)).
  assert (Hav : forall j l, j < 4 -> l < 4 ->
            flane (varr av j) l
            = padded mA (A + k + kk) (Nat.min (len - kk) 16) (4 * j + l)).
  { intros j l Hj Hl. apply LoadFloatData_lanes; lia. }
  clearbody av.
  unfold for_up. cbn [seq fold_left].
  rewrite !varr_tabulate by lia. rewrite !nth_tabulate by lia.
  replace (QuantBData st + 0 * sB + kk / 2) with (QuantBData st + kk / 2) by lia.
  unfold vaddvq_f32.
  rewrite !flane_vfmaq by lia.
  rewrite !Hav by lia. rewrite !(dequant_lane HasZeroPoint) by lia.
  cbn [Reference.sum_below]. unfold ExactViews.sub_block_term.
  cbn [Nat.mul Nat.add]. cbn [fadd Exact.ops].
  ring.
Qed.

Variable sS sZ bcol scol zcol : nat.
Variable m : nat.
Hypothesis BlkLen_16 : BlkLen = 16 * m.
Hypothesis BlkLen_pos : 0 < m.

Abbreviation code := (@ExactViews.code mQuantBData bcol).
Abbreviation zp_of := (@ExactViews.zp_of mQuantBZeroPoint HasZeroPoint zcol).
Abbreviation term :=
  (@ExactViews.term mA mQuantBData mQuantBScale mQuantBZeroPoint HasZeroPoint BlkLen A
     bcol scol zcol).
Abbreviation padded_term :=
  (@ExactViews.padded_term mA mQuantBData mQuantBScale mQuantBZeroPoint HasZeroPoint
     BlkLen A CountK bcol scol zcol).
Abbreviation at_block := (@ExactViews.at_block HasZeroPoint bcol scol m).

Lemma code_at_code b s t :
  s < m -> t < 16 ->
  code_at (bcol + b * (8 * m) + 8 * s) t = code (b * BlkLen + 16 * s + t).
Proof.
  intros Hs Ht. unfold ExactViews.code, Pack.packed_code, Pack.packed_pos, ExactViews.code_at.
  change (16 / 2) with 8.
  assert (Hd : (b * BlkLen + 16 * s + t) / 16 = b * m + s).
  { symmetry. apply Nat.div_unique with t; [exact Ht | rewrite BlkLen_16; lia]. }
  assert (Hr : (b * BlkLen + 16 * s + t) mod 16 = t).
  { symmetry. apply Nat.mod_unique with (b * m + s); [exact Ht | rewrite BlkLen_16; lia]. }
  rewrite Hd, Hr.
  destruct (t <? 8) eqn:E.
  - apply Nat.ltb_lt in E. rewrite Nat.mod_small by exact E. f_equal. f_equal. lia.
  - apply Nat.ltb_ge in E.
    replace (t mod 8) with (t - 8)
      by (apply Nat.mod_unique with 1; lia).
    f_equal. f_equal. lia.
Qed.

Lemma sub_block_term_padded_term b st scale offset s t :
  at_block b st ->
  flane scale 0 = mQuantBScale (scol + b) ->
  (HasZeroPoint = true ->
   flane offset 0 = Qcplus (of_int 16) (of_int (zp_of b))) ->
  s < m -> t < 16 ->
  sub_block_term (QuantBData st + 16 * s / 2)
    (if HasZeroPoint then flane offset 0 else Qcplus (of_int 16) (of_int 8))
    (flane scale 0)
    (A + b * BlkLen + 16 * s)
    (Nat.min (Nat.min (CountK - b * BlkLen) BlkLen - 16 * s) 16) t
  = padded_term (b * BlkLen + 16 * s + t).
Proof.
  intros (HQ & _ & _) Hsc Hoff Hs Ht.
  unfold ExactViews.sub_block_term, ExactViews.padded_term, ExactViews.term.
  replace (16 * s / 2) with (8 * s)
    by (apply Nat.div_unique with 0; lia).
  rewrite HQ, code_at_code by assumption.
  assert (Hb : (b * BlkLen + 16 * s + t) / BlkLen = b).
  { symmetry. apply Nat.div_unique with (16 * s + t); rewrite BlkLen_16; lia. }
  rewrite Hb, Hsc.
  assert (Hoff' : (if HasZeroPoint then flane offset 0 else Qcplus (of_int 16) (of_int 8))
                  = Qcplus (of_int 16) (of_int (zp_of b))).
  { unfold ExactViews.zp_of in *. destruct HasZeroPoint; [apply Hoff; reflexivity | reflexivity]. }
  rewrite Hoff'. unfold padded.
  destruct (b * BlkLen + 16 * s + t <? CountK) eqn:E.
  - apply Nat.ltb_lt in E.
    replace (t <? Nat.min (Nat.min (CountK - b * BlkLen) BlkLen - 16 * s) 16) with true
      by (symmetry; apply Nat.ltb_lt; rewrite BlkLen_16 in *; lia).
    replace (A + b * BlkLen + 16 * s + t) with (A + (b * BlkLen + 16 * s + t)) by lia.
    ring.
  - apply Nat.ltb_ge in E.
    replace (t <? Nat.min (Nat.min (CountK - b * BlkLen) BlkLen - 16 * s) 16) with false
      by (symmetry; apply Nat.ltb_ge; lia).
    rewrite exact_fzero_eq. ring.
Qed.

Lemma sub_block_loop_sum b st scale offset :
  at_block b st ->
  flane scale 0 = mQuantBScale (scol + b) ->
  (HasZeroPoint = true ->
   flane offset 0 = Qcplus (of_int 16) (of_int (zp_of b))) ->
  forall n acc0, n <= m ->
    vaddvq_f32
      (varr (for_up n
               (fun q => sub_block_step mA mQuantBData 1 HasZeroPoint A sB st scale offset
                           (b * BlkLen) (Nat.min (CountK - b * BlkLen) BlkLen)
                           (q * CompFp32.SubBlkLen))
               acc0) 0)
    = Qcplus (vaddvq_f32 (varr acc0 0))
        (sum_below (16 * n) (fun i => padded_term (b * BlkLen + i))).
Proof.
  intros Hat Hsc Hoff. induction n as [|n IH]; intros acc0 Hn.
  - rewrite for_up_0, Nat.mul_0_r. cbn [Reference.sum_below]. ring.
  - rewrite for_up_S, sub_block_step_sum, IH by lia.
    change CompFp32.SubBlkLen with 16.
    replace (16 * S n) with (16 * n + 16) by lia.
    rewrite sum_below_add.
    rewrite (sum_below_ext 16 _ (fun i => padded_term (b * BlkLen + (16 * n + i)))).
    + ring.
    + intros t Ht. replace (n * 16) with (16 * n) by lia.
      rewrite (sub_block_term_padded_term b) by (assumption || lia).
      f_equal. lia.
Qed.

Lemma block_step_sum b st :
  at_block b st ->
  let st' := block_step mA mQuantBData mQuantBScale mQuantBZeroPoint 1 HasZeroPoint
               BlkLen A zcol CountK sB sS sZ (b * BlkLen) st in
  at_block (S b) st' /\
  vaddvq_f32 (varr (acc st') 0)
  = Qcplus (vaddvq_f32 (varr (acc st) 0))
      (sum_below BlkLen (fun i => padded_term (b * BlkLen + i))).
Proof.
  intros Hat. pose proof Hat as (HQ & HS & HI).
  unfold CompFp32.block_step. cbv zeta.
  cbn [QuantBData QuantBScale QuantBZeroPointIdx acc].
  split.
  - unfold ExactViews.at_block. cbn [QuantBData QuantBScale QuantBZeroPointIdx].
    rewrite HQ, HS, HI. change CompFp32.BlkBitWidth with 4.
    rewrite MlasQNBitBlkDataSizeInBytes_half, BlkLen_16.
    replace (16 * m / 2) with (8 * m)
      by (apply Nat.div_unique with 0; lia).
    repeat split; try lia. destruct HasZeroPoint; lia.
  - rewrite for_step_for_up by (unfold CompFp32.SubBlkLen; lia).
    change CompFp32.SubBlkLen with 16.
    assert (Hlen : Nat.min (CountK - b * BlkLen) BlkLen <= BlkLen /\
                   (Nat.min (CountK - b * BlkLen) BlkLen = BlkLen \/
                    Nat.min (CountK - b * BlkLen) BlkLen = CountK - b * BlkLen)) by lia.
    set (len := Nat.min (CountK - b * BlkLen) BlkLen) in *.
    destruct (MlasDivRoundup_bounds len 16 ltac:(lia)) as [Hge Hlt].
    assert (Hn : MlasDivRoundup len 16 <= m).
    { destruct (Nat.le_gt_cases (MlasDivRoundup len 16) m) as [H | H]; [exact H|].
      specialize (Hlt m H). lia. }
    rewrite (sub_block_loop_sum b st); try assumption.
    + f_equal. symmetry. apply sum_below_vanish.
      * lia.
      * intros i H1 H2. unfold ExactViews.padded_term.
        replace (b * BlkLen + i <? CountK) with false; [reflexivity|].
        symmetry. apply Nat.ltb_ge. lia.
    + rewrite flane_tabulate by lia. rewrite HS. f_equal. lia.
    + intros Hz. rewrite Hz in *. rewrite flane_tabulate by lia.
      rewrite HI, load_zero_point_spec. unfold ExactViews.zp_of. rewrite ?Hz.
      replace (zcol + 0 * sZ) with zcol by lia. reflexivity.
Qed.

(** The sum the kernel forms for the column is the sum of the design. *)
Lemma column_value_sum :
  column_value mA mQuantBData mQuantBScale mQuantBZeroPoint
    HasZeroPoint BlkLen A CountK sB sS sZ bcol scol zcol
  = sum_below CountK term.
Proof.
  unfold CompFp32.column_value, CompFp32.column_state.
  rewrite for_step_for_up by (rewrite BlkLen_16; lia).
  set (init := {| acc := zero_f32x4_array 1; QuantBData := bcol;
                  QuantBScale := scol; QuantBZeroPointIdx := 0 |}).
  assert (G : forall b,
             let st := for_up b
                         (fun q => block_step mA mQuantBData mQuantBScale mQuantBZeroPoint
                                     1 HasZeroPoint BlkLen A zcol CountK sB sS sZ
                                     (q * BlkLen)) init in
             at_block b st /\
             vaddvq_f32 (varr (acc st) 0) = sum_below (b * BlkLen) padded_term).
  { induction b as [|b [IHa IHv]].
    - rewrite for_up_0. split.
      + unfold ExactViews.at_block, init. cbn [QuantBData QuantBScale QuantBZeroPointIdx].
        repeat split; try lia. destruct HasZeroPoint; reflexivity.
      + unfold init. cbn [acc]. unfold zero_f32x4_array.
        rewrite varr_tabulate by lia. unfold vaddvq_f32.
        rewrite !flane_zero, exact_fzero_eq. cbn [Nat.mul Reference.sum_below fadd Exact.ops].
        ring.
    - cbv zeta. rewrite for_up_S.
      destruct (block_step_sum b _ IHa) as [Ha Hv]. split; [exact Ha|].
      rewrite Hv, IHv.
      replace (S b * BlkLen) with (b * BlkLen + BlkLen) by lia.
      rewrite sum_below_add. reflexivity. }
  destruct (G (MlasDivRoundup CountK BlkLen)) as [_ ->].
  destruct (MlasDivRoundup_bounds CountK BlkLen ltac:(rewrite BlkLen_16; lia)) as [Hge _].
  rewrite (sum_below_vanish CountK) by
    (try exact Hge; intros i H1 H2; unfold ExactViews.padded_term;
     replace (i <? CountK) with false by (symmetry; apply Nat.ltb_ge; lia); reflexivity).
  apply sum_below_ext. intros i Hi. unfold ExactViews.padded_term.
  replace (i <? CountK) with true by (symmetry; apply Nat.ltb_lt; lia). reflexivity.
Qed.

End Column.

(** The code [q(k,n)] the kernel reads from a buffer produced by
    SQ4BitGemmPackQuantBData is code [k] of column [n] of the source. *)
Lemma Reference_q_of_packed N K BlkLen X d n k :
  (forall i, Byte8.is_byte (X i)) ->
  0 < BlkLen -> BlkLen mod 16 = 0 ->
  n < N -> k < MlasDivRoundup K BlkLen * BlkLen ->
  Reference.q (Pack.SQ4BitGemmPackQuantBData N K BlkLen Mlas.CompFp32 X d)
    BlkLen 0 (MlasDivRoundup K BlkLen) k n
  = Pack.raw_code X (n * MlasDivRoundup K BlkLen * BlkLen + k).
Proof.
  intros HX Hpos Hmod Hn Hk.
  set (BC := MlasDivRoundup K BlkLen) in *.
  assert (H16 : BlkLen = 16 * (BlkLen / 16)).
  { pose proof (Nat.div_mod_eq BlkLen 16) as E. rewrite Hmod in E. lia. }
  set (m := BlkLen / 16) in *.
  rewrite <- (packed_code_pack N K BlkLen Mlas.CompFp32 X d); try assumption.
  2:{ fold BC.
      assert (n * BC * BlkLen + BC * BlkLen <= N * BC * BlkLen).
      { replace (n * BC * BlkLen + BC * BlkLen) with ((n + 1) * (BC * BlkLen)) by lia.
        replace (N * BC * BlkLen) with (N * (BC * BlkLen)) by lia.
        apply Nat.mul_le_mono_r. lia. }
      lia. }
  unfold Reference.q, Pack.packed_code, Pack.packed_pos, Pack.SubBlkLen_of.
  cbn [is_CompInt8]. change (16 / 2) with 8.
  rewrite MlasQNBitBlkDataSizeInBytes_half.
  pose proof (Nat.div_mod_eq k 16) as Ek.
  pose proof (Nat.mod_upper_bound k 16 ltac:(lia)) as Bk.
  assert (Hd : (n * BC * BlkLen + k) / 16 = n * BC * m + k / 16).
  { symmetry. apply Nat.div_unique with (k mod 16); [exact Bk|]. rewrite H16. lia. }
  assert (Hr : (n * BC * BlkLen + k) mod 16 = k mod 16).
  { symmetry. apply Nat.mod_unique with (n * BC * m + k / 16); [exact Bk|]. rewrite H16. lia. }
  rewrite Hd, Hr.
  replace (BlkLen / 2) with (8 * m)
    by (apply Nat.div_unique with 0; lia).
  replace (0 + n * (BC * (8 * m)) + (k / 16 * 8 + (k mod 16) mod 8))
    with ((n * BC * m + k / 16) * 8 + (k mod 16) mod 8) by lia.
  reflexivity.
Qed.

(** In exact arithmetic, that is, were no operation of the kernel to
    round: for every column [n < CountN] (whether it is computed in a
    tile of four columns or alone), every CountK, every BlkLen that is a
    positive multiple of 16, with or without zero-points,
    SQ4BitGemmM1Kernel_CompFp32 would write to C[n] the sum over
    [k < CountK] of [A[k] * (q(k,n) - z(block,n)) * s(block,n)], plus
    [Bias[n]] when the bias pointer is not null; [z] is 8 without
    zero-points.  This is the sum of which the float32 kernel computes a
    rounded value. *)
Lemma exact_kernel_is_Gemm_M1
    (mA : mem Qc) (mQuantBData : mem Z) (mQuantBScale : mem Qc)
    (mQuantBZeroPoint : mem Z) (mBias : mem Qc)
    (BlkLen A QuantBData QuantBScale : nat) (QuantBZeroPoint : option nat)
    (C0 : mem Qc) (CPtr CountN CountK BlockCountK : nat) (Bias : option nat) (n : nat) :
  (forall p, Byte8.is_byte (mQuantBData p)) ->
  0 < BlkLen -> BlkLen mod 16 = 0 ->
  n < CountN ->
  SQ4BitGemmM1Kernel_CompFp32 mA mQuantBData mQuantBScale mQuantBZeroPoint mBias
    BlkLen A QuantBData QuantBScale QuantBZeroPoint
    C0 CPtr CountN CountK BlockCountK Bias (CPtr + n)
  = Reference.Gemm_M1 mA mQuantBData mQuantBScale mQuantBZeroPoint mBias
      BlkLen A QuantBData QuantBScale QuantBZeroPoint CountK BlockCountK Bias n.
Proof.
  intros Hbytes Hpos Hmod Hn.
  assert (H16 : BlkLen = 16 * (BlkLen / 16)).
  { pose proof (Nat.div_mod_eq BlkLen 16) as E. rewrite Hmod in E. lia. }
  assert (Hm : 0 < BlkLen / 16) by lia.
  unfold SQ4BitGemmM1Kernel_CompFp32, Reference.Gemm_M1, Reference.dot.
  destruct QuantBZeroPoint as [zp|]; rewrite Impl_spec; unfold filled;
    (replace (in_range CPtr CountN (CPtr + n)) with true
       by (symmetry; apply in_range_true; lia));
    replace (CPtr + n - CPtr) with n by lia;
    unfold output_value;
    rewrite (column_value_sum mA mQuantBData mQuantBScale mQuantBZeroPoint Hbytes
               _ BlkLen A CountK _ _ _ _ _ _ (BlkLen / 16) H16 Hm);
    change CompFp32.BlkBitWidth with 4;
    destruct Bias as [b|]; cbn [with_bias];
    try (apply (f_equal (fun x => Qcplus x (mBias (b + n)))));
    apply sum_below_ext; intros k Hk; reflexivity.
Qed.

Import Examples.
Import Fp32Views ExactViews.

(** The kernel in binary32 on operands for which every operation is exact:
    A = 1, 2, ..., 20, every code of B is 3, every scale is 1 and the
    bias is 1.  With the zero-points 7 (block 0) and 3 (block 1) the five
    columns, the fifth of which is computed alone, hold
    (1 + ... + 16) * (3 - 7) + 1 = -543; without zero-points and bias they
    hold (1 + ... + 20) * (3 - 8) = -1050.  The element after the row is
    left as it was. *)
Example SQ4BitGemmM1Kernel_CompFp32_binary32 :
  map (SQ4BitGemmM1Kernel_CompFp32 (ops := Binary32.ops)
         row20 threes_QuantBData ones_QuantBScale zp37_QuantBZeroPoint unit_bias
         16 0 0 0 (Some 0) zero_C 0 5 20 2 (Some 0)) (seq 0 6)
  = [Binary32.of_Z (-543); Binary32.of_Z (-543); Binary32.of_Z (-543);
     Binary32.of_Z (-543); Binary32.of_Z (-543); Binary32.zero]
  /\
  map (SQ4BitGemmM1Kernel_CompFp32 (ops := Binary32.ops)
         row20 threes_QuantBData ones_QuantBScale zp37_QuantBZeroPoint unit_bias
         16 0 0 0 None zero_C 0 5 20 2 None) (seq 0 6)
  = [Binary32.of_Z (-1050); Binary32.of_Z (-1050); Binary32.of_Z (-1050);
     Binary32.of_Z (-1050); Binary32.of_Z (-1050); Binary32.zero].
Proof. split; vm_compute; reflexivity. Qed.

End Fp32Exact.


(** * Dequantization of B for the dense fallback *)

Module DequantFacts.

Import Mlas Neon NeonFacts CompFp32 DequantB DequantViews.

Lemma for_up_ext {S} n (f g : nat -> S -> S) s :
  (forall i s, i < n -> f i s = g i s) -> for_up n f s = for_up n g s.
Proof.
  intros H. induction n as [|n IH].
  - reflexivity.
  - rewrite !for_up_S, IH by (intros; apply H; lia). apply H. lia.
Qed.

Section Float.

Context {F : Type} {ops : Fp32Ops F}.

Lemma vst1q_f32_spec (m : mem F) p v q :
  vst1q_f32 m p v q = if in_range p 4 q then flane v (q - p) else m q.
Proof.
  unfold vst1q_f32, for_up. cbn [seq fold_left]. unfold store.
  destruct (Nat.eqb_spec q (p + 3)) as [-> | N3].
  { replace (in_range p 4 (p + 3)) with true by (symmetry; apply in_range_true; lia).
    f_equal. lia. }
  destruct (Nat.eqb_spec q (p + 2)) as [-> | N2].
  { replace (in_range p 4 (p + 2)) with true by (symmetry; apply in_range_true; lia).
    f_equal. lia. }
  destruct (Nat.eqb_spec q (p + 1)) as [-> | N1].
  { replace (in_range p 4 (p + 1)) with true by (symmetry; apply in_range_true; lia).
    f_equal. lia. }
  destruct (Nat.eqb_spec q (p + 0)) as [-> | N0].
  { replace (in_range p 4 (p + 0)) with true by (symmetry; apply in_range_true; lia).
    f_equal. lia. }
  replace (in_range p 4 q) with false by (symmetry; apply in_range_false; lia).
  reflexivity.
Qed.

Variable mQuantBData : mem Z.

Abbreviation Q4BitBlkDequantB_16xNCols := (Q4BitBlkDequantB_16xNCols mQuantBData).
Abbreviation dequant_sub_block := (dequant_sub_block mQuantBData).
Abbreviation sub_block_elem := (sub_block_elem mQuantBData).
Abbreviation section_written := (section_written mQuantBData).

(** The vectors of column [i] are those the float kernel computes. *)
Lemma section_vectors NCols (HasZeroPoint : bool) QP Stride (scale : mem F) SP (offset : mem F) OP
    (write : (nat -> nat -> list F) -> mem F) :
  (forall b b' : nat -> nat -> list F,
      (forall i j, i < NCols -> j < 4 -> b i j = b' i j) -> write b = write b') ->
  (let LowMask := vdup_n_u8 0x0F in
   let bv_packed := tabulate NCols (fun i => vld1_u8 mQuantBData (QP + i * Stride)) in
   let bv_u8 := tabulate NCols (fun i =>
                  (vand_u8 (zarr bv_packed i) LowMask, vshr_n_u8 (zarr bv_packed i) 4)) in
   let u8 i := nth i bv_u8 (@nil Z, @nil Z) in
   let bv_u16 := tabulate NCols (fun i =>
                   (vshll_n_u8 (fst (u8 i)) 3, vshll_n_u8 (snd (u8 i)) 3)) in
   let u16 i := nth i bv_u16 (@nil Z, @nil Z) in
   let bv_u16 := tabulate NCols (fun i =>
                   (vorrq_u16 (fst (u16 i)) fp32_conversion.float_high_half_template_v,
                    vorrq_u16 (snd (u16 i)) fp32_conversion.float_high_half_template_v)) in
   let u16 i := nth i bv_u16 (@nil Z, @nil Z) in
   let bv := tabulate NCols (fun i =>
               [ vreinterpretq_f32_u32 (vshll_n_u16 (vget_low_u16 (fst (u16 i))) 16);
                 vreinterpretq_f32_u32 (vshll_high_n_u16 (fst (u16 i)) 16);
                 vreinterpretq_f32_u32 (vshll_n_u16 (vget_low_u16 (snd (u16 i))) 16);
                 vreinterpretq_f32_u32 (vshll_high_n_u16 (snd (u16 i)) 16) ]) in
   let bv :=
     if HasZeroPoint then
       tabulate NCols (fun i =>
         let offset_v := vdupq_n_f32 (offset (OP + i)) in
         tabulate 4 (fun j => vsubq_f32 (varr (nth i bv []) j) offset_v))
     else
       let offset_v := vdupq_n_f32 (fadd fp32_conversion.offset (f_of_Z 8)) in
       tabulate NCols (fun i =>
         tabulate 4 (fun j => vsubq_f32 (varr (nth i bv []) j) offset_v)) in
   let bv := tabulate NCols (fun i =>
               let scale_v := vdupq_n_f32 (scale (SP + i)) in
               tabulate 4 (fun j => vmulq_f32 (varr (nth i bv []) j) scale_v)) in
   write (fun i j => varr (nth i bv []) j))
  = write (fun i j =>
             varr (dequant_sub_block HasZeroPoint (QP + i * Stride)
                     (offset (OP + i)) (scale (SP + i))) j).
Proof.
  intros Hw. cbv zeta. apply Hw. intros i j Hi Hj.
  unfold CompFp32.dequant_sub_block, zarr.
  destruct HasZeroPoint;
    repeat first [ rewrite nth_tabulate by lia
                 | rewrite varr_tabulate by lia
                 | progress cbn [fst snd] ];
    reflexivity.
Qed.

(** One test of the chain of stores: the address is hit, and the goal is
    closed at the element stored, or it is not. *)
Ltac hit_row D k :=
  match goal with
  | |- context [in_range (D + ?a) 4 ?q] =>
      let E := fresh "E" in
      destruct (in_range (D + a) 4 q) eqn:E;
      [ apply in_range_true in E;
        let l := fresh "l" in
        let Hl := fresh "Hl" in
        let Hq := fresh "Hq" in
        assert (exists l, l < 4 /\ q = D + 16 * k + l) as (l & Hl & Hq)
          by (exists (q - (D + 16 * k)); lia);
        subst q;
        replace (in_range D 256 (D + 16 * k + l)) with true
          by (symmetry; apply in_range_true; lia);
        replace (D + 16 * k + l - D) with (16 * k + l) by lia;
        replace (D + 16 * k + l - (D + a)) with l by lia;
        replace ((16 * k + l) mod 16) with l
          by (apply Nat.mod_unique with k; lia);
        replace ((16 * k + l) / 16) with k
          by (apply Nat.div_unique with l; lia);
        replace (l <? 4) with true by (symmetry; apply Nat.ltb_lt; lia);
        cbn [andb];
        do 4 (destruct l as [|l]; [reflexivity|]); lia
      | apply in_range_false in E ]
  end.

Lemma Q4BitBlkDequantB_16x4_spec HasZeroPoint QP Stride (scale : mem F) SP
    (offset : mem F) OP (Dst : mem F) D q :
  Q4BitBlkDequantB_16xNCols 4 HasZeroPoint QP Stride scale SP offset OP Dst D q
  = section_written 4 HasZeroPoint QP Stride scale SP offset OP Dst D q.
Proof.
  pose proof (section_vectors 4 HasZeroPoint QP Stride scale SP offset OP
                (fun b =>
                   for_up 4 (fun j Dst =>
                     let '(b0, b1, b2, b3) :=
                       Transpose4x4 (b 0 j) (b 1 j) (b 2 j) (b 3 j) in
                     let Dst := vst1q_f32 Dst (D + (j * 4 + 0) * 16) b0 in
                     let Dst := vst1q_f32 Dst (D + (j * 4 + 1) * 16) b1 in
                     let Dst := vst1q_f32 Dst (D + (j * 4 + 2) * 16) b2 in
                     vst1q_f32 Dst (D + (j * 4 + 3) * 16) b3) Dst)) as E.
  unfold DequantB.Q4BitBlkDequantB_16xNCols. cbn [Nat.eqb].
  cbv zeta beta in E |- *. rewrite E; clear E.
  2:{ intros b b' Hb. apply for_up_ext. intros j s Hj.
      rewrite !Hb by lia. reflexivity. }
  unfold DequantViews.section_written, DequantViews.sub_block_elem.
  set (B := fun i j => varr (dequant_sub_block HasZeroPoint (QP + i * Stride)
                               (offset (OP + i)) (scale (SP + i))) j).
  change (for_up 4 (fun j Dst0 =>
            let '(b0, b1, b2, b3) := Transpose4x4 (B 0 j) (B 1 j) (B 2 j) (B 3 j) in
            vst1q_f32
              (vst1q_f32
                 (vst1q_f32 (vst1q_f32 Dst0 (D + (j * 4 + 0) * 16) b0)
                    (D + (j * 4 + 1) * 16) b1)
                 (D + (j * 4 + 2) * 16) b2)
              (D + (j * 4 + 3) * 16) b3) Dst q
          = (if in_range D 256 q && ((q - D) mod 16 <? 4)
             then flane (B ((q - D) mod 16) ((q - D) / 16 / 4)) ((q - D) / 16 mod 4)
             else Dst q)).
  clearbody B.
  unfold for_up. cbn [seq fold_left]. unfold Transpose4x4.
  cbv beta iota zeta.
  rewrite !vst1q_f32_spec.
  unfold vzip1q_f64, vzip2q_f64, vzip1q_f32, vzip2q_f32.
  hit_row D 15. hit_row D 14. hit_row D 13. hit_row D 12.
  hit_row D 11. hit_row D 10. hit_row D 9. hit_row D 8.
  hit_row D 7. hit_row D 6. hit_row D 5. hit_row D 4.
  hit_row D 3. hit_row D 2. hit_row D 1. hit_row D 0.
  destruct (in_range D 256 q) eqn:ER; [|reflexivity].
  apply in_range_true in ER. cbn [andb].
  pose proof (Nat.div_mod_eq (q - D) 16) as Ed.
  pose proof (Nat.mod_upper_bound (q - D) 16 ltac:(lia)) as Bd.
  destruct ((q - D) mod 16 <? 4) eqn:Emod; [|reflexivity].
  apply Nat.ltb_lt in Emod. exfalso.
  assert (Hr : (q - D) / 16 < 16) by lia.
  set (r := (q - D) / 16) in *. set (c := (q - D) mod 16) in *.
  do 16 (destruct r as [|r]; [lia|]). lia.
Qed.

Ltac hit_cell D k :=
  match goal with
  | |- context [?q =? D + ?a] =>
      let E := fresh "E" in
      destruct (Nat.eqb_spec q (D + a)) as [E | E];
      [ replace q with (D + 16 * k) by lia;
        replace (in_range D 256 (D + 16 * k)) with true
          by (symmetry; apply in_range_true; lia);
        replace (D + 16 * k - D) with (16 * k) by lia;
        replace ((16 * k) mod 16) with 0
          by (apply Nat.mod_unique with k; lia);
        replace ((16 * k) / 16) with k
          by (apply Nat.div_unique with 0; lia);
        cbn [Nat.ltb Nat.leb andb];
        reflexivity
      | ]
  end.

Lemma Q4BitBlkDequantB_16x1_spec HasZeroPoint QP Stride (scale : mem F) SP
    (offset : mem F) OP (Dst : mem F) D q :
  Q4BitBlkDequantB_16xNCols 1 HasZeroPoint QP Stride scale SP offset OP Dst D q
  = section_written 1 HasZeroPoint QP Stride scale SP offset OP Dst D q.
Proof.
  pose proof (section_vectors 1 HasZeroPoint QP Stride scale SP offset OP
                (fun b =>
                   for_up 1 (fun i Dst =>
                     for_up 4 (fun j Dst =>
                       let Dst := store Dst (D + ((j * 4 + 0) * 16 + i))
                                    (vgetq_lane_f32 (b i j) 0) in
                       let Dst := store Dst (D + ((j * 4 + 1) * 16 + i))
                                    (vgetq_lane_f32 (b i j) 1) in
                       let Dst := store Dst (D + ((j * 4 + 2) * 16 + i))
                                    (vgetq_lane_f32 (b i j) 2) in
                       store Dst (D + ((j * 4 + 3) * 16 + i))
                         (vgetq_lane_f32 (b i j) 3)) Dst) Dst)) as E.
  unfold DequantB.Q4BitBlkDequantB_16xNCols. cbn [Nat.eqb].
  cbv zeta beta in E |- *. rewrite E; clear E.
  2:{ intros b b' Hb. apply for_up_ext. intros i s Hi.
      apply for_up_ext. intros j s' Hj.
      rewrite !Hb by lia. reflexivity. }
  unfold DequantViews.section_written, DequantViews.sub_block_elem.
  set (B := fun i j => varr (dequant_sub_block HasZeroPoint (QP + i * Stride)
                               (offset (OP + i)) (scale (SP + i))) j).
  change (for_up 1 (fun i Dst0 =>
            for_up 4 (fun j Dst1 =>
              store
                (store
                   (store
                      (store Dst1 (D + ((j * 4 + 0) * 16 + i))
                         (vgetq_lane_f32 (B i j) 0))
                      (D + ((j * 4 + 1) * 16 + i)) (vgetq_lane_f32 (B i j) 1))
                   (D + ((j * 4 + 2) * 16 + i)) (vgetq_lane_f32 (B i j) 2))
                (D + ((j * 4 + 3) * 16 + i)) (vgetq_lane_f32 (B i j) 3)) Dst0) Dst q
          = (if in_range D 256 q && ((q - D) mod 16 <? 1)
             then flane (B ((q - D) mod 16) ((q - D) / 16 / 4)) ((q - D) / 16 mod 4)
             else Dst q)).
  clearbody B.
  unfold for_up. cbn [seq fold_left]. unfold store, vgetq_lane_f32.
  hit_cell D 15. hit_cell D 14. hit_cell D 13. hit_cell D 12.
  hit_cell D 11. hit_cell D 10. hit_cell D 9. hit_cell D 8.
  hit_cell D 7. hit_cell D 6. hit_cell D 5. hit_cell D 4.
  hit_cell D 3. hit_cell D 2. hit_cell D 1. hit_cell D 0.
  destruct (in_range D 256 q) eqn:ER; [|reflexivity].
  apply in_range_true in ER. cbn [andb].
  pose proof (Nat.div_mod_eq (q - D) 16) as Ed.
  pose proof (Nat.mod_upper_bound (q - D) 16 ltac:(lia)) as Bd.
  destruct ((q - D) mod 16 <? 1) eqn:Emod; [|reflexivity].
  apply Nat.ltb_lt in Emod. exfalso.
  assert (Hr : (q - D) / 16 < 16) by lia.
  set (r := (q - D) / 16) in *. set (c := (q - D) mod 16) in *.
  do 16 (destruct r as [|r]; [lia|]). lia.
Qed.

(** Without zero-points the offset passed for a column is not used. *)
Lemma sub_block_elem_no_offset p (o o' sc : F) t :
  sub_block_elem false p o sc t = sub_block_elem false p o' sc t.
Proof. reflexivity. Qed.

(** The addresses of the columns [4 i .. 4 i + 4) of a 16 x 16 block. *)
Lemma quad_cond D i q :
  i < 4 ->
  in_range (D + 4 * i) 256 q && ((q - (D + 4 * i)) mod 16 <? 4)
  = in_range D 256 q && ((q - D) mod 16 / 4 =? i).
Proof.
  intros Hi.
  pose proof (Nat.div_mod_eq (q - D) 16) as E1.
  pose proof (Nat.mod_upper_bound (q - D) 16 ltac:(lia)) as B1.
  pose proof (Nat.div_mod_eq (q - (D + 4 * i)) 16) as E2.
  pose proof (Nat.mod_upper_bound (q - (D + 4 * i)) 16 ltac:(lia)) as B2.
  pose proof (Nat.div_mod_eq ((q - D) mod 16) 4) as E3.
  pose proof (Nat.mod_upper_bound ((q - D) mod 16) 4 ltac:(lia)) as B3.
  set (a := (q - D) / 16) in *. set (c := (q - D) mod 16) in *.
  set (a' := (q - (D + 4 * i)) / 16) in *. set (c' := (q - (D + 4 * i)) mod 16) in *.
  set (e := c / 4) in *. set (f := c mod 4) in *.
  destruct (in_range (D + 4 * i) 256 q) eqn:R1;
    [apply in_range_true in R1 | apply in_range_false in R1];
    destruct (in_range D 256 q) eqn:R2;
    [apply in_range_true in R2 | apply in_range_false in R2
    |apply in_range_true in R2 | apply in_range_false in R2];
    cbn [andb];
    destruct (c' <? 4) eqn:C1;
    [apply Nat.ltb_lt in C1 | apply Nat.ltb_ge in C1
    |apply Nat.ltb_lt in C1 | apply Nat.ltb_ge in C1
    |apply Nat.ltb_lt in C1 | apply Nat.ltb_ge in C1
    |apply Nat.ltb_lt in C1 | apply Nat.ltb_ge in C1];
    destruct (Nat.eqb_spec e i) as [C2 | C2];
    try reflexivity; exfalso; lia.
Qed.

Lemma quad_index D i q :
  i < 4 -> in_range D 256 q = true -> (q - D) mod 16 / 4 = i ->
  (q - (D + 4 * i)) mod 16 = (q - D) mod 16 - 4 * i /\
  (q - (D + 4 * i)) / 16 = (q - D) / 16 /\
  4 * i <= (q - D) mod 16.
Proof.
  intros Hi R C. apply in_range_true in R.
  pose proof (Nat.div_mod_eq (q - D) 16) as E1.
  pose proof (Nat.mod_upper_bound (q - D) 16 ltac:(lia)) as B1.
  pose proof (Nat.div_mod_eq ((q - D) mod 16) 4) as E3.
  pose proof (Nat.mod_upper_bound ((q - D) mod 16) 4 ltac:(lia)) as B3.
  rewrite C in E3.
  set (a := (q - D) / 16) in *. set (c := (q - D) mod 16) in *.
  set (f := c mod 4) in *.
  assert (Hm : c - 4 * i = (q - (D + 4 * i)) mod 16)
    by (apply Nat.mod_unique with a; lia).
  assert (Hd : a = (q - (D + 4 * i)) / 16)
    by (apply Nat.div_unique with (c - 4 * i); lia).
  rewrite <- Hm, <- Hd. repeat split; lia.
Qed.

(** The address of column [n] of a 16 x 16 block. *)
Lemma col_cond D n q :
  n < 16 ->
  in_range (D + n) 256 q && ((q - (D + n)) mod 16 <? 1)
  = in_range D 256 q && ((q - D) mod 16 =? n).
Proof.
  intros Hn.
  pose proof (Nat.div_mod_eq (q - D) 16) as E1.
  pose proof (Nat.mod_upper_bound (q - D) 16 ltac:(lia)) as B1.
  pose proof (Nat.div_mod_eq (q - (D + n)) 16) as E2.
  pose proof (Nat.mod_upper_bound (q - (D + n)) 16 ltac:(lia)) as B2.
  set (a := (q - D) / 16) in *. set (c := (q - D) mod 16) in *.
  set (a' := (q - (D + n)) / 16) in *. set (c' := (q - (D + n)) mod 16) in *.
  destruct (in_range (D + n) 256 q) eqn:R1;
    [apply in_range_true in R1 | apply in_range_false in R1];
    destruct (in_range D 256 q) eqn:R2;
    [apply in_range_true in R2 | apply in_range_false in R2
    |apply in_range_true in R2 | apply in_range_false in R2];
    cbn [andb];
    destruct (c' <? 1) eqn:C1;
    [apply Nat.ltb_lt in C1 | apply Nat.ltb_ge in C1
    |apply Nat.ltb_lt in C1 | apply Nat.ltb_ge in C1
    |apply Nat.ltb_lt in C1 | apply Nat.ltb_ge in C1
    |apply Nat.ltb_lt in C1 | apply Nat.ltb_ge in C1];
    destruct (Nat.eqb_spec c n) as [C2 | C2];
    try reflexivity; exfalso; lia.
Qed.

Lemma col_index D n q :
  n < 16 -> in_range D 256 q = true -> (q - D) mod 16 = n ->
  (q - (D + n)) mod 16 = 0 /\ (q - (D + n)) / 16 = (q - D) / 16.
Proof.
  intros Hn R C. apply in_range_true in R.
  pose proof (Nat.div_mod_eq (q - D) 16) as E1.
  rewrite C in E1.
  set (a := (q - D) / 16) in *.
  split.
  - symmetry. apply Nat.mod_unique with a; lia.
  - symmetry. apply Nat.div_unique with 0; lia.
Qed.

End Float.

End DequantFacts.


(** * Dequantization of B: the loops *)

Module DequantLoops.

Import Mlas Neon NeonFacts CompFp32 DequantB DequantViews DequantFacts.

Section Float.

Context {F : Type} {ops : Fp32Ops F}.

Variable mQuantBData : mem Z.
Variable mQuantBScale : mem F.
Variable mQuantBZeroPoint : mem Z.

Abbreviation Q4BitBlkDequantB_16xNCols := (Q4BitBlkDequantB_16xNCols mQuantBData).
Abbreviation sub_block_elem := (sub_block_elem mQuantBData).
Abbreviation section_written := (section_written mQuantBData).
Abbreviation block_written := (block_written mQuantBData).

Section Impl.

Variable HasZeroPoint : bool.
Variable BlkLen : nat.
Variable CountK BlockCountK : nat.

Abbreviation sub_block_16 :=
  (sub_block_16 mQuantBData HasZeroPoint BlkLen BlockCountK).
Abbreviation sub_block_rem :=
  (sub_block_rem mQuantBData HasZeroPoint BlkLen BlockCountK).
Abbreviation StrideB := (StrideQuantBData BlkLen BlockCountK).

Lemma sub_block_16_spec QCol k kklen kk (s : blk_state (F := F)) :
  let s' := sub_block_16 QCol k kklen kk s in
  k_blk_idx s' = k_blk_idx s /\
  Dst s' = Dst s + 16 * Nat.min (kklen - kk) 16 /\
  scale (buf s') = scale (buf s) /\
  offset (buf s') = offset (buf s) /\
  forall q, FpData (buf s') q
            = block_written 16 HasZeroPoint (QCol + (k + kk) * BlkBitWidth / 8) StrideB
                (scale (buf s)) (offset (buf s)) (FpData (buf s)) (Dst s) q.
Proof.
  cbv zeta. unfold DequantB.sub_block_16.
  cbn [k_blk_idx Dst buf scale offset FpData].
  repeat split.
  intros q. unfold for_step.
  cbn [for_loop Nat.ltb Nat.leb Nat.add ScalePtr OffsetPtr DstColPtr tFpData].
  set (P := (k + kk) * BlkBitWidth / 8).
  set (D := Dst s).
  replace (D + 4) with (D + 4 * 1) by lia.
  replace (D + 4 * 1 + 4) with (D + 4 * 2) by lia.
  replace (D + 4 * 2 + 4) with (D + 4 * 3) by lia.
  repeat (rewrite Q4BitBlkDequantB_16x4_spec; unfold DequantViews.section_written).
  unfold DequantViews.block_written.
  replace (in_range D 256 q && ((q - D) mod 16 <? 4))
    with (in_range (D + 4 * 0) 256 q && ((q - (D + 4 * 0)) mod 16 <? 4))
    by (replace (D + 4 * 0) with D by lia; reflexivity).
  rewrite !quad_cond by lia.
  destruct (in_range D 256 q) eqn:R; cbn [andb]; [|reflexivity].
  pose proof (Nat.mod_upper_bound (q - D) 16 ltac:(lia)) as B1.
  pose proof (Nat.div_mod_eq ((q - D) mod 16) 4) as E3.
  pose proof (Nat.mod_upper_bound ((q - D) mod 16) 4 ltac:(lia)) as B3.
  replace ((q - D) mod 16 <? 16) with true by (symmetry; apply Nat.ltb_lt; lia).
  assert (He : (q - D) mod 16 / 4 < 4) by lia.
  destruct ((q - D) mod 16 / 4) as [|[|[|[|e]]]] eqn:Ee; [| | | |lia];
    cbn [Nat.eqb].
  - destruct (quad_index D 0 q ltac:(lia) R Ee) as (Hm & Hd & Hle).
    replace (D + 4 * 0) with D in * by lia.
    destruct HasZeroPoint.
    + f_equal; f_equal; lia.
    + rewrite (sub_block_elem_no_offset mQuantBData _ _ (offset (buf s) ((q - D) mod 16))).
      f_equal; f_equal; lia.
  - destruct (quad_index D 1 q ltac:(lia) R Ee) as (Hm & Hd & Hle).
    rewrite Hm, Hd. destruct HasZeroPoint.
    + f_equal; try (f_equal; lia). lia.
    + rewrite (sub_block_elem_no_offset mQuantBData _ _ (offset (buf s) ((q - D) mod 16))).
      f_equal; try (f_equal; lia). lia.
  - destruct (quad_index D 2 q ltac:(lia) R Ee) as (Hm & Hd & Hle).
    rewrite Hm, Hd. destruct HasZeroPoint.
    + f_equal; try (f_equal; lia). lia.
    + rewrite (sub_block_elem_no_offset mQuantBData _ _ (offset (buf s) ((q - D) mod 16))).
      f_equal; try (f_equal; lia). lia.
  - destruct (quad_index D 3 q ltac:(lia) R Ee) as (Hm & Hd & Hle).
    rewrite Hm, Hd. destruct HasZeroPoint.
    + f_equal; try (f_equal; lia). lia.
    + rewrite (sub_block_elem_no_offset mQuantBData _ _ (offset (buf s) ((q - D) mod 16))).
      f_equal; try (f_equal; lia). lia.
Qed.

Lemma zero_fill (m : mem F) D n q :
  for_up n (fun i m => vst1q_f32 m (D + 4 * i) (vdupq_n_f32 (f_of_Z 0))) m q
  = if in_range D (4 * n) q then fzero else m q.
Proof.
  induction n as [|n IH].
  - rewrite for_up_0. range_cases; [lia | reflexivity].
  - rewrite for_up_S, vst1q_f32_spec, IH.
    destruct (in_range (D + 4 * n) 4 q) eqn:E1;
      [apply in_range_true in E1 | apply in_range_false in E1].
    + replace (in_range D (4 * S n) q) with true
        by (symmetry; apply in_range_true; lia).
      unfold vdupq_n_f32. rewrite flane_tabulate by lia. reflexivity.
    + range_cases; try reflexivity; lia.
Qed.

Lemma columns_loop QCol P (sc off : mem F) (Z0 : mem F) D n :
  n <= 16 ->
  let t := for_up n (fun nn t =>
             {| ScalePtr := ScalePtr t + 1;
                OffsetPtr := if HasZeroPoint then OffsetPtr t + 1 else OffsetPtr t;
                DstColPtr := DstColPtr t + 1;
                tFpData :=
                  Q4BitBlkDequantB_16xNCols 1 HasZeroPoint
                    (QCol + nn * StrideB + P) StrideB
                    sc (ScalePtr t) off (OffsetPtr t)
                    (tFpData t) (DstColPtr t) |})
             {| ScalePtr := 0; OffsetPtr := 0; DstColPtr := D; tFpData := Z0 |} in
  ScalePtr t = n /\
  OffsetPtr t = (if HasZeroPoint then n else 0) /\
  DstColPtr t = D + n /\
  forall q, tFpData t q
            = if in_range D 256 q && ((q - D) mod 16 <? n)
              then sub_block_elem HasZeroPoint
                     (QCol + (q - D) mod 16 * StrideB + P)
                     (off ((q - D) mod 16)) (sc ((q - D) mod 16)) ((q - D) / 16)
              else Z0 q.
Proof.
  induction n as [|n IH]; intros Hn; cbv zeta in *.
  - rewrite for_up_0. cbn [ScalePtr OffsetPtr DstColPtr tFpData].
    repeat split; try lia; [destruct HasZeroPoint; reflexivity|].
    intros q. rewrite andb_false_r. reflexivity.
  - rewrite for_up_S. destruct (IH ltac:(lia)) as (HS & HO & HD & HF).
    cbn [ScalePtr OffsetPtr DstColPtr tFpData]. rewrite HS, HO, HD.
    repeat split; try lia; [destruct HasZeroPoint; lia|].
    intros q. rewrite Q4BitBlkDequantB_16x1_spec.
    unfold DequantViews.section_written. rewrite col_cond by lia. rewrite HF.
    destruct (in_range D 256 q) eqn:R; cbn [andb]; [|reflexivity].
    destruct (Nat.eqb_spec ((q - D) mod 16) n) as [C | C].
    + destruct (col_index D n q ltac:(lia) R C) as (Hm & Hd).
      rewrite Hm, Hd, C.
      replace (n <? S n) with true by (symmetry; apply Nat.ltb_lt; lia).
      replace (n + 0) with n by lia.
      replace (QCol + n * StrideB + P + 0 * StrideB) with (QCol + n * StrideB + P) by lia.
      destruct HasZeroPoint.
      * replace (n + 0) with n by lia. reflexivity.
      * reflexivity.
    + destruct ((q - D) mod 16 <? n) eqn:L;
        [apply Nat.ltb_lt in L | apply Nat.ltb_ge in L].
      * replace ((q - D) mod 16 <? S n) with true by (symmetry; apply Nat.ltb_lt; lia).
        reflexivity.
      * replace ((q - D) mod 16 <? S n) with false by (symmetry; apply Nat.ltb_ge; lia).
        reflexivity.
Qed.

Lemma sub_block_rem_spec ncols QCol k kklen kk (s : blk_state (F := F)) :
  ncols <= 16 ->
  let s' := sub_block_rem ncols QCol k kklen kk s in
  k_blk_idx s' = k_blk_idx s /\
  Dst s' = Dst s + 16 * Nat.min (kklen - kk) 16 /\
  scale (buf s') = scale (buf s) /\
  offset (buf s') = offset (buf s) /\
  forall q, FpData (buf s') q
            = block_written ncols HasZeroPoint (QCol + (k + kk) * BlkBitWidth / 8) StrideB
                (scale (buf s)) (offset (buf s)) (FpData (buf s)) (Dst s) q.
Proof.
  intros Hn. cbv zeta. unfold DequantB.sub_block_rem.
  cbn [k_blk_idx Dst buf scale offset FpData].
  repeat split.
  intros q.
  set (P := (k + kk) * BlkBitWidth / 8).
  pose proof (columns_loop QCol P (scale (buf s)) (offset (buf s))
                (for_up (16 * 4)
                   (fun i m => vst1q_f32 m (Dst s + 4 * i) (vdupq_n_f32 (f_of_Z 0)))
                   (FpData (buf s)))
                (Dst s) ncols Hn) as H.
  cbv zeta in H. destruct H as (_ & _ & _ & HF).
  rewrite HF, zero_fill. unfold DequantViews.block_written.
  change (4 * (16 * 4)) with 256.
  destruct (in_range (Dst s) 256 q); cbn [andb]; [|reflexivity].
  destruct ((q - Dst s) mod 16 <? ncols); [|reflexivity].
  f_equal. lia.
Qed.

Abbreviation load_scales :=
  (load_scales mQuantBScale mQuantBZeroPoint HasZeroPoint BlockCountK).
Abbreviation StrideZ := (StrideQuantBZeroPoint BlockCountK).

Lemma load_scales_spec SCol ZCol idx n (b : buffers (F := F)) :
  let b' := load_scales n SCol ZCol idx b in
  FpData b' = FpData b /\
  forall c, c < n ->
    scale b' c = mQuantBScale (SCol + (c * BlockCountK + idx)) /\
    (HasZeroPoint = true ->
     offset b' c
     = fadd fp32_conversion.offset
         (f_of_Z (load_zero_point mQuantBZeroPoint (ZCol + c * StrideZ) idx))).
Proof.
  induction n as [|n IH]; cbv zeta in *.
  - unfold DequantB.load_scales. rewrite for_up_0. split; [reflexivity|]. intros; lia.
  - unfold DequantB.load_scales in *. rewrite for_up_S.
    destruct IH as (IF & IC). cbn [scale offset FpData].
    split; [exact IF|].
    intros c Hc. split.
    + destruct (Nat.eq_dec c n) as [-> | N]; [apply store_eq|].
      rewrite store_neq by exact N. apply IC. lia.
    + intros Hz. rewrite Hz in IC |- *.
      destruct (Nat.eq_dec c n) as [-> | N].
      * rewrite store_eq. unfold load_zero_point.
        replace (ZCol + n * StrideZ + idx / 2) with (ZCol + (n * StrideZ + idx / 2)) by lia.
        reflexivity.
      * rewrite store_neq by exact N.
        destruct (IC c ltac:(lia)) as (_ & I2). apply I2. reflexivity.
Qed.

Section Groups.

Variable FpData0 : mem F.
Variable FpDataPtr : nat.
Variable QuantBData QuantBScale QuantBZeroPoint : nat.
Variable CountN : nat.

Variable m : nat.
Hypothesis BlkLen_16 : BlkLen = 16 * m.
Hypothesis BlkLen_pos : 0 < m.

Abbreviation dequantized :=
  (dequantized mQuantBData mQuantBScale mQuantBZeroPoint HasZeroPoint BlkLen BlockCountK
     QuantBData QuantBScale QuantBZeroPoint).
Abbreviation content :=
  (content mQuantBData mQuantBScale mQuantBZeroPoint HasZeroPoint BlkLen CountK
     BlockCountK FpDataPtr QuantBData QuantBScale QuantBZeroPoint CountN).
Abbreviation written_up_to :=
  (written_up_to mQuantBData mQuantBScale mQuantBZeroPoint HasZeroPoint BlkLen CountK
     BlockCountK FpData0 FpDataPtr QuantBData QuantBScale QuantBZeroPoint CountN).
Abbreviation scales_loaded :=
  (scales_loaded mQuantBScale mQuantBZeroPoint HasZeroPoint BlockCountK
     QuantBScale QuantBZeroPoint).
Abbreviation overrun := (overrun CountK).

Lemma content_at g k c :
  k < CountK -> c < 16 ->
  content (FpDataPtr + g * (16 * CountK) + 16 * k + c)
  = if 16 * g + c <? CountN then dequantized k (16 * g + c) else fzero.
Proof.
  intros Hk Hc. unfold DequantViews.content. cbv zeta.
  replace (FpDataPtr + g * (16 * CountK) + 16 * k + c - FpDataPtr)
    with (16 * CountK * g + (16 * k + c)) by lia.
  assert (Hg : (16 * CountK * g + (16 * k + c)) / (16 * CountK) = g).
  { symmetry. apply Nat.div_unique with (16 * k + c); lia. }
  assert (Hr : (16 * CountK * g + (16 * k + c)) mod (16 * CountK) = 16 * k + c).
  { symmetry. apply Nat.mod_unique with g; lia. }
  assert (Hc' : (16 * CountK * g + (16 * k + c)) mod 16 = c).
  { symmetry. apply Nat.mod_unique with (CountK * g + k); lia. }
  rewrite Hg, Hr, Hc'.
  replace ((16 * k + c) / 16) with k by (apply Nat.div_unique with c; lia).
  reflexivity.
Qed.

Section Group.

Variable g ncols : nat.
Variable full : bool.
Variable ZCol : nat.
Hypothesis ncols_16 : ncols <= 16.
Hypothesis full_16 : full = true -> ncols = 16.
Hypothesis columns : forall c, c < 16 -> (c <? ncols) = (16 * g + c <? CountN).
Hypothesis ZCol_ptr : HasZeroPoint = true -> ZCol = QuantBZeroPoint + 16 * g * StrideZ.

Let QCol := QuantBData + 16 * g * StrideB.
Let SCol := QuantBScale + 16 * g * BlockCountK.
Let base := FpDataPtr + g * (16 * CountK).

Lemma sub_block_step b sidx (s : blk_state (F := F)) :
  sidx < m -> b * BlkLen + 16 * sidx < CountK ->
  written_up_to g (b * BlkLen + 16 * sidx) (Dst s) (FpData (buf s)) ->
  scales_loaded g ncols b (buf s) ->
  let k := b * BlkLen in
  let kklen := Nat.min (CountK - k) BlkLen in
  let s' := (if full then sub_block_16 QCol k kklen else sub_block_rem ncols QCol k kklen)
              (16 * sidx) s in
  written_up_to g (Nat.min CountK (b * BlkLen + 16 * sidx + 16))
    (Dst s') (FpData (buf s')) /\
  scales_loaded g ncols b (buf s') /\
  k_blk_idx s' = k_blk_idx s.
Proof.
  intros Hs Hx (HD & H1 & H2) HL. cbv zeta.
  set (k := b * BlkLen) in *. set (kklen := Nat.min (CountK - k) BlkLen).
  set (x := k + 16 * sidx) in *.
  assert (Hspec :
    let s' := (if full then sub_block_16 QCol k kklen else sub_block_rem ncols QCol k kklen)
                (16 * sidx) s in
    k_blk_idx s' = k_blk_idx s /\
    Dst s' = Dst s + 16 * Nat.min (kklen - 16 * sidx) 16 /\
    scale (buf s') = scale (buf s) /\
    offset (buf s') = offset (buf s) /\
    forall q, FpData (buf s') q
              = block_written ncols HasZeroPoint (QCol + (k + 16 * sidx) * BlkBitWidth / 8)
                  StrideB (scale (buf s)) (offset (buf s)) (FpData (buf s)) (Dst s) q).
  { destruct full.
    - rewrite (full_16 eq_refl). apply sub_block_16_spec.
    - apply sub_block_rem_spec. exact ncols_16. }
  cbv zeta in Hspec. destruct Hspec as (Hk & HD' & Hsc & Hof & HF).
  set (s' := (if full then _ else _) (16 * sidx) s) in *. clearbody s'.
  assert (Hcnt : Nat.min (kklen - 16 * sidx) 16 = Nat.min CountK (x + 16) - x).
  { unfold kklen, x, k in *. rewrite BlkLen_16 in *. lia. }
  assert (Hx16 : exists y, x = 16 * y).
  { exists (b * m + sidx). unfold x, k. rewrite BlkLen_16. lia. }
  destruct Hx16 as (y & Hy).
  assert (Hru : MlasDivRoundup x 16 * 16 = x).
  { unfold MlasDivRoundup. rewrite Hy.
    replace ((16 * y + 16 - 1) / 16) with y
      by (apply Nat.div_unique with 15; lia). lia. }
  split; [|split].
  - unfold DequantViews.written_up_to in *. cbv zeta in *. fold base in HD, H1, H2 |- *.
    split; [rewrite HD', HD, Hcnt; lia|]. split.
    + intros q Hq1 Hq2. rewrite HF. unfold DequantViews.block_written. rewrite HD.
      destruct (in_range (base + 16 * x) 256 q) eqn:R;
        [apply in_range_true in R | apply in_range_false in R].
      * pose proof (Nat.div_mod_eq (q - (base + 16 * x)) 16) as Ed.
        pose proof (Nat.mod_upper_bound (q - (base + 16 * x)) 16 ltac:(lia)) as Bd.
        set (r := (q - (base + 16 * x)) / 16) in *.
        set (c := (q - (base + 16 * x)) mod 16) in *.
        assert (Hr : x + r < CountK) by lia.
        replace q with (FpDataPtr + g * (16 * CountK) + 16 * (x + r) + c)
          by (unfold base in *; lia).
        rewrite content_at by lia.
        rewrite <- (columns c Bd).
        destruct (c <? ncols) eqn:Ec; [|reflexivity].
        apply Nat.ltb_lt in Ec.
        destruct (HL c Ec) as (Lsc & Lof).
        unfold DequantViews.dequantized.
        assert (Hb : (x + r) / BlkLen = b).
        { symmetry. apply Nat.div_unique with (16 * sidx + r).
          - rewrite BlkLen_16. lia.
          - unfold x, k. lia. }
        assert (Hd16 : (x + r) / 16 = y)
          by (symmetry; apply Nat.div_unique with r; lia).
        assert (Hm16 : (x + r) mod 16 = r)
          by (symmetry; apply Nat.mod_unique with y; lia).
        assert (Hp : (k + 16 * sidx) * BlkBitWidth / 8 = y * 8).
        { fold x. rewrite Hy. unfold BlkBitWidth.
          symmetry. apply Nat.div_unique with 0; lia. }
        rewrite Hb, Hd16, Hm16, Hp, Lsc.
        replace (QCol + y * 8 + c * StrideB)
          with (QuantBData + (16 * g + c) * StrideB + y * 8) by (unfold QCol; lia).
        destruct HasZeroPoint eqn:Hz.
        -- rewrite (Lof eq_refl). reflexivity.
        -- reflexivity.
      * apply H1; [exact Hq1 | lia].
    + intros q Hq. rewrite HF. unfold DequantViews.block_written. rewrite HD.
      assert (Hru' : x + 16 <= MlasDivRoundup (Nat.min CountK (x + 16)) 16 * 16).
      { destruct (MlasDivRoundup_bounds (Nat.min CountK (x + 16)) 16 ltac:(lia))
          as [Hge Hlt].
        destruct (Nat.le_gt_cases (MlasDivRoundup (Nat.min CountK (x + 16)) 16) y)
          as [Hle | Hgt]; [|lia].
        assert (Nat.min CountK (x + 16) <= 16 * y) by nia. lia. }
      replace (in_range (base + 16 * x) 256 q) with false
        by (symmetry; apply in_range_false; lia).
      apply H2. rewrite Hru. lia.
  - intros c Hc. rewrite Hsc, Hof. apply HL. exact Hc.
  - exact Hk.
Qed.

Abbreviation block_step :=
  (block_step mQuantBData mQuantBScale mQuantBZeroPoint HasZeroPoint BlkLen CountK
     BlockCountK).

Lemma block_step_inv b (s : blk_state (F := F)) :
  b * BlkLen < CountK -> k_blk_idx s = b ->
  written_up_to g (b * BlkLen) (Dst s) (FpData (buf s)) ->
  let s' := block_step full ncols QCol SCol ZCol (b * BlkLen) s in
  k_blk_idx s' = S b /\
  written_up_to g (Nat.min CountK (S b * BlkLen)) (Dst s') (FpData (buf s')).
Proof.
  intros Hb Hidx HW. cbv zeta. unfold DequantB.block_step.
  cbn [k_blk_idx Dst buf].
  set (k := b * BlkLen) in *.
  set (kklen := Nat.min (CountK - k) BlkLen).
  destruct (load_scales_spec SCol ZCol (k_blk_idx s) ncols (buf s)) as (LF & LC).
  set (bf := load_scales ncols SCol ZCol (k_blk_idx s) (buf s)) in *.
  assert (HL : scales_loaded g ncols b bf).
  { intros c Hc. destruct (LC c Hc) as (L1 & L2). rewrite Hidx in *. split.
    - rewrite L1. f_equal. unfold SCol. lia.
    - intros Hz. rewrite (L2 Hz). unfold DequantViews.zp_offset.
      rewrite (ZCol_ptr Hz). do 3 f_equal. lia. }
  clearbody bf.
  rewrite for_step_for_up by lia.
  destruct (MlasDivRoundup_bounds kklen 16 ltac:(lia)) as [Hge Hlt].
  set (n := MlasDivRoundup kklen 16) in *.
  assert (Hkk : kklen <= BlkLen /\ kklen <= CountK - k /\
                (kklen = BlkLen \/ kklen = CountK - k)) by (unfold kklen; lia).
  assert (Hnm : n <= m).
  { destruct (Nat.le_gt_cases n m) as [H | H]; [exact H|].
    specialize (Hlt m H). rewrite BlkLen_16 in Hkk. lia. }
  assert (G : forall j, j <= n ->
            let sj := for_up j
                        (fun q => (if full then sub_block_16 QCol k kklen
                                   else sub_block_rem ncols QCol k kklen) (q * 16))
                        {| k_blk_idx := k_blk_idx s; Dst := Dst s; buf := bf |} in
            written_up_to g (Nat.min CountK (k + 16 * j)) (Dst sj) (FpData (buf sj)) /\
            scales_loaded g ncols b (buf sj) /\
            k_blk_idx sj = b).
  { induction j as [|j IH]; intros Hj; cbv zeta.
    - rewrite for_up_0. cbn [k_blk_idx Dst buf]. rewrite LF.
      replace (Nat.min CountK (k + 16 * 0)) with k by lia.
      split; [exact HW|]. split; [exact HL | exact Hidx].
    - rewrite for_up_S. destruct (IH ltac:(lia)) as (IW & IL & IK).
      specialize (Hlt j ltac:(lia)).
      replace (Nat.min CountK (k + 16 * j)) with (k + 16 * j) in IW by lia.
      replace (j * 16) with (16 * j) by lia.
      assert (Hjm : j < m) by lia.
      destruct (sub_block_step b j _ Hjm ltac:(fold k; lia) IW IL) as (W' & L' & K').
      fold k in W', L', K'. fold kklen in W', L', K'.
      replace (Nat.min CountK (k + 16 * S j)) with (Nat.min CountK (k + 16 * j + 16))
        by lia.
      split; [exact W'|]. split; [exact L'|]. rewrite K'. exact IK. }
  destruct (G n (Nat.le_refl n)) as (GW & _ & GK). cbv zeta in GW, GK.
  split; [rewrite GK; lia|].
  replace (Nat.min CountK (S b * BlkLen)) with (Nat.min CountK (k + 16 * n)).
  - exact GW.
  - unfold k in *. rewrite BlkLen_16 in *. lia.
Qed.

Abbreviation group :=
  (group mQuantBData mQuantBScale mQuantBZeroPoint HasZeroPoint BlkLen CountK BlockCountK).

Lemma group_inv (c : col_state (F := F)) :
  QuantBDataCol c = QCol -> QuantBScaleCol c = SCol -> QuantBZeroPointCol c = ZCol ->
  written_up_to g 0 (cDst c) (FpData (cbuf c)) ->
  written_up_to g CountK (fst (group full ncols c)) (FpData (snd (group full ncols c))).
Proof.
  intros HQ HS HZ HW. unfold DequantB.group. cbn [fst snd].
  rewrite HQ, HS, HZ.
  rewrite for_step_for_up by (rewrite BlkLen_16; lia).
  destruct (MlasDivRoundup_bounds CountK BlkLen ltac:(rewrite BlkLen_16; lia))
    as [Hge Hlt].
  set (n := MlasDivRoundup CountK BlkLen) in *.
  assert (G : forall b, b <= n ->
            let s := for_up b (fun q => block_step full ncols QCol SCol ZCol (q * BlkLen))
                       {| k_blk_idx := 0; Dst := cDst c; buf := cbuf c |} in
            k_blk_idx s = b /\
            written_up_to g (Nat.min CountK (b * BlkLen)) (Dst s) (FpData (buf s))).
  { induction b as [|b IH]; intros Hb; cbv zeta.
    - rewrite for_up_0. cbn [k_blk_idx Dst buf].
      replace (Nat.min CountK (0 * BlkLen)) with 0 by lia.
      split; [reflexivity | exact HW].
    - rewrite for_up_S. destruct (IH ltac:(lia)) as (IK & IW).
      specialize (Hlt b ltac:(lia)).
      replace (Nat.min CountK (b * BlkLen)) with (b * BlkLen) in IW by lia.
      apply block_step_inv; assumption. }
  destruct (G n (Nat.le_refl n)) as (_ & GW). cbv zeta in GW.
  replace (Nat.min CountK (n * BlkLen)) with CountK in GW by lia.
  exact GW.
Qed.

End Group.

Abbreviation group :=
  (group mQuantBData mQuantBScale mQuantBZeroPoint HasZeroPoint BlkLen CountK BlockCountK).

Lemma overrun_bound : CountK + overrun = MlasDivRoundup CountK 16 * 16.
Proof.
  unfold DequantViews.overrun.
  destruct (MlasDivRoundup_bounds CountK 16 ltac:(lia)) as [Hge _]. lia.
Qed.

Lemma written_up_to_next_group g D (mm : mem F) :
  written_up_to g CountK D mm -> written_up_to (S g) 0 D mm.
Proof.
  intros (HD & H1 & H2). unfold DequantViews.written_up_to in *. cbv zeta in *.
  pose proof overrun_bound as Ho.
  split; [lia|]. split.
  - intros q Hq1 Hq2. apply H1; [exact Hq1 | lia].
  - intros q Hq. apply H2.
    change (MlasDivRoundup 0 16) with 0 in Hq.
    lia.
Qed.

Abbreviation Impl :=
  (Q4BitBlkDequantBForSgemm_CompFp32_Impl mQuantBData mQuantBScale mQuantBZeroPoint
     HasZeroPoint BlkLen CountK BlockCountK).

(** The destination after the routine: the rows [0 .. CountK) of every
    group hold their content, and nothing is written before the
    destination or from [overrun] rows past the last group on. *)
Lemma Impl_written (scale0 offset0 : mem F) :
  let out := Impl scale0 offset0 FpData0 FpDataPtr QuantBData QuantBScale
               QuantBZeroPoint CountN in
  let G := MlasDivRoundup CountN 16 in
  (forall q, FpDataPtr <= q -> q < FpDataPtr + G * (16 * CountK) -> out q = content q) /\
  (forall q, q < FpDataPtr \/ FpDataPtr + G * (16 * CountK) + 16 * overrun <= q ->
             out q = FpData0 q).
Proof.
  cbv zeta. unfold DequantB.Q4BitBlkDequantBForSgemm_CompFp32_Impl.
  pose proof (Nat.div_mod_eq CountN 16) as ED.
  pose proof (Nat.mod_upper_bound CountN 16 ltac:(lia)) as EM.
  set (T := CountN / 16) in *. set (rem := CountN mod 16) in *.
  set (I := fun t (c : col_state (F := F)) =>
              n_cols_remaining c = CountN - 16 * t /\
              QuantBDataCol c = QuantBData + 16 * t * StrideB /\
              QuantBScaleCol c = QuantBScale + 16 * t * BlockCountK /\
              QuantBZeroPointCol c
              = (if HasZeroPoint then QuantBZeroPoint + 16 * t * StrideZ
                 else QuantBZeroPoint) /\
              written_up_to t 0 (cDst c) (FpData (cbuf c))).
  match goal with
  | |- context [while_loop CountN ?cond ?body ?c0] =>
      assert (HI : I T (while_loop CountN cond body c0));
      [ apply (Int8Facts.while_loop_invariant I) | set (c1 := while_loop CountN cond body c0) in * ]
  end.
  - unfold I. cbn [n_cols_remaining QuantBDataCol QuantBScaleCol QuantBZeroPointCol
                   cDst cbuf FpData].
    split; [lia|]. split; [lia|]. split; [lia|].
    split; [destruct HasZeroPoint; lia|].
    unfold DequantViews.written_up_to. cbv zeta.
    split; [lia|]. split; [intros; lia | reflexivity].
  - intros t c Ht (Hn & HQ & HS & HZ & HW). split.
    + rewrite Hn. apply Nat.ltb_lt. lia.
    + pose proof (group_inv t 16 true (QuantBZeroPointCol c)
                    (Nat.le_refl 16) (fun _ => eq_refl)) as GI.
      assert (Hcols : forall c0, c0 < 16 -> (c0 <? 16) = (16 * t + c0 <? CountN)).
      { intros c0 Hc0.
        replace (c0 <? 16) with true by (symmetry; apply Nat.ltb_lt; lia).
        symmetry. apply Nat.ltb_lt. lia. }
      assert (HZp : HasZeroPoint = true ->
                    QuantBZeroPointCol c = QuantBZeroPoint + 16 * t * StrideZ).
      { intros Hz. rewrite HZ, Hz. reflexivity. }
      specialize (GI Hcols HZp c HQ HS eq_refl HW).
      destruct (group true 16 c) as [D' b'] eqn:EG. cbn [fst snd] in GI.
      unfold I. cbn [n_cols_remaining QuantBDataCol QuantBScaleCol QuantBZeroPointCol
                     cDst cbuf].
      rewrite Hn, HQ, HS, HZ.
      split; [lia|]. split; [lia|]. split; [lia|].
      split; [destruct HasZeroPoint; lia|].
      apply written_up_to_next_group. exact GI.
  - intros c (Hn & _). rewrite Hn. apply Nat.ltb_ge. lia.
  - lia.
  - destruct HI as (Hn & HQ & HS & HZ & HW).
    assert (HG : MlasDivRoundup CountN 16 = if 0 <? rem then S T else T).
    { unfold MlasDivRoundup.
      destruct (0 <? rem) eqn:E0; [apply Nat.ltb_lt in E0 | apply Nat.ltb_ge in E0].
      - symmetry. apply Nat.div_unique with (rem - 1); lia.
      - symmetry. apply Nat.div_unique with 15; lia. }
    rewrite HG, Hn.
    replace (CountN - 16 * T) with rem by lia.
    pose proof overrun_bound as Ho.
    destruct (0 <? rem) eqn:E0; [apply Nat.ltb_lt in E0 | apply Nat.ltb_ge in E0].
    + pose proof (group_inv T rem false (QuantBZeroPointCol c1)
                    ltac:(lia) ltac:(discriminate)) as GI.
      assert (Hcols : forall c0, c0 < 16 -> (c0 <? rem) = (16 * T + c0 <? CountN)).
      { intros c0 Hc0.
        destruct (c0 <? rem) eqn:E1; [apply Nat.ltb_lt in E1 | apply Nat.ltb_ge in E1];
          symmetry; [apply Nat.ltb_lt | apply Nat.ltb_ge]; lia. }
      assert (HZp : HasZeroPoint = true ->
                    QuantBZeroPointCol c1 = QuantBZeroPoint + 16 * T * StrideZ).
      { intros Hz. rewrite HZ, Hz. reflexivity. }
      specialize (GI Hcols HZp c1 HQ HS eq_refl HW).
      destruct GI as (_ & G1 & G2). cbv zeta in G1, G2.
      split.
      * intros q Hq1 Hq2. apply G1; [exact Hq1 | lia].
      * intros q Hq. apply G2. lia.
    + destruct HW as (_ & G1 & G2). cbv zeta in G1, G2.
      change (MlasDivRoundup 0 16) with 0 in G2.
      split.
      * intros q Hq1 Hq2. apply G1; [exact Hq1 | lia].
      * intros q Hq. apply G2. lia.
Qed.

End Groups.

End Impl.

End Float.

End DequantLoops.


(** * Dequantization of B: the elements *)

Module DequantValues.

Import Mlas Neon NeonFacts CompFp32 DequantB DequantViews DequantFacts DequantLoops.

Ltac eval_div_mod :=
  repeat match goal with
  | |- context [?a / 4] =>
      let v := eval vm_compute in (a / 4) in change (a / 4) with v
  | |- context [?a mod 4] =>
      let v := eval vm_compute in (a mod 4) in change (a mod 4) with v
  end.

Section Float.

Context {F : Type} {ops : Fp32Ops F}.

Variable mQuantBData : mem Z.

(** Element [t] of a sub-block, from its code. *)
Lemma sub_block_elem_value HasZeroPoint p (offv sc : F) t :
  t < 16 ->
  sub_block_elem mQuantBData HasZeroPoint p offv sc t
  = fmul (fsub (f_of_bits (template_bits (ExactViews.code_at mQuantBData p t)))
               (if HasZeroPoint then offv
                else fadd fp32_conversion.offset (f_of_Z 8)))
         sc.
Proof.
  intros Ht. unfold DequantViews.sub_block_elem, CompFp32.dequant_sub_block, template_bits.
  do 16 (destruct t as [|t]; [
    eval_div_mod;
    Fp32Exact.lanes; rewrite ?Fp32Exact.land_15_lo, ?Fp32Exact.shiftr_4_hi;
    unfold ExactViews.code_at; cbn [Nat.ltb Nat.leb Nat.mul Nat.add Nat.sub];
    destruct HasZeroPoint; Fp32Exact.lanes; reflexivity |]).
  lia.
Qed.

Variable mQuantBScale : mem F.
Variable mQuantBZeroPoint : mem Z.

Lemma code_at_packed_code (P : nat) k :
  ExactViews.code_at mQuantBData (P + k / 16 * 8) (k mod 16)
  = Pack.packed_code 16 (fun j => mQuantBData (P + j)) k.
Proof.
  unfold ExactViews.code_at, Pack.packed_code, Pack.packed_pos.
  change (16 / 2) with 8.
  pose proof (Nat.mod_upper_bound k 16 ltac:(lia)) as B.
  destruct (k mod 16 <? 8) eqn:E; [apply Nat.ltb_lt in E | apply Nat.ltb_ge in E].
  - rewrite (Nat.mod_small (k mod 16) 8) by exact E. do 2 f_equal. lia.
  - replace ((k mod 16) mod 8) with (k mod 16 - 8)
      by (apply Nat.mod_unique with 1; lia).
    do 2 f_equal. lia.
Qed.

(** The float made of element [k] of column [n]: the code, moved into
    the mantissa of 2^4, minus the offset 16 + zero-point, times the
    scale of the block. *)
Lemma dequantized_value HasZeroPoint BlkLen BlockCountK
    QuantBData QuantBScale QuantBZeroPoint k n :
  dequantized mQuantBData mQuantBScale mQuantBZeroPoint HasZeroPoint BlkLen BlockCountK
    QuantBData QuantBScale QuantBZeroPoint k n
  = fmul (fsub (f_of_bits
                  (template_bits
                     (code mQuantBData BlkLen BlockCountK QuantBData k n)))
               (fadd fp32_conversion.offset
                  (f_of_Z (zero_point mQuantBZeroPoint HasZeroPoint BlockCountK
                             QuantBZeroPoint (k / BlkLen) n))))
         (block_scale mQuantBScale BlockCountK QuantBScale (k / BlkLen) n).
Proof.
  unfold DequantViews.dequantized.
  rewrite sub_block_elem_value by (apply Nat.mod_upper_bound; lia).
  rewrite code_at_packed_code.
  unfold DequantViews.zp_offset, DequantViews.zero_point, DequantViews.code,
    DequantViews.block_scale.
  rewrite Fp32Exact.load_zero_point_spec.
  destruct HasZeroPoint; reflexivity.
Qed.

(** Every element of B is at its address in the destination, in any
    arithmetic. *)
Lemma Impl_element HasZeroPoint BlkLen CountK BlockCountK (scale0 offset0 FpData0 : mem F)
    FpDataPtr QuantBData QuantBScale QuantBZeroPoint CountN k n :
  0 < BlkLen -> BlkLen mod 16 = 0 -> n < CountN -> k < CountK ->
  Q4BitBlkDequantBForSgemm_CompFp32_Impl mQuantBData mQuantBScale mQuantBZeroPoint
    HasZeroPoint BlkLen CountK BlockCountK scale0 offset0 FpData0 FpDataPtr
    QuantBData QuantBScale QuantBZeroPoint CountN
    (address CountK FpDataPtr k n)
  = dequantized mQuantBData mQuantBScale mQuantBZeroPoint HasZeroPoint BlkLen BlockCountK
      QuantBData QuantBScale QuantBZeroPoint k n.
Proof.
  intros Hpos Hmod Hn Hk.
  assert (H16 : BlkLen = 16 * (BlkLen / 16)).
  { pose proof (Nat.div_mod_eq BlkLen 16) as E. rewrite Hmod in E. lia. }
  assert (Hm : 0 < BlkLen / 16) by lia.
  destruct (Impl_written mQuantBData mQuantBScale mQuantBZeroPoint HasZeroPoint
              BlkLen CountK BlockCountK FpData0 FpDataPtr QuantBData QuantBScale
              QuantBZeroPoint CountN (BlkLen / 16) H16 Hm scale0 offset0) as (HV & _).
  cbv zeta in HV.
  pose proof (Nat.div_mod_eq n 16) as En.
  pose proof (Nat.mod_upper_bound n 16 ltac:(lia)) as Bn.
  destruct (MlasDivRoundup_bounds CountN 16 ltac:(lia)) as [Hge _].
  assert (Hg : n / 16 < MlasDivRoundup CountN 16) by lia.
  assert (Hmul : (n / 16 + 1) * (16 * CountK) <= MlasDivRoundup CountN 16 * (16 * CountK))
    by (apply Nat.mul_le_mono_r; lia).
  unfold DequantViews.address.
  rewrite HV by lia.
  rewrite (content_at mQuantBData mQuantBScale mQuantBZeroPoint HasZeroPoint
             BlkLen CountK BlockCountK FpDataPtr QuantBData QuantBScale QuantBZeroPoint
             CountN (BlkLen / 16) H16 Hm) by lia.
  replace (16 * (n / 16) + n mod 16) with n by lia.
  replace (n <? CountN) with true by (symmetry; apply Nat.ltb_lt; lia).
  reflexivity.
Qed.

(** The columns past [CountN] of the last group hold zeros. *)
Lemma Impl_padding HasZeroPoint BlkLen CountK BlockCountK (scale0 offset0 FpData0 : mem F)
    FpDataPtr QuantBData QuantBScale QuantBZeroPoint CountN k n :
  0 < BlkLen -> BlkLen mod 16 = 0 ->
  CountN <= n -> n < MlasDivRoundup CountN 16 * 16 -> k < CountK ->
  Q4BitBlkDequantBForSgemm_CompFp32_Impl mQuantBData mQuantBScale mQuantBZeroPoint
    HasZeroPoint BlkLen CountK BlockCountK scale0 offset0 FpData0 FpDataPtr
    QuantBData QuantBScale QuantBZeroPoint CountN
    (address CountK FpDataPtr k n)
  = fzero.
Proof.
  intros Hpos Hmod Hn1 Hn2 Hk.
  assert (H16 : BlkLen = 16 * (BlkLen / 16)).
  { pose proof (Nat.div_mod_eq BlkLen 16) as E. rewrite Hmod in E. lia. }
  assert (Hm : 0 < BlkLen / 16) by lia.
  destruct (Impl_written mQuantBData mQuantBScale mQuantBZeroPoint HasZeroPoint
              BlkLen CountK BlockCountK FpData0 FpDataPtr QuantBData QuantBScale
              QuantBZeroPoint CountN (BlkLen / 16) H16 Hm scale0 offset0) as (HV & _).
  cbv zeta in HV.
  pose proof (Nat.div_mod_eq n 16) as En.
  pose proof (Nat.mod_upper_bound n 16 ltac:(lia)) as Bn.
  assert (Hg : n / 16 < MlasDivRoundup CountN 16) by lia.
  assert (Hmul : (n / 16 + 1) * (16 * CountK) <= MlasDivRoundup CountN 16 * (16 * CountK))
    by (apply Nat.mul_le_mono_r; lia).
  unfold DequantViews.address.
  rewrite HV by lia.
  rewrite (content_at mQuantBData mQuantBScale mQuantBZeroPoint HasZeroPoint
             BlkLen CountK BlockCountK FpDataPtr QuantBData QuantBScale QuantBZeroPoint
             CountN (BlkLen / 16) H16 Hm) by lia.
  replace (16 * (n / 16) + n mod 16) with n by lia.
  replace (n <? CountN) with false by (symmetry; apply Nat.ltb_ge; lia).
  reflexivity.
Qed.

End Float.

Lemma zero_point_range (mZP : mem Z) HasZeroPoint BlockCountK QuantBZeroPoint blk n :
  (forall p, Byte8.is_byte (mZP p)) ->
  (0 <= zero_point mZP HasZeroPoint BlockCountK QuantBZeroPoint blk n < 16)%Z.
Proof.
  intros HZ. unfold DequantViews.zero_point, zero_point_of_block.
  destruct HasZeroPoint; [|lia].
  destruct (Nat.even blk); [apply lo_range | apply hi_range, HZ].
Qed.

Lemma code_range (mQ : mem Z) BlkLen BlockCountK QuantBData k n :
  (forall p, Byte8.is_byte (mQ p)) ->
  (0 <= code mQ BlkLen BlockCountK QuantBData k n < 16)%Z.
Proof.
  intros HQ. unfold DequantViews.code, Pack.packed_code.
  destruct (k mod 16 <? 16 / 2); [apply lo_range | apply hi_range, HQ].
Qed.

(** In binary32 the conversion is exact: the pattern is the float
    [16 + q], the offset is the float [16 + z], and their difference is
    the float [q - z]. *)
Lemma binary32_code_minus_zero_point (q z : Z) :
  (0 <= q < 16)%Z -> (0 <= z < 16)%Z ->
  SFsub Binary32.prec Binary32.emax
    (Binary32.of_bits (template_bits q))
    (SFadd Binary32.prec Binary32.emax (Binary32.of_Z 16) (Binary32.of_Z z))
  = Binary32.of_Z (q - z).
Proof.
  intros Hq Hz.
  destruct (nibble_cases q Hq) as
    [-> | [-> | [-> | [-> | [-> | [-> | [-> | [-> |
     [-> | [-> | [-> | [-> | [-> | [-> | [-> | ->]]]]]]]]]]]]]]];
    destruct (nibble_cases z Hz) as
      [-> | [-> | [-> | [-> | [-> | [-> | [-> | [-> |
       [-> | [-> | [-> | [-> | [-> | [-> | [-> | ->]]]]]]]]]]]]]]];
    vm_compute; reflexivity.
Qed.

End DequantValues.


(** * Dequantization of B: what the routine guarantees *)

Module DequantTheorems.

Import Mlas Neon NeonFacts CompFp32 DequantB DequantViews DequantFacts DequantLoops
  DequantValues.

Section Float.

Context {F : Type} {ops : Fp32Ops F}.

(** The routine with a nullable zero-point pointer is its implementation
    for the flag and the target of the pointer. *)
Lemma Q4BitBlkDequantBForSgemm_CompFp32_Impl_eq
    (mQuantBData : mem Z) (mQuantBScale : mem F) (mQuantBZeroPoint : mem Z)
    (scale0 offset0 : mem F) BlkLen (FpData0 : mem F) FpDataPtr
    QuantBData QuantBScale QuantBZeroPoint CountN CountK BlockCountK :
  Q4BitBlkDequantBForSgemm_CompFp32 mQuantBData mQuantBScale mQuantBZeroPoint
    scale0 offset0 BlkLen FpData0 FpDataPtr QuantBData QuantBScale QuantBZeroPoint
    CountN CountK BlockCountK
  = Q4BitBlkDequantBForSgemm_CompFp32_Impl mQuantBData mQuantBScale mQuantBZeroPoint
      (has_zero_point QuantBZeroPoint) BlkLen CountK BlockCountK scale0 offset0
      FpData0 FpDataPtr QuantBData QuantBScale (zero_point_ptr QuantBZeroPoint) CountN.
Proof. destruct QuantBZeroPoint; reflexivity. Qed.

(** X2: Q4BitBlkDequantBForSgemm_CompFp32 pads the last group of columns
    with zeros: when CountN is not a multiple of 16, the elements of the
    rows [0 .. CountK) in the columns from CountN up to the next multiple
    of 16 are 0, whatever the destination held. *)
Theorem Q4BitBlkDequantBForSgemm_CompFp32_pads_columns
    (mQuantBData : mem Z) (mQuantBScale : mem F) (mQuantBZeroPoint : mem Z)
    (scale0 offset0 : mem F) (BlkLen : nat) (FpData0 : mem F) (FpDataPtr : nat)
    (QuantBData QuantBScale : nat) (QuantBZeroPoint : option nat)
    (CountN CountK BlockCountK : nat) (k n : nat) :
  0 < BlkLen -> BlkLen mod 16 = 0 ->
  CountN <= n -> n < MlasDivRoundup CountN 16 * 16 -> k < CountK ->
  Q4BitBlkDequantBForSgemm_CompFp32 mQuantBData mQuantBScale mQuantBZeroPoint
    scale0 offset0 BlkLen FpData0 FpDataPtr QuantBData QuantBScale QuantBZeroPoint
    CountN CountK BlockCountK
    (address CountK FpDataPtr k n)
  = f_of_Z 0.
Proof.
  intros Hpos Hmod Hn1 Hn2 Hk.
  rewrite Q4BitBlkDequantBForSgemm_CompFp32_Impl_eq.
  apply Impl_padding; assumption.
Qed.

(** X3: Q4BitBlkDequantBForSgemm_CompFp32 writes only from the
    destination pointer up to the end of the last group of columns
    rounded up to a whole 16 x 16 block: nothing before FpData, and
    nothing from [16 * CountK * ceil(CountN / 16)] plus sixteen times the
    rows that CountK lacks to a multiple of 16, is changed. *)
Theorem Q4BitBlkDequantBForSgemm_CompFp32_writes_within
    (mQuantBData : mem Z) (mQuantBScale : mem F) (mQuantBZeroPoint : mem Z)
    (scale0 offset0 : mem F) (BlkLen : nat) (FpData0 : mem F) (FpDataPtr : nat)
    (QuantBData QuantBScale : nat) (QuantBZeroPoint : option nat)
    (CountN CountK BlockCountK : nat) (q : nat) :
  0 < BlkLen -> BlkLen mod 16 = 0 ->
  q < FpDataPtr \/
  FpDataPtr + MlasDivRoundup CountN 16 * (16 * CountK)
  + 16 * (MlasDivRoundup CountK 16 * 16 - CountK) <= q ->
  Q4BitBlkDequantBForSgemm_CompFp32 mQuantBData mQuantBScale mQuantBZeroPoint
    scale0 offset0 BlkLen FpData0 FpDataPtr QuantBData QuantBScale QuantBZeroPoint
    CountN CountK BlockCountK q
  = FpData0 q.
Proof.
  intros Hpos Hmod Hq.
  rewrite Q4BitBlkDequantBForSgemm_CompFp32_Impl_eq.
  assert (H16 : BlkLen = 16 * (BlkLen / 16)).
  { pose proof (Nat.div_mod_eq BlkLen 16) as E. rewrite Hmod in E. lia. }
  assert (Hm : 0 < BlkLen / 16) by lia.
  destruct (Impl_written mQuantBData mQuantBScale mQuantBZeroPoint
              (has_zero_point QuantBZeroPoint)
              BlkLen CountK BlockCountK FpData0 FpDataPtr QuantBData QuantBScale
              (zero_point_ptr QuantBZeroPoint) CountN (BlkLen / 16) H16 Hm
              scale0 offset0) as (_ & HF).
  apply HF. exact Hq.
Qed.

End Float.

Import Binary32.

(** X1: in binary32, Q4BitBlkDequantBForSgemm_CompFp32 stores element
    [k] of column [n] of B at offset
    [(n / 16) * 16 * CountK + 16 * k + n mod 16] of the destination, and
    the element is the float32 product of the integer [q - z] with the
    scale of the block: [q] is the 4-bit code, [z] the zero-point of the
    block, 8 without zero-points.  The conversion of [q - z] is exact and
    the product is rounded once. *)
Theorem Q4BitBlkDequantBForSgemm_CompFp32_element
    (mQuantBData : mem Z) (mQuantBScale : mem spec_float) (mQuantBZeroPoint : mem Z)
    (scale0 offset0 : mem spec_float) (BlkLen : nat)
    (FpData0 : mem spec_float) (FpDataPtr : nat)
    (QuantBData QuantBScale : nat) (QuantBZeroPoint : option nat)
    (CountN CountK BlockCountK : nat) (k n : nat) :
  (forall p, Byte8.is_byte (mQuantBData p)) ->
  (forall p, Byte8.is_byte (mQuantBZeroPoint p)) ->
  0 < BlkLen -> BlkLen mod 16 = 0 -> n < CountN -> k < CountK ->
  Q4BitBlkDequantBForSgemm_CompFp32 mQuantBData mQuantBScale mQuantBZeroPoint
    scale0 offset0 BlkLen FpData0 FpDataPtr QuantBData QuantBScale QuantBZeroPoint
    CountN CountK BlockCountK
    (FpDataPtr + n / 16 * (16 * CountK) + 16 * k + n mod 16)
  = SFmul prec emax
      (of_Z (code mQuantBData BlkLen BlockCountK QuantBData k n
             - zero_point mQuantBZeroPoint (has_zero_point QuantBZeroPoint) BlockCountK
                 (zero_point_ptr QuantBZeroPoint) (k / BlkLen) n))
      (block_scale mQuantBScale BlockCountK QuantBScale (k / BlkLen) n).
Proof.
  intros HQ HZ Hpos Hmod Hn Hk.
  rewrite Q4BitBlkDequantBForSgemm_CompFp32_Impl_eq.
  change (FpDataPtr + n / 16 * (16 * CountK) + 16 * k + n mod 16)
    with (address CountK FpDataPtr k n).
  rewrite Impl_element by assumption.
  rewrite dequantized_value.
  cbn [fmul fsub fadd f_of_bits f_of_Z Binary32.ops].
  change (@fp32_conversion.offset spec_float Binary32.ops) with (of_Z 16).
  rewrite binary32_code_minus_zero_point;
    [reflexivity | apply code_range, HQ | apply zero_point_range, HZ].
Qed.

Import Examples DequantExamples.

Lemma threes_bytes : forall p, Byte8.is_byte (threes_QuantBData p).
Proof. intros p. unfold Byte8.is_byte, threes_QuantBData. lia. Qed.

Lemma zp37_bytes : forall p, Byte8.is_byte (zp37_QuantBZeroPoint p).
Proof. intros p. unfold Byte8.is_byte, zp37_QuantBZeroPoint. lia. Qed.

Lemma Q4BitBlkDequantBForSgemm_CompFp32_element_witness :
  Q4BitBlkDequantBForSgemm_CompFp32 threes_QuantBData ones_QuantBScale
    zp37_QuantBZeroPoint stale_scales stale_offsets 16 fives 0 0 0 (Some 0) 5 20 2
    (0 + 4 / 16 * (16 * 20) + 16 * 3 + 4 mod 16)
  = of_Z (-4).
Proof.
  rewrite (Q4BitBlkDequantBForSgemm_CompFp32_element
             threes_QuantBData ones_QuantBScale zp37_QuantBZeroPoint
             stale_scales stale_offsets 16 fives 0 0 0 (Some 0) 5 20 2 3 4
             threes_bytes zp37_bytes ltac:(lia) ltac:(reflexivity) ltac:(lia) ltac:(lia)).
  vm_compute. reflexivity.
Defined.

Lemma Q4BitBlkDequantBForSgemm_CompFp32_pads_columns_witness :
  Q4BitBlkDequantBForSgemm_CompFp32 threes_QuantBData ones_QuantBScale
    zp37_QuantBZeroPoint stale_scales stale_offsets 16 fives 0 0 0 (Some 0) 5 20 2
    (address 20 0 19 9)
  = of_Z 0.
Proof.
  change (of_Z 0) with (@f_of_Z spec_float Binary32.ops 0).
  apply (Q4BitBlkDequantBForSgemm_CompFp32_pads_columns
           threes_QuantBData ones_QuantBScale zp37_QuantBZeroPoint
           stale_scales stale_offsets 16 fives 0 0 0 (Some 0) 5 20 2 19 9);
    [lia | reflexivity | lia | vm_compute; lia | lia].
Defined.

Lemma Q4BitBlkDequantBForSgemm_CompFp32_writes_within_witness :
  Q4BitBlkDequantBForSgemm_CompFp32 threes_QuantBData ones_QuantBScale
    zp37_QuantBZeroPoint stale_scales stale_offsets 16 fives 100 0 0 (Some 0) 5 20 2
    612
  = of_Z 5
  /\
  Q4BitBlkDequantBForSgemm_CompFp32 threes_QuantBData ones_QuantBScale
    zp37_QuantBZeroPoint stale_scales stale_offsets 16 fives 100 0 0 (Some 0) 5 20 2
    99
  = of_Z 5.
Proof.
  split.
  - apply (Q4BitBlkDequantBForSgemm_CompFp32_writes_within
             threes_QuantBData ones_QuantBScale zp37_QuantBZeroPoint
             stale_scales stale_offsets 16 fives 100 0 0 (Some 0) 5 20 2 612);
      [lia | reflexivity | right; vm_compute; lia].
  - apply (Q4BitBlkDequantBForSgemm_CompFp32_writes_within
             threes_QuantBData ones_QuantBScale zp37_QuantBZeroPoint
             stale_scales stale_offsets 16 fives 100 0 0 (Some 0) 5 20 2 99);
      [lia | reflexivity | left; lia].
Defined.

Lemma nines_bytes : forall p, Byte8.is_byte (nines_QuantBData p).
Proof. intros p. unfold Byte8.is_byte, nines_QuantBData. lia. Qed.

End DequantTheorems.


(** * The float kernel: what it writes, what it reads *)

Module Fp32Theorems.

Import Mlas Neon NeonFacts CompFp32 Fp32Views Fp32Facts.

(** A loop whose body is replaced by one that agrees with it below the
    bound. *)
Lemma for_loop_ext_below {S} (body body' : nat -> S -> S) bound step :
  (forall k s, k < bound -> body k s = body' k s) ->
  forall fuel k0 s,
    for_loop fuel k0 bound step body s = for_loop fuel k0 bound step body' s.
Proof.
  intros H. induction fuel as [|fuel IH]; intros k0 s; simpl; [reflexivity|].
  destruct (k0 <? bound) eqn:E; [|reflexivity].
  apply Nat.ltb_lt in E. rewrite H by exact E. apply IH.
Qed.

Section Generic.

Context {F : Type} {ops : Fp32Ops F}.

(** LoadFloatData reads the [count] values from [src] on and nothing
    else. *)
Lemma LoadFloatData_ext (m m' : mem F) :
  forall count src vi dst,
    (forall t, t < count -> m (src + t) = m' (src + t)) ->
    LoadFloatData m src count vi dst = LoadFloatData m' src count vi dst.
Proof.
  intros count. induction count as [count IH] using lt_wf_ind.
  intros src vi dst H.
  destruct count as [|[|[|[|count]]]].
  - reflexivity.
  - cbn. rewrite (H 0) by lia. reflexivity.
  - cbn. rewrite (H 0), (H 1) by lia. reflexivity.
  - cbn. rewrite (H 0), (H 1), (H 2) by lia. reflexivity.
  - cbn [LoadFloatData].
    assert (E : vld1q_f32 m src = vld1q_f32 m' src).
    { unfold vld1q_f32, tabulate. cbn [seq map].
      rewrite (H 0), (H 1), (H 2), (H 3) by lia. reflexivity. }
    rewrite E. apply IH; [lia|].
    intros t Ht. replace (src + 4 + t) with (src + (4 + t)) by lia. apply H. lia.
Qed.

Variable mQuantBData : mem Z.
Variable mQuantBScale : mem F.
Variable mQuantBZeroPoint : mem Z.
Variable mBias : mem F.

(** The sum of a column reads the row of A from [ARowPtr] up to
    [ARowPtr + CountK] only. *)
Lemma column_value_reads_row (mA mA' : mem F) HasZeroPoint BlkLen ARowPtr CountK
    sB sS sZ bcol scol zcol :
  (forall k, k < CountK -> mA (ARowPtr + k) = mA' (ARowPtr + k)) ->
  column_value mA mQuantBData mQuantBScale mQuantBZeroPoint
    HasZeroPoint BlkLen ARowPtr CountK sB sS sZ bcol scol zcol
  = column_value mA' mQuantBData mQuantBScale mQuantBZeroPoint
      HasZeroPoint BlkLen ARowPtr CountK sB sS sZ bcol scol zcol.
Proof.
  intros H. unfold column_value, column_state, for_step. do 3 f_equal.
  apply for_loop_ext_below. intros k st Hk.
  unfold block_step. f_equal.
  unfold for_step. apply for_loop_ext_below. intros kk acc Hkk.
  unfold sub_block_step.
  rewrite (LoadFloatData_ext mA mA'
             (Nat.min (Nat.min (CountK - k) BlkLen - kk) SubBlkLen)
             (ARowPtr + k + kk) 0 (zero_f32x4_array 4)); [reflexivity|].
  intros t Ht.
  replace (ARowPtr + k + kk + t) with (ARowPtr + (k + kk + t)) by lia.
  apply H. lia.
Qed.

(** A zero-point byte 0x88 holds the zero-point 8 in both halves. *)
Lemma load_zero_point_0x88 col idx :
  mQuantBZeroPoint (col + idx / 2) = 0x88%Z ->
  load_zero_point mQuantBZeroPoint col idx = 8%Z.
Proof.
  intros H. unfold load_zero_point. rewrite H.
  destruct (Z.land (Z.of_nat idx) 1 =? 1)%Z; reflexivity.
Qed.

(** With the zero-point 8 in every block, the sum of a column is the one
    formed without zero-points. *)
Lemma column_value_default_zero_point (mA : mem F) BlkLen ARowPtr CountK
    sB sS sZ bcol scol zcol :
  0 < BlkLen ->
  (forall idx, idx < MlasDivRoundup CountK BlkLen ->
     load_zero_point mQuantBZeroPoint zcol idx = 8%Z) ->
  column_value mA mQuantBData mQuantBScale mQuantBZeroPoint
    true BlkLen ARowPtr CountK sB sS sZ bcol scol zcol
  = column_value mA mQuantBData mQuantBScale mQuantBZeroPoint
      false BlkLen ARowPtr CountK sB sS sZ bcol scol zcol.
Proof.
  intros Hpos Hz. unfold column_value. do 2 f_equal.
  unfold column_state. rewrite !for_step_for_up by exact Hpos.
  set (nb := MlasDivRoundup CountK BlkLen) in *.
  assert (G : forall n, n <= nb ->
            let s := for_up n (fun q =>
                       block_step mA mQuantBData mQuantBScale mQuantBZeroPoint
                         1 true BlkLen ARowPtr zcol CountK sB sS sZ (q * BlkLen))
                       {| acc := zero_f32x4_array 1; QuantBData := bcol;
                          QuantBScale := scol; QuantBZeroPointIdx := 0 |} in
            let s' := for_up n (fun q =>
                        block_step mA mQuantBData mQuantBScale mQuantBZeroPoint
                          1 false BlkLen ARowPtr zcol CountK sB sS sZ (q * BlkLen))
                        {| acc := zero_f32x4_array 1; QuantBData := bcol;
                           QuantBScale := scol; QuantBZeroPointIdx := 0 |} in
            acc s = acc s' /\ QuantBData s = QuantBData s' /\
            QuantBScale s = QuantBScale s' /\ QuantBZeroPointIdx s = n).
  { induction n as [|n IH]; intros Hn; cbv zeta.
    - rewrite !for_up_0. cbn. auto.
    - rewrite !for_up_S.
      destruct (IH ltac:(lia)) as (Ea & Ed & Es & Ei). cbv zeta in Ea, Ed, Es, Ei.
      set (s := for_up n _ _) in *. set (s' := for_up n _ _) in *.
      unfold block_step. cbn [acc QuantBData QuantBScale QuantBZeroPointIdx].
      rewrite Ea, Ed, Es, Ei. repeat split; try lia.
      unfold for_step. apply for_loop_ext_below. intros kk a Hkk.
      unfold sub_block_step. rewrite Ed.
      unfold tabulate. cbn [seq map Nat.mul]. rewrite !Nat.add_0_r, Hz by lia.
      unfold dequant_sub_block. cbn [flane nth]. reflexivity. }
  destruct (G nb (Nat.le_refl _)) as (Ea & _). exact Ea.
Qed.

(** The columns from [n1] on, computed by a second call. *)
Lemma Impl_split (mA : mem F) HasZeroPoint BlkLen A QuantBData QuantBScale
    QuantBZeroPoint (C0 : mem F) CPtr n1 n2 CountK BlockCountK Bias p :
  SQ4BitGemmM1Kernel_CompFp32_Impl mA mQuantBData mQuantBScale mQuantBZeroPoint mBias
    HasZeroPoint BlkLen A QuantBData QuantBScale QuantBZeroPoint
    C0 CPtr (n1 + n2) CountK BlockCountK Bias p
  = SQ4BitGemmM1Kernel_CompFp32_Impl mA mQuantBData mQuantBScale mQuantBZeroPoint mBias
      HasZeroPoint BlkLen A
      (QuantBData + n1 * (BlockCountK * MlasQNBitBlkDataSizeInBytes 4 BlkLen))
      (QuantBScale + n1 * BlockCountK)
      (zp_ptr HasZeroPoint QuantBZeroPoint BlockCountK n1)
      (SQ4BitGemmM1Kernel_CompFp32_Impl mA mQuantBData mQuantBScale mQuantBZeroPoint
         mBias HasZeroPoint BlkLen A QuantBData QuantBScale QuantBZeroPoint
         C0 CPtr n1 CountK BlockCountK Bias)
      (CPtr + n1) n2 CountK BlockCountK (advance_bias Bias n1) p.
Proof.
  rewrite (Impl_spec mA mQuantBData mQuantBScale mQuantBZeroPoint mBias HasZeroPoint
             BlkLen A QuantBData QuantBScale QuantBZeroPoint CPtr (n1 + n2) CountK
             BlockCountK Bias C0 p).
  rewrite (Impl_spec mA mQuantBData mQuantBScale mQuantBZeroPoint mBias HasZeroPoint
             BlkLen A
             (QuantBData + n1 * (BlockCountK * MlasQNBitBlkDataSizeInBytes 4 BlkLen))
             (QuantBScale + n1 * BlockCountK)
             (zp_ptr HasZeroPoint QuantBZeroPoint BlockCountK n1)
             (CPtr + n1) n2 CountK BlockCountK (advance_bias Bias n1)).
  unfold Fp32Views.filled at 1 2.
  destruct (in_range (CPtr + n1) n2 p) eqn:E2.
  - apply in_range_true in E2.
    replace (in_range CPtr (n1 + n2) p) with true
      by (symmetry; apply in_range_true; lia).
    set (i := p - (CPtr + n1)).
    replace (p - CPtr) with (n1 + i) by (unfold i; lia).
    symmetry.
    exact (tile_value_output mA mQuantBData mQuantBScale mQuantBZeroPoint mBias
             HasZeroPoint BlkLen A QuantBData QuantBScale QuantBZeroPoint CountK
             BlockCountK Bias n1 i).
  - apply in_range_false in E2.
    rewrite (Impl_spec mA mQuantBData mQuantBScale mQuantBZeroPoint mBias HasZeroPoint
               BlkLen A QuantBData QuantBScale QuantBZeroPoint CPtr n1 CountK
               BlockCountK Bias C0 p).
    unfold Fp32Views.filled.
    destruct (in_range CPtr n1 p) eqn:E1.
    + apply in_range_true in E1.
      replace (in_range CPtr (n1 + n2) p) with true
        by (symmetry; apply in_range_true; lia).
      reflexivity.
    + apply in_range_false in E1.
      replace (in_range CPtr (n1 + n2) p) with false
        by (symmetry; apply in_range_false; lia).
      reflexivity.
Qed.

End Generic.

(** X5: SQ4BitGemmM1Kernel_CompFp32 writes the CountN elements of the
    row of C and nothing else: every address before CPtr or from
    CPtr + CountN on keeps its content. *)
Theorem SQ4BitGemmM1Kernel_CompFp32_writes_only_the_row
    {F : Type} {ops : Fp32Ops F}
    (mA : mem F) (mQuantBData : mem Z) (mQuantBScale : mem F)
    (mQuantBZeroPoint : mem Z) (mBias : mem F)
    (BlkLen A QuantBData QuantBScale : nat) (QuantBZeroPoint : option nat)
    (C0 : mem F) (CPtr CountN CountK BlockCountK : nat) (Bias : option nat) (p : nat) :
  0 < BlkLen ->
  p < CPtr \/ CPtr + CountN <= p ->
  SQ4BitGemmM1Kernel_CompFp32 mA mQuantBData mQuantBScale mQuantBZeroPoint mBias
    BlkLen A QuantBData QuantBScale QuantBZeroPoint
    C0 CPtr CountN CountK BlockCountK Bias p
  = C0 p.
Proof.
  intros _ Hp. unfold SQ4BitGemmM1Kernel_CompFp32.
  destruct QuantBZeroPoint as [zp|]; rewrite Impl_spec; unfold Fp32Views.filled;
    (replace (in_range CPtr CountN p) with false
       by (symmetry; apply in_range_false; lia)); reflexivity.
Qed.

(** X6: the columns of SQ4BitGemmM1Kernel_CompFp32 are independent and
    the result does not depend on how they are grouped: one call on
    [n1 + n2] columns leaves the memory that a call on the first [n1]
    columns followed by a call on the remaining [n2], with the pointers
    of B, C and the bias advanced by [n1] columns, leaves.  The equality
    is bit for bit in any arithmetic, whether a column falls in a tile of
    four columns or is computed alone. *)
Theorem SQ4BitGemmM1Kernel_CompFp32_split_columns
    {F : Type} {ops : Fp32Ops F}
    (mA : mem F) (mQuantBData : mem Z) (mQuantBScale : mem F)
    (mQuantBZeroPoint : mem Z) (mBias : mem F)
    (BlkLen A QuantBData QuantBScale : nat) (QuantBZeroPoint : option nat)
    (C0 : mem F) (CPtr n1 n2 CountK BlockCountK : nat) (Bias : option nat) (p : nat) :
  0 < BlkLen ->
  SQ4BitGemmM1Kernel_CompFp32 mA mQuantBData mQuantBScale mQuantBZeroPoint mBias
    BlkLen A QuantBData QuantBScale QuantBZeroPoint
    C0 CPtr (n1 + n2) CountK BlockCountK Bias p
  = SQ4BitGemmM1Kernel_CompFp32 mA mQuantBData mQuantBScale mQuantBZeroPoint mBias
      BlkLen A
      (QuantBData + n1 * (BlockCountK * MlasQNBitBlkDataSizeInBytes 4 BlkLen))
      (QuantBScale + n1 * BlockCountK)
      (option_map (fun zp => zp + n1 * MlasQNBitZeroPointsForBlksSizeInBytes BlockCountK)
         QuantBZeroPoint)
      (SQ4BitGemmM1Kernel_CompFp32 mA mQuantBData mQuantBScale mQuantBZeroPoint mBias
         BlkLen A QuantBData QuantBScale QuantBZeroPoint
         C0 CPtr n1 CountK BlockCountK Bias)
      (CPtr + n1) n2 CountK BlockCountK (advance_bias Bias n1) p.
Proof.
  intros _. unfold SQ4BitGemmM1Kernel_CompFp32.
  destruct QuantBZeroPoint as [zp|]; cbn [option_map]; apply Impl_split.
Qed.

(** X7: a zero-point buffer that holds 8 for every block (bytes 0x88)
    gives SQ4BitGemmM1Kernel_CompFp32 the result it computes without
    zero-points, bit for bit in any arithmetic: the default zero-point of
    the kernel is 8. *)
Theorem SQ4BitGemmM1Kernel_CompFp32_default_zero_point
    {F : Type} {ops : Fp32Ops F}
    (mA : mem F) (mQuantBData : mem Z) (mQuantBScale : mem F)
    (mQuantBZeroPoint : mem Z) (mBias : mem F)
    (BlkLen A QuantBData QuantBScale QuantBZeroPoint : nat)
    (C0 : mem F) (CPtr CountN CountK BlockCountK : nat) (Bias : option nat) (p : nat) :
  0 < BlkLen -> CountK <= BlockCountK * BlkLen ->
  (forall n j, n < CountN -> j < MlasQNBitZeroPointsForBlksSizeInBytes BlockCountK ->
     mQuantBZeroPoint
       (QuantBZeroPoint + n * MlasQNBitZeroPointsForBlksSizeInBytes BlockCountK + j)
     = 0x88%Z) ->
  SQ4BitGemmM1Kernel_CompFp32 mA mQuantBData mQuantBScale mQuantBZeroPoint mBias
    BlkLen A QuantBData QuantBScale (Some QuantBZeroPoint)
    C0 CPtr CountN CountK BlockCountK Bias p
  = SQ4BitGemmM1Kernel_CompFp32 mA mQuantBData mQuantBScale mQuantBZeroPoint mBias
      BlkLen A QuantBData QuantBScale None
      C0 CPtr CountN CountK BlockCountK Bias p.
Proof.
  intros Hpos HK Hz. unfold SQ4BitGemmM1Kernel_CompFp32.
  rewrite !Impl_spec. unfold Fp32Views.filled.
  destruct (in_range CPtr CountN p) eqn:E; [|reflexivity].
  apply in_range_true in E.
  unfold Fp32Views.output_value. f_equal.
  rewrite column_value_default_zero_point.
  - apply column_value_no_zero_point.
  - exact Hpos.
  - intros idx Hidx. apply load_zero_point_0x88.
    rewrite <- Nat.add_assoc, Nat.add_assoc. apply Hz; [lia|].
    destruct (MlasDivRoundup_bounds CountK BlkLen Hpos) as [_ Hlt].
    specialize (Hlt idx Hidx).
    assert (Hb : idx < BlockCountK) by nia.
    unfold MlasQNBitZeroPointsForBlksSizeInBytes, MlasDivRoundup.
    replace (BlockCountK + 2 - 1) with (BlockCountK + 1) by lia.
    pose proof (Nat.div_mod_eq idx 2) as E1.
    pose proof (Nat.mod_upper_bound idx 2 ltac:(lia)) as B1.
    pose proof (Nat.div_mod_eq (BlockCountK + 1) 2) as E2.
    pose proof (Nat.mod_upper_bound (BlockCountK + 1) 2 ltac:(lia)) as B2.
    lia.
Qed.

(** X8: SQ4BitGemmM1Kernel_CompFp32 reads the CountK elements of the
    row of A and no other: two buffers that agree from A up to
    A + CountK give the same result, also when CountK is not a multiple
    of 16 or of the block length, where the last vectors are loaded
    element by element and completed with zeros. *)
Theorem SQ4BitGemmM1Kernel_CompFp32_reads_only_the_row
    {F : Type} {ops : Fp32Ops F}
    (mA mA' : mem F) (mQuantBData : mem Z) (mQuantBScale : mem F)
    (mQuantBZeroPoint : mem Z) (mBias : mem F)
    (BlkLen A QuantBData QuantBScale : nat) (QuantBZeroPoint : option nat)
    (C0 : mem F) (CPtr CountN CountK BlockCountK : nat) (Bias : option nat) (p : nat) :
  0 < BlkLen ->
  (forall k, k < CountK -> mA (A + k) = mA' (A + k)) ->
  SQ4BitGemmM1Kernel_CompFp32 mA mQuantBData mQuantBScale mQuantBZeroPoint mBias
    BlkLen A QuantBData QuantBScale QuantBZeroPoint
    C0 CPtr CountN CountK BlockCountK Bias p
  = SQ4BitGemmM1Kernel_CompFp32 mA' mQuantBData mQuantBScale mQuantBZeroPoint mBias
      BlkLen A QuantBData QuantBScale QuantBZeroPoint
      C0 CPtr CountN CountK BlockCountK Bias p.
Proof.
  intros _ H. unfold SQ4BitGemmM1Kernel_CompFp32.
  destruct QuantBZeroPoint as [zp|]; rewrite !Impl_spec; unfold Fp32Views.filled;
    (destruct (in_range CPtr CountN p); [|reflexivity]);
    unfold Fp32Views.output_value; f_equal; apply column_value_reads_row; exact H.
Qed.

Import Binary32 Examples DequantExamples KernelExamples.

Lemma SQ4BitGemmM1Kernel_CompFp32_writes_only_the_row_witness :
  SQ4BitGemmM1Kernel_CompFp32 row20 nines_QuantBData ones_QuantBScale
    zp37_QuantBZeroPoint unit_bias 16 0 0 0 (Some 0) fives 10 5 20 2 (Some 0) 15
  = of_Z 5
  /\
  SQ4BitGemmM1Kernel_CompFp32 row20 nines_QuantBData ones_QuantBScale
    zp37_QuantBZeroPoint unit_bias 16 0 0 0 (Some 0) fives 10 5 20 2 (Some 0) 9
  = of_Z 5.
Proof.
  split.
  - exact (SQ4BitGemmM1Kernel_CompFp32_writes_only_the_row
             row20 nines_QuantBData ones_QuantBScale zp37_QuantBZeroPoint unit_bias
             16 0 0 0 (Some 0) fives 10 5 20 2 (Some 0) 15
             ltac:(lia) ltac:(right; lia)).
  - exact (SQ4BitGemmM1Kernel_CompFp32_writes_only_the_row
             row20 nines_QuantBData ones_QuantBScale zp37_QuantBZeroPoint unit_bias
             16 0 0 0 (Some 0) fives 10 5 20 2 (Some 0) 9
             ltac:(lia) ltac:(left; lia)).
Defined.

Lemma SQ4BitGemmM1Kernel_CompFp32_split_columns_witness :
  SQ4BitGemmM1Kernel_CompFp32 row20 nines_QuantBData ones_QuantBScale
    zp37_QuantBZeroPoint unit_bias 16 0 0 0 (Some 0) fives 10 (3 + 4) 20 2 (Some 0) 14
  = SQ4BitGemmM1Kernel_CompFp32 row20 nines_QuantBData ones_QuantBScale
      zp37_QuantBZeroPoint unit_bias 16 0
      (0 + 3 * (2 * MlasQNBitBlkDataSizeInBytes 4 16)) (0 + 3 * 2)
      (Some (0 + 3 * MlasQNBitZeroPointsForBlksSizeInBytes 2))
      (SQ4BitGemmM1Kernel_CompFp32 row20 nines_QuantBData ones_QuantBScale
         zp37_QuantBZeroPoint unit_bias 16 0 0 0 (Some 0) fives 10 3 20 2 (Some 0))
      (10 + 3) 4 20 2 (Some (0 + 3)) 14.
Proof.
  exact (SQ4BitGemmM1Kernel_CompFp32_split_columns
           row20 nines_QuantBData ones_QuantBScale zp37_QuantBZeroPoint unit_bias
           16 0 0 0 (Some 0) fives 10 3 4 20 2 (Some 0) 14 ltac:(lia)).
Defined.

Lemma SQ4BitGemmM1Kernel_CompFp32_default_zero_point_witness :
  SQ4BitGemmM1Kernel_CompFp32 row20 nines_QuantBData ones_QuantBScale
    zp88_QuantBZeroPoint unit_bias 16 0 0 0 (Some 0) fives 10 5 20 2 (Some 0) 12
  = SQ4BitGemmM1Kernel_CompFp32 row20 nines_QuantBData ones_QuantBScale
      zp88_QuantBZeroPoint unit_bias 16 0 0 0 None fives 10 5 20 2 (Some 0) 12.
Proof.
  exact (SQ4BitGemmM1Kernel_CompFp32_default_zero_point
           row20 nines_QuantBData ones_QuantBScale zp88_QuantBZeroPoint unit_bias
           16 0 0 0 0 fives 10 5 20 2 (Some 0) 12
           ltac:(lia) ltac:(lia) ltac:(intros; reflexivity)).
Defined.

Lemma row20_then_sevens_row : forall k, k < 20 -> row20 (0 + k) = row20_then_sevens (0 + k).
Proof.
  intros k Hk. unfold row20_then_sevens. cbn [Nat.add].
  replace (k <? 20) with true by (symmetry; apply Nat.ltb_lt; exact Hk).
  reflexivity.
Qed.

Lemma SQ4BitGemmM1Kernel_CompFp32_reads_only_the_row_witness :
  SQ4BitGemmM1Kernel_CompFp32 row20 nines_QuantBData ones_QuantBScale
    zp37_QuantBZeroPoint unit_bias 16 0 0 0 (Some 0) fives 10 5 20 2 (Some 0) 12
  = SQ4BitGemmM1Kernel_CompFp32 row20_then_sevens nines_QuantBData ones_QuantBScale
      zp37_QuantBZeroPoint unit_bias 16 0 0 0 (Some 0) fives 10 5 20 2 (Some 0) 12.
Proof.
  exact (SQ4BitGemmM1Kernel_CompFp32_reads_only_the_row
           row20 row20_then_sevens nines_QuantBData ones_QuantBScale
           zp37_QuantBZeroPoint unit_bias
           16 0 0 0 (Some 0) fives 10 5 20 2 (Some 0) 12
           ltac:(lia) row20_then_sevens_row).
Defined.

End Fp32Theorems.


(** * Packing: the bytes written and the size reported *)

Module PackTheorems.

Import Mlas Pack SizeProofs.

(** The number of blocks on [size_t] is the number of blocks. *)
Lemma SizeT_MlasDivRoundup_of_nat (K BlkLen : nat) :
  0 < BlkLen ->
  (Z.of_nat K + Z.of_nat BlkLen <= SizeT.modulus)%Z ->
  SizeT.MlasDivRoundup (Z.of_nat K) (Z.of_nat BlkLen)
  = Z.of_nat (MlasDivRoundup K BlkLen).
Proof.
  intros Hpos Hfit.
  rewrite MlasDivRoundup_ceil by lia.
  pose proof (ceil_div_spec (Z.of_nat K) (Z.of_nat BlkLen) ltac:(lia)) as C.
  destruct (MlasDivRoundup_bounds K BlkLen Hpos) as [Hge Hlt].
  set (c := SizeT.ceil_div (Z.of_nat K) (Z.of_nat BlkLen)) in *.
  set (D := MlasDivRoundup K BlkLen) in *.
  assert (H1 : (c <= Z.of_nat D)%Z) by nia.
  assert (H2 : (Z.of_nat D <= c)%Z).
  { destruct D as [|D']; [nia|].
    specialize (Hlt D' ltac:(lia)). nia. }
  lia.
Qed.

(** The size the query reports, when nothing overflows. *)
Lemma SQ4BitGemmPackQuantBDataSize_of_nat (N K BlkLen : nat) ComputeType :
  0 < BlkLen ->
  (Z.of_nat K + Z.of_nat BlkLen <= SizeT.modulus)%Z ->
  (Z.of_nat BlkLen * 4 < SizeT.modulus)%Z ->
  (Z.of_nat (N * MlasDivRoundup K BlkLen * (BlkLen / 2)) < SizeT.modulus)%Z ->
  2 <= BlkLen ->
  SizeT.SQ4BitGemmPackQuantBDataSize (Z.of_nat N) (Z.of_nat K) (Z.of_nat BlkLen)
    ComputeType
  = Z.of_nat (N * MlasDivRoundup K BlkLen * (BlkLen / 2)).
Proof.
  intros Hpos Hfit H4 Hsize H2.
  unfold SizeT.SQ4BitGemmPackQuantBDataSize.
  rewrite SizeT_MlasDivRoundup_of_nat by assumption.
  rewrite MlasQNBitBlkDataSizeInBytes_4 by lia.
  replace (Z.of_nat BlkLen * 4 / 8)%Z with (Z.of_nat (BlkLen / 2)).
  2:{ rewrite Nat2Z.inj_div. change 8%Z with (2 * 4)%Z.
      rewrite Z.div_mul_cancel_r by lia. reflexivity. }
  assert (Hh : 1 <= BlkLen / 2) by (apply Nat.div_le_lower_bound; lia).
  unfold SizeT.mul.
  rewrite (wrap_small (Z.of_nat N * Z.of_nat (MlasDivRoundup K BlkLen)))
    by (unfold SizeT.is_size_t; nia).
  rewrite wrap_small by (unfold SizeT.is_size_t; nia).
  lia.
Qed.

(** X9: SQ4BitGemmPackQuantBData fills exactly the bytes that
    SQ4BitGemmPackQuantBDataSize reports, when the sizes fit size_t: a
    byte of the destination below the reported size is determined by
    the source alone, whatever the destination held, and a byte at or
    beyond the reported size keeps its content. *)
Theorem SQ4BitGemmPackQuantBData_fills_the_reported_size
    (N K BlkLen : nat) (ComputeType : MLAS_SQNBIT_GEMM_COMPUTE_TYPE)
    (QuantBData PackedQuantBData : mem Z) (q : nat) :
  0 < BlkLen -> BlkLen mod SubBlkLen_of ComputeType BlkLen = 0 ->
  (Z.of_nat K + Z.of_nat BlkLen <= SizeT.modulus)%Z ->
  (Z.of_nat BlkLen * 4 < SizeT.modulus)%Z ->
  (Z.of_nat (N * MlasDivRoundup K BlkLen * (BlkLen / 2)) < SizeT.modulus)%Z ->
  let size := SizeT.SQ4BitGemmPackQuantBDataSize (Z.of_nat N) (Z.of_nat K)
                (Z.of_nat BlkLen) ComputeType in
  ((Z.of_nat q < size)%Z ->
   forall PackedQuantBData',
     SQ4BitGemmPackQuantBData N K BlkLen ComputeType QuantBData PackedQuantBData q
     = SQ4BitGemmPackQuantBData N K BlkLen ComputeType QuantBData PackedQuantBData' q)
  /\
  ((size <= Z.of_nat q)%Z ->
   SQ4BitGemmPackQuantBData N K BlkLen ComputeType QuantBData PackedQuantBData q
   = PackedQuantBData q).
Proof.
  intros Hpos Hdiv Hfit H4 Hsize size.
  assert (H2 : 2 <= BlkLen).
  { assert (Hs : SubBlkLen_of ComputeType BlkLen = 16
                 \/ SubBlkLen_of ComputeType BlkLen = 32).
    { unfold SubBlkLen_of.
      destruct (is_CompInt8 ComputeType); [destruct (BlkLen =? 16)|]; auto. }
    pose proof (Nat.div_mod_eq BlkLen (SubBlkLen_of ComputeType BlkLen)) as E.
    rewrite Hdiv in E. destruct Hs as [Hs | Hs]; rewrite Hs in E; lia. }
  assert (Es : size = Z.of_nat (N * MlasDivRoundup K BlkLen * (BlkLen / 2))).
  { apply SQ4BitGemmPackQuantBDataSize_of_nat; assumption. }
  rewrite Es. split.
  - intros Hq d'. rewrite !pack_spec by exact Hdiv.
    replace (q <? N * MlasDivRoundup K BlkLen * (BlkLen / 2)) with true
      by (symmetry; apply Nat.ltb_lt; lia).
    reflexivity.
  - intros Hq. rewrite pack_spec by exact Hdiv.
    replace (q <? N * MlasDivRoundup K BlkLen * (BlkLen / 2)) with false
      by (symmetry; apply Nat.ltb_ge; lia).
    reflexivity.
Qed.

Lemma SQ4BitGemmPackQuantBData_fills_the_reported_size_witness :
  let X : mem Z := fun i => Z.of_nat (i mod 256) in
  SQ4BitGemmPackQuantBData 2 40 32 CompInt8 X (fun _ => 0%Z) 63
  = SQ4BitGemmPackQuantBData 2 40 32 CompInt8 X (fun _ => 7%Z) 63
  /\
  SQ4BitGemmPackQuantBData 2 40 32 CompInt8 X (fun _ => 7%Z) 64 = 7%Z.
Proof.
  intros X.
  destruct (SQ4BitGemmPackQuantBData_fills_the_reported_size 2 40 32 CompInt8 X
              (fun _ => 7%Z) 64
              ltac:(lia) ltac:(reflexivity) ltac:(vm_compute; discriminate)
              ltac:(vm_compute; reflexivity) ltac:(vm_compute; reflexivity))
    as [_ H2].
  destruct (SQ4BitGemmPackQuantBData_fills_the_reported_size 2 40 32 CompInt8 X
              (fun _ => 0%Z) 63
              ltac:(lia) ltac:(reflexivity) ltac:(vm_compute; discriminate)
              ltac:(vm_compute; reflexivity) ltac:(vm_compute; reflexivity))
    as [H1 _].
  split.
  - apply H1. vm_compute. reflexivity.
  - apply H2. vm_compute. discriminate.
Defined.

End PackTheorems.


(** * The general helpers *)

Module HelperTheorems.

Import Mlas Neon NeonFacts.

#[local] Existing Instance Exact.ops.
#[local] Existing Instance Binary32.ops.

(** X10: Transpose4x4 transposes: lane [j] of the register it leaves in
    [a_i] is lane [i] of the register that was in [a_j], for all sixteen
    pairs; lane 2 of [a2] is thus the former lane 2 of [a2]. *)
Theorem Transpose4x4_transposes {F : Type} {ops : Fp32Ops F}
    (a0 a1 a2 a3 : list F) (i j : nat) :
  i < 4 -> j < 4 ->
  let '(b0, b1, b2, b3) := Transpose4x4 a0 a1 a2 a3 in
  flane (nth i [b0; b1; b2; b3] zero_f32x4) j
  = flane (nth j [a0; a1; a2; a3] zero_f32x4) i.
Proof.
  intros Hi Hj. unfold Transpose4x4.
  do 4 (destruct i as [|i]; [do 4 (destruct j as [|j]; [reflexivity|]); lia|]).
  lia.
Qed.

Lemma Transpose4x4_transposes_witness :
  let '(b0, b1, b2, b3) :=
    Transpose4x4 (ops := Exact.ops)
      (map (fun z => Q2Qc (inject_Z z)) [0; 1; 2; 3]%Z)
      (map (fun z => Q2Qc (inject_Z z)) [10; 11; 12; 13]%Z)
      (map (fun z => Q2Qc (inject_Z z)) [20; 21; 22; 23]%Z)
      (map (fun z => Q2Qc (inject_Z z)) [30; 31; 32; 33]%Z) in
  flane (nth 2 [b0; b1; b2; b3] zero_f32x4) 3 = Q2Qc (inject_Z 32).
Proof.
  exact (Transpose4x4_transposes (ops := Exact.ops)
           (map (fun z => Q2Qc (inject_Z z)) [0; 1; 2; 3]%Z)
           (map (fun z => Q2Qc (inject_Z z)) [10; 11; 12; 13]%Z)
           (map (fun z => Q2Qc (inject_Z z)) [20; 21; 22; 23]%Z)
           (map (fun z => Q2Qc (inject_Z z)) [30; 31; 32; 33]%Z)
           2 3 ltac:(lia) ltac:(lia)).
Defined.

(** X11: FoldAccumulators reduces four accumulators at once: lane [t]
    of the result is the sum of the four lanes of accumulator [t], added
    as [(x0 + x1) + (x2 + x3)], which is the order of [vaddvq_f32]; the
    sum of a column does not depend on whether it is folded with three
    others or alone. *)
Theorem FoldAccumulators_sums_each_accumulator {F : Type} {ops : Fp32Ops F}
    (a0 a1 a2 a3 : list F) (t : nat) :
  t < 4 ->
  let a := nth t [a0; a1; a2; a3] zero_f32x4 in
  flane (FoldAccumulators a0 a1 a2 a3) t
  = fadd (fadd (flane a 0) (flane a 1)) (fadd (flane a 2) (flane a 3))
  /\ flane (FoldAccumulators a0 a1 a2 a3) t = vaddvq_f32 a.
Proof.
  intros Ht. unfold FoldAccumulators, Transpose4x4, vaddvq_f32.
  do 4 (destruct t as [|t]; [split; reflexivity|]). lia.
Qed.

Lemma FoldAccumulators_sums_each_accumulator_witness :
  flane (FoldAccumulators (ops := Exact.ops)
           (map (fun z => Q2Qc (inject_Z z)) [0; 1; 2; 3]%Z)
           (map (fun z => Q2Qc (inject_Z z)) [10; 11; 12; 13]%Z)
           (map (fun z => Q2Qc (inject_Z z)) [20; 21; 22; 23]%Z)
           (map (fun z => Q2Qc (inject_Z z)) [30; 31; 32; 33]%Z)) 1
  = Q2Qc (inject_Z 46).
Proof.
  rewrite (proj1 (FoldAccumulators_sums_each_accumulator (ops := Exact.ops)
                    (map (fun z => Q2Qc (inject_Z z)) [0; 1; 2; 3]%Z)
                    (map (fun z => Q2Qc (inject_Z z)) [10; 11; 12; 13]%Z)
                    (map (fun z => Q2Qc (inject_Z z)) [20; 21; 22; 23]%Z)
                    (map (fun z => Q2Qc (inject_Z z)) [30; 31; 32; 33]%Z)
                    1 ltac:(lia))).
  apply Qc_is_canon. vm_compute. reflexivity.
Defined.

(** X12: LoadFloatData<16> loads [count] values and completes the four
    registers with zeros: element [4 * j + l] of the registers, which
    start as zeros, is the value at [src + 4 * j + l] when
    [4 * j + l < count] and 0 otherwise, for every count from 0 to 16,
    also when count is not a multiple of 4. *)
Theorem LoadFloatData_pads_with_zeros {F : Type} {ops : Fp32Ops F}
    (m : mem F) (src count j l : nat) :
  count <= 16 -> j < 4 -> l < 4 ->
  flane (varr (LoadFloatData m src count 0 (zero_f32x4_array 4)) j) l
  = if 4 * j + l <? count then m (src + (4 * j + l)) else f_of_Z 0.
Proof.
  intros Hc Hj Hl. rewrite LoadFloatData_lanes by assumption. reflexivity.
Qed.

Lemma LoadFloatData_pads_with_zeros_witness :
  flane (varr (LoadFloatData Examples.row20 3 6 0 (zero_f32x4_array 4)) 1) 1
  = Binary32.of_Z 9
  /\
  flane (varr (LoadFloatData Examples.row20 3 6 0 (zero_f32x4_array 4)) 1) 2
  = Binary32.of_Z 0.
Proof.
  split.
  - rewrite (LoadFloatData_pads_with_zeros Examples.row20 3 6 1 1
               ltac:(lia) ltac:(lia) ltac:(lia)).
    vm_compute. reflexivity.
  - rewrite (LoadFloatData_pads_with_zeros Examples.row20 3 6 1 2
               ltac:(lia) ltac:(lia) ltac:(lia)).
    vm_compute. reflexivity.
Defined.

End HelperTheorems.


(** * The quantized row of A *)

Module QuantizeRow.

Import Mlas Neon NeonFacts Q8 Quantize QuantizeFacts QuantizeLaws QuantizeViews.

Section Generic.

Context {F : Type} {ops : Fp32Ops F} {laws : Fp32ZeroLaws F ops}.
Variable mA : mem F.
Variable BlkLen A CountK QuantAPtr : nat.
Hypothesis BlkLen_pos : 0 < BlkLen.
Hypothesis BlkLen_16 : BlkLen mod 16 = 0.

Abbreviation block_done := (@QuantizeViews.block_done F ops mA BlkLen A CountK QuantAPtr).
Abbreviation outside := (@QuantizeViews.outside F BlkLen QuantAPtr).
Abbreviation row_step := (@QuantizeViews.row_step F ops mA BlkLen CountK).

(** The row loop after [n] blocks: the blocks are quantized one after
    the other, each in its own part of the workspace. *)
Lemma row_blocks (m : Q8Mem F) n :
  let s := for_up n (fun q => row_step (q * BlkLen))
             {| ADataBlkPtr := A; QuantABlkPtr := QuantAPtr; QuantA := Some m |} in
  ADataBlkPtr s = A + n * BlkLen /\
  QuantABlkPtr s = QuantAPtr + n * Q8BlkSize BlkLen /\
  exists m', QuantA s = Some m' /\
    (forall b, b < n -> block_done m' b) /\ outside m m' n.
Proof.
  induction n as [|n IH]; cbv zeta in *.
  - rewrite for_up_0. cbn [ADataBlkPtr QuantABlkPtr QuantA].
    split; [lia|]. split; [lia|]. exists m. split; [reflexivity|].
    split; [intros b Hb; lia|]. intros p _. split; reflexivity.
  - rewrite for_up_S. destruct IH as (IA & IQ & m1 & IM & ID & IO).
    set (s := for_up n _ _) in *.
    unfold QuantizeViews.row_step. cbn [ADataBlkPtr QuantABlkPtr QuantA].
    rewrite IA, IQ, IM.
    split; [lia|]. split; [lia|].
    destruct (QuantizeBlock_returns mA BlkLen (A + n * BlkLen)
                (Nat.min (CountK - n * BlkLen) BlkLen) m1
                (QuantAPtr + n * Q8BlkSize BlkLen)) as [m' Hm'].
    exists m'. split; [exact Hm'|].
    destruct (QuantizeBlock_spec mA BlkLen (A + n * BlkLen)
                (Nat.min (CountK - n * BlkLen) BlkLen) m1 m'
                (QuantAPtr + n * Q8BlkSize BlkLen) ltac:(lia) BlkLen_16 Hm')
      as (scale & r & Hs & Hr & HS & HD).
    assert (HQ : Q8BlkSize BlkLen = 4 + BlkLen) by reflexivity.
    split.
    + intros b Hb. destruct (Nat.eq_dec b n) as [-> | Hne].
      * exists scale, r. split; [exact Hs|]. split; [exact Hr|]. split.
        -- unfold Q8BlkScale. rewrite HS. apply store_eq.
        -- intros t Ht. rewrite HD. unfold QuantizeViews.block_ptr.
           replace (in_range (Q8BlkData (QuantAPtr + n * Q8BlkSize BlkLen)) BlkLen
                      (Q8BlkData (QuantAPtr + n * Q8BlkSize BlkLen) + t)) with true
             by (symmetry; apply in_range_true; lia).
           replace (Q8BlkData (QuantAPtr + n * Q8BlkSize BlkLen) + t
                    - Q8BlkData (QuantAPtr + n * Q8BlkSize BlkLen)) with t by lia.
           reflexivity.
      * destruct (ID b ltac:(lia)) as (scale' & r' & Hs' & Hr' & HS' & HD').
        assert (Hlt : (b + 1) * Q8BlkSize BlkLen <= n * Q8BlkSize BlkLen)
          by (apply Nat.mul_le_mono_r; lia).
        exists scale', r'. split; [exact Hs'|]. split; [exact Hr'|]. split.
        -- unfold Q8BlkScale in *. rewrite HS, store_neq; [exact HS'|].
           unfold QuantizeViews.block_ptr. lia.
        -- intros t Ht. rewrite HD.
           replace (in_range (Q8BlkData (QuantAPtr + n * Q8BlkSize BlkLen)) BlkLen
                      (Q8BlkData (QuantizeViews.block_ptr BlkLen QuantAPtr b) + t))
             with false
             by (symmetry; apply in_range_false;
                 unfold QuantizeViews.block_ptr, Q8BlkData; lia).
           apply HD'. exact Ht.
    + intros p Hp.
      assert (Hlt : n * Q8BlkSize BlkLen + Q8BlkSize BlkLen
                    = Datatypes.S n * Q8BlkSize BlkLen) by lia.
      destruct (IO p ltac:(lia)) as [E1 E2].
      split.
      * rewrite HS, store_neq by lia. exact E1.
      * rewrite HD.
        replace (in_range (Q8BlkData (QuantAPtr + n * Q8BlkSize BlkLen)) BlkLen p)
          with false
          by (symmetry; apply in_range_false; unfold Q8BlkData; lia).
        exact E2.
Qed.

(** QuantizeARow_CompInt8 returns the workspace in which every block of
    the row is quantized and the rest is unchanged. *)
Lemma QuantizeARow_CompInt8_spec (m : Q8Mem F) :
  exists m',
    QuantizeARow_CompInt8 mA BlkLen A CountK m QuantAPtr = Some m' /\
    (forall b, b < MlasDivRoundup CountK BlkLen -> block_done m' b) /\
    outside m m' (MlasDivRoundup CountK BlkLen).
Proof.
  unfold QuantizeARow_CompInt8.
  rewrite for_step_for_up by exact BlkLen_pos.
  destruct (row_blocks m (MlasDivRoundup CountK BlkLen)) as (_ & _ & m' & Hm' & HD & HO).
  exists m'. split; [exact Hm' | split; assumption].
Qed.

End Generic.

Import TwosComplement.

Import SizeProofs PackTheorems.

(** X14: the workspace that SQ4BitGemmPerGemmWorkspaceSize reports for
    CompInt8 holds the M quantized rows at the row stride of the integer
    kernel, when the sizes fit size_t: QuantizeARow_CompInt8 applied to
    row [r] at [QuantA + r * StrideQuantA] returns, changes nothing
    before its row or from the next row on, and ends within the reported
    size; the rows do not overlap. *)
Theorem QuantizeARow_CompInt8_stays_in_its_row
    {F : Type} {ops : Fp32Ops F} {laws : Fp32ZeroLaws F ops}
    (mA : mem F) (BlkLen A K : nat) (m : Q8Mem F) (QuantA M N r : nat) :
  0 < BlkLen -> BlkLen mod 16 = 0 -> r < M ->
  (Z.of_nat K + Z.of_nat BlkLen <= SizeT.modulus)%Z ->
  (4 + Z.of_nat BlkLen < SizeT.modulus)%Z ->
  (Z.of_nat (M * MlasDivRoundup K BlkLen * Q8BlkSize BlkLen) < SizeT.modulus)%Z ->
  let StrideQuantA := CompInt8.StrideQuantA BlkLen (MlasDivRoundup K BlkLen) in
  exists m',
    QuantizeARow_CompInt8 mA BlkLen A K m (QuantA + r * StrideQuantA) = Some m' /\
    (forall p, p < QuantA + r * StrideQuantA \/ QuantA + (r + 1) * StrideQuantA <= p ->
       q8_scale m' p = q8_scale m p /\ q8_data m' p = q8_data m p) /\
    (Z.of_nat ((r + 1) * StrideQuantA)
     <= Workspace.SQ4BitGemmPerGemmWorkspaceSize (Z.of_nat M) (Z.of_nat N)
          (Z.of_nat K) (Z.of_nat BlkLen) CompInt8)%Z.
Proof.
  intros Hpos H16 Hr Hfit H4 Hsize StrideQuantA.
  destruct (QuantizeARow_CompInt8_spec mA BlkLen A K (QuantA + r * StrideQuantA)
              Hpos H16 m) as (m' & Hm' & _ & HO).
  exists m'. split; [exact Hm'|]. split.
  - intros p Hp. apply HO.
    unfold StrideQuantA, CompInt8.StrideQuantA in *. lia.
  - unfold Workspace.SQ4BitGemmPerGemmWorkspaceSize.
    rewrite SizeT_MlasDivRoundup_of_nat by assumption.
    unfold Workspace.Q8BlkSize, SizeT.add.
    rewrite (wrap_small (4 + Z.of_nat BlkLen)) by (unfold SizeT.is_size_t; lia).
    unfold StrideQuantA, CompInt8.StrideQuantA.
    set (B := MlasDivRoundup K BlkLen) in *.
    assert (HQ : Q8BlkSize BlkLen = 4 + BlkLen) by reflexivity.
    rewrite HQ in *.
    unfold SizeT.mul.
    assert (HMB : (Z.of_nat M * Z.of_nat B
                   <= Z.of_nat (M * B * (4 + BlkLen)))%Z) by nia.
    rewrite (wrap_small (Z.of_nat M * Z.of_nat B)) by (unfold SizeT.is_size_t; lia).
    rewrite wrap_small by (unfold SizeT.is_size_t; nia).
    nia.
Qed.

Lemma QuantizeARow_CompInt8_stays_in_its_row_witness :
  exists m',
    QuantizeARow_CompInt8 (ops := Binary32.ops) Examples.row20 16 0 20
      Examples.dirty_workspace
      (100 + 1 * CompInt8.StrideQuantA 16 (MlasDivRoundup 20 16)) = Some m' /\
    q8_data m' 139 = 99%Z /\ q8_data m' 180 = 99%Z.
Proof.
  destruct (QuantizeARow_CompInt8_stays_in_its_row
              (ops := Binary32.ops) (laws := Binary32Facts.b32_laws)
              Examples.row20 16 0 20
              Examples.dirty_workspace 100 3 5 1
              ltac:(lia) ltac:(reflexivity) ltac:(lia)
              ltac:(vm_compute; discriminate) ltac:(vm_compute; reflexivity)
              ltac:(vm_compute; reflexivity))
    as (m' & Hm' & HO & _).
  exists m'. split; [exact Hm'|]. split.
  - apply (HO 139). left. vm_compute. lia.
  - apply (HO 180). right. vm_compute. lia.
Defined.

End QuantizeRow.


(** * The integer kernel: the dot products of the codes *)

Module Int8Dot.

Import Mlas Neon NeonFacts TwosComplement Int8Reference.

Lemma sint8_small (x : Z) : (-128 <= x <= 127)%Z -> sint8 x = x.
Proof.
  intros H. unfold sint8, wrap_signed. change (2 ^ (8 - 1))%Z with 128%Z.
  change (2 ^ 8)%Z with 256%Z. rewrite Z.mod_small by lia. lia.
Qed.

Lemma sint32_small (x : Z) : (- 2 ^ 31 <= x < 2 ^ 31)%Z -> sint32 x = x.
Proof.
  intros H. unfold sint32, wrap_signed. change (32 - 1)%Z with 31%Z.
  change (2 ^ 32)%Z with (2 * 2 ^ 31)%Z.
  rewrite Z.mod_small by lia. lia.
Qed.

Lemma zsum_below_ext n (f g : nat -> Z) :
  (forall t, t < n -> f t = g t) -> zsum_below n f = zsum_below n g.
Proof.
  induction n as [|n IH]; intros H; [reflexivity|].
  cbn [zsum_below]. rewrite IH by (intros; apply H; lia).
  rewrite H by lia. reflexivity.
Qed.

(** ** The lanes of the vectors of codes *)

Lemma zlane_vld1q_s8 (m : mem Z) p t :
  t < 16 -> zlane (vld1q_s8 m p) t = m (p + t).
Proof. intros H. unfold vld1q_s8. rewrite zlane_tabulate by exact H. reflexivity. Qed.

Lemma zlane_vsubq_s8 a b t :
  t < 16 -> zlane (vsubq_s8 a b) t = sint8 (zlane a t - zlane b t).
Proof. intros H. unfold vsubq_s8. rewrite zlane_tabulate by exact H. reflexivity. Qed.

Lemma zlane_vdupq_n_s8 x t : t < 16 -> zlane (vdupq_n_s8 x) t = x.
Proof. intros H. unfold vdupq_n_s8. rewrite zlane_tabulate by exact H. reflexivity. Qed.

Lemma zlane_vreinterpretq_s8_u8 a t :
  t < 16 -> zlane (vreinterpretq_s8_u8 a) t = sint8 (zlane a t).
Proof. intros H. unfold vreinterpretq_s8_u8. rewrite zlane_tabulate by exact H. reflexivity. Qed.

Lemma zlane_vcombine_u8 lo hi t :
  t < 16 ->
  zlane (vcombine_u8 lo hi) t = if t <? 8 then zlane lo t else zlane hi (t - 8).
Proof. intros H. unfold vcombine_u8. rewrite zlane_tabulate by exact H. reflexivity. Qed.

Section Codes.

Variable mQuantBData : mem Z.
Hypothesis bytes : forall p, Byte8.is_byte (mQuantBData p).

Lemma land_15 (b : Z) : Z.land b 15 = Byte8.lo b.
Proof. change 15%Z with (Z.ones 4). rewrite Z.land_ones by lia. reflexivity. Qed.

Lemma shiftr_4 (b : Z) : Z.shiftr b 4 = Byte8.hi b.
Proof. rewrite Z.shiftr_div_pow2 by lia. reflexivity. Qed.

(** The low and the high halves of eight packed bytes. *)
Lemma zlane_low8 p t :
  t < 8 ->
  zlane (vand_u8 (vld1_u8 mQuantBData p) (vdup_n_u8 15)) t
  = Byte8.lo (mQuantBData (p + t)).
Proof.
  intros H. unfold vand_u8, vld1_u8, vdup_n_u8.
  rewrite !zlane_tabulate by exact H. apply land_15.
Qed.

Lemma zlane_high8 p t :
  t < 8 ->
  zlane (vshr_n_u8 (vld1_u8 mQuantBData p) 4) t = Byte8.hi (mQuantBData (p + t)).
Proof.
  intros H. unfold vshr_n_u8, vld1_u8.
  rewrite !zlane_tabulate by exact H. apply shiftr_4.
Qed.

(** The low and the high halves of sixteen packed bytes. *)
Lemma zlane_low16 p t :
  t < 16 ->
  zlane (vandq_u8 (vld1q_u8 mQuantBData p) (vdupq_n_u8 15)) t
  = Byte8.lo (mQuantBData (p + t)).
Proof.
  intros H. unfold vandq_u8, vld1q_u8, vdupq_n_u8.
  rewrite !zlane_tabulate by exact H. apply land_15.
Qed.

Lemma zlane_high16 p t :
  t < 16 ->
  zlane (vshrq_n_u8 (vld1q_u8 mQuantBData p) 4) t = Byte8.hi (mQuantBData (p + t)).
Proof.
  intros H. unfold vshrq_n_u8, vld1q_u8.
  rewrite !zlane_tabulate by exact H. apply shiftr_4.
Qed.

Lemma zlane_vget_low_u8 a t : t < 8 -> zlane (vget_low_u8 a) t = zlane a t.
Proof. intros H. unfold vget_low_u8. rewrite zlane_tabulate by exact H. reflexivity. Qed.

Lemma zlane_vget_high_u8 a t : t < 8 -> zlane (vget_high_u8 a) t = zlane a (8 + t).
Proof. intros H. unfold vget_high_u8. rewrite zlane_tabulate by exact H. reflexivity. Qed.

Abbreviation code_at := (@ExactViews.code_at mQuantBData).
Abbreviation code32_at := (Int8Reference.code32_at mQuantBData).

Lemma code_at_bounds p t : (0 <= code_at p t < 16)%Z.
Proof.
  unfold ExactViews.code_at. destruct (t <? 8); [apply lo_range | apply hi_range, bytes].
Qed.

Lemma code32_at_bounds p t : (0 <= code32_at p t < 16)%Z.
Proof.
  unfold Int8Reference.code32_at.
  destruct (t <? 16); [apply lo_range | apply hi_range, bytes].
Qed.

(** The sixteen codes of a block, as the 2x2 tile and the last step of
    the 1x1 tile of BlkLen 16 form them, less the zero-point. *)
Lemma zlane_codes16 p zp t :
  (0 <= zp < 16)%Z -> t < 16 ->
  zlane (vsubq_s8
           (vreinterpretq_s8_u8
              (vcombine_u8 (vand_u8 (vld1_u8 mQuantBData p) (vdup_n_u8 15))
                           (vshr_n_u8 (vld1_u8 mQuantBData p) 4)))
           (vdupq_n_s8 zp)) t
  = (code_at p t - zp)%Z.
Proof.
  intros Hz Ht.
  rewrite zlane_vsubq_s8, zlane_vreinterpretq_s8_u8, zlane_vcombine_u8,
    zlane_vdupq_n_s8 by exact Ht.
  pose proof (code_at_bounds p t) as Hc. unfold ExactViews.code_at in *.
  destruct (t <? 8) eqn:E.
  - apply Nat.ltb_lt in E. rewrite zlane_low8 by exact E.
    rewrite (sint8_small (Byte8.lo _)) by lia. apply sint8_small. lia.
  - apply Nat.ltb_ge in E. rewrite zlane_high8 by lia.
    rewrite (sint8_small (Byte8.hi _)) by lia. apply sint8_small. lia.
Qed.

(** The codes of the two blocks of a pair, as the 1x1 tile of BlkLen 16
    forms them from sixteen bytes. *)
Lemma zlane_codes16_pair0 p zp t :
  (0 <= zp < 16)%Z -> t < 16 ->
  zlane (vsubq_s8
           (vreinterpretq_s8_u8
              (vcombine_u8
                 (vget_low_u8 (vandq_u8 (vld1q_u8 mQuantBData p) (vdupq_n_u8 15)))
                 (vget_low_u8 (vshrq_n_u8 (vld1q_u8 mQuantBData p) 4))))
           (vdupq_n_s8 zp)) t
  = (code_at p t - zp)%Z.
Proof.
  intros Hz Ht.
  rewrite zlane_vsubq_s8, zlane_vreinterpretq_s8_u8, zlane_vcombine_u8,
    zlane_vdupq_n_s8 by exact Ht.
  pose proof (code_at_bounds p t) as Hc. unfold ExactViews.code_at in *.
  destruct (t <? 8) eqn:E.
  - apply Nat.ltb_lt in E. rewrite zlane_vget_low_u8, zlane_low16 by lia.
    rewrite (sint8_small (Byte8.lo _)) by lia. apply sint8_small. lia.
  - apply Nat.ltb_ge in E. rewrite zlane_vget_low_u8, zlane_high16 by lia.
    rewrite (sint8_small (Byte8.hi _)) by lia. apply sint8_small. lia.
Qed.

Lemma zlane_codes16_pair1 p zp t :
  (0 <= zp < 16)%Z -> t < 16 ->
  zlane (vsubq_s8
           (vreinterpretq_s8_u8
              (vcombine_u8
                 (vget_high_u8 (vandq_u8 (vld1q_u8 mQuantBData p) (vdupq_n_u8 15)))
                 (vget_high_u8 (vshrq_n_u8 (vld1q_u8 mQuantBData p) 4))))
           (vdupq_n_s8 zp)) t
  = (code_at (p + 8) t - zp)%Z.
Proof.
  intros Hz Ht.
  rewrite zlane_vsubq_s8, zlane_vreinterpretq_s8_u8, zlane_vcombine_u8,
    zlane_vdupq_n_s8 by exact Ht.
  pose proof (code_at_bounds (p + 8) t) as Hc. unfold ExactViews.code_at in *.
  destruct (t <? 8) eqn:E.
  - apply Nat.ltb_lt in E. rewrite zlane_vget_high_u8, zlane_low16 by lia.
    replace (p + (8 + t)) with (p + 8 + t) by lia.
    rewrite (sint8_small (Byte8.lo _)) by lia. apply sint8_small. lia.
  - apply Nat.ltb_ge in E. rewrite zlane_vget_high_u8, zlane_high16 by lia.
    replace (p + (8 + (t - 8))) with (p + 8 + (t - 8)) by lia.
    rewrite (sint8_small (Byte8.hi _)) by lia. apply sint8_small. lia.
Qed.

(** The two halves of thirty-two codes, less the zero-point. *)
Lemma zlane_codes32_low p zp t :
  (0 <= zp < 16)%Z -> t < 16 ->
  zlane (vsubq_s8
           (vreinterpretq_s8_u8 (vandq_u8 (vld1q_u8 mQuantBData p) (vdupq_n_u8 15)))
           (vdupq_n_s8 zp)) t
  = (code32_at p t - zp)%Z.
Proof.
  intros Hz Ht.
  rewrite zlane_vsubq_s8, zlane_vreinterpretq_s8_u8, zlane_vdupq_n_s8, zlane_low16
    by exact Ht.
  pose proof (code32_at_bounds p t) as Hc. unfold Int8Reference.code32_at in *.
  replace (t <? 16) with true in * by (symmetry; apply Nat.ltb_lt; exact Ht).
  rewrite (sint8_small (Byte8.lo _)) by lia. apply sint8_small. lia.
Qed.

Lemma zlane_codes32_high p zp t :
  (0 <= zp < 16)%Z -> t < 16 ->
  zlane (vsubq_s8
           (vreinterpretq_s8_u8 (vshrq_n_u8 (vld1q_u8 mQuantBData p) 4))
           (vdupq_n_s8 zp)) t
  = (code32_at p (16 + t) - zp)%Z.
Proof.
  intros Hz Ht.
  rewrite zlane_vsubq_s8, zlane_vreinterpretq_s8_u8, zlane_vdupq_n_s8, zlane_high16
    by exact Ht.
  pose proof (code32_at_bounds p (16 + t)) as Hc. unfold Int8Reference.code32_at in *.
  replace (16 + t <? 16) with false in * by (symmetry; apply Nat.ltb_ge; lia).
  replace (16 + t - 16) with t in * by lia.
  rewrite (sint8_small (Byte8.hi _)) by lia. apply sint8_small. lia.
Qed.

End Codes.

(** ** SDOT without overflow *)

Local Open Scope Z_scope.

Lemma product_bound (a b : Z) :
  -128 <= a <= 127 -> -15 <= b <= 15 -> -1920 <= a * b <= 1920.
Proof. intros Ha Hb. nia. Qed.

Lemma zlane_vdupq_n_s32_0 l : zlane (vdupq_n_s32 0) l = 0.
Proof.
  unfold vdupq_n_s32, zlane.
  destruct (Nat.lt_ge_cases l 4) as [H | H].
  - rewrite nth_tabulate by exact H. reflexivity.
  - rewrite nth_tabulate_out by exact H. reflexivity.
Qed.

Local Close Scope Z_scope.

End Int8Dot.


(** * The integer kernel: the zero-points and the codes of a column *)

Module Int8Tiles.

Import Mlas Neon NeonFacts TwosComplement Q8 CompInt8 Int8Views Int8Facts.
Import Reference Int8Reference Int8Dot Int8Claims.

#[local] Existing Instance Exact.ops.

Section Tiles.

Variable mQuantBData : mem Z.
Variable mQuantBZeroPoint : mem Z.
Variable HasZeroPoint : bool.

Hypothesis b_bytes : forall p, Byte8.is_byte (mQuantBData p).
Hypothesis zp_bytes : forall p, Byte8.is_byte (mQuantBZeroPoint p).

Abbreviation b_zero_point := (Int8Reference.b_zero_point mQuantBZeroPoint HasZeroPoint).
Abbreviation code_at := (@ExactViews.code_at mQuantBData).
Abbreviation code32_at := (Int8Reference.code32_at mQuantBData).

(** ** Zero-points *)

Lemma zp_low_lo (b : Z) : zp_low b = Byte8.lo b.
Proof.
  unfold zp_low, Byte8.band. rewrite land_15. apply sint8_small.
  pose proof (lo_range b). lia.
Qed.

Lemma zp_high_hi (b : Z) : Byte8.is_byte b -> zp_high b = Byte8.hi b.
Proof.
  intros H. unfold zp_high, Byte8.shr. rewrite shiftr_4. apply sint8_small.
  pose proof (hi_range b H). lia.
Qed.

Lemma b_zero_point_range z k : (0 <= b_zero_point z k < 16)%Z.
Proof.
  unfold Int8Reference.b_zero_point, zero_point_of_block.
  destruct HasZeroPoint; [|lia].
  destruct (Nat.even k); [apply lo_range | apply hi_range, zp_bytes].
Qed.

Abbreviation zero_point_ptr_at := (Int8Reference.zero_point_ptr_at HasZeroPoint).

Lemma next_zero_point_ptr_at z k :
  next_zero_point_ptr HasZeroPoint k (zero_point_ptr_at z k)
  = zero_point_ptr_at z (Datatypes.S k).
Proof.
  unfold next_zero_point_ptr, Int8Reference.zero_point_ptr_at.
  destruct HasZeroPoint; [|reflexivity].
  rewrite land1_even, half_succ. lia.
Qed.

Lemma load_bzp_2x2_spec sZ z k :
  load_bzp_2x2 mQuantBZeroPoint HasZeroPoint sZ k (zero_point_ptr_at z k)
  = (b_zero_point z k, b_zero_point (z + sZ) k).
Proof.
  unfold load_bzp_2x2, Int8Reference.b_zero_point, Int8Reference.zero_point_ptr_at,
    zero_point_of_block.
  destruct HasZeroPoint; [|reflexivity].
  rewrite land1_even.
  replace (z + sZ + k / 2) with (z + k / 2 + sZ) by lia.
  destruct (Nat.even k).
  - rewrite !zp_low_lo. reflexivity.
  - rewrite !zp_high_hi by apply zp_bytes. reflexivity.
Qed.

Lemma bzp_low_spec z j :
  bzp_low mQuantBZeroPoint HasZeroPoint (if HasZeroPoint then z + j else z)
  = b_zero_point z (2 * j).
Proof.
  unfold bzp_low, Int8Reference.b_zero_point, zero_point_of_block.
  destruct HasZeroPoint; [|reflexivity].
  destruct (double_div_mod j) as (D0 & _ & _ & _). rewrite D0.
  replace (Nat.even (2 * j)) with true
    by (symmetry; apply Nat.even_spec; exists j; lia).
  apply zp_low_lo.
Qed.

Lemma bzp_high_spec z j :
  bzp_high mQuantBZeroPoint HasZeroPoint (if HasZeroPoint then z + j else z)
  = b_zero_point z (2 * j + 1).
Proof.
  unfold bzp_high, Int8Reference.b_zero_point, zero_point_of_block.
  destruct HasZeroPoint; [|reflexivity].
  destruct (double_div_mod j) as (_ & _ & D1 & _). rewrite D1.
  replace (Nat.even (2 * j + 1)) with false.
  2:{ symmetry. rewrite <- Nat.negb_odd. apply negb_false_iff.
      apply Nat.odd_spec. exists j. lia. }
  apply zp_high_hi, zp_bytes.
Qed.

(** ** The codes of a block in the packed layout *)

Lemma b_code_16 b k t :
  t < 16 ->
  Int8Reference.b_code mQuantBData 16 b k t = code_at (b + k * 8) t.
Proof.
  intros Ht. unfold Int8Reference.b_code, Pack.SubBlkLen_of, Pack.packed_code,
    Pack.packed_pos, ExactViews.code_at.
  cbn [is_CompInt8 Nat.eqb]. change (16 / 2) with 8.
  assert (Hd : (k * 16 + t) / 16 = k)
    by (symmetry; apply Nat.div_unique with t; lia).
  assert (Hr : (k * 16 + t) mod 16 = t)
    by (symmetry; apply Nat.mod_unique with k; lia).
  rewrite Hd, Hr.
  destruct (t <? 8) eqn:E.
  - apply Nat.ltb_lt in E. rewrite Nat.mod_small by exact E. f_equal. f_equal. lia.
  - apply Nat.ltb_ge in E.
    replace (t mod 8) with (t - 8)
      by (apply Nat.mod_unique with 1; lia).
    f_equal. f_equal. lia.
Qed.

(** Block [k] of a column whose blocks have [32 * j] codes: code [t] of
    its sub-block [i]. *)
Lemma b_code_32 j b k i t :
  0 < j -> i < j -> t < 32 ->
  Int8Reference.b_code mQuantBData (32 * j) b k (i * 32 + t)
  = code32_at (b + k * (16 * j) + i * 16) t.
Proof.
  intros Hj Hi Ht. unfold Int8Reference.b_code, Pack.SubBlkLen_of, Pack.packed_code,
    Pack.packed_pos, Int8Reference.code32_at.
  cbn [is_CompInt8].
  replace (32 * j =? 16) with false by (symmetry; apply Nat.eqb_neq; lia).
  change (32 / 2) with 16.
  assert (Hd : (k * (32 * j) + (i * 32 + t)) / 32 = k * j + i)
    by (symmetry; apply Nat.div_unique with t; lia).
  assert (Hr : (k * (32 * j) + (i * 32 + t)) mod 32 = t)
    by (symmetry; apply Nat.mod_unique with (k * j + i); lia).
  rewrite Hd, Hr.
  destruct (t <? 16) eqn:E.
  - apply Nat.ltb_lt in E. rewrite Nat.mod_small by exact E. f_equal. f_equal. lia.
  - apply Nat.ltb_ge in E.
    replace (t mod 16) with (t - 16)
      by (apply Nat.mod_unique with 1; lia).
    f_equal. f_equal. lia.
Qed.

End Tiles.

End Int8Tiles.


(** * The integer kernel: the loops over the tiles and what they write *)

Module Int8Kernel.

Import Mlas Neon NeonFacts TwosComplement Q8 CompInt8 Int8Views Int8Facts.
Import Reference Int8Reference Int8Dot Int8Tiles.

(** ** The loops over the tiles *)

Section Loops.

Context {F : Type} {ops : Fp32Ops F}.
Variable mBias : mem F.
Variable Compute2x2 : compute2x2_t (F := F).
Variable Compute1x1 : compute1x1_t (F := F).
Variable HasZeroPoint : bool.
Variable BlkLen : nat.
Variables QuantA QuantBData QuantBScale QuantBZeroPoint : nat.
Variables CountN BlockCountK ldc : nat.
Variable Bias : option nat.

Variable st2 : nat -> nat -> nat -> nat -> tile2x2_state (F := F).
Variable st1 : nat -> nat -> nat -> nat -> tile1x1_state (F := F).

Hypothesis Compute2x2_stores : forall a b s z bias C sum l,
  Compute2x2 a b s z bias C sum BlockCountK
    (StrideQuantA BlkLen BlockCountK) (StrideQuantBData BlkLen BlockCountK)
    (StrideQuantBScale BlockCountK) (StrideQuantBZeroPoint BlockCountK) l
  = store2x2 mBias (st2 a b s z) bias C sum l.

Hypothesis Compute1x1_stores : forall a b s z bias C sum,
  Compute1x1 a b s z bias C sum BlockCountK
  = store1x1 mBias (st1 a b s z) bias C sum.

Hypothesis ldc_ge : CountN <= ldc.

Lemma Compute2x2_stored a b s z bias C sum p :
  2 <= ldc ->
  Compute2x2 a b s z bias C sum BlockCountK
    (StrideQuantA BlkLen BlockCountK) (StrideQuantBData BlkLen BlockCountK)
    (StrideQuantBScale BlockCountK) (StrideQuantBZeroPoint BlockCountK) ldc p
  = stored2x2 mBias (fun r c => sums2x2 (st2 a b s z) r c) bias C sum ldc p.
Proof. intros H. rewrite Compute2x2_stores. apply store2x2_spec. exact H. Qed.

Lemma Compute1x1_stored a b s z bias C sum p :
  Compute1x1 a b s z bias C sum BlockCountK p
  = stored1x1 mBias (sum1x1 (st1 a b s z)) bias C sum p.
Proof. rewrite Compute1x1_stores. apply store1x1_spec. Qed.

(** The element of row [m] and column [n] comes from a 2x2 tile when
    neither the row nor the column is the last of an odd number, and
    from a 1x1 tile otherwise. *)
Lemma tile_loops_element C0 CPtr CountM m n :
  m < CountM -> n < CountN ->
  let sA := StrideQuantA BlkLen BlockCountK in
  let sB := StrideQuantBData BlkLen BlockCountK in
  let sS := StrideQuantBScale BlockCountK in
  let sZ := StrideQuantBZeroPoint BlockCountK in
  let zcol c := if HasZeroPoint then QuantBZeroPoint + c * sZ else QuantBZeroPoint in
  tile_loops Compute2x2 Compute1x1 HasZeroPoint BlkLen
    QuantA QuantBData QuantBScale QuantBZeroPoint CountN BlockCountK ldc Bias
    C0 CPtr CountM (CPtr + m * ldc + n)
  = with_bias mBias Bias n
      (if (m <? 2 * (CountM / 2)) && (n <? 2 * (CountN / 2))
       then sums2x2
              (st2 (QuantA + 2 * (m / 2) * sA) (QuantBData + 2 * (n / 2) * sB)
                   (QuantBScale + 2 * (n / 2) * sS) (zcol (2 * (n / 2))))
              (m mod 2) (n mod 2)
       else sum1x1
              (st1 (QuantA + m * sA) (QuantBData + n * sB) (QuantBScale + n * sS)
                   (zcol n))).
Proof.
  intros Hm Hn sA sB sS sZ zcol.
  rewrite (tile_loops_spec mBias Compute2x2 Compute1x1 HasZeroPoint BlkLen QuantA
             QuantBData QuantBScale QuantBZeroPoint CountN BlockCountK ldc Bias
             (fun a b s z r c => sums2x2 (st2 a b s z) r c)
             (fun a b s z => sum1x1 (st1 a b s z))
             Compute2x2_stored Compute1x1_stored ldc_ge CPtr CountM C0 m n Hm Hn).
  unfold Int8Views.element_value. f_equal.
  unfold Int8Views.element_sum, Int8Views.pair_sum, Int8Views.single_sum,
    Int8Views.colB, Int8Views.colS, Int8Views.colZ.
  fold sA sB sS sZ.
  pose proof (Nat.div_mod_eq m 2) as Em.
  destruct (m <? 2 * (CountM / 2)) eqn:E1; cbn [andb].
  - destruct (n <? 2 * (CountN / 2)) eqn:E2; [reflexivity|].
    replace (QuantA + 2 * (m / 2) * sA + m mod 2 * sA) with (QuantA + m * sA) by nia.
    reflexivity.
  - reflexivity.
Qed.

(** The same when the sums of the tiles are given by functions of the
    pointers of the row and of the column. *)
Lemma tile_loops_element_sum (T2 T1 : nat -> nat -> nat -> nat -> F)
    C0 CPtr CountM m n :
  (forall a b s z r c, r < 2 -> c < 2 ->
     sums2x2 (st2 a b s z) r c
     = T2 (a + r * StrideQuantA BlkLen BlockCountK)
          (b + c * StrideQuantBData BlkLen BlockCountK)
          (s + c * StrideQuantBScale BlockCountK)
          (z + c * StrideQuantBZeroPoint BlockCountK)) ->
  (forall a b s z, sum1x1 (st1 a b s z) = T1 a b s z) ->
  (HasZeroPoint = false -> forall a b s z z', T2 a b s z = T2 a b s z') ->
  m < CountM -> n < CountN ->
  let sA := StrideQuantA BlkLen BlockCountK in
  let sB := StrideQuantBData BlkLen BlockCountK in
  let sS := StrideQuantBScale BlockCountK in
  let sZ := StrideQuantBZeroPoint BlockCountK in
  let zcol := if HasZeroPoint then QuantBZeroPoint + n * sZ else QuantBZeroPoint in
  tile_loops Compute2x2 Compute1x1 HasZeroPoint BlkLen
    QuantA QuantBData QuantBScale QuantBZeroPoint CountN BlockCountK ldc Bias
    C0 CPtr CountM (CPtr + m * ldc + n)
  = with_bias mBias Bias n
      (if (m <? 2 * (CountM / 2)) && (n <? 2 * (CountN / 2))
       then T2 (QuantA + m * sA) (QuantBData + n * sB) (QuantBScale + n * sS) zcol
       else T1 (QuantA + m * sA) (QuantBData + n * sB) (QuantBScale + n * sS) zcol).
Proof.
  intros S2 S1 Z2 Hm Hn sA sB sS sZ zcol.
  rewrite (tile_loops_element C0 CPtr CountM m n Hm Hn). cbv zeta.
  fold sA sB sS sZ. f_equal.
  pose proof (Nat.div_mod_eq m 2) as Em.
  pose proof (Nat.mod_upper_bound m 2 ltac:(lia)) as Bm.
  pose proof (Nat.div_mod_eq n 2) as En.
  pose proof (Nat.mod_upper_bound n 2 ltac:(lia)) as Bn.
  destruct ((m <? 2 * (CountM / 2)) && (n <? 2 * (CountN / 2))).
  - rewrite S2 by assumption. fold sA sB sS sZ.
    replace (QuantA + 2 * (m / 2) * sA + m mod 2 * sA) with (QuantA + m * sA) by nia.
    replace (QuantBData + 2 * (n / 2) * sB + n mod 2 * sB)
      with (QuantBData + n * sB) by nia.
    replace (QuantBScale + 2 * (n / 2) * sS + n mod 2 * sS)
      with (QuantBScale + n * sS) by nia.
    unfold zcol. destruct HasZeroPoint.
    + f_equal. nia.
    + apply Z2. reflexivity.
  - rewrite S1. reflexivity.
Qed.

(** The loops write the CountM rows of CountN elements and nothing
    else. *)
Lemma tile_loops_frame C0 CPtr CountM p :
  (forall m n, m < CountM -> n < CountN -> p <> CPtr + m * ldc + n) ->
  tile_loops Compute2x2 Compute1x1 HasZeroPoint BlkLen
    QuantA QuantBData QuantBScale QuantBZeroPoint CountN BlockCountK ldc Bias
    C0 CPtr CountM p
  = C0 p.
Proof.
  intros Hp. unfold tile_loops.
  pose proof (Nat.div_mod_eq CountM 2) as ED.
  pose proof (Nat.mod_upper_bound CountM 2 ltac:(lia)) as EM.
  set (sA := StrideQuantA BlkLen BlockCountK).
  assert (H : (fun t (r : row_state (F := F)) =>
                 QuantARowPtr r = QuantA + 2 * t * sA /\
                 SumRowPtr r = CPtr + 2 * t * ldc /\
                 m_remaining r = CountM - 2 * t /\
                 rC r p = C0 p)
                (CountM / 2)
                (while_loop CountM (fun r => 1 <? m_remaining r)
                   (two_rows Compute2x2 Compute1x1 HasZeroPoint BlkLen
                      QuantBData QuantBScale QuantBZeroPoint CountN BlockCountK ldc
                      Bias)
                   {| QuantARowPtr := QuantA; SumRowPtr := CPtr;
                      m_remaining := CountM; rC := C0 |})).
  { apply (while_loop_invariant
             (fun t (r : row_state (F := F)) =>
                QuantARowPtr r = QuantA + 2 * t * sA /\
                SumRowPtr r = CPtr + 2 * t * ldc /\
                m_remaining r = CountM - 2 * t /\
                rC r p = C0 p)).
    - cbn [QuantARowPtr SumRowPtr m_remaining rC]. repeat split; lia.
    - intros t r Ht (HA & HS & HM & HC). split.
      + rewrite HM. apply Nat.ltb_lt. lia.
      + destruct (two_rows_spec mBias Compute2x2 Compute1x1 HasZeroPoint BlkLen
                    QuantBData QuantBScale QuantBZeroPoint CountN BlockCountK ldc Bias
                    (fun a b s z r c => sums2x2 (st2 a b s z) r c)
                    (fun a b s z => sum1x1 (st1 a b s z))
                    Compute2x2_stored Compute1x1_stored ldc_ge r)
          as (EA & ES & EM' & EC).
        rewrite EA, ES, EM', HA, HS, HM.
        split; [unfold sA; lia|]. split; [lia|]. split; [lia|].
        rewrite EC. unfold Int8Views.pair_filled. rewrite HS.
        destruct (in_range (CPtr + 2 * t * ldc) CountN p) eqn:R1.
        { apply in_range_true in R1. exfalso.
          apply (Hp (2 * t) (p - (CPtr + 2 * t * ldc))); lia. }
        destruct (in_range (CPtr + 2 * t * ldc + ldc) CountN p) eqn:R2.
        { apply in_range_true in R2. exfalso.
          apply (Hp (2 * t + 1) (p - (CPtr + 2 * t * ldc + ldc))); lia. }
        exact HC.
    - intros r (_ & _ & HM & _). rewrite HM. apply Nat.ltb_ge. lia.
    - lia. }
  cbv beta in H.
  set (r := while_loop CountM _ _ _) in *.
  destruct H as (HA & HS & HM & HC).
  destruct (0 <? m_remaining r) eqn:E; [|exact HC].
  apply Nat.ltb_lt in E.
  rewrite (last_row_spec mBias Compute1x1 HasZeroPoint BlkLen QuantBData QuantBScale
             QuantBZeroPoint CountN BlockCountK ldc Bias
             (fun a b s z => sum1x1 (st1 a b s z)) Compute1x1_stored ldc_ge r p).
  unfold Int8Views.single_filled. rewrite HS.
  destruct (in_range (CPtr + 2 * (CountM / 2) * ldc) CountN p) eqn:R1; [|exact HC].
  apply in_range_true in R1. exfalso.
  apply (Hp (2 * (CountM / 2)) (p - (CPtr + 2 * (CountM / 2) * ldc))); lia.
Qed.

End Loops.

(** X15: SQ4BitGemmKernel_CompInt8 writes the CountM rows of CountN
    elements of C, at the stride ldc, and nothing else: an address that
    is no [C + m * ldc + n] with [m < CountM] and [n < CountN] keeps its
    content, for every block length, with or without zero-points and
    bias; also between the rows when ldc exceeds CountN, and everywhere
    when CountM or CountN is 0. *)
Theorem SQ4BitGemmKernel_CompInt8_writes_only_C
    {F : Type} {ops : Fp32Ops F}
    (mQuantA : Q8Mem F) (mQuantBData : mem Z) (mQuantBScale : mem F)
    (mQuantBZeroPoint : mem Z) (mBias : mem F)
    (BlkLen QuantA QuantBData QuantBScale : nat) (QuantBZeroPoint : option nat)
    (C0 : mem F) (CPtr CountM CountN CountK BlockCountK ldc : nat)
    (Bias : option nat) (p : nat) :
  CountN <= ldc ->
  (forall m n, m < CountM -> n < CountN -> p <> CPtr + m * ldc + n) ->
  fst (SQ4BitGemmKernel_CompInt8 mQuantA mQuantBData mQuantBScale mQuantBZeroPoint mBias
         BlkLen QuantA QuantBData QuantBScale QuantBZeroPoint
         C0 CPtr CountM CountN CountK BlockCountK ldc Bias) p
  = C0 p.
Proof.
  intros Hl Hp. unfold SQ4BitGemmKernel_CompInt8. cbn [fst].
  unfold SQ4BitGemmKernel_CompInt8_DispatchOnBlkLen,
    SQ4BitGemmKernel_CompInt8_BlkLen16, SQ4BitGemmKernel_CompInt8_BlkLen32,
    SQ4BitGemmKernel_CompInt8_BlkLenGreaterThan32.
  destruct QuantBZeroPoint as [zp|];
    destruct (BlkLen =? 16); [|destruct (BlkLen =? 32)| |destruct (BlkLen =? 32)];
    (eapply tile_loops_frame;
     [intros; reflexivity | intros; reflexivity | assumption | assumption]).
Qed.

#[local] Existing Instance Exact.ops.

Import Examples.

Lemma SQ4BitGemmKernel_CompInt8_writes_only_C_witness :
  fst (SQ4BitGemmKernel_CompInt8 exact_QuantA nines_QuantBData exact_QuantBScale
         zp37_QuantBZeroPoint exact_bias 32 0 0 0 (Some 0)
         exact_C 10 3 3 64 2 5 (Some 0)) 13
  = exact_C 13.
Proof.
  apply (SQ4BitGemmKernel_CompInt8_writes_only_C exact_QuantA nines_QuantBData
           exact_QuantBScale zp37_QuantBZeroPoint exact_bias 32 0 0 0 (Some 0)
           exact_C 10 3 3 64 2 5 (Some 0) 13 ltac:(lia)).
  intros m n Hm Hn. lia.
Defined.

End Int8Kernel.


(** * The integer kernel on a part of the rows or of the columns *)

Module Int8Split.

Import Mlas Neon NeonFacts TwosComplement Q8 CompInt8 Int8Views Int8Facts Int8Kernel.

(** An address is that of an element of the [M] rows of [CountN]
    elements at the stride [ldc], or of none. *)
Lemma address_cases CPtr ldc CountN M p :
  CountN <= ldc ->
  (exists m n, m < M /\ n < CountN /\ p = CPtr + m * ldc + n)
  \/ (forall m n, m < M -> n < CountN -> p <> CPtr + m * ldc + n).
Proof.
  intros Hl.
  destruct (Nat.eq_dec ldc 0) as [-> | Hz].
  { right. intros m n _ Hn. lia. }
  destruct (Nat.lt_ge_cases p CPtr) as [Hp | Hp].
  { right. intros m n _ _. lia. }
  pose proof (Nat.div_mod_eq (p - CPtr) ldc) as E.
  pose proof (Nat.mod_upper_bound (p - CPtr) ldc Hz) as B.
  destruct (Nat.lt_ge_cases ((p - CPtr) / ldc) M) as [Hm | Hm];
    [destruct (Nat.lt_ge_cases ((p - CPtr) mod ldc) CountN) as [Hn | Hn]|].
  - left. exists ((p - CPtr) / ldc), ((p - CPtr) mod ldc). repeat split; lia.
  - right. intros m n Hm' Hn' ->.
    assert (Hr : (CPtr + m * ldc + n - CPtr) mod ldc = n).
    { symmetry. apply Nat.mod_unique with m; lia. }
    lia.
  - right. intros m n Hm' Hn' ->.
    assert (Hq : (CPtr + m * ldc + n - CPtr) / ldc = m).
    { symmetry. apply Nat.div_unique with n; lia. }
    lia.
Qed.

Section Loops.

Context {F : Type} {ops : Fp32Ops F}.
Variable mBias : mem F.
Variable Compute2x2 : compute2x2_t (F := F).
Variable Compute1x1 : compute1x1_t (F := F).
Variable HasZeroPoint : bool.
Variable BlkLen : nat.
Variables QuantBData QuantBScale QuantBZeroPoint : nat.
Variables CountN BlockCountK ldc : nat.
Variable Bias : option nat.

Variable st2 : nat -> nat -> nat -> nat -> tile2x2_state (F := F).
Variable st1 : nat -> nat -> nat -> nat -> tile1x1_state (F := F).

Hypothesis Compute2x2_stores : forall a b s z bias C sum l,
  Compute2x2 a b s z bias C sum BlockCountK
    (StrideQuantA BlkLen BlockCountK) (StrideQuantBData BlkLen BlockCountK)
    (StrideQuantBScale BlockCountK) (StrideQuantBZeroPoint BlockCountK) l
  = store2x2 mBias (st2 a b s z) bias C sum l.

Hypothesis Compute1x1_stores : forall a b s z bias C sum,
  Compute1x1 a b s z bias C sum BlockCountK
  = store1x1 mBias (st1 a b s z) bias C sum.

Hypothesis ldc_ge : CountN <= ldc.

Abbreviation loops QuantA :=
  (tile_loops Compute2x2 Compute1x1 HasZeroPoint BlkLen
     QuantA QuantBData QuantBScale QuantBZeroPoint CountN BlockCountK ldc Bias).

(** The loops over [2 * r + M2] rows are the loops over the first
    [2 * r] rows followed by the loops over the other [M2] rows. *)
Lemma tile_loops_split_rows QuantA C0 CPtr r M2 p :
  loops QuantA C0 CPtr (2 * r + M2) p
  = loops (QuantA + 2 * r * StrideQuantA BlkLen BlockCountK)
      (loops QuantA C0 CPtr (2 * r)) (CPtr + 2 * r * ldc) M2 p.
Proof.
  set (sA := StrideQuantA BlkLen BlockCountK).
  assert (Hr : 2 * r / 2 = r) by (rewrite Nat.mul_comm; apply Nat.div_mul; lia).
  assert (Hh : (2 * r + M2) / 2 = r + M2 / 2).
  { replace (2 * r + M2) with (M2 + r * 2) by lia. rewrite Nat.div_add by lia. lia. }
  destruct (address_cases CPtr ldc CountN (2 * r + M2) p ldc_ge)
    as [(m & n & Hm & Hn & ->) | Hout].
  - rewrite (tile_loops_element mBias Compute2x2 Compute1x1 HasZeroPoint BlkLen QuantA
               QuantBData QuantBScale QuantBZeroPoint CountN BlockCountK ldc Bias
               st2 st1 Compute2x2_stores Compute1x1_stores ldc_ge
               C0 CPtr (2 * r + M2) m n Hm Hn).
    cbv zeta. fold sA.
    destruct (Nat.lt_ge_cases m (2 * r)) as [Hlow | Hhigh].
    + rewrite (tile_loops_frame mBias Compute2x2 Compute1x1 HasZeroPoint BlkLen
                 (QuantA + 2 * r * sA)
                 QuantBData QuantBScale QuantBZeroPoint CountN BlockCountK ldc Bias
                 st2 st1 Compute2x2_stores Compute1x1_stores ldc_ge).
      2:{ intros m' n' Hm' Hn'. nia. }
      rewrite (tile_loops_element mBias Compute2x2 Compute1x1 HasZeroPoint BlkLen QuantA
                 QuantBData QuantBScale QuantBZeroPoint CountN BlockCountK ldc Bias
                 st2 st1 Compute2x2_stores Compute1x1_stores ldc_ge
                 C0 CPtr (2 * r) m n Hlow Hn).
      cbv zeta. fold sA. rewrite Hr, Hh.
      replace (m <? 2 * (r + M2 / 2)) with true by (symmetry; apply Nat.ltb_lt; lia).
      replace (m <? 2 * r) with true by (symmetry; apply Nat.ltb_lt; lia).
      reflexivity.
    + replace (CPtr + m * ldc + n) with (CPtr + 2 * r * ldc + (m - 2 * r) * ldc + n)
        by nia.
      rewrite (tile_loops_element mBias Compute2x2 Compute1x1 HasZeroPoint BlkLen
                 (QuantA + 2 * r * sA)
                 QuantBData QuantBScale QuantBZeroPoint CountN BlockCountK ldc Bias
                 st2 st1 Compute2x2_stores Compute1x1_stores ldc_ge
                 (loops QuantA C0 CPtr (2 * r)) (CPtr + 2 * r * ldc) M2 (m - 2 * r) n
                 ltac:(lia) Hn).
      cbv zeta. fold sA. rewrite Hh.
      assert (Hd : (m - 2 * r) / 2 = m / 2 - r).
      { replace m with (m - 2 * r + r * 2) at 2 by lia.
        rewrite Nat.div_add by lia. lia. }
      assert (Hmod : (m - 2 * r) mod 2 = m mod 2).
      { replace m with (m - 2 * r + r * 2) at 2 by lia.
        rewrite Nat.Div0.mod_add. reflexivity. }
      assert (Hge : r <= m / 2).
      { apply Nat.div_le_lower_bound; lia. }
      assert (Hc : (m - 2 * r <? 2 * (M2 / 2)) = (m <? 2 * (r + M2 / 2))).
      { destruct (m <? 2 * (r + M2 / 2)) eqn:E.
        - apply Nat.ltb_lt in E. apply Nat.ltb_lt. lia.
        - apply Nat.ltb_ge in E. apply Nat.ltb_ge. lia. }
      rewrite Hd, Hmod, Hc.
      replace (QuantA + 2 * r * sA + 2 * (m / 2 - r) * sA)
        with (QuantA + 2 * (m / 2) * sA) by nia.
      replace (QuantA + 2 * r * sA + (m - 2 * r) * sA) with (QuantA + m * sA) by nia.
      reflexivity.
  - rewrite (tile_loops_frame mBias Compute2x2 Compute1x1 HasZeroPoint BlkLen QuantA
               QuantBData QuantBScale QuantBZeroPoint CountN BlockCountK ldc Bias
               st2 st1 Compute2x2_stores Compute1x1_stores ldc_ge
               C0 CPtr (2 * r + M2) p Hout).
    rewrite (tile_loops_frame mBias Compute2x2 Compute1x1 HasZeroPoint BlkLen
               (QuantA + 2 * r * sA)
               QuantBData QuantBScale QuantBZeroPoint CountN BlockCountK ldc Bias
               st2 st1 Compute2x2_stores Compute1x1_stores ldc_ge).
    2:{ intros m' n' Hm' Hn' ->.
        apply (Hout (2 * r + m') n'); [lia | exact Hn' | nia]. }
    symmetry.
    apply (tile_loops_frame mBias Compute2x2 Compute1x1 HasZeroPoint BlkLen QuantA
             QuantBData QuantBScale QuantBZeroPoint CountN BlockCountK ldc Bias
             st2 st1 Compute2x2_stores Compute1x1_stores ldc_ge).
    intros m' n' Hm' Hn'. apply Hout; lia.
Qed.

End Loops.

(** X22: SQ4BitGemmKernel_CompInt8 may be called on a part of the rows:
    in any float arithmetic, with any block length, with or without
    zero-points and bias, one call for [2 * r + M2] rows leaves in every
    address what two calls leave, the first for the first [2 * r] rows
    and the second for the other [M2] rows, with the pointers of A and
    of C advanced by [2 * r] rows.  The split is at an even row: the
    rows of a pair share a 2x2 tile. *)
Theorem SQ4BitGemmKernel_CompInt8_split_rows
    {F : Type} {ops : Fp32Ops F}
    (mQuantA : Q8Mem F) (mQuantBData : mem Z) (mQuantBScale : mem F)
    (mQuantBZeroPoint : mem Z) (mBias : mem F)
    (BlkLen QuantA QuantBData QuantBScale : nat) (QuantBZeroPoint : option nat)
    (C0 : mem F) (CPtr r M2 CountN CountK BlockCountK ldc : nat)
    (Bias : option nat) (p : nat) :
  CountN <= ldc ->
  fst (SQ4BitGemmKernel_CompInt8 mQuantA mQuantBData mQuantBScale mQuantBZeroPoint mBias
         BlkLen QuantA QuantBData QuantBScale QuantBZeroPoint
         C0 CPtr (2 * r + M2) CountN CountK BlockCountK ldc Bias) p
  = fst (SQ4BitGemmKernel_CompInt8 mQuantA mQuantBData mQuantBScale mQuantBZeroPoint
           mBias BlkLen (QuantA + 2 * r * StrideQuantA BlkLen BlockCountK)
           QuantBData QuantBScale QuantBZeroPoint
           (fst (SQ4BitGemmKernel_CompInt8 mQuantA mQuantBData mQuantBScale
                   mQuantBZeroPoint mBias
                   BlkLen QuantA QuantBData QuantBScale QuantBZeroPoint
                   C0 CPtr (2 * r) CountN CountK BlockCountK ldc Bias))
           (CPtr + 2 * r * ldc) M2 CountN CountK BlockCountK ldc Bias) p.
Proof.
  intros Hl. unfold SQ4BitGemmKernel_CompInt8. cbn [fst].
  unfold SQ4BitGemmKernel_CompInt8_DispatchOnBlkLen,
    SQ4BitGemmKernel_CompInt8_BlkLen16, SQ4BitGemmKernel_CompInt8_BlkLen32,
    SQ4BitGemmKernel_CompInt8_BlkLenGreaterThan32.
  destruct QuantBZeroPoint as [zp|];
    destruct (BlkLen =? 16) eqn:E16;
    [ apply Nat.eqb_eq in E16; subst BlkLen
    | destruct (BlkLen =? 32) eqn:E32; [apply Nat.eqb_eq in E32; subst BlkLen|]
    | apply Nat.eqb_eq in E16; subst BlkLen
    | destruct (BlkLen =? 32) eqn:E32; [apply Nat.eqb_eq in E32; subst BlkLen|] ];
    (eapply tile_loops_split_rows;
     [intros; reflexivity | intros; reflexivity | assumption]).
Qed.

Lemma SQ4BitGemmKernel_CompInt8_split_rows_witness :
  fst (SQ4BitGemmKernel_CompInt8 (ops := Binary32.ops)
         Examples.ones_QuantA Examples.threes_QuantBData Examples.ones_QuantBScale
         Examples.zp37_QuantBZeroPoint Examples.unit_bias
         32 0 0 0 (Some 0) Examples.zero_C 10 (2 * 1 + 1) 3 64 2 5 (Some 0)) 22
  = fst (SQ4BitGemmKernel_CompInt8 (ops := Binary32.ops)
           Examples.ones_QuantA Examples.threes_QuantBData Examples.ones_QuantBScale
           Examples.zp37_QuantBZeroPoint Examples.unit_bias
           32 (0 + 2 * 1 * StrideQuantA 32 2) 0 0 (Some 0)
           (fst (SQ4BitGemmKernel_CompInt8 (ops := Binary32.ops)
                   Examples.ones_QuantA Examples.threes_QuantBData
                   Examples.ones_QuantBScale
                   Examples.zp37_QuantBZeroPoint Examples.unit_bias
                   32 0 0 0 (Some 0) Examples.zero_C 10 (2 * 1) 3 64 2 5 (Some 0)))
           (10 + 2 * 1 * 5) 1 3 64 2 5 (Some 0)) 22.
Proof.
  apply (SQ4BitGemmKernel_CompInt8_split_rows (ops := Binary32.ops)
           Examples.ones_QuantA Examples.threes_QuantBData Examples.ones_QuantBScale
           Examples.zp37_QuantBZeroPoint Examples.unit_bias
           32 0 0 0 (Some 0) Examples.zero_C 10 1 1 3 64 2 5 (Some 0) 22).
  lia.
Defined.

Section Columns.

Context {F : Type} {ops : Fp32Ops F}.
Variable mBias : mem F.
Variable Compute2x2 : compute2x2_t (F := F).
Variable Compute1x1 : compute1x1_t (F := F).
Variable HasZeroPoint : bool.
Variable BlkLen : nat.
Variable QuantA : nat.
Variables BlockCountK ldc : nat.

Variable st2 : nat -> nat -> nat -> nat -> tile2x2_state (F := F).
Variable st1 : nat -> nat -> nat -> nat -> tile1x1_state (F := F).

Hypothesis Compute2x2_stores : forall a b s z bias C sum l,
  Compute2x2 a b s z bias C sum BlockCountK
    (StrideQuantA BlkLen BlockCountK) (StrideQuantBData BlkLen BlockCountK)
    (StrideQuantBScale BlockCountK) (StrideQuantBZeroPoint BlockCountK) l
  = store2x2 mBias (st2 a b s z) bias C sum l.

Hypothesis Compute1x1_stores : forall a b s z bias C sum,
  Compute1x1 a b s z bias C sum BlockCountK
  = store1x1 mBias (st1 a b s z) bias C sum.

Abbreviation columns QuantBData QuantBScale QuantBZeroPoint CountN Bias :=
  (tile_loops Compute2x2 Compute1x1 HasZeroPoint BlkLen
     QuantA QuantBData QuantBScale QuantBZeroPoint CountN BlockCountK ldc Bias).

(** The loops over [2 * c + N2] columns are the loops over the first
    [2 * c] columns followed by the loops over the other [N2]
    columns. *)
Lemma tile_loops_split_columns QuantBData QuantBScale QuantBZeroPoint Bias
    C0 CPtr CountM c N2 p :
  2 * c + N2 <= ldc ->
  columns QuantBData QuantBScale QuantBZeroPoint (2 * c + N2) Bias C0 CPtr CountM p
  = columns (QuantBData + 2 * c * StrideQuantBData BlkLen BlockCountK)
      (QuantBScale + 2 * c * StrideQuantBScale BlockCountK)
      (if HasZeroPoint
       then QuantBZeroPoint + 2 * c * StrideQuantBZeroPoint BlockCountK
       else QuantBZeroPoint)
      N2 (option_map (fun b => b + 2 * c) Bias)
      (columns QuantBData QuantBScale QuantBZeroPoint (2 * c) Bias C0 CPtr CountM)
      (CPtr + 2 * c) CountM p.
Proof.
  intros Hl.
  set (sB := StrideQuantBData BlkLen BlockCountK).
  set (sS := StrideQuantBScale BlockCountK).
  set (sZ := StrideQuantBZeroPoint BlockCountK).
  assert (Hc2 : 2 * c / 2 = c) by (rewrite Nat.mul_comm; apply Nat.div_mul; lia).
  assert (Hh : (2 * c + N2) / 2 = c + N2 / 2).
  { replace (2 * c + N2) with (N2 + c * 2) by lia. rewrite Nat.div_add by lia. lia. }
  assert (L1 : 2 * c + N2 <= ldc) by exact Hl.
  assert (L2 : 2 * c <= ldc) by lia.
  assert (L3 : N2 <= ldc) by lia.
  destruct (address_cases CPtr ldc (2 * c + N2) CountM p L1)
    as [(m & n & Hm & Hn & ->) | Hout].
  - rewrite (tile_loops_element mBias Compute2x2 Compute1x1 HasZeroPoint BlkLen QuantA
               QuantBData QuantBScale QuantBZeroPoint (2 * c + N2) BlockCountK ldc Bias
               st2 st1 Compute2x2_stores Compute1x1_stores L1
               C0 CPtr CountM m n Hm Hn).
    cbv zeta. fold sB sS sZ.
    destruct (Nat.lt_ge_cases n (2 * c)) as [Hlow | Hhigh].
    + rewrite (tile_loops_frame mBias Compute2x2 Compute1x1 HasZeroPoint BlkLen QuantA
                 (QuantBData + 2 * c * sB) (QuantBScale + 2 * c * sS)
                 (if HasZeroPoint then QuantBZeroPoint + 2 * c * sZ else QuantBZeroPoint)
                 N2 BlockCountK ldc (option_map (fun b => b + 2 * c) Bias)
                 st2 st1 Compute2x2_stores Compute1x1_stores L3).
      2:{ intros m' n' Hm' Hn' E.
          destruct (Nat.lt_trichotomy m m') as [H | [H | H]]; nia. }
      rewrite (tile_loops_element mBias Compute2x2 Compute1x1 HasZeroPoint BlkLen QuantA
                 QuantBData QuantBScale QuantBZeroPoint (2 * c) BlockCountK ldc Bias
                 st2 st1 Compute2x2_stores Compute1x1_stores L2
                 C0 CPtr CountM m n Hm Hlow).
      cbv zeta. fold sB sS sZ. rewrite Hc2, Hh.
      replace (n <? 2 * (c + N2 / 2)) with true by (symmetry; apply Nat.ltb_lt; lia).
      replace (n <? 2 * c) with true by (symmetry; apply Nat.ltb_lt; lia).
      reflexivity.
    + replace (CPtr + m * ldc + n) with (CPtr + 2 * c + m * ldc + (n - 2 * c)) by lia.
      rewrite (tile_loops_element mBias Compute2x2 Compute1x1 HasZeroPoint BlkLen QuantA
                 (QuantBData + 2 * c * sB) (QuantBScale + 2 * c * sS)
                 (if HasZeroPoint then QuantBZeroPoint + 2 * c * sZ else QuantBZeroPoint)
                 N2 BlockCountK ldc (option_map (fun b => b + 2 * c) Bias)
                 st2 st1 Compute2x2_stores Compute1x1_stores L3
                 (columns QuantBData QuantBScale QuantBZeroPoint (2 * c) Bias
                    C0 CPtr CountM)
                 (CPtr + 2 * c) CountM m (n - 2 * c) Hm ltac:(lia)).
      cbv zeta. fold sB sS sZ. rewrite Hh.
      assert (Hd : (n - 2 * c) / 2 = n / 2 - c).
      { replace n with (n - 2 * c + c * 2) at 2 by lia.
        rewrite Nat.div_add by lia. lia. }
      assert (Hmod : (n - 2 * c) mod 2 = n mod 2).
      { replace n with (n - 2 * c + c * 2) at 2 by lia.
        rewrite Nat.Div0.mod_add. reflexivity. }
      assert (Hge : c <= n / 2).
      { apply Nat.div_le_lower_bound; lia. }
      assert (Hc : (n - 2 * c <? 2 * (N2 / 2)) = (n <? 2 * (c + N2 / 2))).
      { destruct (n <? 2 * (c + N2 / 2)) eqn:E.
        - apply Nat.ltb_lt in E. apply Nat.ltb_lt. lia.
        - apply Nat.ltb_ge in E. apply Nat.ltb_ge. lia. }
      rewrite Hd, Hmod, Hc.
      replace (QuantBData + 2 * c * sB + 2 * (n / 2 - c) * sB)
        with (QuantBData + 2 * (n / 2) * sB) by nia.
      replace (QuantBData + 2 * c * sB + (n - 2 * c) * sB)
        with (QuantBData + n * sB) by nia.
      replace (QuantBScale + 2 * c * sS + 2 * (n / 2 - c) * sS)
        with (QuantBScale + 2 * (n / 2) * sS) by nia.
      replace (QuantBScale + 2 * c * sS + (n - 2 * c) * sS)
        with (QuantBScale + n * sS) by nia.
      assert (HB : forall x,
                with_bias mBias (option_map (fun b => b + 2 * c) Bias) (n - 2 * c) x
                = with_bias mBias Bias n x).
      { intros x. destruct Bias as [b|]; cbn [option_map with_bias]; [|reflexivity].
        replace (b + 2 * c + (n - 2 * c)) with (b + n) by lia. reflexivity. }
      rewrite HB.
      destruct HasZeroPoint.
      * replace (QuantBZeroPoint + 2 * c * sZ + 2 * (n / 2 - c) * sZ)
          with (QuantBZeroPoint + 2 * (n / 2) * sZ) by nia.
        replace (QuantBZeroPoint + 2 * c * sZ + (n - 2 * c) * sZ)
          with (QuantBZeroPoint + n * sZ) by nia.
        reflexivity.
      * reflexivity.
  - rewrite (tile_loops_frame mBias Compute2x2 Compute1x1 HasZeroPoint BlkLen QuantA
               QuantBData QuantBScale QuantBZeroPoint (2 * c + N2) BlockCountK ldc Bias
               st2 st1 Compute2x2_stores Compute1x1_stores L1
               C0 CPtr CountM p Hout).
    rewrite (tile_loops_frame mBias Compute2x2 Compute1x1 HasZeroPoint BlkLen QuantA
               (QuantBData + 2 * c * sB) (QuantBScale + 2 * c * sS)
               (if HasZeroPoint then QuantBZeroPoint + 2 * c * sZ else QuantBZeroPoint)
               N2 BlockCountK ldc (option_map (fun b => b + 2 * c) Bias)
               st2 st1 Compute2x2_stores Compute1x1_stores L3).
    2:{ intros m' n' Hm' Hn' ->.
        apply (Hout m' (2 * c + n')); [exact Hm' | lia | lia]. }
    symmetry.
    apply (tile_loops_frame mBias Compute2x2 Compute1x1 HasZeroPoint BlkLen QuantA
             QuantBData QuantBScale QuantBZeroPoint (2 * c) BlockCountK ldc Bias
             st2 st1 Compute2x2_stores Compute1x1_stores L2).
    intros m' n' Hm' Hn'. apply Hout; lia.
Qed.

End Columns.

(** X23: SQ4BitGemmKernel_CompInt8 may be called on a part of the
    columns: in any float arithmetic, with any block length, with or
    without zero-points and bias, one call for [2 * c + N2] columns
    leaves in every address what two calls leave, the first for the
    first [2 * c] columns and the second for the other [N2] columns,
    with the pointers of the data, the scales and the zero-points of B,
    of the bias and of C advanced by [2 * c] columns.  The split is at
    an even column: the columns of a pair share a 2x2 tile. *)
Theorem SQ4BitGemmKernel_CompInt8_split_columns
    {F : Type} {ops : Fp32Ops F}
    (mQuantA : Q8Mem F) (mQuantBData : mem Z) (mQuantBScale : mem F)
    (mQuantBZeroPoint : mem Z) (mBias : mem F)
    (BlkLen QuantA QuantBData QuantBScale : nat) (QuantBZeroPoint : option nat)
    (C0 : mem F) (CPtr CountM c N2 CountK BlockCountK ldc : nat)
    (Bias : option nat) (p : nat) :
  2 * c + N2 <= ldc ->
  fst (SQ4BitGemmKernel_CompInt8 mQuantA mQuantBData mQuantBScale mQuantBZeroPoint mBias
         BlkLen QuantA QuantBData QuantBScale QuantBZeroPoint
         C0 CPtr CountM (2 * c + N2) CountK BlockCountK ldc Bias) p
  = fst (SQ4BitGemmKernel_CompInt8 mQuantA mQuantBData mQuantBScale mQuantBZeroPoint
           mBias BlkLen QuantA
           (QuantBData + 2 * c * StrideQuantBData BlkLen BlockCountK)
           (QuantBScale + 2 * c * StrideQuantBScale BlockCountK)
           (option_map (fun z => z + 2 * c * StrideQuantBZeroPoint BlockCountK)
              QuantBZeroPoint)
           (fst (SQ4BitGemmKernel_CompInt8 mQuantA mQuantBData mQuantBScale
                   mQuantBZeroPoint mBias
                   BlkLen QuantA QuantBData QuantBScale QuantBZeroPoint
                   C0 CPtr CountM (2 * c) CountK BlockCountK ldc Bias))
           (CPtr + 2 * c) CountM N2 CountK BlockCountK ldc
           (option_map (fun b => b + 2 * c) Bias)) p.
Proof.
  intros Hl. unfold SQ4BitGemmKernel_CompInt8. cbn [fst].
  unfold SQ4BitGemmKernel_CompInt8_DispatchOnBlkLen,
    SQ4BitGemmKernel_CompInt8_BlkLen16, SQ4BitGemmKernel_CompInt8_BlkLen32,
    SQ4BitGemmKernel_CompInt8_BlkLenGreaterThan32.
  destruct QuantBZeroPoint as [zp|]; cbn [option_map];
    destruct (BlkLen =? 16) eqn:E16;
    [ apply Nat.eqb_eq in E16; subst BlkLen
    | destruct (BlkLen =? 32) eqn:E32; [apply Nat.eqb_eq in E32; subst BlkLen|]
    | apply Nat.eqb_eq in E16; subst BlkLen
    | destruct (BlkLen =? 32) eqn:E32; [apply Nat.eqb_eq in E32; subst BlkLen|] ];
    (eapply tile_loops_split_columns;
     [intros; reflexivity | intros; reflexivity | assumption]).
Qed.

Lemma SQ4BitGemmKernel_CompInt8_split_columns_witness :
  fst (SQ4BitGemmKernel_CompInt8 (ops := Binary32.ops)
         Examples.ones_QuantA Examples.threes_QuantBData Examples.ones_QuantBScale
         Examples.zp37_QuantBZeroPoint Examples.unit_bias
         32 0 0 0 (Some 0) Examples.zero_C 10 3 (2 * 1 + 1) 64 2 5 (Some 0)) 22
  = fst (SQ4BitGemmKernel_CompInt8 (ops := Binary32.ops)
           Examples.ones_QuantA Examples.threes_QuantBData Examples.ones_QuantBScale
           Examples.zp37_QuantBZeroPoint Examples.unit_bias
           32 0 (0 + 2 * 1 * StrideQuantBData 32 2) (0 + 2 * 1 * StrideQuantBScale 2)
           (option_map (fun z => z + 2 * 1 * StrideQuantBZeroPoint 2) (Some 0))
           (fst (SQ4BitGemmKernel_CompInt8 (ops := Binary32.ops)
                   Examples.ones_QuantA Examples.threes_QuantBData
                   Examples.ones_QuantBScale
                   Examples.zp37_QuantBZeroPoint Examples.unit_bias
                   32 0 0 0 (Some 0) Examples.zero_C 10 3 (2 * 1) 64 2 5 (Some 0)))
           (10 + 2 * 1) 3 1 64 2 5 (option_map (fun b => b + 2 * 1) (Some 0))) 22.
Proof.
  apply (SQ4BitGemmKernel_CompInt8_split_columns (ops := Binary32.ops)
           Examples.ones_QuantA Examples.threes_QuantBData Examples.ones_QuantBScale
           Examples.zp37_QuantBZeroPoint Examples.unit_bias
           32 0 0 0 (Some 0) Examples.zero_C 10 3 1 1 64 2 5 (Some 0) 22).
  lia.
Defined.

End Int8Split.


(** * The float kernel: the partial sums of a column *)

Module Fp32Lanes.

Import Mlas Neon NeonFacts CompFp32 Fp32Facts DequantB DequantViews Fp32Order.
Import Fp32Views.

Section Chains.

Context {F : Type} {ops : Fp32Ops F}.

Lemma fma_chain_ext n (x x' b b' : nat -> F) :
  (forall j, j < n -> x j = x' j) -> (forall j, j < n -> b j = b' j) ->
  fma_chain n x b = fma_chain n x' b'.
Proof.
  induction n as [|n IH]; intros Hx Hb; [reflexivity|].
  cbn [fma_chain]. rewrite IH by (intros; auto). rewrite Hx, Hb by lia. reflexivity.
Qed.

Lemma dot4_ext n (x x' b b' : nat -> F) :
  (forall k, k < 4 * n -> x k = x' k) -> (forall k, k < 4 * n -> b k = b' k) ->
  dot4 n x b = dot4 n x' b'.
Proof.
  intros Hx Hb. unfold dot4, partial_sum.
  rewrite (fma_chain_ext n (fun j => x (4 * j + 0)) (fun j => x' (4 * j + 0))
             (fun j => b (4 * j + 0)) (fun j => b' (4 * j + 0)))
    by (intros; first [apply Hx | apply Hb]; lia).
  rewrite (fma_chain_ext n (fun j => x (4 * j + 1)) (fun j => x' (4 * j + 1))
             (fun j => b (4 * j + 1)) (fun j => b' (4 * j + 1)))
    by (intros; first [apply Hx | apply Hb]; lia).
  rewrite (fma_chain_ext n (fun j => x (4 * j + 2)) (fun j => x' (4 * j + 2))
             (fun j => b (4 * j + 2)) (fun j => b' (4 * j + 2)))
    by (intros; first [apply Hx | apply Hb]; lia).
  rewrite (fma_chain_ext n (fun j => x (4 * j + 3)) (fun j => x' (4 * j + 3))
             (fun j => b (4 * j + 3)) (fun j => b' (4 * j + 3)))
    by (intros; first [apply Hx | apply Hb]; lia).
  reflexivity.
Qed.

Lemma fma_chain_4 n (x b : nat -> F) :
  fma_chain (n + 4) x b
  = ffma (ffma (ffma (ffma (fma_chain n x b) (x n) (b n))
                     (x (n + 1)) (b (n + 1)))
               (x (n + 2)) (b (n + 2)))
         (x (n + 3)) (b (n + 3)).
Proof.
  replace (n + 4) with (S (S (S (S n)))) by lia.
  cbn [fma_chain].
  replace (S n) with (n + 1) by lia.
  replace (S (n + 1)) with (n + 2) by lia.
  replace (S (n + 2)) with (n + 3) by lia.
  reflexivity.
Qed.

Lemma flane_vfmaq_f32 (a b c : list F) l :
  l < 4 -> flane (vfmaq_f32 a b c) l = ffma (flane a l) (flane b l) (flane c l).
Proof. intros H. unfold vfmaq_f32. rewrite flane_tabulate by exact H. reflexivity. Qed.

End Chains.

Section Column.

Context {F : Type} {ops : Fp32Ops F}.

Variable mA : mem F.
Variable mQuantBData : mem Z.
Variable mQuantBScale : mem F.
Variable mQuantBZeroPoint : mem Z.

Variable HasZeroPoint : bool.
Variable BlkLen A CountK sB : nat.

(** A sub-block adds to every lane four products, in the order of the
    elements. *)
Lemma sub_block_step_lane st scale offset k len kk acc l :
  l < 4 ->
  flane
    (varr (sub_block_step mA mQuantBData 1 HasZeroPoint A sB st scale offset k len kk acc) 0)
    l
  = ffma
      (ffma
         (ffma
            (ffma (flane (varr acc 0) l)
               (padded mA (A + k + kk) (Nat.min (len - kk) 16) (4 * 0 + l))
               (sub_block_elem mQuantBData HasZeroPoint (QuantBData st + kk / 2)
                  (flane offset 0) (flane scale 0) (4 * 0 + l)))
            (padded mA (A + k + kk) (Nat.min (len - kk) 16) (4 * 1 + l))
            (sub_block_elem mQuantBData HasZeroPoint (QuantBData st + kk / 2)
               (flane offset 0) (flane scale 0) (4 * 1 + l)))
         (padded mA (A + k + kk) (Nat.min (len - kk) 16) (4 * 2 + l))
         (sub_block_elem mQuantBData HasZeroPoint (QuantBData st + kk / 2)
            (flane offset 0) (flane scale 0) (4 * 2 + l)))
      (padded mA (A + k + kk) (Nat.min (len - kk) 16) (4 * 3 + l))
      (sub_block_elem mQuantBData HasZeroPoint (QuantBData st + kk / 2)
         (flane offset 0) (flane scale 0) (4 * 3 + l)).
Proof.
  intros Hl.
  unfold CompFp32.sub_block_step.
  replace (kk * CompFp32.BlkBitWidth / 8) with (kk / 2).
  2:{ unfold CompFp32.BlkBitWidth. replace 8 with (4 * 2) by reflexivity.
      rewrite <- Nat.Div0.div_div, Nat.div_mul by lia. reflexivity. }
  change CompFp32.SubBlkLen with 16.
  set (av := LoadFloatData mA (A + k + kk) (Nat.min (len - kk) 16) 0 (zero_f32x4_array 4)).
  assert (Hav : forall j l, j < 4 -> l < 4 ->
            flane (varr av j) l
            = padded mA (A + k + kk) (Nat.min (len - kk) 16) (4 * j + l)).
  { intros j l' Hj Hl'. apply LoadFloatData_lanes; lia. }
  clearbody av.
  unfold for_up. cbn [seq fold_left].
  rewrite !varr_tabulate by lia. rewrite !nth_tabulate by lia.
  replace (QuantBData st + 0 * sB + kk / 2) with (QuantBData st + kk / 2) by lia.
  rewrite !flane_vfmaq_f32 by exact Hl.
  rewrite !Hav by lia.
  unfold sub_block_elem.
  assert (D : forall j, j < 4 -> (4 * j + l) / 4 = j /\ (4 * j + l) mod 4 = l).
  { intros j Hj. split.
    - symmetry. apply Nat.div_unique with l; lia.
    - symmetry. apply Nat.mod_unique with j; lia. }
  destruct (D 0 ltac:(lia)) as [-> ->]. destruct (D 1 ltac:(lia)) as [-> ->].
  destruct (D 2 ltac:(lia)) as [-> ->]. destruct (D 3 ltac:(lia)) as [-> ->].
  reflexivity.
Qed.

Variable sS sZ bcol scol zcol : nat.
Variable m : nat.
Hypothesis BlkLen_16 : BlkLen = 16 * m.
Hypothesis BlkLen_pos : 0 < m.

Abbreviation column_elem :=
  (@Fp32Order.column_elem F ops mQuantBData mQuantBScale mQuantBZeroPoint HasZeroPoint
     BlkLen bcol scol zcol).
Abbreviation lane_after :=
  (@Fp32Order.lane_after F ops mA mQuantBData mQuantBScale mQuantBZeroPoint HasZeroPoint
     BlkLen A CountK bcol scol zcol).
Abbreviation at_block := (@Fp32Order.at_block F HasZeroPoint bcol scol m).

Lemma sub_block_elem_column b st scale offset s t :
  at_block b st ->
  flane scale 0 = mQuantBScale (scol + b) ->
  (HasZeroPoint = true ->
   flane offset 0
   = fadd fp32_conversion.offset (f_of_Z (load_zero_point mQuantBZeroPoint zcol b))) ->
  s < m -> t < 16 ->
  sub_block_elem mQuantBData HasZeroPoint (QuantBData st + 16 * s / 2)
    (flane offset 0) (flane scale 0) t
  = column_elem (b * BlkLen + 16 * s + t).
Proof.
  intros (HQ & _ & _) Hsc Hoff Hs Ht. unfold Fp32Order.column_elem.
  assert (Hd : (b * BlkLen + 16 * s + t) / 16 = b * m + s).
  { symmetry. apply Nat.div_unique with t; [exact Ht | rewrite BlkLen_16; lia]. }
  assert (Hr : (b * BlkLen + 16 * s + t) mod 16 = t).
  { symmetry. apply Nat.mod_unique with (b * m + s); [exact Ht | rewrite BlkLen_16; lia]. }
  assert (Hb : (b * BlkLen + 16 * s + t) / BlkLen = b).
  { symmetry. apply Nat.div_unique with (16 * s + t); rewrite BlkLen_16; lia. }
  rewrite Hd, Hr, Hb, HQ, Hsc.
  replace (16 * s / 2) with (8 * s) by (apply Nat.div_unique with 0; lia).
  replace (bcol + b * (8 * m) + 8 * s) with (bcol + (b * m + s) * 8) by lia.
  destruct HasZeroPoint.
  - rewrite Hoff by reflexivity. reflexivity.
  - apply DequantFacts.sub_block_elem_no_offset.
Qed.

Lemma padded_column b s t :
  s < m -> t < 16 ->
  padded mA (A + b * BlkLen + 16 * s)
    (Nat.min (Nat.min (CountK - b * BlkLen) BlkLen - 16 * s) 16) t
  = padded mA A CountK (b * BlkLen + 16 * s + t).
Proof.
  intros Hs Ht. unfold padded.
  destruct (b * BlkLen + 16 * s + t <? CountK) eqn:E.
  - apply Nat.ltb_lt in E.
    replace (t <? Nat.min (Nat.min (CountK - b * BlkLen) BlkLen - 16 * s) 16) with true
      by (symmetry; apply Nat.ltb_lt; rewrite BlkLen_16 in *; lia).
    f_equal. lia.
  - apply Nat.ltb_ge in E.
    replace (t <? Nat.min (Nat.min (CountK - b * BlkLen) BlkLen - 16 * s) 16) with false
      by (symmetry; apply Nat.ltb_ge; lia).
    reflexivity.
Qed.

Lemma sub_block_loop_lane b st scale offset l :
  l < 4 ->
  at_block b st ->
  flane scale 0 = mQuantBScale (scol + b) ->
  (HasZeroPoint = true ->
   flane offset 0
   = fadd fp32_conversion.offset (f_of_Z (load_zero_point mQuantBZeroPoint zcol b))) ->
  forall n acc0, n <= m ->
    flane (varr acc0 0) l = lane_after (b * m) l ->
    flane
      (varr (for_up n
               (fun q => sub_block_step mA mQuantBData 1 HasZeroPoint A sB st scale offset
                           (b * BlkLen) (Nat.min (CountK - b * BlkLen) BlkLen)
                           (q * CompFp32.SubBlkLen))
               acc0) 0) l
    = lane_after (b * m + n) l.
Proof.
  intros Hl Hat Hsc Hoff. induction n as [|n IH]; intros acc0 Hn H0.
  - rewrite for_up_0, Nat.add_0_r. exact H0.
  - rewrite for_up_S. cbv zeta.
    rewrite sub_block_step_lane by exact Hl.
    rewrite IH by (try lia; exact H0).
    change CompFp32.SubBlkLen with 16.
    replace (n * 16) with (16 * n) by lia.
    unfold Fp32Order.lane_after.
    replace (4 * (b * m + S n)) with (4 * (b * m + n) + 4) by lia.
    rewrite fma_chain_4.
    rewrite !(sub_block_elem_column b) by (assumption || lia).
    rewrite !padded_column by lia.
    replace (b * BlkLen + 16 * n + (4 * 0 + l)) with (4 * (4 * (b * m + n)) + l)
      by (rewrite BlkLen_16; lia).
    replace (b * BlkLen + 16 * n + (4 * 1 + l)) with (4 * (4 * (b * m + n) + 1) + l)
      by (rewrite BlkLen_16; lia).
    replace (b * BlkLen + 16 * n + (4 * 2 + l)) with (4 * (4 * (b * m + n) + 2) + l)
      by (rewrite BlkLen_16; lia).
    replace (b * BlkLen + 16 * n + (4 * 3 + l)) with (4 * (4 * (b * m + n) + 3) + l)
      by (rewrite BlkLen_16; lia).
    reflexivity.
Qed.

(** Past the end of the row the lanes receive products with the zeros of
    the padding only up to the next multiple of sixteen. *)
Lemma block_step_lane b st l :
  l < 4 ->
  at_block b st ->
  flane (varr (acc st) 0) l
  = lane_after (MlasDivRoundup (Nat.min CountK (b * BlkLen)) 16) l ->
  let st' := CompFp32.block_step mA mQuantBData mQuantBScale mQuantBZeroPoint 1 HasZeroPoint
               BlkLen A zcol CountK sB sS sZ (b * BlkLen) st in
  at_block (S b) st' /\
  (b * BlkLen < CountK ->
   flane (varr (acc st') 0) l
   = lane_after (MlasDivRoundup (Nat.min CountK (S b * BlkLen)) 16) l).
Proof.
  intros Hl Hat Hv. pose proof Hat as (HQ & HS & HI).
  unfold CompFp32.block_step. cbv zeta.
  cbn [QuantBData QuantBScale QuantBZeroPointIdx acc].
  split.
  - unfold Fp32Order.at_block. cbn [QuantBData QuantBScale QuantBZeroPointIdx].
    rewrite HQ, HS, HI. change CompFp32.BlkBitWidth with 4.
    rewrite MlasQNBitBlkDataSizeInBytes_half, BlkLen_16.
    replace (16 * m / 2) with (8 * m)
      by (apply Nat.div_unique with 0; lia).
    repeat split; try lia. destruct HasZeroPoint; lia.
  - intros Hb.
    rewrite for_step_for_up by (unfold CompFp32.SubBlkLen; lia).
    change CompFp32.SubBlkLen with 16.
    assert (E0 : MlasDivRoundup (Nat.min CountK (b * BlkLen)) 16 = b * m).
    { replace (Nat.min CountK (b * BlkLen)) with (b * m * 16) by (rewrite BlkLen_16; lia).
      destruct (MlasDivRoundup_bounds (b * m * 16) 16 ltac:(lia)) as [Hge Hlt].
      destruct (Nat.lt_trichotomy (MlasDivRoundup (b * m * 16) 16) (b * m))
        as [H | [H | H]]; [lia | exact H |].
      specialize (Hlt (b * m) H). lia. }
    rewrite E0 in Hv.
    set (len := Nat.min (CountK - b * BlkLen) BlkLen).
    assert (Hlen : 0 < len <= BlkLen) by (unfold len; rewrite BlkLen_16 in *; lia).
    destruct (MlasDivRoundup_bounds len 16 ltac:(lia)) as [Hge Hlt].
    assert (Hn : MlasDivRoundup len 16 <= m).
    { destruct (Nat.le_gt_cases (MlasDivRoundup len 16) m) as [H | H]; [exact H|].
      specialize (Hlt m H). lia. }
    assert (E1 : MlasDivRoundup (Nat.min CountK (S b * BlkLen)) 16
                 = b * m + MlasDivRoundup len 16).
    { replace (Nat.min CountK (S b * BlkLen)) with (b * m * 16 + len)
        by (unfold len; rewrite BlkLen_16 in *; lia).
      set (c := MlasDivRoundup len 16) in *.
      destruct (MlasDivRoundup_bounds (b * m * 16 + len) 16 ltac:(lia)) as [Hge' Hlt'].
      destruct (Nat.lt_trichotomy (MlasDivRoundup (b * m * 16 + len) 16) (b * m + c))
        as [H | [H | H]]; [| exact H |].
      - assert (Hc : MlasDivRoundup (b * m * 16 + len) 16 - b * m < c) by lia.
        specialize (Hlt _ Hc). lia.
      - specialize (Hlt' _ H). lia. }
    rewrite E1.
    apply (sub_block_loop_lane b st); try assumption.
    + rewrite flane_tabulate by lia. rewrite HS. f_equal. lia.
    + intros Hz. rewrite Hz in *. rewrite flane_tabulate by lia.
      rewrite HI. replace (zcol + 0 * sZ) with zcol by lia. reflexivity.
Qed.

(** The partial sums of the column when the loop over the blocks ends. *)
Lemma column_state_lane l :
  l < 4 ->
  flane (varr (acc (CompFp32.column_state mA mQuantBData mQuantBScale mQuantBZeroPoint
                      HasZeroPoint BlkLen A CountK sB sS sZ bcol scol zcol)) 0) l
  = lane_after (MlasDivRoundup CountK 16) l.
Proof.
  intros Hl. unfold CompFp32.column_state.
  rewrite for_step_for_up by (rewrite BlkLen_16; lia).
  set (init := {| acc := zero_f32x4_array 1; QuantBData := bcol;
                  QuantBScale := scol; QuantBZeroPointIdx := 0 |}).
  destruct (MlasDivRoundup_bounds CountK BlkLen ltac:(rewrite BlkLen_16; lia)) as [Hge Hlt].
  assert (G : forall b, b <= MlasDivRoundup CountK BlkLen ->
             let st := for_up b
                         (fun q => CompFp32.block_step mA mQuantBData mQuantBScale mQuantBZeroPoint
                                     1 HasZeroPoint BlkLen A zcol CountK sB sS sZ
                                     (q * BlkLen)) init in
             at_block b st /\
             flane (varr (acc st) 0) l
             = lane_after (MlasDivRoundup (Nat.min CountK (b * BlkLen)) 16) l).
  { induction b as [|b IH]; intros Hb.
    - rewrite for_up_0. split.
      + unfold Fp32Order.at_block, init. cbn [QuantBData QuantBScale QuantBZeroPointIdx].
        repeat split; try lia. destruct HasZeroPoint; reflexivity.
      + unfold init. cbn [acc]. unfold zero_f32x4_array.
        rewrite varr_tabulate by lia. rewrite flane_zero.
        replace (Nat.min CountK (0 * BlkLen)) with 0 by lia.
        reflexivity.
    - cbv zeta. rewrite for_up_S.
      destruct (IH ltac:(lia)) as [IHa IHv].
      destruct (block_step_lane b _ l Hl IHa IHv) as [Ha Hv]. split; [exact Ha|].
      apply Hv.
      destruct (Nat.lt_ge_cases (b * BlkLen) CountK) as [H | H]; [exact H|].
      assert (Hb' : b < MlasDivRoundup CountK BlkLen) by lia.
      specialize (Hlt b Hb'). lia. }
  destruct (G (MlasDivRoundup CountK BlkLen) (Nat.le_refl _)) as [_ ->].
  replace (Nat.min CountK (MlasDivRoundup CountK BlkLen * BlkLen)) with CountK by lia.
  reflexivity.
Qed.

(** The value of the column: the four partial sums added pairwise. *)
Lemma column_value_dot4 :
  CompFp32.column_value mA mQuantBData mQuantBScale mQuantBZeroPoint
    HasZeroPoint BlkLen A CountK sB sS sZ bcol scol zcol
  = dot4 (4 * MlasDivRoundup CountK 16) (padded mA A CountK) column_elem.
Proof.
  unfold CompFp32.column_value, vaddvq_f32.
  rewrite !column_state_lane by lia. reflexivity.
Qed.

End Column.

(** ** The kernel *)

Section Kernel.

Context {F : Type} {ops : Fp32Ops F}.

(** In any arithmetic the element of column [n] is the dot product, in
    four partial sums, of the row padded with zeros with the column as
    the kernel dequantizes it, plus the bias. *)
Lemma kernel_dot4
    (mA : mem F) (mQuantBData : mem Z) (mQuantBScale : mem F)
    (mQuantBZeroPoint : mem Z) (mBias : mem F)
    (BlkLen A QuantBData QuantBScale : nat) (QuantBZeroPoint : option nat)
    (C0 : mem F) (CPtr CountN CountK BlockCountK : nat) (Bias : option nat) (n : nat) :
  0 < BlkLen -> BlkLen mod 16 = 0 -> n < CountN ->
  SQ4BitGemmM1Kernel_CompFp32 mA mQuantBData mQuantBScale mQuantBZeroPoint mBias
    BlkLen A QuantBData QuantBScale QuantBZeroPoint
    C0 CPtr CountN CountK BlockCountK Bias (CPtr + n)
  = CompFp32.with_bias mBias Bias n
      (dot4 (4 * MlasDivRoundup CountK 16) (padded mA A CountK)
         (fun k =>
            dequantized mQuantBData mQuantBScale mQuantBZeroPoint
              (has_zero_point QuantBZeroPoint) BlkLen BlockCountK
              QuantBData QuantBScale (zero_point_ptr QuantBZeroPoint) k n)).
Proof.
  intros Hpos Hmod Hn.
  assert (H16 : BlkLen = 16 * (BlkLen / 16)).
  { pose proof (Nat.div_mod_eq BlkLen 16) as E. rewrite Hmod in E. lia. }
  assert (Hm : 0 < BlkLen / 16) by lia.
  unfold SQ4BitGemmM1Kernel_CompFp32.
  destruct QuantBZeroPoint as [zp|]; rewrite Impl_spec; unfold filled;
    (replace (in_range CPtr CountN (CPtr + n)) with true
       by (symmetry; apply in_range_true; lia));
    replace (CPtr + n - CPtr) with n by lia;
    unfold output_value;
    rewrite (column_value_dot4 mA mQuantBData mQuantBScale mQuantBZeroPoint
               _ BlkLen A CountK _ _ _ _ _ _ (BlkLen / 16) H16 Hm);
    reflexivity.
Qed.

End Kernel.

Import Binary32 DequantValues.

(** The float that the kernel makes of an element of B, in binary32. *)
Lemma dequantized_binary32
    (mQuantBData : mem Z) (mQuantBScale : mem spec_float) (mQuantBZeroPoint : mem Z)
    HasZeroPoint BlkLen BlockCountK QuantBData QuantBScale QuantBZeroPoint k n :
  (forall p, Byte8.is_byte (mQuantBData p)) ->
  (forall p, Byte8.is_byte (mQuantBZeroPoint p)) ->
  dequantized mQuantBData mQuantBScale mQuantBZeroPoint HasZeroPoint BlkLen BlockCountK
    QuantBData QuantBScale QuantBZeroPoint k n
  = SFmul prec emax
      (of_Z (code mQuantBData BlkLen BlockCountK QuantBData k n
             - zero_point mQuantBZeroPoint HasZeroPoint BlockCountK QuantBZeroPoint
                 (k / BlkLen) n))
      (block_scale mQuantBScale BlockCountK QuantBScale (k / BlkLen) n).
Proof.
  intros HQ HZ. rewrite dequantized_value.
  cbn [fmul fsub fadd f_of_bits f_of_Z Binary32.ops].
  change (@fp32_conversion.offset spec_float Binary32.ops) with (of_Z 16).
  rewrite binary32_code_minus_zero_point;
    [reflexivity | apply code_range, HQ | apply zero_point_range, HZ].
Qed.

(** C1 (amended): in binary32, for every column [n < CountN] (whether it
    is computed in a tile of four columns or alone), every CountK, every
    BlkLen that is a positive multiple of 16, with or without
    zero-points, SQ4BitGemmM1Kernel_CompFp32 writes to C[n] the float32
    value of the sum of [A[k] * ((q(k,n) - z(block,n)) * s(block,n))]
    evaluated in this order: every element of B is the float32 product
    of the integer [q - z] with the scale ([z] is 8 without zero-points);
    the row is padded with zeros to a multiple of sixteen elements;
    partial sum [l], for [l = 0 .. 3], accumulates by fused multiply-add
    the products of the elements [k = l, 4 + l, 8 + l, ...]; the result
    is [(p0 + p1) + (p2 + p3)], plus [Bias[n]] when the bias pointer is
    not null. *)
Theorem SQ4BitGemmM1Kernel_CompFp32_computes_in_float32_order
    (mA : mem spec_float) (mQuantBData : mem Z) (mQuantBScale : mem spec_float)
    (mQuantBZeroPoint : mem Z) (mBias : mem spec_float)
    (BlkLen A QuantBData QuantBScale : nat) (QuantBZeroPoint : option nat)
    (C0 : mem spec_float) (CPtr CountN CountK BlockCountK : nat)
    (Bias : option nat) (n : nat) :
  (forall p, Byte8.is_byte (mQuantBData p)) ->
  (forall p, Byte8.is_byte (mQuantBZeroPoint p)) ->
  0 < BlkLen -> BlkLen mod 16 = 0 ->
  n < CountN ->
  SQ4BitGemmM1Kernel_CompFp32 mA mQuantBData mQuantBScale mQuantBZeroPoint mBias
    BlkLen A QuantBData QuantBScale QuantBZeroPoint
    C0 CPtr CountN CountK BlockCountK Bias (CPtr + n)
  = Fp32Order.Gemm_M1 mA mQuantBData mQuantBScale mQuantBZeroPoint mBias
      BlkLen A QuantBData QuantBScale QuantBZeroPoint CountK BlockCountK Bias n.
Proof.
  intros HQ HZ Hpos Hmod Hn.
  rewrite kernel_dot4 by assumption.
  unfold Fp32Order.Gemm_M1, Fp32Order.Gemm_M1_of. f_equal.
  apply dot4_ext; intros k Hk; [reflexivity|].
  unfold Fp32Order.element_of. apply dequantized_binary32; assumption.
Qed.

Import Examples RoundingExamples.

Lemma SQ4BitGemmM1Kernel_CompFp32_computes_in_float32_order_witness :
  SQ4BitGemmM1Kernel_CompFp32 row20 threes_QuantBData ones_QuantBScale
    zp37_QuantBZeroPoint unit_bias
    16 0 0 0 (Some 0) zero_C 0 5 20 2 (Some 0) (0 + 4)
  = Fp32Order.Gemm_M1 row20 threes_QuantBData ones_QuantBScale
      zp37_QuantBZeroPoint unit_bias
      16 0 0 0 (Some 0) 20 2 (Some 0) 4
  /\
  Fp32Order.Gemm_M1 row20 threes_QuantBData ones_QuantBScale
    zp37_QuantBZeroPoint unit_bias
    16 0 0 0 (Some 0) 20 2 (Some 0) 4
  = of_Z (-543).
Proof.
  split.
  - exact (SQ4BitGemmM1Kernel_CompFp32_computes_in_float32_order
             row20 threes_QuantBData ones_QuantBScale zp37_QuantBZeroPoint unit_bias
             16 0 0 0 (Some 0) zero_C 0 5 20 2 (Some 0) 4
             DequantTheorems.threes_bytes DequantTheorems.zp37_bytes ltac:(lia) ltac:(reflexivity) ltac:(lia)).
  - vm_compute. reflexivity.
Defined.

(** C1 (as stated): in binary32 the value written is not the sum of the
    claim.  For one column of one block of sixteen elements, every code
    9, no zero-points (so that [q - z = 1]), the scale 1, no bias, and
    the row [2^24, -2^24, 0, 0, 1, 0, ...], the sum of
    [A[k] * (q - z) * s] is 1 and the kernel writes 0: the elements 0
    and 4 meet in the same partial sum, where [2^24 + 1] is rounded to
    [2^24]. *)
Lemma SQ4BitGemmM1Kernel_CompFp32_is_not_the_sum :
  let c :=
    SQ4BitGemmM1Kernel_CompFp32 cancel_A nines_QuantBData ones_QuantBScale
      zp37_QuantBZeroPoint unit_bias
      16 0 0 0 None zero_C 0 1 16 1 None 0 in
  let sum :=
    Reference.Gemm_M1 (real_of cancel_A) nines_QuantBData (real_of ones_QuantBScale)
      zp37_QuantBZeroPoint (real_of unit_bias)
      16 0 0 0 None 16 1 None 0 in
  c = zero /\ sum = Q2Qc 1 /\ Q2Qc (value c) <> sum.
Proof.
  cbv zeta. split; [vm_compute; reflexivity|].
  split; [apply Qc_is_canon; vm_compute; reflexivity|].
  intros H. apply (f_equal (fun q : Qc => Qnum (this q))) in H.
  vm_compute in H. discriminate H.
Qed.

(** ** The kernel and the dense fallback *)

Import DequantTheorems DequantExamples.

Section Fallback.

Context {F : Type} {ops : Fp32Ops F}.

(** X4: the float kernel and the dense fallback agree on the elements
    of B, in any arithmetic and so bit for bit in binary32: for CountK a
    multiple of 16, the element [C[n]] that SQ4BitGemmM1Kernel_CompFp32
    computes is the dot product, in the four partial sums of the kernel,
    of the row of A with column [n] of the matrix that
    Q4BitBlkDequantBForSgemm_CompFp32 writes, read at its addresses,
    plus the bias when there is one. *)
Theorem SQ4BitGemmM1Kernel_CompFp32_on_dequantized_B
    (mA : mem F) (mQuantBData : mem Z) (mQuantBScale : mem F)
    (mQuantBZeroPoint : mem Z) (mBias : mem F)
    (scale0 offset0 FpData0 : mem F) (FpDataPtr : nat)
    (BlkLen A QuantBData QuantBScale : nat) (QuantBZeroPoint : option nat)
    (C0 : mem F) (CPtr CountN CountK BlockCountK : nat) (Bias : option nat) (n : nat) :
  0 < BlkLen -> BlkLen mod 16 = 0 -> CountK mod 16 = 0 -> n < CountN ->
  let B := Q4BitBlkDequantBForSgemm_CompFp32 mQuantBData mQuantBScale mQuantBZeroPoint
             scale0 offset0 BlkLen FpData0 FpDataPtr QuantBData QuantBScale
             QuantBZeroPoint CountN CountK BlockCountK in
  SQ4BitGemmM1Kernel_CompFp32 mA mQuantBData mQuantBScale mQuantBZeroPoint mBias
    BlkLen A QuantBData QuantBScale QuantBZeroPoint
    C0 CPtr CountN CountK BlockCountK Bias (CPtr + n)
  = CompFp32.with_bias mBias Bias n
      (dot4 (CountK / 4) (fun k => mA (A + k))
         (fun k => B (FpDataPtr + n / 16 * (16 * CountK) + 16 * k + n mod 16))).
Proof.
  intros Hpos Hmod HK Hn B.
  rewrite kernel_dot4 by assumption. f_equal.
  pose proof (Nat.div_mod_eq CountK 16) as EK. rewrite HK, Nat.add_0_r in EK.
  assert (E : 4 * MlasDivRoundup CountK 16 = CountK / 4).
  { destruct (MlasDivRoundup_bounds CountK 16 ltac:(lia)) as [Hge Hlt].
    assert (Hc : MlasDivRoundup CountK 16 = CountK / 16).
    { destruct (Nat.lt_trichotomy (MlasDivRoundup CountK 16) (CountK / 16))
        as [H | [H | H]]; [lia | exact H |].
      specialize (Hlt (CountK / 16) H). lia. }
    rewrite Hc. apply Nat.div_unique with 0; lia. }
  rewrite E.
  pose proof (Nat.div_mod_eq CountK 4) as E4.
  pose proof (Nat.mod_upper_bound CountK 4 ltac:(lia)) as B4.
  apply dot4_ext; intros k Hk.
  - unfold padded. replace (k <? CountK) with true by (symmetry; apply Nat.ltb_lt; lia).
    reflexivity.
  - unfold B. rewrite Q4BitBlkDequantBForSgemm_CompFp32_Impl_eq.
    change (FpDataPtr + n / 16 * (16 * CountK) + 16 * k + n mod 16)
      with (address CountK FpDataPtr k n).
    rewrite Impl_element by (assumption || lia). reflexivity.
Qed.

End Fallback.

Lemma SQ4BitGemmM1Kernel_CompFp32_on_dequantized_B_witness :
  let B := Q4BitBlkDequantBForSgemm_CompFp32 threes_QuantBData ones_QuantBScale
             zp37_QuantBZeroPoint stale_scales stale_offsets 16 fives 7 0 0
             (Some 0) 5 32 2 in
  SQ4BitGemmM1Kernel_CompFp32 row20 threes_QuantBData ones_QuantBScale
    zp37_QuantBZeroPoint unit_bias 16 0 0 0 (Some 0) zero_C 0 5 32 2 (Some 0) (0 + 4)
  = SFadd prec emax
      (dot4 (32 / 4) (fun k => row20 (0 + k))
         (fun k => B (7 + 4 / 16 * (16 * 32) + 16 * k + 4 mod 16)))
      (unit_bias (0 + 4)).
Proof.
  exact (SQ4BitGemmM1Kernel_CompFp32_on_dequantized_B
           row20 threes_QuantBData ones_QuantBScale zp37_QuantBZeroPoint unit_bias
           stale_scales stale_offsets fives 7 16 0 0 0 (Some 0) zero_C 0 5 32 2
           (Some 0) 4 ltac:(lia) ltac:(reflexivity) ltac:(reflexivity) ltac:(lia)).
Defined.

(** ** The kernel on the buffer that SQ4BitGemmPackQuantBData writes *)

(** The packed buffer holds bytes when the source and the destination
    do. *)
Lemma packed_bytes N K BlkLen ComputeType (X d : mem Z) :
  (forall i, Byte8.is_byte (X i)) ->
  (forall i, Byte8.is_byte (d i)) ->
  BlkLen mod Pack.SubBlkLen_of ComputeType BlkLen = 0 ->
  forall q, Byte8.is_byte (Pack.SQ4BitGemmPackQuantBData N K BlkLen ComputeType X d q).
Proof.
  intros HX Hd Hdiv q.
  rewrite pack_spec by exact Hdiv.
  destruct (q <? _); [|apply Hd].
  assert (Hsub : Pack.SubBlkLen_of ComputeType BlkLen = 16
                 \/ Pack.SubBlkLen_of ComputeType BlkLen = 32).
  { unfold Pack.SubBlkLen_of.
    destruct (is_CompInt8 ComputeType); [destruct (BlkLen =? 16)|]; auto. }
  rewrite packed_byte_codes;
    [ | exact HX | destruct Hsub as [-> | ->]; cbn; lia
      | destruct Hsub as [-> | ->]; reflexivity ].
  pose proof (raw_code_range X
                (2 * (q / (Pack.SubBlkLen_of ComputeType BlkLen / 2)
                      * (Pack.SubBlkLen_of ComputeType BlkLen / 2))
                 + q mod (Pack.SubBlkLen_of ComputeType BlkLen / 2)) HX) as R1.
  pose proof (raw_code_range X
                (2 * (q / (Pack.SubBlkLen_of ComputeType BlkLen / 2)
                      * (Pack.SubBlkLen_of ComputeType BlkLen / 2))
                 + Pack.SubBlkLen_of ComputeType BlkLen / 2
                 + q mod (Pack.SubBlkLen_of ComputeType BlkLen / 2)) HX) as R2.
  unfold Byte8.is_byte. lia.
Qed.

(** X20: the layout that SQ4BitGemmPackQuantBData writes for CompFp32 is
    the one that SQ4BitGemmM1Kernel_CompFp32 reads.  In binary32, on the
    buffer packed from [X] (N columns of ceil(K / BlkLen) blocks, two
    consecutive codes per byte, the even one in the low half), the
    kernel writes to C[n] the float32 value, in the order of the kernel,
    of the sum of [A[k] * ((x(k,n) - z(block,n)) * s(block,n))], plus
    the bias, where [x(k,n)] is code [k] of column [n] of [X] itself. *)
Theorem SQ4BitGemmM1Kernel_CompFp32_on_packed_source
    (mA : mem spec_float) (X d : mem Z) (mQuantBScale : mem spec_float)
    (mQuantBZeroPoint : mem Z) (mBias : mem spec_float)
    (N K BlkLen A QuantBScale : nat) (QuantBZeroPoint : option nat)
    (C0 : mem spec_float) (CPtr CountN : nat) (Bias : option nat) (n : nat) :
  (forall i, Byte8.is_byte (X i)) ->
  (forall i, Byte8.is_byte (d i)) ->
  (forall p, Byte8.is_byte (mQuantBZeroPoint p)) ->
  0 < BlkLen -> BlkLen mod 16 = 0 ->
  CountN <= N -> n < CountN ->
  let BlockCountK := MlasDivRoundup K BlkLen in
  SQ4BitGemmM1Kernel_CompFp32 mA
    (Pack.SQ4BitGemmPackQuantBData N K BlkLen Mlas.CompFp32 X d)
    mQuantBScale mQuantBZeroPoint mBias
    BlkLen A 0 QuantBScale QuantBZeroPoint
    C0 CPtr CountN K BlockCountK Bias (CPtr + n)
  = Fp32Order.Gemm_M1_of mA mQuantBScale mQuantBZeroPoint mBias
      BlkLen A QuantBScale QuantBZeroPoint K BlockCountK Bias
      (PackedSource.source_code X BlkLen BlockCountK) n.
Proof.
  intros HX Hd HZ Hpos Hmod HN Hn BlockCountK. subst BlockCountK.
  assert (H16 : BlkLen = 16 * (BlkLen / 16)).
  { pose proof (Nat.div_mod_eq BlkLen 16) as E. rewrite Hmod in E. lia. }
  assert (HP : forall q, Byte8.is_byte
                 (Pack.SQ4BitGemmPackQuantBData N K BlkLen Mlas.CompFp32 X d q)).
  { apply packed_bytes; [exact HX | exact Hd | exact Hmod]. }
  rewrite kernel_dot4 by assumption.
  unfold Fp32Order.Gemm_M1_of. f_equal.
  apply dot4_ext; intros k Hk; [reflexivity|].
  rewrite dequantized_binary32 by assumption.
  unfold Fp32Order.element_of. do 3 f_equal.
  destruct (MlasDivRoundup_bounds K BlkLen Hpos) as [HK _].
  destruct (MlasDivRoundup_bounds K 16 ltac:(lia)) as [_ Hlt].
  assert (Hk' : k < MlasDivRoundup K BlkLen * BlkLen).
  { destruct (Nat.lt_ge_cases (MlasDivRoundup K BlkLen * (BlkLen / 16))
                (MlasDivRoundup K 16)) as [H | H].
    - specialize (Hlt _ H). rewrite H16 in HK at 2. lia.
    - rewrite H16 at 2. nia. }
  exact (Fp32Exact.Reference_q_of_packed N K BlkLen X d n k HX Hpos Hmod
           ltac:(lia) Hk').
Qed.

Lemma SQ4BitGemmM1Kernel_CompFp32_on_packed_source_witness :
  SQ4BitGemmM1Kernel_CompFp32 row20
    (Pack.SQ4BitGemmPackQuantBData 5 20 16 Mlas.CompFp32
       threes_QuantBData zp37_QuantBZeroPoint)
    ones_QuantBScale zp37_QuantBZeroPoint unit_bias
    16 0 0 0 (Some 0) zero_C 0 5 20 (MlasDivRoundup 20 16) (Some 0) (0 + 4)
  = Fp32Order.Gemm_M1_of row20 ones_QuantBScale zp37_QuantBZeroPoint unit_bias
      16 0 0 (Some 0) 20 (MlasDivRoundup 20 16) (Some 0)
      (PackedSource.source_code threes_QuantBData 16 (MlasDivRoundup 20 16)) 4.
Proof.
  exact (SQ4BitGemmM1Kernel_CompFp32_on_packed_source
           row20 threes_QuantBData zp37_QuantBZeroPoint
           ones_QuantBScale zp37_QuantBZeroPoint unit_bias
           5 20 16 0 0 (Some 0) zero_C 0 5 (Some 0) 4
           threes_bytes zp37_bytes zp37_bytes
           ltac:(lia) ltac:(reflexivity) ltac:(lia) ltac:(lia)).
Defined.

End Fp32Lanes.


(** * The activation quantizer in binary32: the scale of a block *)

Module QuantizeBinary32.

Import Mlas Neon NeonFacts Q8 Quantize QuantizeFacts QuantizeLaws TwosComplement.
Import Binary32 Binary32Facts Binary32Views.

(** ** The order of the magnitudes *)

Lemma abs_magnitude x : is_nan x = false -> magnitude (SFabs x) = true.
Proof. destruct x as [s | s | | s m e]; intros H; try discriminate; reflexivity. Qed.

Ltac order_cases :=
  repeat match goal with
  | x : spec_float |- _ => destruct x as [[|] | [|] | | [|] ? ?]
  end;
  cbn [magnitude] in *; try discriminate;
  unfold SFleb, SFltb, Binary32.max, SFcompare in *;
  repeat match goal with
  | |- context [Z.compare ?a ?b] => destruct (Z.compare_spec a b)
  | H : context [Z.compare ?a ?b] |- _ => destruct (Z.compare_spec a b)
  | |- context [Pos.compare_cont Eq ?a ?b] =>
      change (Pos.compare_cont Eq a b) with (Pos.compare a b);
      destruct (Pos.compare_spec a b)
  | H : context [Pos.compare_cont Eq ?a ?b] |- _ =>
      change (Pos.compare_cont Eq a b) with (Pos.compare a b) in H;
      destruct (Pos.compare_spec a b)
  end;
  subst; try discriminate; try reflexivity; try lia; auto.

Lemma leb_refl x : magnitude x = true -> SFleb x x = true.
Proof. intros Hx. order_cases. Qed.

Lemma leb_trans x y z :
  magnitude x = true -> magnitude y = true -> magnitude z = true ->
  SFleb x y = true -> SFleb y z = true -> SFleb x z = true.
Proof. intros Hx Hy Hz H1 H2. order_cases. Qed.

Lemma ltb_false_leb x y :
  magnitude x = true -> magnitude y = true -> SFltb x y = false -> SFleb y x = true.
Proof. intros Hx Hy H. order_cases. Qed.

Lemma ltb_true_leb x y : SFltb x y = true -> SFleb x y = true.
Proof.
  unfold SFltb, SFleb. destruct (SFcompare x y) as [[| |]|]; intros H;
    try discriminate; reflexivity.
Qed.

Lemma leb_zero_inv x :
  magnitude x = true -> SFleb x (S754_zero false) = true -> x = S754_zero false.
Proof. intros Hx H. order_cases. Qed.

Lemma max_cases x y :
  magnitude x = true -> magnitude y = true ->
  (Binary32.max x y = x \/ Binary32.max x y = y) /\
  SFleb x (Binary32.max x y) = true /\ SFleb y (Binary32.max x y) = true.
Proof. intros Hx Hy. order_cases. Qed.

Lemma std_max_cases x y :
  magnitude x = true -> magnitude y = true ->
  (std_max x y = x \/ std_max x y = y) /\
  SFleb x (std_max x y) = true /\ SFleb y (std_max x y) = true.
Proof.
  intros Hx Hy. unfold std_max. cbn [fltb Binary32.ops].
  destruct (SFltb x y) eqn:E.
  - split; [right; reflexivity|]. split; [apply ltb_true_leb, E | apply leb_refl, Hy].
  - split; [left; reflexivity|]. split; [apply leb_refl, Hx | apply ltb_false_leb; assumption].
Qed.

(** ** The maximum of a sub-block *)

Lemma largest_one (g : nat -> spec_float) t :
  magnitude (g t) = true -> largest g [t] (g t).
Proof.
  intros H. split; [exact H|]. split.
  - intros t' [<- | []]. apply leb_refl, H.
  - exists t. split; [left; reflexivity | reflexivity].
Qed.

Lemma largest_max (g : nat -> spec_float) S1 S2 x y :
  (forall t, In t S1 -> magnitude (g t) = true) ->
  (forall t, In t S2 -> magnitude (g t) = true) ->
  largest g S1 x -> largest g S2 y -> largest g (S1 ++ S2) (Binary32.max x y).
Proof.
  intros G1 G2 (Mx & Ux & (tx & Ix & Ex)) (My & Uy & (ty & Iy & Ey)).
  destruct (max_cases x y Mx My) as (Hc & Lx & Ly).
  assert (Mm : magnitude (Binary32.max x y) = true)
    by (destruct Hc as [-> | ->]; assumption).
  split; [exact Mm|]. split.
  - intros t Ht. apply in_app_or in Ht. destruct Ht as [Ht | Ht].
    + apply (leb_trans _ x); auto.
    + apply (leb_trans _ y); auto.
  - destruct Hc as [-> | ->].
    + exists tx. split; [apply in_or_app; left; exact Ix | exact Ex].
    + exists ty. split; [apply in_or_app; right; exact Iy | exact Ey].
Qed.

Lemma max16_largest (g : nat -> spec_float) :
  (forall t, t < 16 -> magnitude (g t) = true) ->
  magnitude (max16 g) = true /\
  (forall t, t < 16 -> SFleb (g t) (max16 g) = true) /\
  (exists t, t < 16 /\ max16 g = g t).
Proof.
  intros G.
  assert (L : largest g
                (((([0] ++ [8 + 0]) ++ ([4 + 0] ++ [12 + 0]))
                  ++ (([1] ++ [8 + 1]) ++ ([4 + 1] ++ [12 + 1])))
                 ++ ((([2] ++ [8 + 2]) ++ ([4 + 2] ++ [12 + 2]))
                     ++ (([3] ++ [8 + 3]) ++ ([4 + 3] ++ [12 + 3]))))
                (max16 g)).
  { unfold max16. cbn [fmax Binary32.ops].
    assert (GI : forall S, (forall t, In t S -> t < 16) ->
                 forall t, In t S -> magnitude (g t) = true)
      by (intros S HS t Ht; apply G, HS, Ht).
    repeat first
      [ apply largest_one; apply G; cbn; lia
      | apply largest_max;
        [ apply GI; cbn; intros; lia | apply GI; cbn; intros; lia | | ] ]. }
  destruct L as (M & U & (t & It & Et)).
  split; [exact M|]. split.
  - intros t' Ht'. apply U.
    do 16 (destruct t' as [|t']; [cbn; tauto|]). lia.
  - exists t. split; [|exact Et]. cbn in It. lia.
Qed.

(** ** The scan of a block *)

Section Amax.

Variable mA : mem spec_float.
Variable A EC : nat.
Hypothesis no_nan : forall k, k < EC -> is_nan (mA (A + k)) = false.

Lemma padded_magnitude n t :
  magnitude (fabs (padded mA (A + n * 16) (Nat.min (EC - n * 16) 16) t)) = true.
Proof.
  unfold padded. destruct (t <? Nat.min (EC - n * 16) 16) eqn:E.
  - apply Nat.ltb_lt in E. cbn [fabs Binary32.ops]. apply abs_magnitude.
    replace (A + n * 16 + t) with (A + (n * 16 + t)) by lia. apply no_nan. lia.
  - reflexivity.
Qed.

(** The invariant of the scan for [amax] after [n] sub-blocks. *)
Lemma block_amax_invariant n :
  let a := for_up n (fun q => amax_step mA A EC (q * 16)) fzero in
  magnitude a = true /\
  (forall k, k < EC -> k < n * 16 -> SFleb (SFabs (mA (A + k))) a = true) /\
  (a = S754_zero false \/ exists k, k < EC /\ a = SFabs (mA (A + k))).
Proof.
  induction n as [|n IH]; cbv zeta in *.
  - rewrite for_up_0. split; [reflexivity|]. split; [intros; lia | left; reflexivity].
  - rewrite for_up_S. destruct IH as (I0 & IU & IA).
    set (a := for_up n (fun q => amax_step mA A EC (q * 16)) fzero) in *.
    rewrite amax_step_max16.
    set (g := fun t => fabs (padded mA (A + n * 16) (Nat.min (EC - n * 16) 16) t)).
    destruct (max16_largest g (fun t _ => padded_magnitude n t)) as (Mg & Ug & (t & Ht & Eg)).
    destruct (std_max_cases a (max16 g) I0 Mg) as (Hc & La & Lg).
    assert (Mm : magnitude (std_max a (max16 g)) = true)
      by (destruct Hc as [-> | ->]; assumption).
    split; [exact Mm|]. split.
    + intros k Hk Hk'.
      destruct (Nat.lt_ge_cases k (n * 16)) as [Hlt | Hge].
      * apply (leb_trans _ a); auto.
        apply abs_magnitude, no_nan, Hk.
      * apply (leb_trans _ (max16 g)); auto.
        -- apply abs_magnitude, no_nan, Hk.
        -- specialize (Ug (k - n * 16) ltac:(lia)).
           unfold g, padded in Ug.
           replace (k - n * 16 <? Nat.min (EC - n * 16) 16) with true in Ug
             by (symmetry; apply Nat.ltb_lt; lia).
           replace (A + n * 16 + (k - n * 16)) with (A + k) in Ug by lia.
           exact Ug.
    + destruct Hc as [-> | ->]; [exact IA|].
      rewrite Eg. unfold g, padded.
      destruct (t <? Nat.min (EC - n * 16) 16) eqn:E.
      * apply Nat.ltb_lt in E. right. exists (n * 16 + t). split; [lia|].
        replace (A + n * 16 + t) with (A + (n * 16 + t)) by lia. reflexivity.
      * left. reflexivity.
Qed.

(** Without NaNs the scan finds the maximum absolute value of the
    block. *)
Lemma block_amax_is_max :
  0 < EC -> is_max_abs mA A EC (block_amax mA A EC).
Proof.
  intros HEC. unfold block_amax, Quantize.SubBlkLen.
  rewrite for_step_for_up by lia.
  destruct (MlasDivRoundup_bounds EC 16 ltac:(lia)) as [Hge _].
  destruct (block_amax_invariant (MlasDivRoundup EC 16)) as (I0 & IU & IA).
  set (a := for_up _ _ _) in *.
  split.
  - intros k Hk. apply IU; lia.
  - destruct IA as [Ha0 | IA]; [|exact IA].
    exists 0. split; [exact HEC|].
    rewrite Ha0. symmetry. apply leb_zero_inv.
    + apply abs_magnitude, no_nan, HEC.
    + rewrite <- Ha0. apply IU; lia.
Qed.

End Amax.

(** ** The scale and the reciprocal *)

Import QuantizeClaims.

(** C5 (amended): the scale and the guarded reciprocal, in binary32.

    For every block the quantizer returns: no division by zero is
    evaluated.  For every block none of whose elements is a NaN, the
    stored scale is the float32 quotient of [amax] by 127, where [amax]
    is the maximum of the absolute values of the elements of the block.
    For every block, every code is the rounded product of its element
    with the reciprocal, which is the float32 quotient [1 / scale] when
    the stored scale is not zero and 0 when it is.  A block whose
    elements are all zero gets the scale 0 and the codes 0. *)
Theorem QuantizeBlock_scale_and_guarded_reciprocal :
  (forall (mA : mem spec_float) BlkLen A EC m QA,
      QuantizeBlock mA BlkLen A EC m QA <> None)
  /\
  (forall (mA : mem spec_float) BlkLen A EC m QA,
      0 < EC <= BlkLen -> BlkLen mod 16 = 0 ->
      (forall k, k < EC -> is_nan (mA (A + k)) = false) ->
      exists m' amax,
        QuantizeBlock mA BlkLen A EC m QA = Some m' /\
        is_max_abs mA A EC amax /\
        Q8BlkScale m' QA = SFdiv prec emax amax (of_Z 127))
  /\
  (forall (mA : mem spec_float) BlkLen A EC m QA,
      EC <= BlkLen -> BlkLen mod 16 = 0 ->
      exists m',
        QuantizeBlock mA BlkLen A EC m QA = Some m' /\
        let scale := Q8BlkScale m' QA in
        let scale_reciprocal :=
          if SFeqb scale zero then zero else SFdiv prec emax (of_Z 1) scale in
        forall k, k < EC ->
          q8_data m' (Q8BlkData QA + k)
          = sint8 (cvta (SFmul prec emax (mA (A + k)) scale_reciprocal)))
  /\
  (forall (mA : mem spec_float) BlkLen A EC m QA,
      EC <= BlkLen -> BlkLen mod 16 = 0 ->
      (forall k, k < EC -> exists s, mA (A + k) = S754_zero s) ->
      exists m',
        QuantizeBlock mA BlkLen A EC m QA = Some m' /\
        Q8BlkScale m' QA = zero /\
        forall t, t < BlkLen -> q8_data m' (Q8BlkData QA + t) = 0%Z).
Proof.
  split; [|split; [|split]].
  - intros mA BlkLen A EC m QA.
    destruct (QuantizeBlock_returns mA BlkLen A EC m QA) as [m' ->]. discriminate.
  - intros mA BlkLen A EC m QA HEC H16 Hnan.
    destruct (QuantizeBlock_scale_codes mA BlkLen A EC m QA (proj2 HEC) H16)
      as (m' & Hm' & HS & _).
    exists m', (block_amax mA A EC). split; [exact Hm'|].
    split; [apply block_amax_is_max; [exact Hnan | apply HEC] | exact HS].
  - intros mA BlkLen A EC m QA HEC H16.
    destruct (QuantizeBlock_scale_codes mA BlkLen A EC m QA HEC H16)
      as (m' & Hm' & HS & HC).
    exists m'. split; [exact Hm'|]. cbv zeta in *.
    rewrite <- Binary32_scale_reciprocal, HS. exact HC.
  - intros mA BlkLen A EC m QA HEC H16 Hz.
    change zero with (@fzero spec_float Binary32.ops).
    apply (QuantizeBlock_zero_block mA BlkLen A EC m QA HEC H16).
    intros k Hk. destruct (Hz k Hk) as [s ->]. reflexivity.
Qed.

Lemma tie_block_no_nan : forall k, k < 16 -> is_nan (Examples.tie_block (0 + k)) = false.
Proof. intros k Hk. do 16 (destruct k as [|k]; [reflexivity|]). lia. Qed.

Lemma QuantizeBlock_scale_and_guarded_reciprocal_witness :
  exists m' amax,
    QuantizeBlock Examples.tie_block 16 0 16 Examples.dirty_workspace 0 = Some m' /\
    is_max_abs Examples.tie_block 0 16 amax /\
    Q8BlkScale m' 0 = SFdiv prec emax amax (of_Z 127).
Proof.
  exact (proj1 (proj2 QuantizeBlock_scale_and_guarded_reciprocal)
           Examples.tie_block 16 0 16 Examples.dirty_workspace 0
           ltac:(lia) ltac:(reflexivity) tie_block_no_nan).
Defined.

(** C5 (as stated): with a NaN in the block the stored scale is not the
    largest magnitude of the block over 127.  In the block of thirty-two
    elements NaN, 100, 0, ..., 0, 5, 0, ..., 0 the first sub-block of
    sixteen elements has the maximum NaN, which [std::max] discards, so
    that [amax] is 5: the stored scale is 5 / 127 although the block
    holds 100, and the code stored for 100 is the wrapped 2540, which is
    -20. *)
Lemma QuantizeBlock_scale_of_a_block_with_a_NaN :
  exists m',
    QuantizeBlock nan_block 32 0 32 Examples.dirty_workspace 0 = Some m' /\
    nan_block (0 + 1) = of_Z 100 /\
    Q8BlkScale m' 0 = SFdiv prec emax (of_Z 5) (of_Z 127) /\
    SFltb (of_Z 5) (SFabs (nan_block (0 + 1))) = true /\
    Q8BlkScale m' 0 <> SFdiv prec emax (SFabs (nan_block (0 + 1))) (of_Z 127) /\
    q8_data m' (Q8BlkData 0 + 1) = (-20)%Z.
Proof.
  eexists. split; [vm_compute; reflexivity|].
  split; [vm_compute; reflexivity|].
  split; [vm_compute; reflexivity|].
  split; [vm_compute; reflexivity|].
  split; [vm_compute; discriminate|].
  vm_compute. reflexivity.
Qed.

End QuantizeBinary32.


(** * The integer kernel: the lanes of the accumulators *)

Module Int8Lanes.

Import Mlas Neon NeonFacts TwosComplement Q8 CompInt8 Int8Views Int8Facts.
Import Int8Dot Int8Tiles Fp32Order Fp32Lanes.

Abbreviation zsum_below := Int8Reference.zsum_below.
Abbreviation sdot_lane := Int8Order.sdot_lane.

(** ** SDOT lane by lane *)

Lemma sdot_lane_ext (a a' w w' : nat -> Z) l :
  l < 4 ->
  (forall t, t < 16 -> a t = a' t) -> (forall t, t < 16 -> w t = w' t) ->
  sdot_lane a w l = sdot_lane a' w' l.
Proof.
  intros Hl Ha Hw. unfold Int8Order.sdot_lane.
  apply zsum_below_ext. intros j Hj. rewrite Ha, Hw by lia. reflexivity.
Qed.

Local Open Scope Z_scope.

Lemma sdot_lane_bound (a w : nat -> Z) l :
  (l < 4)%nat ->
  (forall t, (t < 16)%nat -> -128 <= a t <= 127) ->
  (forall t, (t < 16)%nat -> -15 <= w t <= 15) ->
  -7680 <= sdot_lane a w l <= 7680.
Proof.
  intros Hl Ha Hw. unfold Int8Order.sdot_lane. cbn [Int8Reference.zsum_below].
  pose proof (product_bound _ _ (Ha (4 * l + 0)%nat ltac:(lia)) (Hw (4 * l + 0)%nat ltac:(lia))).
  pose proof (product_bound _ _ (Ha (4 * l + 1)%nat ltac:(lia)) (Hw (4 * l + 1)%nat ltac:(lia))).
  pose proof (product_bound _ _ (Ha (4 * l + 2)%nat ltac:(lia)) (Hw (4 * l + 2)%nat ltac:(lia))).
  pose proof (product_bound _ _ (Ha (4 * l + 3)%nat ltac:(lia)) (Hw (4 * l + 3)%nat ltac:(lia))).
  lia.
Qed.

(** A dot-product instruction adds to lane [l] of an accumulator that
    is not too large the four products of the lane, without
    overflow. *)
Lemma vdotq_s32_lane (r a b : list Z) (R : Z) l :
  (l < 4)%nat ->
  - R <= zlane r l <= R -> 0 <= R -> R + 7680 < 2 ^ 31 ->
  (forall t, (t < 16)%nat -> -128 <= zlane a t <= 127) ->
  (forall t, (t < 16)%nat -> -15 <= zlane b t <= 15) ->
  zlane (vdotq_s32 r a b) l = zlane r l + sdot_lane (zlane a) (zlane b) l.
Proof.
  intros Hl Hr HR0 HR Ha Hb.
  pose proof (sdot_lane_bound (zlane a) (zlane b) l Hl Ha Hb) as B.
  unfold vdotq_s32. rewrite zlane_tabulate by exact Hl.
  unfold Int8Order.sdot_lane in *. cbn [Int8Reference.zsum_below] in *.
  replace (4 * l + 0)%nat with (4 * l)%nat in * by lia.
  rewrite sint32_small by lia. lia.
Qed.

(** One instruction from zero. *)
Lemma sdot_once (a b : list Z) (A W : nat -> Z) l :
  (l < 4)%nat ->
  (forall t, (t < 16)%nat -> zlane a t = A t) ->
  (forall t, (t < 16)%nat -> zlane b t = W t) ->
  (forall t, (t < 16)%nat -> -128 <= A t <= 127) ->
  (forall t, (t < 16)%nat -> -15 <= W t <= 15) ->
  zlane (vdotq_s32 (vdupq_n_s32 0) a b) l = sdot_lane A W l.
Proof.
  intros Hl Ea Eb Ha Hb.
  rewrite (vdotq_s32_lane _ a b 0 l Hl);
    try (rewrite zlane_vdupq_n_s32_0); try lia.
  - apply sdot_lane_ext; assumption.
  - intros t Ht. rewrite Ea by exact Ht. apply Ha, Ht.
  - intros t Ht. rewrite Eb by exact Ht. apply Hb, Ht.
Qed.

(** Two instructions from zero. *)
Lemma sdot_twice (a0 b0 a1 b1 : list Z) (A0 W0 A1 W1 : nat -> Z) l :
  (l < 4)%nat ->
  (forall t, (t < 16)%nat -> zlane a0 t = A0 t) ->
  (forall t, (t < 16)%nat -> zlane b0 t = W0 t) ->
  (forall t, (t < 16)%nat -> zlane a1 t = A1 t) ->
  (forall t, (t < 16)%nat -> zlane b1 t = W1 t) ->
  (forall t, (t < 16)%nat -> -128 <= A0 t <= 127) ->
  (forall t, (t < 16)%nat -> -15 <= W0 t <= 15) ->
  (forall t, (t < 16)%nat -> -128 <= A1 t <= 127) ->
  (forall t, (t < 16)%nat -> -15 <= W1 t <= 15) ->
  zlane (vdotq_s32 (vdotq_s32 (vdupq_n_s32 0) a0 b0) a1 b1) l
  = sdot_lane A0 W0 l + sdot_lane A1 W1 l.
Proof.
  intros Hl Ea0 Eb0 Ea1 Eb1 Ha0 Hb0 Ha1 Hb1.
  pose proof (sdot_once a0 b0 A0 W0 l Hl Ea0 Eb0 Ha0 Hb0) as E0.
  pose proof (sdot_lane_bound A0 W0 l Hl Ha0 Hb0) as B0.
  rewrite (vdotq_s32_lane _ a1 b1 7680 l Hl); rewrite ?E0; try lia.
  - f_equal. apply sdot_lane_ext; assumption.
  - intros t Ht. rewrite Ea1 by exact Ht. apply Ha1, Ht.
  - intros t Ht. rewrite Eb1 by exact Ht. apply Hb1, Ht.
Qed.

Local Close Scope Z_scope.

Section Lanes.

Context {F : Type} {ops : Fp32Ops F}.

(** The multiply-add of the converted dot products with the scale of
    the block, lane by lane. *)
Lemma flane_fma_cvt (acc : list F) (d : list Z) (s : F) l :
  l < 4 ->
  flane (vfmaq_f32 acc (vcvtq_f32_s32 d) (vdupq_n_f32 s)) l
  = ffma (flane acc l) (f_of_Z (zlane d l)) s.
Proof.
  intros Hl. unfold vfmaq_f32, vcvtq_f32_s32, vdupq_n_f32.
  rewrite !flane_tabulate by exact Hl. reflexivity.
Qed.

Variable mQuantA : Q8Mem F.
Variable mQuantBData : mem Z.
Variable mQuantBScale : mem F.
Variable mQuantBZeroPoint : mem Z.
Variable HasZeroPoint : bool.

Hypothesis a_int8 : forall p, (-128 <= q8_data mQuantA p <= 127)%Z.
Hypothesis b_bytes : forall p, Byte8.is_byte (mQuantBData p).
Hypothesis zp_bytes : forall p, Byte8.is_byte (mQuantBZeroPoint p).

Abbreviation b_zero_point := (Int8Reference.b_zero_point mQuantBZeroPoint HasZeroPoint).
Abbreviation zero_point_ptr_at := (Int8Reference.zero_point_ptr_at HasZeroPoint).
Abbreviation code_at := (@ExactViews.code_at mQuantBData).
Abbreviation code32_at := (Int8Reference.code32_at mQuantBData).

(** ** The dot products of the tile routines *)

(** Sixteen codes of A at [pa] and the sixteen codes of B at [pb]. *)
Lemma sdot16 pa pb zp l :
  (0 <= zp < 16)%Z -> l < 4 ->
  zlane
    (vdotq_s32 (vdupq_n_s32 0) (vld1q_s8 (q8_data mQuantA) pa)
       (vsubq_s8
          (vreinterpretq_s8_u8
             (vcombine_u8 (vand_u8 (vld1_u8 mQuantBData pb) (vdup_n_u8 15))
                          (vshr_n_u8 (vld1_u8 mQuantBData pb) 4)))
          (vdupq_n_s8 zp))) l
  = sdot_lane (fun t => q8_data mQuantA (pa + t)) (fun t => (code_at pb t - zp)%Z) l.
Proof.
  intros Hz Hl. apply sdot_once; try exact Hl.
  - intros t Ht. apply zlane_vld1q_s8, Ht.
  - intros t Ht. apply (zlane_codes16 mQuantBData b_bytes); assumption.
  - intros t _. apply a_int8.
  - intros t _. pose proof (code_at_bounds mQuantBData b_bytes pb t). lia.
Qed.

(** The same for the two blocks of a pair, from sixteen bytes. *)
Lemma sdot16_pair0 pa pb zp l :
  (0 <= zp < 16)%Z -> l < 4 ->
  zlane
    (vdotq_s32 (vdupq_n_s32 0) (vld1q_s8 (q8_data mQuantA) pa)
       (vsubq_s8
          (vreinterpretq_s8_u8
             (vcombine_u8
                (vget_low_u8 (vandq_u8 (vld1q_u8 mQuantBData pb) (vdupq_n_u8 15)))
                (vget_low_u8 (vshrq_n_u8 (vld1q_u8 mQuantBData pb) 4))))
          (vdupq_n_s8 zp))) l
  = sdot_lane (fun t => q8_data mQuantA (pa + t)) (fun t => (code_at pb t - zp)%Z) l.
Proof.
  intros Hz Hl. apply sdot_once; try exact Hl.
  - intros t Ht. apply zlane_vld1q_s8, Ht.
  - intros t Ht. apply (zlane_codes16_pair0 mQuantBData b_bytes); assumption.
  - intros t _. apply a_int8.
  - intros t _. pose proof (code_at_bounds mQuantBData b_bytes pb t). lia.
Qed.

Lemma sdot16_pair1 pa pb zp l :
  (0 <= zp < 16)%Z -> l < 4 ->
  zlane
    (vdotq_s32 (vdupq_n_s32 0) (vld1q_s8 (q8_data mQuantA) pa)
       (vsubq_s8
          (vreinterpretq_s8_u8
             (vcombine_u8
                (vget_high_u8 (vandq_u8 (vld1q_u8 mQuantBData pb) (vdupq_n_u8 15)))
                (vget_high_u8 (vshrq_n_u8 (vld1q_u8 mQuantBData pb) 4))))
          (vdupq_n_s8 zp))) l
  = sdot_lane (fun t => q8_data mQuantA (pa + t))
      (fun t => (code_at (pb + 8) t - zp)%Z) l.
Proof.
  intros Hz Hl. apply sdot_once; try exact Hl.
  - intros t Ht. apply zlane_vld1q_s8, Ht.
  - intros t Ht. apply (zlane_codes16_pair1 mQuantBData b_bytes); assumption.
  - intros t _. apply a_int8.
  - intros t _. pose proof (code_at_bounds mQuantBData b_bytes (pb + 8) t). lia.
Qed.

(** Thirty-two codes of A at [pa0] and [pa1] and the thirty-two codes
    of B at [pb]. *)
Lemma sdot32 pa0 pa1 pb zp l :
  (0 <= zp < 16)%Z -> l < 4 ->
  zlane
    (vdotq_s32
       (vdotq_s32 (vdupq_n_s32 0) (vld1q_s8 (q8_data mQuantA) pa0)
          (vsubq_s8
             (vreinterpretq_s8_u8 (vandq_u8 (vld1q_u8 mQuantBData pb) (vdupq_n_u8 15)))
             (vdupq_n_s8 zp)))
       (vld1q_s8 (q8_data mQuantA) pa1)
       (vsubq_s8
          (vreinterpretq_s8_u8 (vshrq_n_u8 (vld1q_u8 mQuantBData pb) 4))
          (vdupq_n_s8 zp))) l
  = (sdot_lane (fun t => q8_data mQuantA (pa0 + t)%nat)
       (fun t => code32_at pb t - zp) l
     + sdot_lane (fun t => q8_data mQuantA (pa1 + t)%nat)
         (fun t => code32_at pb (16 + t)%nat - zp) l)%Z.
Proof.
  intros Hz Hl. apply sdot_twice; try exact Hl.
  - intros t Ht. apply zlane_vld1q_s8, Ht.
  - intros t Ht. apply (zlane_codes32_low mQuantBData b_bytes); assumption.
  - intros t Ht. apply zlane_vld1q_s8, Ht.
  - intros t Ht. apply (zlane_codes32_high mQuantBData b_bytes); assumption.
  - intros t _. apply a_int8.
  - intros t _. pose proof (code32_at_bounds mQuantBData b_bytes pb t). lia.
  - intros t _. apply a_int8.
  - intros t _. pose proof (code32_at_bounds mQuantBData b_bytes pb (16 + t)). lia.
Qed.

(** ** The units of a block *)

Abbreviation row_code := (Int8Order.row_code mQuantA).
Abbreviation row_scale := (Int8Order.row_scale mQuantA).
Abbreviation column_code := (Int8Order.column_code mQuantBData).
Abbreviation column_scale := (Int8Order.column_scale mQuantBScale).
Abbreviation column_zero_point :=
  (Int8Order.column_zero_point mQuantBZeroPoint HasZeroPoint).
Abbreviation tile_lane_all :=
  (Int8Order.tile_lane_all mQuantA mQuantBData mQuantBScale mQuantBZeroPoint
     HasZeroPoint).
Abbreviation tile_lane_even :=
  (Int8Order.tile_lane_even mQuantA mQuantBData mQuantBScale mQuantBZeroPoint
     HasZeroPoint).
Abbreviation tile_lane_odd :=
  (Int8Order.tile_lane_odd mQuantA mQuantBData mQuantBScale mQuantBZeroPoint
     HasZeroPoint).
Abbreviation acc2x2 := (@Int8Order.acc2x2 F).

Lemma zero_point_in_range z k : (0 <= b_zero_point z k < 16)%Z.
Proof. apply b_zero_point_range, zp_bytes. Qed.

(** The unit of a block of sixteen codes is the block. *)
Lemma unit_dot_16 a b z u l :
  l < 4 ->
  Int8Order.unit_dot 16 (row_code 16 a) (column_code 16 b) (column_zero_point z) u l
  = sdot_lane (fun t => q8_data mQuantA (Q8BlkData (a + u * Q8BlkSize 16) + t))
      (fun t => (code_at (b + u * 8) t - b_zero_point z u)%Z) l.
Proof.
  intros Hl. unfold Int8Order.unit_dot, Int8Order.units_per_block.
  change (Int8Order.unit_len 16) with 16. change (16 / 16) with 1.
  cbn [Int8Reference.zsum_below]. rewrite Z.add_0_l, Nat.div_1_r.
  apply sdot_lane_ext; [exact Hl | |]; intros t Ht.
  - unfold Int8Order.row_code.
    assert (Hd : (u * 16 + 16 * 0 + t) / 16 = u)
      by (symmetry; apply Nat.div_unique with t; lia).
    assert (Hr : (u * 16 + 16 * 0 + t) mod 16 = t)
      by (symmetry; apply Nat.mod_unique with u; lia).
    rewrite Hd, Hr. reflexivity.
  - unfold Int8Order.column_zero_point. f_equal.
    replace (u * 16 + 16 * 0 + t) with (u * 16 + t) by lia.
    exact (b_code_16 mQuantBData b u t Ht).
Qed.

Lemma unit_scale_16 a s u :
  Int8Order.unit_scale 16 (row_scale 16 a) (column_scale s) u
  = fmul (Q8BlkScale mQuantA (a + u * Q8BlkSize 16)) (mQuantBScale (s + u)).
Proof.
  unfold Int8Order.unit_scale, Int8Order.units_per_block.
  change (Int8Order.unit_len 16) with 16. change (16 / 16) with 1.
  rewrite Nat.div_1_r. reflexivity.
Qed.

Lemma unit_len_32 j : 0 < j -> Int8Order.unit_len (32 * j) = 32.
Proof.
  intros Hj. unfold Int8Order.unit_len, Pack.SubBlkLen_of. cbn [is_CompInt8].
  replace (32 * j =? 16) with false by (symmetry; apply Nat.eqb_neq; lia).
  reflexivity.
Qed.

Lemma units_per_block_32 j : 0 < j -> Int8Order.units_per_block (32 * j) = j.
Proof.
  intros Hj. unfold Int8Order.units_per_block. rewrite unit_len_32 by exact Hj.
  rewrite Nat.mul_comm. apply Nat.div_mul. lia.
Qed.

(** Unit [i] of block [k] of a column of blocks of [32 * j] codes. *)
Lemma unit_dot_32 j a b z k i l :
  0 < j -> i < j -> l < 4 ->
  Int8Order.unit_dot (32 * j) (row_code (32 * j) a) (column_code (32 * j) b)
    (column_zero_point z) (k * j + i) l
  = (sdot_lane
       (fun t => q8_data mQuantA
                   (Q8BlkData (a + k * Q8BlkSize (32 * j)) + 32 * i + t)%nat)
       (fun t => code32_at (b + k * (16 * j) + 16 * i) t - b_zero_point z k) l
     + sdot_lane
         (fun t => q8_data mQuantA
                     (Q8BlkData (a + k * Q8BlkSize (32 * j)) + 32 * i + 16 + t)%nat)
         (fun t => code32_at (b + k * (16 * j) + 16 * i) (16 + t)%nat
                   - b_zero_point z k) l)%Z.
Proof.
  intros Hj Hi Hl. unfold Int8Order.unit_dot.
  rewrite units_per_block_32, unit_len_32 by exact Hj.
  change (32 / 16) with 2. cbn [Int8Reference.zsum_below]. rewrite Z.add_0_l.
  assert (Hu : (k * j + i) / j = k)
    by (symmetry; apply Nat.div_unique with i; lia).
  rewrite Hu.
  assert (E : forall h t, h < 2 -> t < 16 ->
            row_code (32 * j) a ((k * j + i) * 32 + 16 * h + t)
            = q8_data mQuantA
                (Q8BlkData (a + k * Q8BlkSize (32 * j)) + 32 * i + 16 * h + t)
            /\
            column_code (32 * j) b ((k * j + i) * 32 + 16 * h + t)
            = code32_at (b + k * (16 * j) + 16 * i) (16 * h + t)).
  { intros h t Hh Ht. split.
    - unfold Int8Order.row_code.
      assert (Hd : ((k * j + i) * 32 + 16 * h + t) / (32 * j) = k)
        by (symmetry; apply Nat.div_unique with (32 * i + 16 * h + t); nia).
      assert (Hr : ((k * j + i) * 32 + 16 * h + t) mod (32 * j) = 32 * i + 16 * h + t)
        by (symmetry; apply Nat.mod_unique with k; nia).
      rewrite Hd, Hr. f_equal. lia.
    - replace ((k * j + i) * 32 + 16 * h + t)
        with (k * (32 * j) + (i * 32 + (16 * h + t))) by lia.
      replace (b + k * (16 * j) + 16 * i) with (b + k * (16 * j) + i * 16) by lia.
      exact (b_code_32 mQuantBData j b k i (16 * h + t) Hj Hi ltac:(lia)). }
  apply (f_equal2 Z.add); (apply sdot_lane_ext; [exact Hl | |]); intros t Ht.
  - destruct (E 0 t ltac:(lia) Ht) as [-> _]. f_equal; lia.
  - destruct (E 0 t ltac:(lia) Ht) as [_ ->]. reflexivity.
  - destruct (E 1 t ltac:(lia) Ht) as [-> _]. f_equal; lia.
  - destruct (E 1 t ltac:(lia) Ht) as [_ ->]. reflexivity.
Qed.

Lemma unit_scale_32 j a s k i :
  0 < j -> i < j ->
  Int8Order.unit_scale (32 * j) (row_scale (32 * j) a) (column_scale s) (k * j + i)
  = fmul (Q8BlkScale mQuantA (a + k * Q8BlkSize (32 * j))) (mQuantBScale (s + k)).
Proof.
  intros Hj Hi. unfold Int8Order.unit_scale.
  rewrite units_per_block_32 by exact Hj.
  assert (Hu : (k * j + i) / j = k)
    by (symmetry; apply Nat.div_unique with i; lia).
  rewrite Hu. reflexivity.
Qed.

(** The multiply-add of a unit: the same accumulator, the same dot
    product and the same scales. *)
Ltac same_unit :=
  match goal with
  | |- ffma ?x (f_of_Z ?d) (fmul ?s1 ?s2) = ffma ?x (f_of_Z ?d') (fmul ?s1' ?s2') =>
      replace s1 with s1' by (f_equal; unfold Q8BlkData; lia);
      replace s2 with s2' by (f_equal; lia);
      apply (f_equal (fun q => ffma x (f_of_Z q) (fmul s1' s2')))
  end.

Ltac same_codes Hl :=
  apply sdot_lane_ext;
  [ exact Hl
  | intros ? ?; f_equal; unfold Q8BlkData; lia
  | intros ? ?; apply (f_equal2 Z.sub); [f_equal; lia | f_equal; lia] ].

Ltac same_codes32 Hl := apply (f_equal2 Z.add); same_codes Hl.

(** ** The 2x2 tile, BlkLen = 16 *)

Lemma Compute2x2_BlkLen16_lanes sA sB sS sZ a b s z k :
  let st := for_up k
              (step2x2_BlkLen16 mQuantA mQuantBData mQuantBScale mQuantBZeroPoint
                 HasZeroPoint sA sB sS sZ)
              (init2x2 a b s z) in
  QuantAPtr st = a + k * Q8BlkSize 16 /\
  QuantBDataPtr st = b + k * 8 /\
  QuantBScalePtr st = s + k /\
  QuantBZeroPointPtr st = zero_point_ptr_at z k /\
  forall r c l, r < 2 -> c < 2 -> l < 4 ->
    flane (acc2x2 st r c) l
    = tile_lane_all 16 (a + r * sA) (b + c * sB) (s + c * sS) (z + c * sZ) k l.
Proof.
  induction k as [|k IH]; cbv zeta in *.
  - rewrite for_up_0. cbn [init2x2 QuantAPtr QuantBDataPtr QuantBScalePtr
      QuantBZeroPointPtr].
    repeat (split; [first [lia | unfold Int8Reference.zero_point_ptr_at;
                                 destruct HasZeroPoint; cbn; lia]|]).
    intros r c l Hr Hc Hl.
    destruct r as [|[|r]]; destruct c as [|[|c]]; try lia;
      cbn [Int8Order.acc2x2 init2x2 acc00 acc01 acc10 acc11]; apply flane_zero.
  - rewrite for_up_S. destruct IH as (IA & IB & IS & IZ & IV).
    set (st := for_up k _ _) in *.
    unfold step2x2_BlkLen16. rewrite IZ, load_bzp_2x2_spec by exact zp_bytes.
    cbn [QuantAPtr QuantBDataPtr QuantBScalePtr QuantBZeroPointPtr].
    rewrite next_zero_point_ptr_at.
    split; [rewrite IA; lia|]. split; [rewrite IB; lia|].
    split; [rewrite IS; lia|]. split; [reflexivity|].
    intros r c l Hr Hc Hl.
    pose proof (IV r c l Hr Hc Hl) as V.
    unfold Int8Order.tile_lane_all, Int8Order.lane_all in V |- *. cbn [fma_chain].
    rewrite unit_dot_16, unit_scale_16 by exact Hl.
    destruct r as [|[|r]]; destruct c as [|[|c]]; try lia;
      cbn [Int8Order.acc2x2 acc00 acc01 acc10 acc11] in V |- *;
      rewrite flane_fma_cvt, sdot16 by (first [exact Hl | apply zero_point_in_range]);
      rewrite V, IA, IB, IS;
      rewrite ?Nat.mul_0_l, ?Nat.mul_1_l, ?Nat.add_0_r;
      same_unit; same_codes Hl.
Qed.

(** ** The 1x1 tiles that take the blocks in pairs *)

Abbreviation pairs_done :=
  (Int8Order.pairs_done mQuantA mQuantBData mQuantBScale mQuantBZeroPoint HasZeroPoint).

(** The loop over the pairs, then the last block when the number of
    blocks is odd: the first accumulator holds the blocks of even index,
    the second the blocks of odd index. *)
Lemma run1x1_pairs_lanes BlkLen
    (pair_step last_step : tile1x1_state (F := F) -> tile1x1_state (F := F))
    (Q D K a b s z : nat) :
  (forall j st, 2 * j + 1 < K -> pairs_done BlkLen Q D K a b s z j st ->
     pairs_done BlkLen Q D K a b s z (j + 1) (pair_step st)) ->
  (forall j st, K = 2 * j + 1 -> pairs_done BlkLen Q D K a b s z j st ->
     forall l, l < 4 ->
       flane (acc0 (last_step st)) l = tile_lane_even BlkLen a b s z (j + 1) l /\
       flane (acc1 (last_step st)) l = tile_lane_odd BlkLen a b s z j l) ->
  forall l, l < 4 ->
    flane (acc0 (run1x1_pairs pair_step last_step (init1x1 K a b s z))) l
    = tile_lane_even BlkLen a b s z ((K + 1) / 2) l /\
    flane (acc1 (run1x1_pairs pair_step last_step (init1x1 K a b s z))) l
    = tile_lane_odd BlkLen a b s z (K / 2) l.
Proof.
  intros Hpair Hlast. unfold run1x1_pairs.
  pose proof (Nat.div_mod_eq K 2) as ED.
  pose proof (Nat.mod_upper_bound K 2 ltac:(lia)) as EM.
  assert (H : pairs_done BlkLen Q D K a b s z (K / 2)
                (while_loop (k_blks_remaining (init1x1 (F := F) K a b s z))
                   (fun s => 1 <? k_blks_remaining s) pair_step
                   (init1x1 K a b s z))).
  { apply (while_loop_invariant (pairs_done BlkLen Q D K a b s z)).
    - unfold Int8Order.pairs_done.
      cbn [init1x1 k_blks_remaining tQuantAPtr tQuantBDataPtr tQuantBScalePtr
           tQuantBZeroPointPtr].
      repeat (split; [first [lia | destruct HasZeroPoint; lia]|]).
      intros l Hl. cbn [init1x1 acc0 acc1]. rewrite flane_zero. split; reflexivity.
    - intros t st Ht Hst. split.
      + destruct Hst as (-> & _). apply Nat.ltb_lt. lia.
      + replace (Datatypes.S t) with (t + 1) by lia. apply Hpair; [lia | exact Hst].
    - intros st (-> & _). apply Nat.ltb_ge. lia.
    - cbn [init1x1 k_blks_remaining]. lia. }
  set (st := while_loop _ _ _ _) in *.
  intros l Hl.
  destruct (0 <? k_blks_remaining st) eqn:E.
  - apply Nat.ltb_lt in E.
    assert (HK : K = 2 * (K / 2) + 1) by (destruct H as (H0 & _); lia).
    replace ((K + 1) / 2) with (K / 2 + 1)
      by (apply Nat.div_unique with 0; lia).
    apply (Hlast (K / 2) st HK H l Hl).
  - apply Nat.ltb_ge in E.
    assert (HK : K = 2 * (K / 2)) by (destruct H as (H0 & _); lia).
    replace ((K + 1) / 2) with (K / 2)
      by (apply Nat.div_unique with 1; lia).
    destruct H as (_ & _ & _ & _ & _ & HV). apply HV, Hl.
Qed.

Lemma Compute1x1_BlkLen16_lanes a b s z K l :
  l < 4 ->
  let st := run1x1_pairs
              (pair_step1x1_BlkLen16 mQuantA mQuantBData mQuantBScale mQuantBZeroPoint
                 HasZeroPoint)
              (last_step1x1_BlkLen16 mQuantA mQuantBData mQuantBScale mQuantBZeroPoint
                 HasZeroPoint)
              (init1x1 K a b s z) in
  flane (acc0 st) l = tile_lane_even 16 a b s z ((K + 1) / 2) l /\
  flane (acc1 st) l = tile_lane_odd 16 a b s z (K / 2) l.
Proof.
  intros Hl. cbv zeta. revert l Hl.
  apply (run1x1_pairs_lanes 16 _ _ (Q8BlkSize 16) 8).
  - intros j st Hj (HR & HA & HB & HS & HZ & HV).
    unfold Int8Order.pairs_done, pair_step1x1_BlkLen16.
    cbn [k_blks_remaining tQuantAPtr tQuantBDataPtr tQuantBScalePtr
         tQuantBZeroPointPtr acc0 acc1].
    rewrite HR, HA, HB, HS, HZ.
    repeat (split; [first [lia | destruct HasZeroPoint; lia]|]).
    intros l Hl. destruct (HV l Hl) as [V0 V1].
    rewrite bzp_low_spec, bzp_high_spec by exact zp_bytes.
    rewrite !flane_fma_cvt, sdot16_pair0, sdot16_pair1
      by (first [exact Hl | apply zero_point_in_range]).
    unfold Int8Order.tile_lane_even, Int8Order.tile_lane_odd,
      Int8Order.lane_even, Int8Order.lane_odd in V0, V1 |- *.
    replace (j + 1) with (Datatypes.S j) by lia. cbn [fma_chain].
    rewrite !unit_dot_16, !unit_scale_16 by exact Hl.
    rewrite V0, V1. split; same_unit; same_codes Hl.
  - intros j st HK (HR & HA & HB & HS & HZ & HV) l Hl.
    unfold last_step1x1_BlkLen16. cbn [acc0 acc1].
    destruct (HV l Hl) as [V0 V1].
    rewrite HA, HB, HS, HZ, bzp_low_spec.
    rewrite flane_fma_cvt, sdot16 by (first [exact Hl | apply zero_point_in_range]).
    split; [|exact V1].
    unfold Int8Order.tile_lane_even, Int8Order.lane_even in V0 |- *.
    replace (j + 1) with (Datatypes.S j) by lia. cbn [fma_chain].
    rewrite unit_dot_16, unit_scale_16 by exact Hl.
    rewrite V0. same_unit; same_codes Hl.
Qed.

(** ** The 1x1 tile, BlkLen = 32 *)

Lemma unit_dot_32_block a b z u l :
  l < 4 ->
  Int8Order.unit_dot 32 (row_code 32 a) (column_code 32 b) (column_zero_point z) u l
  = (sdot_lane
       (fun t => q8_data mQuantA (Q8BlkData (a + u * Q8BlkSize 32) + t)%nat)
       (fun t => code32_at (b + u * 16) t - b_zero_point z u) l
     + sdot_lane
         (fun t => q8_data mQuantA (Q8BlkData (a + u * Q8BlkSize 32) + 16 + t)%nat)
         (fun t => code32_at (b + u * 16) (16 + t)%nat - b_zero_point z u) l)%Z.
Proof.
  intros Hl.
  pose proof (unit_dot_32 1 a b z u 0 l ltac:(lia) ltac:(lia) Hl) as E.
  change (32 * 1) with 32 in E.
  replace (u * 1 + 0) with u in E by lia. rewrite E.
  same_codes32 Hl.
Qed.

Lemma unit_scale_32_block a s u :
  Int8Order.unit_scale 32 (row_scale 32 a) (column_scale s) u
  = fmul (Q8BlkScale mQuantA (a + u * Q8BlkSize 32)) (mQuantBScale (s + u)).
Proof.
  pose proof (unit_scale_32 1 a s u 0 ltac:(lia) ltac:(lia)) as E.
  change (32 * 1) with 32 in E.
  replace (u * 1 + 0) with u in E by lia. exact E.
Qed.

Lemma Compute1x1_BlkLen32_lanes a b s z K l :
  l < 4 ->
  let st := run1x1_pairs
              (pair_step1x1_BlkLen32 mQuantA mQuantBData mQuantBScale mQuantBZeroPoint
                 HasZeroPoint)
              (last_step1x1_BlkLen32 mQuantA mQuantBData mQuantBScale mQuantBZeroPoint
                 HasZeroPoint)
              (init1x1 K a b s z) in
  flane (acc0 st) l = tile_lane_even 32 a b s z ((K + 1) / 2) l /\
  flane (acc1 st) l = tile_lane_odd 32 a b s z (K / 2) l.
Proof.
  intros Hl. cbv zeta. revert l Hl.
  apply (run1x1_pairs_lanes 32 _ _ (Q8BlkSize 32) 16).
  - intros j st Hj (HR & HA & HB & HS & HZ & HV).
    unfold Int8Order.pairs_done, pair_step1x1_BlkLen32.
    cbn [k_blks_remaining tQuantAPtr tQuantBDataPtr tQuantBScalePtr
         tQuantBZeroPointPtr acc0 acc1].
    rewrite HR, HA, HB, HS, HZ.
    repeat (split; [first [lia | destruct HasZeroPoint; lia]|]).
    intros l Hl. destruct (HV l Hl) as [V0 V1].
    rewrite bzp_low_spec, bzp_high_spec by exact zp_bytes.
    rewrite !flane_fma_cvt, !sdot32
      by (first [exact Hl | apply zero_point_in_range]).
    unfold Int8Order.tile_lane_even, Int8Order.tile_lane_odd,
      Int8Order.lane_even, Int8Order.lane_odd in V0, V1 |- *.
    replace (j + 1) with (Datatypes.S j) by lia. cbn [fma_chain].
    rewrite !unit_dot_32_block, !unit_scale_32_block by exact Hl.
    rewrite V0, V1. split; same_unit; same_codes32 Hl.
  - intros j st HK (HR & HA & HB & HS & HZ & HV) l Hl.
    unfold last_step1x1_BlkLen32. cbn [acc0 acc1].
    destruct (HV l Hl) as [V0 V1].
    rewrite HA, HB, HS, HZ, bzp_low_spec.
    rewrite flane_fma_cvt, sdot32 by (first [exact Hl | apply zero_point_in_range]).
    split; [|exact V1].
    unfold Int8Order.tile_lane_even, Int8Order.lane_even in V0 |- *.
    replace (j + 1) with (Datatypes.S j) by lia. cbn [fma_chain].
    rewrite unit_dot_32_block, unit_scale_32_block by exact Hl.
    rewrite V0. same_unit; same_codes32 Hl.
Qed.

(** ** The 2x2 tile, BlkLen a multiple of 32 *)

(** The loop of a 2x2 tile over the sub-blocks of block [k]. *)
Lemma sub_steps2x2_lanes j sA sB sS sZ a b s z k (c00 c01 c10 c11 : list F) i l :
  0 < j -> i <= j -> l < 4 ->
  flane c00 l = tile_lane_all (32 * j) a b s z (k * j) l ->
  flane c01 l = tile_lane_all (32 * j) a (b + sB) (s + sS) (z + sZ) (k * j) l ->
  flane c10 l = tile_lane_all (32 * j) (a + sA) b s z (k * j) l ->
  flane c11 l = tile_lane_all (32 * j) (a + sA) (b + sB) (s + sS) (z + sZ) (k * j) l ->
  let Q := Q8BlkSize (32 * j) in
  let u := for_up i
             (sub_step2x2 mQuantA mQuantBData sB
                (b_zero_point z k) (b_zero_point (z + sZ) k)
                (fmul (Q8BlkScale mQuantA (a + k * Q)) (mQuantBScale (s + k)))
                (fmul (Q8BlkScale mQuantA (a + k * Q)) (mQuantBScale (s + k + sS)))
                (fmul (Q8BlkScale mQuantA (a + k * Q + sA)) (mQuantBScale (s + k)))
                (fmul (Q8BlkScale mQuantA (a + k * Q + sA))
                      (mQuantBScale (s + k + sS))))
             {| QuantADataPtrRow0 := Q8BlkData (a + k * Q);
                QuantADataPtrRow1 := Q8BlkData (a + k * Q + sA);
                sQuantBDataPtr := b + k * (16 * j);
                s00 := c00; s01 := c01; s10 := c10; s11 := c11 |} in
  QuantADataPtrRow0 u = Q8BlkData (a + k * Q) + 32 * i /\
  QuantADataPtrRow1 u = Q8BlkData (a + k * Q + sA) + 32 * i /\
  sQuantBDataPtr u = b + k * (16 * j) + 16 * i /\
  flane (s00 u) l = tile_lane_all (32 * j) a b s z (k * j + i) l /\
  flane (s01 u) l = tile_lane_all (32 * j) a (b + sB) (s + sS) (z + sZ) (k * j + i) l /\
  flane (s10 u) l = tile_lane_all (32 * j) (a + sA) b s z (k * j + i) l /\
  flane (s11 u) l
  = tile_lane_all (32 * j) (a + sA) (b + sB) (s + sS) (z + sZ) (k * j + i) l.
Proof.
  intros Hj Hi Hl C00 C01 C10 C11. induction i as [|i IH]; cbv zeta in *.
  - rewrite for_up_0. cbn [QuantADataPtrRow0 QuantADataPtrRow1 sQuantBDataPtr
      s00 s01 s10 s11].
    rewrite !Nat.add_0_r. repeat (split; [first [lia | assumption]|]). assumption.
  - rewrite for_up_S. destruct (IH ltac:(lia)) as (I0 & I1 & IB & V00 & V01 & V10 & V11).
    set (u := for_up i _ _) in *.
    unfold sub_step2x2.
    cbn [QuantADataPtrRow0 QuantADataPtrRow1 sQuantBDataPtr s00 s01 s10 s11].
    rewrite I0, I1, IB.
    split; [lia|]. split; [lia|]. split; [lia|].
    rewrite !flane_fma_cvt, !sdot32 by (first [exact Hl | apply zero_point_in_range]).
    unfold Int8Order.tile_lane_all, Int8Order.lane_all in V00, V01, V10, V11 |- *.
    replace (k * j + Datatypes.S i) with (Datatypes.S (k * j + i)) by lia.
    cbn [fma_chain].
    rewrite !unit_dot_32, !unit_scale_32 by (first [exact Hl | exact Hj | lia]).
    rewrite V00, V01, V10, V11.
    repeat split; same_unit; same_codes32 Hl.
Qed.

Lemma Compute2x2_BlkLenGreaterThan16_lanes j sA sB sS sZ a b s z k :
  0 < j ->
  let st := for_up k
              (step2x2_BlkLenGreaterThan16 mQuantA mQuantBData mQuantBScale
                 mQuantBZeroPoint HasZeroPoint (32 * j) sA sB sS sZ)
              (init2x2 a b s z) in
  QuantAPtr st = a + k * Q8BlkSize (32 * j) /\
  QuantBDataPtr st = b + k * (16 * j) /\
  QuantBScalePtr st = s + k /\
  QuantBZeroPointPtr st = zero_point_ptr_at z k /\
  forall r c l, r < 2 -> c < 2 -> l < 4 ->
    flane (acc2x2 st r c) l
    = tile_lane_all (32 * j) (a + r * sA) (b + c * sB) (s + c * sS) (z + c * sZ)
        (k * j) l.
Proof.
  intros Hj. induction k as [|k IH]; cbv zeta in *.
  - rewrite for_up_0. cbn [init2x2 QuantAPtr QuantBDataPtr QuantBScalePtr
      QuantBZeroPointPtr].
    repeat (split; [first [lia | unfold Int8Reference.zero_point_ptr_at;
                                 destruct HasZeroPoint; cbn; lia]|]).
    intros r c l Hr Hc Hl.
    destruct r as [|[|r]]; destruct c as [|[|c]]; try lia;
      cbn [Int8Order.acc2x2 init2x2 acc00 acc01 acc10 acc11]; apply flane_zero.
  - rewrite for_up_S. destruct IH as (IA & IB & IS & IZ & IV).
    set (st := for_up k _ _) in *.
    unfold step2x2_BlkLenGreaterThan16.
    rewrite IZ, load_bzp_2x2_spec by exact zp_bytes.
    replace (32 * j / 32) with j by (rewrite Nat.mul_comm, Nat.div_mul; lia).
    cbn [QuantAPtr QuantBDataPtr QuantBScalePtr QuantBZeroPointPtr].
    rewrite next_zero_point_ptr_at, IA, IB, IS.
    assert (V00 : forall l, l < 4 ->
              flane (acc00 st) l = tile_lane_all (32 * j) a b s z (k * j) l).
    { intros l Hl. pose proof (IV 0 0 l ltac:(lia) ltac:(lia) Hl) as V.
      cbn [Int8Order.acc2x2] in V.
      rewrite ?Nat.mul_0_l, ?Nat.mul_1_l, ?Nat.add_0_r in V. exact V. }
    assert (V01 : forall l, l < 4 ->
              flane (acc01 st) l
              = tile_lane_all (32 * j) a (b + sB) (s + sS) (z + sZ) (k * j) l).
    { intros l Hl. pose proof (IV 0 1 l ltac:(lia) ltac:(lia) Hl) as V.
      cbn [Int8Order.acc2x2] in V.
      rewrite ?Nat.mul_0_l, ?Nat.mul_1_l, ?Nat.add_0_r in V. exact V. }
    assert (V10 : forall l, l < 4 ->
              flane (acc10 st) l = tile_lane_all (32 * j) (a + sA) b s z (k * j) l).
    { intros l Hl. pose proof (IV 1 0 l ltac:(lia) ltac:(lia) Hl) as V.
      cbn [Int8Order.acc2x2] in V.
      rewrite ?Nat.mul_0_l, ?Nat.mul_1_l, ?Nat.add_0_r in V. exact V. }
    assert (V11 : forall l, l < 4 ->
              flane (acc11 st) l
              = tile_lane_all (32 * j) (a + sA) (b + sB) (s + sS) (z + sZ) (k * j) l).
    { intros l Hl. pose proof (IV 1 1 l ltac:(lia) ltac:(lia) Hl) as V.
      cbn [Int8Order.acc2x2] in V.
      rewrite ?Nat.mul_0_l, ?Nat.mul_1_l, ?Nat.add_0_r in V. exact V. }
    pose proof (fun l (Hl : l < 4) =>
                  sub_steps2x2_lanes j sA sB sS sZ a b s z k
                    (acc00 st) (acc01 st) (acc10 st) (acc11 st) j l Hj
                    (Nat.le_refl j) Hl (V00 l Hl) (V01 l Hl) (V10 l Hl) (V11 l Hl))
      as W.
    cbv zeta in W.
    set (u := for_up j _ _) in *.
    destruct (W 0 ltac:(lia)) as (_ & _ & UB & _).
    split; [lia|]. split; [rewrite UB; lia|].
    split; [lia|]. split; [reflexivity|].
    intros r c l Hr Hc Hl.
    destruct (W l Hl) as (_ & _ & _ & W00 & W01 & W10 & W11).
    replace (Datatypes.S k * j) with (k * j + j) by lia.
    destruct r as [|[|r]]; destruct c as [|[|c]]; try lia;
      cbn [Int8Order.acc2x2 acc00 acc01 acc10 acc11];
      rewrite ?Nat.mul_0_l, ?Nat.mul_1_l, ?Nat.add_0_r; assumption.
Qed.

(** ** The 1x1 tile, BlkLen a multiple of 64, without zero-points *)

(** The loop of the 1x1 tile over the sub-blocks of block [k], two at a
    time: the first accumulator takes the sub-blocks of even index, the
    second those of odd index. *)
Lemma sub_steps1x1_lanes j a b s z k (c0 c1 : list F) i l :
  0 < j -> i <= j -> l < 4 ->
  flane c0 l = tile_lane_even (32 * (2 * j)) a b s z (k * j) l ->
  flane c1 l = tile_lane_odd (32 * (2 * j)) a b s z (k * j) l ->
  let Q := Q8BlkSize (32 * (2 * j)) in
  let u := for_up i
             (fun q => sub_step1x1 mQuantA mQuantBData
                         (vdupq_n_s8 (b_zero_point z k))
                         (vdupq_n_f32
                            (fmul (Q8BlkScale mQuantA (a + k * Q))
                                  (mQuantBScale (s + k))))
                         (q * 2))
             {| QuantADataPtr := Q8BlkData (a + k * Q);
                uQuantBDataPtr := b + k * (32 * j);
                u0 := c0; u1 := c1 |} in
  QuantADataPtr u = Q8BlkData (a + k * Q) + 64 * i /\
  uQuantBDataPtr u = b + k * (32 * j) + 32 * i /\
  flane (u0 u) l = tile_lane_even (32 * (2 * j)) a b s z (k * j + i) l /\
  flane (u1 u) l = tile_lane_odd (32 * (2 * j)) a b s z (k * j + i) l.
Proof.
  intros Hj Hi Hl C0 C1. induction i as [|i IH]; cbv zeta in *.
  - rewrite for_up_0. cbn [QuantADataPtr uQuantBDataPtr u0 u1].
    rewrite !Nat.add_0_r. repeat (split; [first [lia | assumption]|]). assumption.
  - rewrite for_up_S. destruct (IH ltac:(lia)) as (IA & IB & V0 & V1).
    set (u := for_up i _ _) in *.
    unfold sub_step1x1. cbn [QuantADataPtr uQuantBDataPtr u0 u1].
    rewrite IA, IB.
    split; [lia|]. split; [lia|].
    rewrite !flane_fma_cvt, !sdot32 by (first [exact Hl | apply zero_point_in_range]).
    unfold Int8Order.tile_lane_even, Int8Order.tile_lane_odd,
      Int8Order.lane_even, Int8Order.lane_odd in V0, V1 |- *.
    replace (k * j + Datatypes.S i) with (Datatypes.S (k * j + i)) by lia.
    cbn [fma_chain].
    replace (2 * (k * j + i)) with (k * (2 * j) + 2 * i) by lia.
    replace (k * (2 * j) + 2 * i + 1) with (k * (2 * j) + (2 * i + 1)) by lia.
    rewrite !unit_dot_32, !unit_scale_32 by (first [exact Hl | lia]).
    rewrite V0, V1.
    split; same_unit; same_codes32 Hl.
Qed.

Lemma Compute1x1_BlkLenGreaterThan32_lanes j a b s z K k :
  0 < j -> HasZeroPoint = false ->
  let st := for_up k
              (step1x1_BlkLenGreaterThan32 mQuantA mQuantBData mQuantBScale
                 mQuantBZeroPoint HasZeroPoint (32 * (2 * j)))
              (init1x1 K a b s z) in
  tQuantAPtr st = a + k * Q8BlkSize (32 * (2 * j)) /\
  tQuantBDataPtr st = b + k * (32 * j) /\
  tQuantBScalePtr st = s + k /\
  forall l, l < 4 ->
    flane (acc0 st) l = tile_lane_even (32 * (2 * j)) a b s z (k * j) l /\
    flane (acc1 st) l = tile_lane_odd (32 * (2 * j)) a b s z (k * j) l.
Proof.
  intros Hj HZ. induction k as [|k IH]; cbv zeta in *.
  - rewrite for_up_0. cbn [init1x1 tQuantAPtr tQuantBDataPtr tQuantBScalePtr].
    repeat (split; [lia|]).
    intros l Hl. cbn [init1x1 acc0 acc1]. rewrite flane_zero. split; reflexivity.
  - rewrite for_up_S. destruct IH as (IA & IB & IS & IV).
    set (st := for_up k _ _) in *.
    unfold step1x1_BlkLenGreaterThan32.
    rewrite for_step_for_up by lia.
    replace (MlasDivRoundup (32 * (2 * j) / 32) 2) with j.
    2:{ replace (32 * (2 * j)) with (2 * j * 32) by lia. rewrite Nat.div_mul by lia.
        unfold MlasDivRoundup. replace (2 * j + 2 - 1) with (1 + j * 2) by lia.
        rewrite Nat.div_add by lia. reflexivity. }
    assert (Ez : bzp_low mQuantBZeroPoint HasZeroPoint (tQuantBZeroPointPtr st)
                 = b_zero_point z k).
    { unfold bzp_low, Int8Reference.b_zero_point. rewrite HZ. reflexivity. }
    rewrite Ez.
    cbn [tQuantAPtr tQuantBDataPtr tQuantBScalePtr].
    rewrite IA, IB, IS. rewrite Nat.add_0_r.
    pose proof (fun l (Hl : l < 4) =>
                  sub_steps1x1_lanes j a b s z k (acc0 st) (acc1 st) j l Hj
                    (Nat.le_refl j) Hl (proj1 (IV l Hl)) (proj2 (IV l Hl)))
      as W.
    cbv zeta in W.
    set (u := for_up j _ _) in *.
    destruct (W 0 ltac:(lia)) as (_ & UB & _).
    split; [lia|]. split; [rewrite UB; lia|]. split; [lia|].
    intros l Hl. destruct (W l Hl) as (_ & _ & W0 & W1).
    cbn [acc0 acc1].
    replace (Datatypes.S k * j) with (k * j + j) by lia.
    split; assumption.
Qed.

End Lanes.

End Int8Lanes.


(** * The integer kernel: the elements in any arithmetic *)

Module Int8Elements.

Import Mlas Neon NeonFacts TwosComplement Q8 CompInt8 Int8Views Int8Facts.
Import Int8Dot Int8Tiles Int8Kernel Fp32Order Fp32Lanes Int8Lanes.

Section Elements.

Context {F : Type} {ops : Fp32Ops F}.

Variable mQuantA : Q8Mem F.
Variable mQuantBData : mem Z.
Variable mQuantBScale : mem F.
Variable mQuantBZeroPoint : mem Z.
Variable mBias : mem F.

Hypothesis a_int8 : forall p, (-128 <= q8_data mQuantA p <= 127)%Z.
Hypothesis b_bytes : forall p, Byte8.is_byte (mQuantBData p).
Hypothesis zp_bytes : forall p, Byte8.is_byte (mQuantBZeroPoint p).

Abbreviation tile_lane_all :=
  (Int8Order.tile_lane_all mQuantA mQuantBData mQuantBScale mQuantBZeroPoint).
Abbreviation tile_lane_even :=
  (Int8Order.tile_lane_even mQuantA mQuantBData mQuantBScale mQuantBZeroPoint).
Abbreviation tile_lane_odd :=
  (Int8Order.tile_lane_odd mQuantA mQuantBData mQuantBScale mQuantBZeroPoint).

Abbreviation tile_one :=
  (Int8Order.tile_one mQuantA mQuantBData mQuantBScale mQuantBZeroPoint).
Abbreviation tile_two :=
  (Int8Order.tile_two mQuantA mQuantBData mQuantBScale mQuantBZeroPoint).

Lemma sums2x2_lanes (st : tile2x2_state (F := F)) r c (L : nat -> F) :
  (forall l, l < 4 -> flane (Int8Order.acc2x2 st r c) l = L l) ->
  sums2x2 st r c = Int8Order.sum_lanes L.
Proof.
  intros H.
  assert (E : sums2x2 st r c = vaddvq_f32 (Int8Order.acc2x2 st r c))
    by (destruct r as [|r]; destruct c as [|c]; reflexivity).
  rewrite E. unfold vaddvq_f32, Int8Order.sum_lanes. rewrite !H by lia. reflexivity.
Qed.

Lemma sum1x1_lanes (st : tile1x1_state (F := F)) (L0 L1 : nat -> F) :
  (forall l, l < 4 -> flane (acc0 st) l = L0 l /\ flane (acc1 st) l = L1 l) ->
  sum1x1 st = fadd (Int8Order.sum_lanes L0) (Int8Order.sum_lanes L1).
Proof.
  intros H. unfold Int8Views.sum1x1, vaddvq_f32, Int8Order.sum_lanes.
  destruct (H 0 ltac:(lia)) as [-> ->]. destruct (H 1 ltac:(lia)) as [-> ->].
  destruct (H 2 ltac:(lia)) as [-> ->]. destruct (H 3 ltac:(lia)) as [-> ->].
  reflexivity.
Qed.

Section Kernels.

Variable HasZeroPoint : bool.
Variables QuantA QuantBData QuantBScale QuantBZeroPoint : nat.
Variables CountM CountN BlockCountK ldc CPtr : nat.
Variable Bias : option nat.
Variable C0 : mem F.
Variables m n : nat.
Hypothesis ldc_ge : CountN <= ldc.
Hypothesis m_lt : m < CountM.
Hypothesis n_lt : n < CountN.

Lemma kernel_BlkLen16 :
  SQ4BitGemmKernel_CompInt8_BlkLen16 mQuantA mQuantBData mQuantBScale mQuantBZeroPoint
    mBias HasZeroPoint QuantA QuantBData QuantBScale QuantBZeroPoint
    C0 CPtr CountM CountN BlockCountK ldc Bias (CPtr + m * ldc + n)
  = with_bias mBias Bias n
      ((if (m <? 2 * (CountM / 2)) && (n <? 2 * (CountN / 2))
        then tile_one HasZeroPoint 16 else tile_two HasZeroPoint 16)
         (QuantA + m * StrideQuantA 16 BlockCountK)
         (QuantBData + n * StrideQuantBData 16 BlockCountK)
         (QuantBScale + n * StrideQuantBScale BlockCountK)
         (if HasZeroPoint
          then QuantBZeroPoint + n * StrideQuantBZeroPoint BlockCountK
          else QuantBZeroPoint)
         BlockCountK).
Proof.
  unfold SQ4BitGemmKernel_CompInt8_BlkLen16.
  rewrite (tile_loops_element_sum mBias
             (SQ4BitGemm_CompInt8_Compute2x2_BlkLen16 mQuantA mQuantBData mQuantBScale mQuantBZeroPoint mBias HasZeroPoint)
             (SQ4BitGemm_CompInt8_Compute1x1_BlkLen16 mQuantA mQuantBData mQuantBScale mQuantBZeroPoint mBias HasZeroPoint)
             HasZeroPoint 16 QuantA QuantBData
             QuantBScale QuantBZeroPoint CountN BlockCountK ldc Bias
             (fun a b s z =>
                for_up BlockCountK
                  (step2x2_BlkLen16 mQuantA mQuantBData mQuantBScale mQuantBZeroPoint
                     HasZeroPoint (StrideQuantA 16 BlockCountK)
                     (StrideQuantBData 16 BlockCountK) (StrideQuantBScale BlockCountK)
                     (StrideQuantBZeroPoint BlockCountK))
                  (init2x2 a b s z))
             (fun a b s z =>
                run1x1_pairs
                  (pair_step1x1_BlkLen16 mQuantA mQuantBData mQuantBScale
                     mQuantBZeroPoint HasZeroPoint)
                  (last_step1x1_BlkLen16 mQuantA mQuantBData mQuantBScale
                     mQuantBZeroPoint HasZeroPoint)
                  (init1x1 BlockCountK a b s z))
             ltac:(intros; reflexivity) ltac:(intros; reflexivity) ldc_ge
             (fun a b s z => tile_one HasZeroPoint 16 a b s z BlockCountK)
             (fun a b s z => tile_two HasZeroPoint 16 a b s z BlockCountK)
             C0 CPtr CountM m n).
  - cbv zeta. destruct (_ && _); reflexivity.
  - intros a b s z r c Hr Hc. apply sums2x2_lanes. intros l Hl.
    apply (Compute2x2_BlkLen16_lanes mQuantA mQuantBData mQuantBScale mQuantBZeroPoint
             HasZeroPoint a_int8 b_bytes zp_bytes); assumption.
  - intros a b s z. apply sum1x1_lanes. intros l Hl.
    apply (Compute1x1_BlkLen16_lanes mQuantA mQuantBData mQuantBScale mQuantBZeroPoint
             HasZeroPoint a_int8 b_bytes zp_bytes a b s z BlockCountK l Hl).
  - intros -> a b s z z'. reflexivity.
  - exact m_lt.
  - exact n_lt.
Qed.

Lemma kernel_BlkLen32 :
  SQ4BitGemmKernel_CompInt8_BlkLen32 mQuantA mQuantBData mQuantBScale mQuantBZeroPoint
    mBias HasZeroPoint QuantA QuantBData QuantBScale QuantBZeroPoint
    C0 CPtr CountM CountN BlockCountK ldc Bias (CPtr + m * ldc + n)
  = with_bias mBias Bias n
      ((if (m <? 2 * (CountM / 2)) && (n <? 2 * (CountN / 2))
        then tile_one HasZeroPoint 32 else tile_two HasZeroPoint 32)
         (QuantA + m * StrideQuantA 32 BlockCountK)
         (QuantBData + n * StrideQuantBData 32 BlockCountK)
         (QuantBScale + n * StrideQuantBScale BlockCountK)
         (if HasZeroPoint
          then QuantBZeroPoint + n * StrideQuantBZeroPoint BlockCountK
          else QuantBZeroPoint)
         BlockCountK).
Proof.
  unfold SQ4BitGemmKernel_CompInt8_BlkLen32.
  rewrite (tile_loops_element_sum mBias
             (SQ4BitGemm_CompInt8_Compute2x2_BlkLenGreaterThan16 mQuantA mQuantBData mQuantBScale mQuantBZeroPoint mBias HasZeroPoint 32)
             (SQ4BitGemm_CompInt8_Compute1x1_BlkLen32 mQuantA mQuantBData mQuantBScale mQuantBZeroPoint mBias HasZeroPoint)
             HasZeroPoint 32 QuantA QuantBData
             QuantBScale QuantBZeroPoint CountN BlockCountK ldc Bias
             (fun a b s z =>
                for_up BlockCountK
                  (step2x2_BlkLenGreaterThan16 mQuantA mQuantBData mQuantBScale
                     mQuantBZeroPoint HasZeroPoint 32 (StrideQuantA 32 BlockCountK)
                     (StrideQuantBData 32 BlockCountK) (StrideQuantBScale BlockCountK)
                     (StrideQuantBZeroPoint BlockCountK))
                  (init2x2 a b s z))
             (fun a b s z =>
                run1x1_pairs
                  (pair_step1x1_BlkLen32 mQuantA mQuantBData mQuantBScale
                     mQuantBZeroPoint HasZeroPoint)
                  (last_step1x1_BlkLen32 mQuantA mQuantBData mQuantBScale
                     mQuantBZeroPoint HasZeroPoint)
                  (init1x1 BlockCountK a b s z))
             ltac:(intros; reflexivity) ltac:(intros; reflexivity) ldc_ge
             (fun a b s z => tile_one HasZeroPoint 32 a b s z BlockCountK)
             (fun a b s z => tile_two HasZeroPoint 32 a b s z BlockCountK)
             C0 CPtr CountM m n).
  - cbv zeta. destruct (_ && _); reflexivity.
  - intros a b s z r c Hr Hc. apply sums2x2_lanes. intros l Hl.
    pose proof (Compute2x2_BlkLenGreaterThan16_lanes mQuantA mQuantBData mQuantBScale
                  mQuantBZeroPoint HasZeroPoint a_int8 b_bytes zp_bytes 1
                  (StrideQuantA 32 BlockCountK) (StrideQuantBData 32 BlockCountK)
                  (StrideQuantBScale BlockCountK) (StrideQuantBZeroPoint BlockCountK)
                  a b s z BlockCountK ltac:(lia)) as (_ & _ & _ & _ & H).
    specialize (H r c l Hr Hc Hl). change (32 * 1) with 32 in H.
    rewrite Nat.mul_1_r in H. exact H.
  - intros a b s z. apply sum1x1_lanes. intros l Hl.
    apply (Compute1x1_BlkLen32_lanes mQuantA mQuantBData mQuantBScale mQuantBZeroPoint
             HasZeroPoint a_int8 b_bytes zp_bytes a b s z BlockCountK l Hl).
  - intros -> a b s z z'. reflexivity.
  - exact m_lt.
  - exact n_lt.
Qed.

(** For the multiples of 64 the elements of the 2x2 tiles, and without
    zero-points the elements of the 1x1 tiles. *)
Lemma kernel_BlkLen64 j :
  0 < j ->
  HasZeroPoint = false \/ (m < 2 * (CountM / 2) /\ n < 2 * (CountN / 2)) ->
  SQ4BitGemmKernel_CompInt8_BlkLenGreaterThan32 mQuantA mQuantBData mQuantBScale
    mQuantBZeroPoint mBias HasZeroPoint (32 * (2 * j))
    QuantA QuantBData QuantBScale QuantBZeroPoint
    C0 CPtr CountM CountN BlockCountK ldc Bias (CPtr + m * ldc + n)
  = with_bias mBias Bias n
      ((if (m <? 2 * (CountM / 2)) && (n <? 2 * (CountN / 2))
        then tile_one HasZeroPoint (32 * (2 * j))
        else tile_two HasZeroPoint (32 * (2 * j)))
         (QuantA + m * StrideQuantA (32 * (2 * j)) BlockCountK)
         (QuantBData + n * StrideQuantBData (32 * (2 * j)) BlockCountK)
         (QuantBScale + n * StrideQuantBScale BlockCountK)
         (if HasZeroPoint
          then QuantBZeroPoint + n * StrideQuantBZeroPoint BlockCountK
          else QuantBZeroPoint)
         (BlockCountK * (2 * j))).
Proof.
  intros Hj Hcase. unfold SQ4BitGemmKernel_CompInt8_BlkLenGreaterThan32.
  set (st1 := fun a b s z =>
                for_up BlockCountK
                  (step1x1_BlkLenGreaterThan32 mQuantA mQuantBData mQuantBScale
                     mQuantBZeroPoint HasZeroPoint (32 * (2 * j)))
                  (init1x1 (F := F) BlockCountK a b s z)).
  rewrite (tile_loops_element_sum mBias
             (SQ4BitGemm_CompInt8_Compute2x2_BlkLenGreaterThan16 mQuantA mQuantBData mQuantBScale mQuantBZeroPoint mBias HasZeroPoint (32 * (2 * j)))
             (SQ4BitGemm_CompInt8_Compute1x1_BlkLenGreaterThan32 mQuantA mQuantBData mQuantBScale mQuantBZeroPoint mBias HasZeroPoint (32 * (2 * j)))
             HasZeroPoint (32 * (2 * j)) QuantA QuantBData
             QuantBScale QuantBZeroPoint CountN BlockCountK ldc Bias
             (fun a b s z =>
                for_up BlockCountK
                  (step2x2_BlkLenGreaterThan16 mQuantA mQuantBData mQuantBScale
                     mQuantBZeroPoint HasZeroPoint (32 * (2 * j))
                     (StrideQuantA (32 * (2 * j)) BlockCountK)
                     (StrideQuantBData (32 * (2 * j)) BlockCountK)
                     (StrideQuantBScale BlockCountK)
                     (StrideQuantBZeroPoint BlockCountK))
                  (init2x2 a b s z))
             st1
             ltac:(intros; reflexivity) ltac:(intros; reflexivity) ldc_ge
             (fun a b s z => tile_one HasZeroPoint (32 * (2 * j)) a b s z
                               (BlockCountK * (2 * j)))
             (fun a b s z => sum1x1 (st1 a b s z))
             C0 CPtr CountM m n).
  - cbv zeta. f_equal.
    destruct ((m <? 2 * (CountM / 2)) && (n <? 2 * (CountN / 2))) eqn:E;
      [reflexivity|].
    destruct Hcase as [HZ | [H1 H2]].
    + apply sum1x1_lanes. intros l Hl.
      destruct (Compute1x1_BlkLenGreaterThan32_lanes mQuantA mQuantBData mQuantBScale
                  mQuantBZeroPoint HasZeroPoint a_int8 b_bytes zp_bytes j
                  (QuantA + m * StrideQuantA (32 * (2 * j)) BlockCountK)
                  (QuantBData + n * StrideQuantBData (32 * (2 * j)) BlockCountK)
                  (QuantBScale + n * StrideQuantBScale BlockCountK)
                  (if HasZeroPoint
                   then QuantBZeroPoint + n * StrideQuantBZeroPoint BlockCountK
                   else QuantBZeroPoint)
                  BlockCountK BlockCountK Hj HZ) as (_ & _ & _ & H).
      specialize (H l Hl).
      replace ((BlockCountK * (2 * j) + 1) / 2) with (BlockCountK * j)
        by (apply Nat.div_unique with 1; lia).
      replace (BlockCountK * (2 * j) / 2) with (BlockCountK * j)
        by (apply Nat.div_unique with 0; lia).
      exact H.
    + apply andb_false_iff in E.
      destruct E as [E | E]; apply Nat.ltb_ge in E; lia.
  - intros a b s z r c Hr Hc. apply sums2x2_lanes. intros l Hl.
    apply (Compute2x2_BlkLenGreaterThan16_lanes mQuantA mQuantBData mQuantBScale
             mQuantBZeroPoint HasZeroPoint a_int8 b_bytes zp_bytes (2 * j));
      [lia | assumption ..].
  - intros a b s z. reflexivity.
  - intros -> a b s z z'. reflexivity.
  - exact m_lt.
  - exact n_lt.
Qed.

End Kernels.

(** ** The kernel *)

(** The extent of the codes of B on which an element depends. *)
Lemma unit_dot_ext BlkLen (qa : nat -> Z) (qb qb' zb : nat -> Z) u l :
  l < 4 ->
  (forall k, k < (u + 1) * Int8Order.unit_len BlkLen -> qb k = qb' k) ->
  Int8Order.unit_dot BlkLen qa qb zb u l = Int8Order.unit_dot BlkLen qa qb' zb u l.
Proof.
  intros Hl H. unfold Int8Order.unit_dot.
  apply zsum_below_ext. intros h Hh.
  apply sdot_lane_ext; [exact Hl | reflexivity |].
  intros t Ht. f_equal. apply H.
  pose proof (Nat.div_mod_eq (Int8Order.unit_len BlkLen) 16) as E.
  assert (16 * h + 16 <= 16 * (Int8Order.unit_len BlkLen / 16)) by lia.
  lia.
Qed.

Lemma accumulators_ext BlkLen (qa : nat -> Z) (sa : nat -> F) (qb qb' zb : nat -> Z)
    (sb : nat -> F) U :
  (forall k, k < U * Int8Order.unit_len BlkLen -> qb k = qb' k) ->
  Int8Order.one_accumulator BlkLen qa sa qb zb sb U
  = Int8Order.one_accumulator BlkLen qa sa qb' zb sb U
  /\
  Int8Order.two_accumulators BlkLen qa sa qb zb sb U
  = Int8Order.two_accumulators BlkLen qa sa qb' zb sb U.
Proof.
  intros H.
  assert (D : forall u l, u < U -> l < 4 ->
            Int8Order.unit_dot BlkLen qa qb zb u l
            = Int8Order.unit_dot BlkLen qa qb' zb u l).
  { intros u l Hu Hl. apply unit_dot_ext; [exact Hl|].
    intros k Hk. apply H.
    assert ((u + 1) * Int8Order.unit_len BlkLen <= U * Int8Order.unit_len BlkLen)
      by (apply Nat.mul_le_mono_r; lia).
    lia. }
  pose proof (Nat.div_mod_eq U 2) as EU.
  pose proof (Nat.mod_upper_bound U 2 ltac:(lia)) as BU.
  pose proof (Nat.div_mod_eq (U + 1) 2) as EU1.
  pose proof (Nat.mod_upper_bound (U + 1) 2 ltac:(lia)) as BU1.
  split.
  - unfold Int8Order.one_accumulator, Int8Order.sum_lanes, Int8Order.lane_all.
    repeat (f_equal; try (apply fma_chain_ext; [|reflexivity];
                          intros u Hu; cbv beta; rewrite D by lia; reflexivity)).
  - unfold Int8Order.two_accumulators, Int8Order.sum_lanes, Int8Order.lane_even,
      Int8Order.lane_odd.
    repeat (f_equal; try (apply fma_chain_ext; [|reflexivity];
                          intros u Hu; cbv beta; rewrite D by lia; reflexivity)).
Qed.

(** The element of row [m] and column [n], in any arithmetic. *)
Lemma kernel_element
    (BlkLen QuantA QuantBData QuantBScale : nat) (QuantBZeroPoint : option nat)
    (C0 : mem F) (CPtr CountM CountN CountK BlockCountK ldc : nat)
    (Bias : option nat) (m n : nat) :
  BlkLen = 16 \/ BlkLen = 32
  \/ (0 < BlkLen /\ BlkLen mod 64 = 0
      /\ (QuantBZeroPoint = None
          \/ (m < 2 * (CountM / 2) /\ n < 2 * (CountN / 2)))) ->
  CountN <= ldc -> m < CountM -> n < CountN ->
  fst (SQ4BitGemmKernel_CompInt8 mQuantA mQuantBData mQuantBScale mQuantBZeroPoint mBias
         BlkLen QuantA QuantBData QuantBScale QuantBZeroPoint
         C0 CPtr CountM CountN CountK BlockCountK ldc Bias) (CPtr + m * ldc + n)
  = with_bias mBias Bias n
      (Int8Order.element mQuantA mQuantBData mQuantBScale mQuantBZeroPoint
         BlkLen QuantA QuantBData QuantBScale QuantBZeroPoint BlockCountK
         CountM CountN m n).
Proof.
  intros HL Hl Hm Hn. unfold SQ4BitGemmKernel_CompInt8. cbn [fst].
  unfold SQ4BitGemmKernel_CompInt8_DispatchOnBlkLen.
  unfold Int8Order.element, Int8Order.element_of.
  destruct HL as [-> | [-> | (Hpos & H64 & Hcase)]].
  - cbn [Nat.eqb].
    replace (BlockCountK * Int8Order.units_per_block 16) with BlockCountK
      by (change (Int8Order.units_per_block 16) with 1; lia).
    destruct QuantBZeroPoint as [zp|]; rewrite kernel_BlkLen16 by assumption;
      f_equal; destruct (_ && _); reflexivity.
  - cbn [Nat.eqb].
    replace (BlockCountK * Int8Order.units_per_block 32) with BlockCountK
      by (change (Int8Order.units_per_block 32) with 1; lia).
    destruct QuantBZeroPoint as [zp|]; rewrite kernel_BlkLen32 by assumption;
      f_equal; destruct (_ && _); reflexivity.
  - pose proof (Nat.div_mod_eq BlkLen 64) as E. rewrite H64, Nat.add_0_r in E.
    assert (Hj : 0 < BlkLen / 64) by lia.
    set (j := BlkLen / 64) in *. clearbody j.
    assert (E' : BlkLen = 32 * (2 * j)) by lia. clear E. subst BlkLen.
    replace (32 * (2 * j) =? 16) with false by (symmetry; apply Nat.eqb_neq; lia).
    replace (32 * (2 * j) =? 32) with false by (symmetry; apply Nat.eqb_neq; lia).
    rewrite (units_per_block_32 (2 * j)) by lia.
    destruct QuantBZeroPoint as [zp|].
    + rewrite kernel_BlkLen64; try assumption.
      * f_equal. destruct (_ && _); reflexivity.
      * right. destruct Hcase as [H | H]; [discriminate H | exact H].
    + rewrite kernel_BlkLen64; try assumption.
      * f_equal. destruct (_ && _); reflexivity.
      * left. reflexivity.
Qed.

End Elements.

(** The code that the kernel reads at element [k] of column [n] of a
    buffer produced by SQ4BitGemmPackQuantBData for CompInt8 is code [k]
    of column [n] of the source. *)
Lemma b_code_of_packed N K BlkLen X d n k :
  (forall i, Byte8.is_byte (X i)) ->
  0 < BlkLen -> BlkLen mod Pack.SubBlkLen_of Mlas.CompInt8 BlkLen = 0 ->
  n < N -> k < MlasDivRoundup K BlkLen * BlkLen ->
  Int8Order.b_code (Pack.SQ4BitGemmPackQuantBData N K BlkLen Mlas.CompInt8 X d)
    BlkLen 0 (MlasDivRoundup K BlkLen) k n
  = PackedSource.source_code X BlkLen (MlasDivRoundup K BlkLen) k n.
Proof.
  intros HX Hpos Hmod Hn Hk.
  set (BC := MlasDivRoundup K BlkLen) in *.
  unfold PackedSource.source_code.
  rewrite <- (packed_code_pack N K BlkLen Mlas.CompInt8 X d); try assumption.
  2:{ fold BC.
      assert (n * BC * BlkLen + BC * BlkLen <= N * BC * BlkLen).
      { replace (n * BC * BlkLen + BC * BlkLen) with ((n + 1) * (BC * BlkLen)) by lia.
        replace (N * BC * BlkLen) with (N * (BC * BlkLen)) by lia.
        apply Nat.mul_le_mono_r. lia. }
      lia. }
  set (S := Pack.SubBlkLen_of Mlas.CompInt8 BlkLen) in *.
  assert (Hsub : S = 16 \/ S = 32).
  { unfold S, Pack.SubBlkLen_of. cbn [is_CompInt8]. destruct (BlkLen =? 16); auto. }
  assert (HS : 0 < S / 2 /\ S = 2 * (S / 2)).
  { destruct Hsub as [-> | ->]; cbn; lia. }
  destruct HS as [Hh H2].
  set (h := S / 2) in *.
  pose proof (Nat.div_mod_eq BlkLen S) as E. rewrite Hmod, Nat.add_0_r in E.
  set (m := BlkLen / S) in *.
  unfold Int8Order.b_code, Int8Order.column_code, Pack.packed_code, Pack.packed_pos.
  fold S. fold h.
  rewrite MlasQNBitBlkDataSizeInBytes_half.
  pose proof (Nat.div_mod_eq k S) as Ek.
  pose proof (Nat.mod_upper_bound k S ltac:(lia)) as Bk.
  assert (Hd : (n * BC * BlkLen + k) / S = n * BC * m + k / S).
  { symmetry. apply Nat.div_unique with (k mod S); [exact Bk|]. rewrite E. lia. }
  assert (Hr : (n * BC * BlkLen + k) mod S = k mod S).
  { symmetry. apply Nat.mod_unique with (n * BC * m + k / S); [exact Bk|]. rewrite E. lia. }
  rewrite Hd, Hr.
  replace (BlkLen / 2) with (h * m)
    by (apply Nat.div_unique with 0; lia).
  replace (0 + n * (BC * (h * m)) + (k / S * h + (k mod S) mod h))
    with ((n * BC * m + k / S) * h + (k mod S) mod h) by lia.
  reflexivity.
Qed.

(** A block is a whole number of units. *)
Lemma block_of_units BlkLen :
  BlkLen = 16 \/ BlkLen = 32 \/ (0 < BlkLen /\ BlkLen mod 64 = 0) ->
  0 < BlkLen
  /\ BlkLen mod Pack.SubBlkLen_of Mlas.CompInt8 BlkLen = 0
  /\ Int8Order.units_per_block BlkLen * Int8Order.unit_len BlkLen = BlkLen.
Proof.
  intros [-> | [-> | (Hpos & H64)]].
  - repeat split; try reflexivity; lia.
  - repeat split; try reflexivity; lia.
  - pose proof (Nat.div_mod_eq BlkLen 64) as E. rewrite H64, Nat.add_0_r in E.
    assert (H16 : (BlkLen =? 16) = false) by (apply Nat.eqb_neq; lia).
    unfold Int8Order.units_per_block, Int8Order.unit_len, Pack.SubBlkLen_of.
    cbn [is_CompInt8]. rewrite H16.
    assert (M : BlkLen mod 32 = 0).
    { rewrite E. replace (64 * (BlkLen / 64)) with (BlkLen / 64 * 2 * 32) by lia.
      apply Nat.Div0.mod_mul. }
    repeat split; [exact Hpos | exact M |].
    pose proof (Nat.div_mod_eq BlkLen 32) as E'. lia.
Qed.

(** ** The theorems *)

(** X16: for the block lengths 16 and 32, in any arithmetic of the
    float32 operations (the binary32 one included),
    SQ4BitGemmKernel_CompInt8 computes every element in the order of
    its instructions.  A unit is a block of 16 codes or a block of 32
    codes.  Lane [l] of a unit is the integer sum of the four products
    [qa * (qb - zero_point)] of the elements [4l .. 4l+3] of the unit
    (for 32 codes, of both halves), exact because no integer
    overflows.  An element of a 2x2 tile has one accumulator of four
    lanes: lane [l] receives, unit after unit, by a fused multiply-add,
    the lane of the unit converted to float32 times the float32 product
    [a_scale * b_scale] of the block; the element is
    [(lane0 + lane1) + (lane2 + lane3)].  An element of a 1x1 tile (last
    row of an odd CountM, last column of an odd CountN) has two such
    accumulators, one for the units of even index and one for those of
    odd index, and is the float32 sum of their two lane sums.  The bias
    of the column, when there is one, is added last.  The codes of A are
    signed bytes, the codes of B are read in the layout that
    SQ4BitGemmPackQuantBData gives them for CompInt8, and the zero-point
    of a block is its 4-bit zero-point, or 8 without zero-points. *)
Theorem SQ4BitGemmKernel_CompInt8_computes_in_lane_order
    {F : Type} {ops : Fp32Ops F}
    (mQuantA : Q8Mem F) (mQuantBData : mem Z) (mQuantBScale : mem F)
    (mQuantBZeroPoint : mem Z) (mBias : mem F)
    (BlkLen QuantA QuantBData QuantBScale : nat) (QuantBZeroPoint : option nat)
    (C0 : mem F) (CPtr CountM CountN CountK BlockCountK ldc : nat)
    (Bias : option nat) (m n : nat) :
  (forall p, (-128 <= q8_data mQuantA p <= 127)%Z) ->
  (forall p, Byte8.is_byte (mQuantBData p)) ->
  (forall p, Byte8.is_byte (mQuantBZeroPoint p)) ->
  BlkLen = 16 \/ BlkLen = 32 ->
  CountN <= ldc -> m < CountM -> n < CountN ->
  fst (SQ4BitGemmKernel_CompInt8 mQuantA mQuantBData mQuantBScale mQuantBZeroPoint mBias
         BlkLen QuantA QuantBData QuantBScale QuantBZeroPoint
         C0 CPtr CountM CountN CountK BlockCountK ldc Bias) (CPtr + m * ldc + n)
  = with_bias mBias Bias n
      (Int8Order.element mQuantA mQuantBData mQuantBScale mQuantBZeroPoint
         BlkLen QuantA QuantBData QuantBScale QuantBZeroPoint BlockCountK
         CountM CountN m n).
Proof.
  intros HA HB HZ HL Hl Hm Hn.
  apply kernel_element; try assumption.
  destruct HL as [H | H]; [left | right; left]; exact H.
Qed.

(** X17: the same for a block length that is a positive multiple of 64,
    whose blocks are made of units of 32 codes sharing the scale and the
    zero-point of the block: for the elements of the 2x2 tiles (neither
    in the last row of an odd CountM nor in the last column of an odd
    CountN), and for every element when there are no zero-points. *)
Theorem SQ4BitGemmKernel_CompInt8_long_blocks_in_lane_order
    {F : Type} {ops : Fp32Ops F}
    (mQuantA : Q8Mem F) (mQuantBData : mem Z) (mQuantBScale : mem F)
    (mQuantBZeroPoint : mem Z) (mBias : mem F)
    (BlkLen QuantA QuantBData QuantBScale : nat) (QuantBZeroPoint : option nat)
    (C0 : mem F) (CPtr CountM CountN CountK BlockCountK ldc : nat)
    (Bias : option nat) (m n : nat) :
  (forall p, (-128 <= q8_data mQuantA p <= 127)%Z) ->
  (forall p, Byte8.is_byte (mQuantBData p)) ->
  (forall p, Byte8.is_byte (mQuantBZeroPoint p)) ->
  0 < BlkLen -> BlkLen mod 64 = 0 ->
  CountN <= ldc -> m < CountM -> n < CountN ->
  QuantBZeroPoint = None \/ (m < 2 * (CountM / 2) /\ n < 2 * (CountN / 2)) ->
  fst (SQ4BitGemmKernel_CompInt8 mQuantA mQuantBData mQuantBScale mQuantBZeroPoint mBias
         BlkLen QuantA QuantBData QuantBScale QuantBZeroPoint
         C0 CPtr CountM CountN CountK BlockCountK ldc Bias) (CPtr + m * ldc + n)
  = with_bias mBias Bias n
      (Int8Order.element mQuantA mQuantBData mQuantBScale mQuantBZeroPoint
         BlkLen QuantA QuantBData QuantBScale QuantBZeroPoint BlockCountK
         CountM CountN m n).
Proof.
  intros HA HB HZ Hpos H64 Hl Hm Hn Hcase.
  apply kernel_element; try assumption.
  right; right. repeat split; assumption.
Qed.

(** X21: the layout that SQ4BitGemmPackQuantBData writes for CompInt8
    is the one that SQ4BitGemmKernel_CompInt8 reads.  In any arithmetic
    of the float32 operations, for the block lengths 16 and 32 and, for
    the multiples of 64, for the elements of the 2x2 tiles and for every
    element without zero-points, the element of row [m] and column [n]
    computed on the buffer packed from [X] is the value that the order
    of the instructions gives (one accumulator of four lanes for an
    element of a 2x2 tile, two for an element of a 1x1 tile, the bias
    last) with, for the code of element [k] of the column, code [k] of
    column [n] of [X] itself. *)
Theorem SQ4BitGemmKernel_CompInt8_on_packed_source
    {F : Type} {ops : Fp32Ops F}
    (mQuantA : Q8Mem F) (X d : mem Z) (mQuantBScale : mem F)
    (mQuantBZeroPoint : mem Z) (mBias : mem F)
    (N K BlkLen QuantA QuantBScale : nat) (QuantBZeroPoint : option nat)
    (C0 : mem F) (CPtr CountM CountN ldc : nat) (Bias : option nat) (m n : nat) :
  (forall p, (-128 <= q8_data mQuantA p <= 127)%Z) ->
  (forall i, Byte8.is_byte (X i)) ->
  (forall i, Byte8.is_byte (d i)) ->
  (forall p, Byte8.is_byte (mQuantBZeroPoint p)) ->
  BlkLen = 16 \/ BlkLen = 32
  \/ (0 < BlkLen /\ BlkLen mod 64 = 0
      /\ (QuantBZeroPoint = None
          \/ (m < 2 * (CountM / 2) /\ n < 2 * (CountN / 2)))) ->
  CountN <= ldc -> CountN <= N -> m < CountM -> n < CountN ->
  fst (SQ4BitGemmKernel_CompInt8 mQuantA
         (Pack.SQ4BitGemmPackQuantBData N K BlkLen Mlas.CompInt8 X d)
         mQuantBScale mQuantBZeroPoint mBias
         BlkLen QuantA 0 QuantBScale QuantBZeroPoint
         C0 CPtr CountM CountN K (MlasDivRoundup K BlkLen) ldc Bias)
    (CPtr + m * ldc + n)
  = with_bias mBias Bias n
      (Int8Order.element_of mQuantA mQuantBScale mQuantBZeroPoint
         BlkLen QuantA QuantBScale QuantBZeroPoint (MlasDivRoundup K BlkLen)
         (PackedSource.source_code X BlkLen (MlasDivRoundup K BlkLen))
         CountM CountN m n).
Proof.
  intros HA HX Hd HZ HL Hl HN Hm Hn.
  assert (HU : BlkLen = 16 \/ BlkLen = 32 \/ (0 < BlkLen /\ BlkLen mod 64 = 0))
    by (destruct HL as [H | [H | (H1 & H2 & _)]]; auto).
  destruct (block_of_units BlkLen HU) as (Hpos & Hmod & Hunits).
  rewrite (kernel_element mQuantA _ mQuantBScale mQuantBZeroPoint mBias HA
             (packed_bytes N K BlkLen Mlas.CompInt8 X d HX Hd Hmod) HZ
             BlkLen QuantA 0 QuantBScale QuantBZeroPoint C0 CPtr CountM CountN K
             (MlasDivRoundup K BlkLen) ldc Bias m n HL Hl Hm Hn).
  f_equal. unfold Int8Order.element, Int8Order.element_of.
  assert (Hq : forall k,
            k < MlasDivRoundup K BlkLen * Int8Order.units_per_block BlkLen
                * Int8Order.unit_len BlkLen ->
            Int8Order.b_code
              (Pack.SQ4BitGemmPackQuantBData N K BlkLen Mlas.CompInt8 X d)
              BlkLen 0 (MlasDivRoundup K BlkLen) k n
            = PackedSource.source_code X BlkLen (MlasDivRoundup K BlkLen) k n).
  { intros k Hk.
    apply (b_code_of_packed N K BlkLen X d n k HX Hpos Hmod); [lia|].
    rewrite <- Nat.mul_assoc, Hunits in Hk. exact Hk. }
  destruct (_ && _).
  - apply (proj1 (accumulators_ext _ _ _ _ _ _ _ _ Hq)).
  - apply (proj2 (accumulators_ext _ _ _ _ _ _ _ _ Hq)).
Qed.

Import Binary32 Examples.

Lemma ones_QuantA_int8 : forall p, (-128 <= q8_data ones_QuantA p <= 127)%Z.
Proof. intros p. cbn. lia. Qed.

Lemma SQ4BitGemmKernel_CompInt8_computes_in_lane_order_witness :
  fst (SQ4BitGemmKernel_CompInt8 ones_QuantA nines_QuantBData ones_QuantBScale
         zp37_QuantBZeroPoint unit_bias 32 0 0 0 (Some 0)
         zero_C 10 3 3 64 2 5 (Some 0)) (10 + 2 * 5 + 2)
  = with_bias unit_bias (Some 0) 2
      (Int8Order.element ones_QuantA nines_QuantBData ones_QuantBScale
         zp37_QuantBZeroPoint 32 0 0 0 (Some 0) 2 3 3 2 2)
  /\
  with_bias unit_bias (Some 0) 2
      (Int8Order.element ones_QuantA nines_QuantBData ones_QuantBScale
         zp37_QuantBZeroPoint 32 0 0 0 (Some 0) 2 3 3 2 2)
  = of_Z 257.
Proof.
  split; [| vm_compute; reflexivity].
  exact (SQ4BitGemmKernel_CompInt8_computes_in_lane_order
           ones_QuantA nines_QuantBData ones_QuantBScale zp37_QuantBZeroPoint
           unit_bias 32 0 0 0 (Some 0) zero_C 10 3 3 64 2 5 (Some 0) 2 2
           ones_QuantA_int8 DequantTheorems.nines_bytes DequantTheorems.zp37_bytes
           ltac:(right; reflexivity) ltac:(lia) ltac:(lia) ltac:(lia)).
Defined.

Lemma SQ4BitGemmKernel_CompInt8_long_blocks_in_lane_order_witness :
  fst (SQ4BitGemmKernel_CompInt8 ones_QuantA nines_QuantBData ones_QuantBScale
         zp37_QuantBZeroPoint unit_bias 64 0 0 0 (Some 0)
         zero_C 10 3 3 128 2 5 (Some 0)) (10 + 1 * 5 + 1)
  = with_bias unit_bias (Some 0) 1
      (Int8Order.element ones_QuantA nines_QuantBData ones_QuantBScale
         zp37_QuantBZeroPoint 64 0 0 0 (Some 0) 2 3 3 1 1)
  /\
  with_bias unit_bias (Some 0) 1
      (Int8Order.element ones_QuantA nines_QuantBData ones_QuantBScale
         zp37_QuantBZeroPoint 64 0 0 0 (Some 0) 2 3 3 1 1)
  = of_Z 513.
Proof.
  split; [| vm_compute; reflexivity].
  exact (SQ4BitGemmKernel_CompInt8_long_blocks_in_lane_order
           ones_QuantA nines_QuantBData ones_QuantBScale zp37_QuantBZeroPoint
           unit_bias 64 0 0 0 (Some 0) zero_C 10 3 3 128 2 5 (Some 0) 1 1
           ones_QuantA_int8 DequantTheorems.nines_bytes DequantTheorems.zp37_bytes
           ltac:(lia) ltac:(reflexivity) ltac:(lia) ltac:(lia) ltac:(lia)
           ltac:(right; split; vm_compute; lia)).
Defined.

Lemma SQ4BitGemmKernel_CompInt8_on_packed_source_witness :
  fst (SQ4BitGemmKernel_CompInt8 ones_QuantA
         (Pack.SQ4BitGemmPackQuantBData 3 64 32 Mlas.CompInt8
            nines_QuantBData zp37_QuantBZeroPoint)
         ones_QuantBScale zp37_QuantBZeroPoint unit_bias
         32 0 0 0 (Some 0) zero_C 10 3 3 64 (MlasDivRoundup 64 32) 5 (Some 0))
    (10 + 2 * 5 + 2)
  = with_bias unit_bias (Some 0) 2
      (Int8Order.element_of ones_QuantA ones_QuantBScale zp37_QuantBZeroPoint
         32 0 0 (Some 0) (MlasDivRoundup 64 32)
         (PackedSource.source_code nines_QuantBData 32 (MlasDivRoundup 64 32))
         3 3 2 2)
  /\
  with_bias unit_bias (Some 0) 2
      (Int8Order.element_of ones_QuantA ones_QuantBScale zp37_QuantBZeroPoint
         32 0 0 (Some 0) (MlasDivRoundup 64 32)
         (PackedSource.source_code nines_QuantBData 32 (MlasDivRoundup 64 32))
         3 3 2 2)
  = of_Z 257.
Proof.
  split; [| vm_compute; reflexivity].
  exact (SQ4BitGemmKernel_CompInt8_on_packed_source
           ones_QuantA nines_QuantBData zp37_QuantBZeroPoint
           ones_QuantBScale zp37_QuantBZeroPoint unit_bias
           3 64 32 0 0 (Some 0) zero_C 10 3 3 5 (Some 0) 2 2
           ones_QuantA_int8 DequantTheorems.nines_bytes
           DequantTheorems.zp37_bytes DequantTheorems.zp37_bytes
           ltac:(right; left; reflexivity) ltac:(lia) ltac:(lia) ltac:(lia) ltac:(lia)).
Defined.

End Int8Elements.
